(** * KLog read interface (read_interface.c): a shallow embedding

    The driver exposes three dispatch routines to user space:
    [DispatchDeviceControl] (control operations on a reader),
    [DispatchRead] (the stream emitter) and the helper [SetIdList].
    They are embedded here as functions over an explicit machine state:
    the reader context, a byte-addressed memory made of named regions,
    and a trace of the calls made to the queue manager, the pool
    allocator and the debug printer.

    Integers of the source are [Z]; every [UINT32] result is reduced
    modulo 2^32 where the C expression can wrap.  A byte ([UINT8],
    [char]) is a [Z] in 0..255. *)

From Stdlib Require Import ZArith List Bool Lia Permutation.
Import ListNotations.
Open Scope Z_scope.

(** ** Machine integers and bytes *)

Definition u32 (x : Z) : Z := x mod 2 ^ 32.

Definition add32 (a b : Z) : Z := u32 (a + b).
Definition sub32 (a b : Z) : Z := u32 (a - b).

(** [sizeof(UINT32)], [sizeof(UINT64)]. *)
Definition sizeof_UINT32 : Z := 4.
Definition sizeof_UINT64 : Z := 8.

(** [min(a, b)] of the Windows headers on unsigned operands. *)
Definition min (a b : Z) : Z := if a <? b then a else b.

(** ** Byte buffers *)

(** [len] bytes of [l] starting at byte offset [off].  A copy that would
    run past the end of [l] is cut at the end; the theorems below only
    rely on copies that stay inside their source. *)
Definition slice (l : list Z) (off len : Z) : list Z :=
  firstn (Z.to_nat len) (skipn (Z.to_nat off) l).

(** Overwrite [dst] with [bs] starting at byte offset [off]. *)
Definition write_bytes (dst : list Z) (off : Z) (bs : list Z) : list Z :=
  firstn (Z.to_nat off) dst ++ bs
    ++ skipn (Z.to_nat off + length bs) dst.

Definition zeros (n : Z) : list Z := repeat 0 (Z.to_nat n).

(** Little-endian encoding of a [UINT32] / [UINT64] (x86 and x64 are
    little-endian). *)
Definition bytes_of_u32 (v : Z) : list Z :=
  [v mod 256; (v / 256) mod 256; (v / 65536) mod 256; (v / 16777216) mod 256].

Fixpoint le_decode (bs : list Z) : Z :=
  match bs with
  | [] => 0
  | b :: rest => b + 256 * le_decode rest
  end.

(** [*(UINT32* )(p + off)] and [*(UINT64* )(p + off)]. *)
Definition load_u32 (l : list Z) (off : Z) : Z := le_decode (slice l off 4).
Definition load_u64 (l : list Z) (off : Z) : Z := le_decode (slice l off 8).

(** [*(UINT32* )(p + off) = v]. *)
Definition store_u32 (l : list Z) (off : Z) (v : Z) : list Z :=
  write_bytes l off (bytes_of_u32 v).

(** ** Memory

    The byte-addressed objects the routines touch.  [SystemBuffer] is
    the buffer of the current request ([irp->AssociatedIrp.SystemBuffer]);
    [ModifiedHeader] and [ModifiedFooter] are the two scratch structures
    inside the reader context; [BlockStorage a] is the storage a block
    node's [Buffer] or [Data] pointer designates. *)

Inductive region : Type :=
| SystemBuffer
| ModifiedHeader
| ModifiedFooter
| BlockStorage (a : nat).

Definition region_eqb (r1 r2 : region) : bool :=
  match r1, r2 with
  | SystemBuffer, SystemBuffer => true
  | ModifiedHeader, ModifiedHeader => true
  | ModifiedFooter, ModifiedFooter => true
  | BlockStorage a, BlockStorage b => Nat.eqb a b
  | _, _ => false
  end.

Definition memory : Type := region -> list Z.

Definition mem_set (m : memory) (r : region) (v : list Z) : memory :=
  fun r' => if region_eqb r r' then v else m r'.

(** [RtlCopyMemory(dst + doff, src + soff, len)]. *)
Definition RtlCopyMemory (m : memory) (dst : region) (doff : Z)
    (src : region) (soff : Z) (len : Z) : memory :=
  mem_set m dst (write_bytes (m dst) doff (slice (m src) soff len)).

(** [RtlZeroMemory(dst + doff, len)]. *)
Definition RtlZeroMemory (m : memory) (dst : region) (doff : Z) (len : Z)
    : memory :=
  mem_set m dst (write_bytes (m dst) doff (zeros len)).

(** A [UINT32] field store into a structure held in region [dst]. *)
Definition store_field (m : memory) (dst : region) (off : Z) (v : Z)
    : memory :=
  mem_set m dst (store_u32 (m dst) off v).

(** ** Status codes *)

Inductive NTSTATUS : Type :=
| STATUS_SUCCESS
| STATUS_INVALID_PARAMETER
| STATUS_INVALID_DEVICE_REQUEST
| STATUS_BUFFER_TOO_SMALL
| STATUS_INSUFFICIENT_RESOURCES
| STATUS_OTHER (code : Z).

Definition NT_SUCCESS (s : NTSTATUS) : bool :=
  match s with STATUS_SUCCESS => true | _ => false end.

(** ** Capture blocks *)

Inductive BLOCK_TYPE : Type :=
| PacketBlock
| OtherBlock.

(** The fields of [BLOCK_NODE] the read path looks at.  [Buffer] is the
    optional out-of-line buffer pointer, [Data] the storage inside the
    node; both name a [BlockStorage] region. *)
Record BLOCK_NODE : Type := {
  BlockType : BLOCK_TYPE;
  BlockLength : Z;
  ProcessId : Z;
  ConnectionId : Z;
  Buffer : option nat;
  Data : nat
}.

(** [blockNode->Buffer ? blockNode->Buffer : blockNode->Data]. *)
Definition blockData (b : BLOCK_NODE) : region :=
  match Buffer b with
  | Some a => BlockStorage a
  | None => BlockStorage (Data b)
  end.

(** ** Reader context *)

Inductive RESTART_STATE : Type :=
| RestartStateInit
| RestartStateNormal
| RestartStateSendEof.

Inductive ID_LIST_TYPE : Type :=
| ConnectionIdList
| ProcessIdList.

(** [READER_CONTEXT].  [Reader] stands for the queue manager's record of
    this reader: the blocks waiting for it, in dequeue order.  A filter
    array is [None] (a null pointer) or the allocated array itself, whose
    element 0 is the number of ids that follow. *)
Record READER_CONTEXT : Type := {
  Reader : list BLOCK_NODE;
  SnapLength : Z;
  SnapLengthPad : Z;
  RestartState : RESTART_STATE;
  RestartRequested : Z;
  CurrentBlock : option BLOCK_NODE;
  CurrentBlockOffset : Z;
  FilteredConnectionIds : option (list Z);
  FilteredProcessIds : option (list Z);
  DataEndOffset : Z;
  ModifiedFooterOffset : Z;
  OriginalFooterOffset : Z
}.

(** ** Trace of external calls *)

Inductive event : Type :=
| EvQmGetInitialBlocks
| EvQmDequeueBlock (b : option BLOCK_NODE)
| EvQmCleanupBlock (b : BLOCK_NODE)
| EvQmSetReaderSnapLength (snapLength : Z)
| EvQmSetReaderDataEvent (handle : Z)
| EvQmSetOpenConnections
| EvQmGetStatistics
| EvExAllocatePoolWithTag (size : Z) (succeeded : bool)
| EvInterlockedExchangePointer (target : ID_LIST_TYPE) (ids : option (list Z))
| EvExFreePool (ids : list Z)
| EvCheckProcessFilter (index : Z)
| EvCheckConnectionFilter (index : Z).

(** ** Requests and machine state *)

(** What a dispatch routine reads from the IRP and its stack location.
    [HasSystemBuffer] is [irp->AssociatedIrp.SystemBuffer != NULL]; the
    buffer's bytes are the [SystemBuffer] region of the memory. *)
Record IRP : Type := {
  HasSystemBuffer : bool;
  ReadLength : Z;
  InputBufferLength : Z;
  OutputBufferLength : Z;
  IoControlCode : Z
}.

(** [FsContext2] is the file object's context pointer ([None] is NULL).
    [PoolAvailable] is the answer the pool allocator gives to the next
    allocation request. *)
Record machine : Type := {
  FsContext2 : option READER_CONTEXT;
  Mem : memory;
  Trace : list event;
  PoolAvailable : bool
}.

(** The IRP as completed by [CompleteIrp]: [IoStatus.Status] and
    [IoStatus.Information]. *)
Record completion : Type := {
  Status : NTSTATUS;
  Information : Z
}.

Definition CompleteIrp (status : NTSTATUS) (information : Z) : completion :=
  {| Status := status; Information := information |}.

(** A routine either completes the request or performs an access C leaves
    undefined, which the embedding records instead of guessing a value. *)
Inductive fault : Type :=
| NullPointerAccess
| OutOfBoundsRead.

Inductive outcome (A : Type) : Type :=
| Done (a : A)
| Faulted (f : fault).

Arguments Done {A} a.
Arguments Faulted {A} f.

Definition bind {A B : Type} (x : outcome A) (f : A -> outcome B)
    : outcome B :=
  match x with
  | Done a => f a
  | Faulted e => Faulted e
  end.

Notation "x <- c1 ;; c2" := (bind c1 (fun x => c2))
  (at level 61, c1 at next level, right associativity).
Notation "' pat <- c1 ;; c2" :=
  (bind c1 (fun x => match x with pat => c2 end))
  (at level 61, pat pattern, c1 at next level, right associativity).

(** ** Field updates of the reader context *)

Definition set_Reader (q : list BLOCK_NODE) (c : READER_CONTEXT) :=
  {| Reader := q; SnapLength := SnapLength c;
     SnapLengthPad := SnapLengthPad c; RestartState := RestartState c;
     RestartRequested := RestartRequested c; CurrentBlock := CurrentBlock c;
     CurrentBlockOffset := CurrentBlockOffset c;
     FilteredConnectionIds := FilteredConnectionIds c;
     FilteredProcessIds := FilteredProcessIds c;
     DataEndOffset := DataEndOffset c;
     ModifiedFooterOffset := ModifiedFooterOffset c;
     OriginalFooterOffset := OriginalFooterOffset c |}.

Definition set_SnapLength (v pad : Z) (c : READER_CONTEXT) :=
  {| Reader := Reader c; SnapLength := v;
     SnapLengthPad := pad; RestartState := RestartState c;
     RestartRequested := RestartRequested c; CurrentBlock := CurrentBlock c;
     CurrentBlockOffset := CurrentBlockOffset c;
     FilteredConnectionIds := FilteredConnectionIds c;
     FilteredProcessIds := FilteredProcessIds c;
     DataEndOffset := DataEndOffset c;
     ModifiedFooterOffset := ModifiedFooterOffset c;
     OriginalFooterOffset := OriginalFooterOffset c |}.

Definition set_RestartState (v : RESTART_STATE) (c : READER_CONTEXT) :=
  {| Reader := Reader c; SnapLength := SnapLength c;
     SnapLengthPad := SnapLengthPad c; RestartState := v;
     RestartRequested := RestartRequested c; CurrentBlock := CurrentBlock c;
     CurrentBlockOffset := CurrentBlockOffset c;
     FilteredConnectionIds := FilteredConnectionIds c;
     FilteredProcessIds := FilteredProcessIds c;
     DataEndOffset := DataEndOffset c;
     ModifiedFooterOffset := ModifiedFooterOffset c;
     OriginalFooterOffset := OriginalFooterOffset c |}.

Definition set_RestartRequested (v : Z) (c : READER_CONTEXT) :=
  {| Reader := Reader c; SnapLength := SnapLength c;
     SnapLengthPad := SnapLengthPad c; RestartState := RestartState c;
     RestartRequested := v; CurrentBlock := CurrentBlock c;
     CurrentBlockOffset := CurrentBlockOffset c;
     FilteredConnectionIds := FilteredConnectionIds c;
     FilteredProcessIds := FilteredProcessIds c;
     DataEndOffset := DataEndOffset c;
     ModifiedFooterOffset := ModifiedFooterOffset c;
     OriginalFooterOffset := OriginalFooterOffset c |}.

Definition set_CurrentBlock (b : option BLOCK_NODE) (off : Z)
    (c : READER_CONTEXT) :=
  {| Reader := Reader c; SnapLength := SnapLength c;
     SnapLengthPad := SnapLengthPad c; RestartState := RestartState c;
     RestartRequested := RestartRequested c; CurrentBlock := b;
     CurrentBlockOffset := off;
     FilteredConnectionIds := FilteredConnectionIds c;
     FilteredProcessIds := FilteredProcessIds c;
     DataEndOffset := DataEndOffset c;
     ModifiedFooterOffset := ModifiedFooterOffset c;
     OriginalFooterOffset := OriginalFooterOffset c |}.

Definition set_FilteredConnectionIds (v : option (list Z))
    (c : READER_CONTEXT) :=
  {| Reader := Reader c; SnapLength := SnapLength c;
     SnapLengthPad := SnapLengthPad c; RestartState := RestartState c;
     RestartRequested := RestartRequested c; CurrentBlock := CurrentBlock c;
     CurrentBlockOffset := CurrentBlockOffset c;
     FilteredConnectionIds := v;
     FilteredProcessIds := FilteredProcessIds c;
     DataEndOffset := DataEndOffset c;
     ModifiedFooterOffset := ModifiedFooterOffset c;
     OriginalFooterOffset := OriginalFooterOffset c |}.

Definition set_FilteredProcessIds (v : option (list Z))
    (c : READER_CONTEXT) :=
  {| Reader := Reader c; SnapLength := SnapLength c;
     SnapLengthPad := SnapLengthPad c; RestartState := RestartState c;
     RestartRequested := RestartRequested c; CurrentBlock := CurrentBlock c;
     CurrentBlockOffset := CurrentBlockOffset c;
     FilteredConnectionIds := FilteredConnectionIds c;
     FilteredProcessIds := v;
     DataEndOffset := DataEndOffset c;
     ModifiedFooterOffset := ModifiedFooterOffset c;
     OriginalFooterOffset := OriginalFooterOffset c |}.

Definition set_overlay (dataEnd modFooter origFooter : Z)
    (c : READER_CONTEXT) :=
  {| Reader := Reader c; SnapLength := SnapLength c;
     SnapLengthPad := SnapLengthPad c; RestartState := RestartState c;
     RestartRequested := RestartRequested c; CurrentBlock := CurrentBlock c;
     CurrentBlockOffset := CurrentBlockOffset c;
     FilteredConnectionIds := FilteredConnectionIds c;
     FilteredProcessIds := FilteredProcessIds c;
     DataEndOffset := dataEnd;
     ModifiedFooterOffset := modFooter;
     OriginalFooterOffset := origFooter |}.

(** ** Declarations the source takes from its headers

    [read_interface_priv.h] and the headers it includes are not part of
    the sources at hand.  What [read_interface.c] uses of them is
    gathered here and every definition below is parametrised by it:
    the nine control codes, [sizeof(STATISTICS)], whether [_X86_] is
    defined, the layout of the PCAP-NG packet header and footer
    structures and the macro [PCAP_NG_PADDING]. *)
Record Declarations : Type := {
  IOCTL_KPH_MARK_RESTART : Z;
  IOCTL_KPH_FILTER_CONNECTIONS : Z;
  IOCTL_KPH_FILTER_PROCESSES : Z;
  IOCTL_KPH_SET_SNAP_LENGTH : Z;
  IOCTL_KPH_GET_SNAP_LENGTH : Z;
  IOCTL_KPH_SET_DATA_EVENT_32 : Z;
  IOCTL_KPH_SET_DATA_EVENT_64 : Z;
  IOCTL_KPH_SET_OPEN_CONNECTIONS : Z;
  IOCTL_KPH_GET_STATISTICS : Z;
  sizeof_STATISTICS : Z;
  X86 : bool;
  sizeof_PCAP_NG_PACKET_HEADER : Z;
  sizeof_PCAP_NG_PACKET_FOOTER : Z;
  offsetof_HEADER_BlockType : Z;
  offsetof_HEADER_BlockLength : Z;
  offsetof_HEADER_CapturedLength : Z;
  offsetof_FOOTER_BlockLength : Z;
  PCAP_NG_PADDING : Z -> Z
}.

(** The queue manager is a separate module of the driver.  Its functions
    that return something this file depends on are parameters:
    [QmGetInitialBlocks] as the effect it has on the reader's queue,
    [QmSetReaderDataEvent] as the status it returns for a handle, and
    [QmGetStatistics] as the bytes it stores through its first argument.
    The other calls are recorded in the trace. *)
Record QueueManager : Type := {
  QmGetInitialBlocks : list BLOCK_NODE -> list BLOCK_NODE;
  QmSetReaderDataEvent : Z -> NTSTATUS;
  QmGetStatistics : list BLOCK_NODE -> list Z
}.

(** ** The control-code table (lines 31-41) *)

Record IOCTL_PARAMS : Type := {
  InputLength : Z;
  OutputLength : Z;
  InputLength64 : Z;
  OutputLength64 : Z
}.

Definition ioctl_params (i o i64 o64 : Z) : IOCTL_PARAMS :=
  {| InputLength := i; OutputLength := o;
     InputLength64 := i64; OutputLength64 := o64 |}.

Definition gIoctlParams (D : Declarations) : list IOCTL_PARAMS :=
  [ ioctl_params 0 0 0 0;                                     (* IoctlRestart *)
    ioctl_params 0 0 0 0;                                     (* IoctlFilterConnections *)
    ioctl_params 0 0 0 0;                                     (* IoctlFilterProcesses *)
    ioctl_params sizeof_UINT32 0 sizeof_UINT32 0;             (* IoctlSetSnapLength *)
    ioctl_params 0 sizeof_UINT32 0 sizeof_UINT32;             (* IoctlGetSnapLength *)
    ioctl_params sizeof_UINT32 0 sizeof_UINT64 0;             (* IoctlSetDataEvent *)
    ioctl_params sizeof_UINT32 0 sizeof_UINT32 0;             (* IoctlOpenConnections *)
    ioctl_params 0 (sizeof_STATISTICS D) 0 (sizeof_STATISTICS D) (* IoctlGetStatistics *)
  ].

(** [ARRAY_SIZEOF(gIoctlParams)]. *)
Definition ARRAY_SIZEOF {A : Type} (t : list A) : Z := Z.of_nat (length t).

(** ** SetIdList (lines 481-518) *)

(** The array the loop of lines 504-511 fills: the count, then the ids
    read from the request buffer. *)
Definition build_ids (numIds : Z) (buffer : list Z) : list Z :=
  numIds :: map (fun index => load_u32 buffer (Z.of_nat index * sizeof_UINT32))
                (seq 0 (Z.to_nat numIds)).

Definition id_list_target (idListType : ID_LIST_TYPE) (c : READER_CONTEXT)
    : option (list Z) :=
  match idListType with
  | ConnectionIdList => FilteredConnectionIds c
  | ProcessIdList => FilteredProcessIds c
  end.

Definition set_id_list_target (idListType : ID_LIST_TYPE)
    (ids : option (list Z)) (c : READER_CONTEXT) : READER_CONTEXT :=
  match idListType with
  | ConnectionIdList => set_FilteredConnectionIds ids c
  | ProcessIdList => set_FilteredProcessIds ids c
  end.

(** [buffer] is [None] for a null request buffer.  [pool] tells whether
    [ExAllocatePoolWithTag] returns memory.  The source stores
    [ids[0] = numIds] without testing the pointer it got. *)
Definition SetIdList (context : READER_CONTEXT) (idListType : ID_LIST_TYPE)
    (buffer : option (list Z)) (bufferLen : Z) (pool : bool)
    (tr : list event) : outcome (READER_CONTEXT * list event) :=
  let numIds := bufferLen / sizeof_UINT32 in
  '(ids, tr1) <-
    (if negb (numIds =? 0) then
       let tr1 :=
         tr ++ [EvExAllocatePoolWithTag ((numIds + 1) * sizeof_UINT32) pool] in
       if pool then
         match buffer with
         | Some newIds => Done (Some (build_ids numIds newIds), tr1)
         | None => Faulted NullPointerAccess
         end
       else Faulted NullPointerAccess
     else Done (None, tr));;
  let currentIds := id_list_target idListType context in
  let context' := set_id_list_target idListType ids context in
  let tr2 := tr1 ++ [EvInterlockedExchangePointer idListType ids] in
  match currentIds with
  | Some old => Done (context', tr2 ++ [EvExFreePool old])
  | None => Done (context', tr2)
  end.

(** ** DispatchDeviceControl (lines 148-260) *)

Definition ioctl_function (ioctl : Z) : Z :=
  Z.shiftr (Z.land ioctl 0x0ffc) 2.

Definition ioctl_is64Bit (ioctl : Z) : bool :=
  negb (Z.land ioctl 0x1000 =? 0).

Definition with_context (s : machine) (c : READER_CONTEXT) : machine :=
  {| FsContext2 := Some c; Mem := Mem s; Trace := Trace s;
     PoolAvailable := PoolAvailable s |}.

Definition with_trace (s : machine) (tr : list event) : machine :=
  {| FsContext2 := FsContext2 s; Mem := Mem s; Trace := tr;
     PoolAvailable := PoolAvailable s |}.

Definition with_mem (s : machine) (m : memory) : machine :=
  {| FsContext2 := FsContext2 s; Mem := m; Trace := Trace s;
     PoolAvailable := PoolAvailable s |}.

Definition log (e : event) (s : machine) : machine :=
  with_trace s (Trace s ++ [e]).

(** Reading through the request buffer pointer. *)
Definition request_buffer (irp : IRP) (s : machine) : option (list Z) :=
  if HasSystemBuffer irp then Some (Mem s SystemBuffer) else None.

Definition deref_buffer (irp : IRP) (s : machine) : outcome (list Z) :=
  match request_buffer irp s with
  | Some bytes => Done bytes
  | None => Faulted NullPointerAccess
  end.

Section Dispatch.

Variable D : Declarations.
Variable Q : QueueManager.

(** The [switch] of lines 193-257, entered once the length checks have
    passed.  Returns the status, the byte count and the new state. *)
Definition ioctl_switch (irp : IRP) (context : READER_CONTEXT) (s : machine)
    (outBufLenReq : Z) : outcome (completion * machine) :=
  let ioctl := IoControlCode irp in
  let inBufLen := InputBufferLength irp in
  if ioctl =? IOCTL_KPH_FILTER_CONNECTIONS D then
    '(c, tr) <- SetIdList context ConnectionIdList (request_buffer irp s)
                     inBufLen (PoolAvailable s) (Trace s);;
    Done (CompleteIrp STATUS_SUCCESS 0, with_trace (with_context s c) tr)
  else if ioctl =? IOCTL_KPH_FILTER_PROCESSES D then
    '(c, tr) <- SetIdList context ProcessIdList (request_buffer irp s)
                     inBufLen (PoolAvailable s) (Trace s);;
    Done (CompleteIrp STATUS_SUCCESS 0, with_trace (with_context s c) tr)
  else if ioctl =? IOCTL_KPH_MARK_RESTART D then
    Done (CompleteIrp STATUS_SUCCESS 0,
          with_context s (set_RestartRequested 1 context))
  else if ioctl =? IOCTL_KPH_SET_SNAP_LENGTH D then
    buffer <- deref_buffer irp s;;
    let snapLength := load_u32 buffer 0 in
    if negb (SnapLength context =? snapLength) then
      let c := set_SnapLength snapLength
                 (sub32 (PCAP_NG_PADDING D snapLength) snapLength) context in
      Done (CompleteIrp STATUS_SUCCESS 0,
            log (EvQmSetReaderSnapLength snapLength) (with_context s c))
    else Done (CompleteIrp STATUS_SUCCESS 0, s)
  else if ioctl =? IOCTL_KPH_GET_SNAP_LENGTH D then
    _ <- deref_buffer irp s;;
    Done (CompleteIrp STATUS_SUCCESS outBufLenReq,
          with_mem s (store_field (Mem s) SystemBuffer 0 (SnapLength context)))
  else if ioctl =? IOCTL_KPH_SET_DATA_EVENT_32 D then
    buffer <- deref_buffer irp s;;
    let eventHandle := load_u32 buffer 0 in
    Done (CompleteIrp (QmSetReaderDataEvent Q eventHandle) 0,
          log (EvQmSetReaderDataEvent eventHandle) s)
  else if ioctl =? IOCTL_KPH_SET_DATA_EVENT_64 D then
    if X86 D then Done (CompleteIrp STATUS_INVALID_DEVICE_REQUEST 0, s)
    else
      buffer <- deref_buffer irp s;;
      let eventHandle := load_u64 buffer 0 in
      Done (CompleteIrp (QmSetReaderDataEvent Q eventHandle) 0,
            log (EvQmSetReaderDataEvent eventHandle) s)
  else if ioctl =? IOCTL_KPH_SET_OPEN_CONNECTIONS D then
    Done (CompleteIrp STATUS_SUCCESS 0, log EvQmSetOpenConnections s)
  else if ioctl =? IOCTL_KPH_GET_STATISTICS D then
    buffer <- deref_buffer irp s;;
    Done (CompleteIrp STATUS_SUCCESS outBufLenReq,
          log EvQmGetStatistics
            (with_mem s (mem_set (Mem s) SystemBuffer
               (write_bytes buffer 0 (QmGetStatistics Q (Reader context))))))
  else Done (CompleteIrp STATUS_INVALID_DEVICE_REQUEST 0, s).

Definition DispatchDeviceControl (irp : IRP) (s : machine)
    : outcome (completion * machine) :=
  let buffer := HasSystemBuffer irp in
  let inBufLen := InputBufferLength irp in
  let outBufLen := OutputBufferLength irp in
  let ioctl := IoControlCode irp in
  let function := ioctl_function ioctl in
  let is64Bit := ioctl_is64Bit ioctl in
  match FsContext2 s with
  | None => Done (CompleteIrp STATUS_INVALID_PARAMETER 0, s)
  | Some context =>
    (* Check buffer sizes *)
    if function >? ARRAY_SIZEOF (gIoctlParams D) then
      Done (CompleteIrp STATUS_INVALID_DEVICE_REQUEST 0, s)
    else
      match nth_error (gIoctlParams D) (Z.to_nat function) with
      | None => Faulted OutOfBoundsRead
      | Some params =>
        let inBufLenReq :=
          if is64Bit then InputLength64 params else InputLength params in
        let outBufLenReq :=
          if is64Bit then OutputLength64 params else OutputLength params in
        if (inBufLen <? inBufLenReq) || (outBufLen <? outBufLenReq) then
          Done (CompleteIrp STATUS_BUFFER_TOO_SMALL 0, s)
        else if (negb (inBufLenReq =? 0) || negb (outBufLenReq =? 0))
                && negb buffer then
          Done (CompleteIrp STATUS_INVALID_PARAMETER 0, s)
        else ioctl_switch irp context s outBufLenReq
      end
  end.

End Dispatch.

(** ** DispatchRead (lines 263-461) *)

(** The local variables of [DispatchRead] that live across iterations of
    its [while] loop, with the parts of the machine the loop updates. *)
Record loop_state : Type := {
  context : READER_CONTEXT;
  mem : memory;
  trace : list event;
  blockNode : option BLOCK_NODE;
  blockOffset : Z;
  readOffset : Z
}.

Inductive loop_exit : Type :=
| Continue (s : loop_state)
| Break (s : loop_state).

(** One of the two filter loops (lines 331-340 and 343-352): [index] runs
    from 1 to [ids[0]]; every comparison is announced by a debug print.
    [n] counts the iterations left. *)
Fixpoint scan_filter (ids : list Z) (id : Z) (announce : Z -> event)
    (index : Z) (n : nat) (tr : list event) : bool * list event :=
  match n with
  | O => (false, tr)
  | S n' =>
    let tr' := tr ++ [announce index] in
    if nth (Z.to_nat index) ids 0 =? id then (true, tr')
    else scan_filter ids id announce (index + 1) n' tr'
  end.

Definition check_filter (filter : option (list Z)) (id : Z)
    (announce : Z -> event) (tr : list event) : bool * list event :=
  match filter with
  | None => (false, tr)
  | Some ids => scan_filter ids id announce 1 (Z.to_nat (nth 0 ids 0)) tr
  end.

(** Lines 329-353: the process filter, then, when it did not match, the
    connection filter. *)
Definition filter_block (c : READER_CONTEXT) (b : BLOCK_NODE)
    (tr : list event) : bool * list event :=
  let '(filter, tr1) :=
    check_filter (FilteredProcessIds c) (ProcessId b) EvCheckProcessFilter tr in
  if negb filter then
    check_filter (FilteredConnectionIds c) (ConnectionId b)
      EvCheckConnectionFilter tr1
  else (filter, tr1).

Section ReadPath.

Variable D : Declarations.
Variable Q : QueueManager.

Abbreviation hs := (sizeof_PCAP_NG_PACKET_HEADER D).
Abbreviation fs := (sizeof_PCAP_NG_PACKET_FOOTER D).

(** [context->ModifiedHeader.BlockType]. *)
Definition trimming (m : memory) : bool :=
  negb (load_u32 (m ModifiedHeader) (offsetof_HEADER_BlockType D) =? 0).

(** Lines 362-375: trim a packet block to the snap length. *)
Definition trim_block (c : READER_CONTEXT) (m : memory) (b : BLOCK_NODE)
    : READER_CONTEXT * memory :=
  let blockData := blockData b in
  let header := m blockData in
  if negb (SnapLength c =? 0)
     && (load_u32 header (offsetof_HEADER_CapturedLength D) >? SnapLength c)
  then
    let dataEndOffset := add32 hs (SnapLength c) in
    let modifiedFooterOffset := add32 dataEndOffset (SnapLengthPad c) in
    let originalFooterOffset :=
      sub32 (load_u32 header (offsetof_HEADER_BlockLength D)) fs in
    let c1 := set_overlay dataEndOffset modifiedFooterOffset
                originalFooterOffset c in
    let m1 := RtlCopyMemory m ModifiedHeader 0 blockData 0 hs in
    let m2 := RtlCopyMemory m1 ModifiedFooter 0 blockData originalFooterOffset
                fs in
    let m3 := store_field m2 ModifiedHeader (offsetof_HEADER_BlockLength D)
                (add32 modifiedFooterOffset fs) in
    let m4 := store_field m3 ModifiedHeader (offsetof_HEADER_CapturedLength D)
                (SnapLength c) in
    let m5 := store_field m4 ModifiedFooter (offsetof_FOOTER_BlockLength D)
                (load_u32 (m4 ModifiedHeader) (offsetof_HEADER_BlockLength D)) in
    (c1, m5)
  else (c, m).

(** The memory and the two cursors while one block is being copied. *)
Record cursor : Type := {
  cmem : memory;
  ro : Z;  (* readOffset *)
  bo : Z   (* blockOffset *)
}.

Definition advance (k : cursor) (m : memory) (bytesToCopy : Z) : cursor :=
  {| cmem := m; ro := add32 (ro k) bytesToCopy;
     bo := add32 (bo k) bytesToCopy |}.

(** Lines 384-393: copy fixed-up packet header. *)
Definition copy_header (readLength : Z) (k : cursor) : cursor :=
  if bo k <? hs then
    let bytesToCopy := u32 (min (sub32 readLength (ro k)) (hs - bo k)) in
    advance k
      (RtlCopyMemory (cmem k) SystemBuffer (ro k) ModifiedHeader (bo k)
         bytesToCopy)
      bytesToCopy
  else k.

(** Lines 396-408: copy truncated packet data. *)
Definition copy_data (c : READER_CONTEXT) (b : BLOCK_NODE) (readLength : Z)
    (k : cursor) : cursor :=
  if (hs <=? bo k) && (bo k <? DataEndOffset c) && (ro k <? readLength) then
    let bytesToCopy :=
      min (sub32 readLength (ro k)) (sub32 (DataEndOffset c) (bo k)) in
    advance k
      (RtlCopyMemory (cmem k) SystemBuffer (ro k) (blockData b) (bo k)
         bytesToCopy)
      bytesToCopy
  else k.

(** Lines 411-426: pad truncated packet data, then skip the rest of the
    packet data. *)
Definition copy_padding (c : READER_CONTEXT) (readLength : Z) (k : cursor)
    : cursor :=
  if (DataEndOffset c <=? bo k) && (bo k <? OriginalFooterOffset c)
     && (ro k <? readLength) then
    let bytesToCopy :=
      min (sub32 readLength (ro k)) (sub32 (ModifiedFooterOffset c) (bo k)) in
    let k1 :=
      advance k (RtlZeroMemory (cmem k) SystemBuffer (ro k) bytesToCopy)
        bytesToCopy in
    if ModifiedFooterOffset c <=? bo k1 then
      {| cmem := cmem k1; ro := ro k1; bo := OriginalFooterOffset c |}
    else k1
  else k.

(** Lines 429-440: copy fixed-up packet footer. *)
Definition copy_footer (c : READER_CONTEXT) (blockLength : Z)
    (readLength : Z) (k : cursor) : cursor :=
  if (OriginalFooterOffset c <=? bo k) && (ro k <? readLength) then
    let bytesToCopy :=
      min (sub32 readLength (ro k)) (sub32 blockLength (bo k)) in
    advance k
      (RtlCopyMemory (cmem k) SystemBuffer (ro k) ModifiedFooter
         (sub32 (bo k) (OriginalFooterOffset c)) bytesToCopy)
      bytesToCopy
  else k.

(** Lines 442-448: a block that is not trimmed. *)
Definition copy_verbatim (b : BLOCK_NODE) (blockLength : Z) (readLength : Z)
    (k : cursor) : cursor :=
  let bytesToCopy :=
    min (sub32 readLength (ro k)) (sub32 blockLength (bo k)) in
  advance k
    (RtlCopyMemory (cmem k) SystemBuffer (ro k) (blockData b) (bo k)
       bytesToCopy)
    bytesToCopy.

(** Lines 379-449. *)
Definition copy_block (c : READER_CONTEXT) (b : BLOCK_NODE) (readLength : Z)
    (k : cursor) : cursor :=
  let blockLength := BlockLength b in
  if trimming (cmem k) then
    copy_footer c blockLength readLength
      (copy_padding c readLength
         (copy_data c b readLength
            (copy_header readLength k)))
  else copy_verbatim b blockLength readLength k.

(** Lines 379-455: copy from the block held in [blockNode], then release
    it when its end is reached. *)
Definition serve_block (readLength : Z) (b : BLOCK_NODE) (s : loop_state)
    : loop_state :=
  let k := copy_block (context s) b readLength
             {| cmem := mem s; ro := readOffset s; bo := blockOffset s |} in
  if BlockLength b <=? bo k then
    {| context := context s; mem := cmem k;
       trace := trace s ++ [EvQmCleanupBlock b];
       blockNode := None; blockOffset := 0; readOffset := ro k |}
  else
    {| context := context s; mem := cmem k; trace := trace s;
       blockNode := Some b; blockOffset := bo k; readOffset := ro k |}.

(** Lines 310-377: no block is held. *)
Definition next_block (readLength : Z) (s : loop_state) : loop_exit :=
  let c := context s in
  (* InterlockedCompareExchange(&context->RestartRequested, 0, 1) == 1 *)
  if RestartRequested c =? 1 then
    let c1 := set_RestartRequested 0 c in
    let c2 :=
      set_RestartState
        (if negb (readOffset s =? 0) then RestartStateSendEof
         else RestartStateInit) c1 in
    Break {| context := c2; mem := mem s; trace := trace s;
             blockNode := None; blockOffset := blockOffset s;
             readOffset := readOffset s |}
  else
    (* QmDequeueBlock(&context->Reader) *)
    match Reader c with
    | [] =>
      Break {| context := c; mem := mem s;
               trace := trace s ++ [EvQmDequeueBlock None];
               blockNode := None; blockOffset := 0;
               readOffset := readOffset s |}
    | b :: rest =>
      let c1 := set_Reader rest c in
      let tr1 := trace s ++ [EvQmDequeueBlock (Some b)] in
      let m1 := store_field (mem s) ModifiedHeader
                  (offsetof_HEADER_BlockType D) 0 in
      match BlockType b with
      | PacketBlock =>
        let '(filter, tr2) := filter_block c1 b tr1 in
        if filter then
          Continue {| context := c1; mem := m1;
                      trace := tr2 ++ [EvQmCleanupBlock b];
                      blockNode := None; blockOffset := 0;
                      readOffset := readOffset s |}
        else
          let '(c2, m2) := trim_block c1 m1 b in
          Continue
            (serve_block readLength b
               {| context := c2; mem := m2; trace := tr2;
                  blockNode := Some b; blockOffset := 0;
                  readOffset := readOffset s |})
      | OtherBlock =>
        Continue
          (serve_block readLength b
             {| context := c1; mem := m1; trace := tr1;
                blockNode := Some b; blockOffset := 0;
                readOffset := readOffset s |})
      end
    end.

(** The body of the [while] loop (lines 306-455). *)
Definition loop_body (readLength : Z) (s : loop_state) : loop_exit :=
  match blockNode s with
  | None => next_block readLength s
  | Some b => Continue (serve_block readLength b s)
  end.

(** [while (readOffset < readLength) ...], run for at most [fuel]
    iterations; [None] when the fuel does not suffice. *)
Fixpoint read_loop (fuel : nat) (readLength : Z) (s : loop_state)
    : option loop_state :=
  if readOffset s <? readLength then
    match fuel with
    | O => None
    | S fuel' =>
      match loop_body readLength s with
      | Break s' => Some s'
      | Continue s' => read_loop fuel' readLength s'
      end
    end
  else Some s.

(** Lines 287-300: the [switch] on the restart state.  [inl] is the early
    return, [inr] the context the routine goes on with and its trace. *)
Definition check_restart_state (c : READER_CONTEXT) (tr : list event)
    : (completion * READER_CONTEXT) + (READER_CONTEXT * list event) :=
  match RestartState c with
  | RestartStateSendEof =>
    inl (CompleteIrp STATUS_SUCCESS 0, set_RestartState RestartStateInit c)
  | RestartStateInit =>
    inr (set_RestartState RestartStateNormal
           (set_Reader (QmGetInitialBlocks Q (Reader c)) c),
         tr ++ [EvQmGetInitialBlocks])
  | RestartStateNormal => inr (c, tr)
  end.

Definition DispatchRead (fuel : nat) (irp : IRP) (s : machine)
    : option (completion * machine) :=
  (* Verify the buffer and open instance aren't NULL *)
  if negb (HasSystemBuffer irp) then
    Some (CompleteIrp STATUS_INVALID_PARAMETER 0, s)
  else
    match FsContext2 s with
    | None => Some (CompleteIrp STATUS_INVALID_PARAMETER 0, s)
    | Some c0 =>
      match check_restart_state c0 (Trace s) with
      | inl (done, c) => Some (done, with_context s c)
      | inr (c, tr) =>
        let readLength := ReadLength irp in
        match read_loop fuel readLength
                {| context := c; mem := Mem s; trace := tr;
                   blockNode := CurrentBlock c;
                   blockOffset := CurrentBlockOffset c;
                   readOffset := 0 |} with
        | None => None
        | Some s' =>
          Some (CompleteIrp STATUS_SUCCESS (readOffset s'),
                {| FsContext2 :=
                     Some (set_CurrentBlock (blockNode s') (blockOffset s')
                             (context s'));
                   Mem := mem s'; Trace := trace s';
                   PoolAvailable := PoolAvailable s |})
        end
      end
    end.

End ReadPath.

(** ** Requests served one after the other

    Requests on one handle are serialised by the caller.  Each request
    arrives with its own system buffer, whose bytes are put in the
    [SystemBuffer] region before the routine runs.  Between two requests
    the queue manager may append blocks to the reader's queue. *)

Inductive request : Type :=
| ReadRequest (irp : IRP) (buffer : list Z)
| ControlRequest (irp : IRP) (buffer : list Z).

Definition with_buffer (s : machine) (buffer : list Z) : machine :=
  with_mem s (mem_set (Mem s) SystemBuffer buffer).

Definition enqueue (blocks : list BLOCK_NODE) (s : machine) : machine :=
  match FsContext2 s with
  | Some c => with_context s (set_Reader (Reader c ++ blocks) c)
  | None => s
  end.

Section Serving.

Variable D : Declarations.
Variable Q : QueueManager.

(** [serve req s r s']: request [req], submitted in state [s], completes
    with [r] and leaves state [s']. *)
Inductive serve : request -> machine -> completion -> machine -> Prop :=
| serve_read : forall fuel irp buffer s r s',
    DispatchRead D Q fuel irp (with_buffer s buffer) = Some (r, s') ->
    serve (ReadRequest irp buffer) s r s'
| serve_control : forall irp buffer s r s',
    DispatchDeviceControl D Q irp (with_buffer s buffer) = Done (r, s') ->
    serve (ControlRequest irp buffer) s r s'.

(** A run: requests with their completions, interleaved with arrivals of
    new blocks. *)
Inductive run : machine -> list (request * completion) -> machine -> Prop :=
| run_nil : forall s, run s [] s
| run_arrival : forall blocks s log s',
    run (enqueue blocks s) log s' -> run s log s'
| run_request : forall req r s s1 log s',
    serve req s r s1 -> run s1 log s' -> run s ((req, r) :: log) s'.

End Serving.

(** ** An instance of the declarations

    Used to run the definitions on concrete requests.  The control codes
    are [CTL_CODE(FILE_DEVICE_UNKNOWN, 0x800 + n, METHOD_BUFFERED,
    FILE_ANY_ACCESS)] with [n] the position in the control-code table and
    bit [0x400] of the function number marking the 64-bit variant; the
    header and footer are those of a PCAP-NG enhanced packet block; blocks
    are padded to 32 bits. *)
Definition example_declarations : Declarations :=
  {| IOCTL_KPH_MARK_RESTART := 0x222000;
     IOCTL_KPH_FILTER_CONNECTIONS := 0x222004;
     IOCTL_KPH_FILTER_PROCESSES := 0x222008;
     IOCTL_KPH_SET_SNAP_LENGTH := 0x22200c;
     IOCTL_KPH_GET_SNAP_LENGTH := 0x222010;
     IOCTL_KPH_SET_DATA_EVENT_32 := 0x222014;
     IOCTL_KPH_SET_DATA_EVENT_64 := 0x223014;
     IOCTL_KPH_SET_OPEN_CONNECTIONS := 0x222018;
     IOCTL_KPH_GET_STATISTICS := 0x22201c;
     sizeof_STATISTICS := 32;
     X86 := false;
     sizeof_PCAP_NG_PACKET_HEADER := 28;
     sizeof_PCAP_NG_PACKET_FOOTER := 4;
     offsetof_HEADER_BlockType := 0;
     offsetof_HEADER_BlockLength := 4;
     offsetof_HEADER_CapturedLength := 20;
     offsetof_FOOTER_BlockLength := 0;
     PCAP_NG_PADDING := fun x => u32 (Z.land (x + 3) (Z.lnot 3)) |}.

Definition example_queue_manager : QueueManager :=
  {| QmGetInitialBlocks := fun queue => queue;
     QmSetReaderDataEvent := fun _ => STATUS_SUCCESS;
     QmGetStatistics := fun _ => zeros 32 |}.

Definition empty_memory : memory := fun _ => [].

(** A context as [DispatchCreate] leaves it after [RtlZeroMemory], in the
    given restart state and with the given queue. *)
Definition fresh_context (st : RESTART_STATE) (queue : list BLOCK_NODE)
    : READER_CONTEXT :=
  {| Reader := queue; SnapLength := 0; SnapLengthPad := 0;
     RestartState := st; RestartRequested := 0;
     CurrentBlock := None; CurrentBlockOffset := 0;
     FilteredConnectionIds := None; FilteredProcessIds := None;
     DataEndOffset := 0; ModifiedFooterOffset := 0;
     OriginalFooterOffset := 0 |}.

Definition machine_of (c : READER_CONTEXT) (m : memory) : machine :=
  {| FsContext2 := Some c; Mem := m; Trace := []; PoolAvailable := true |}.

Definition control_irp (ioctl inLen outLen : Z) (buffer : bool) : IRP :=
  {| HasSystemBuffer := buffer; ReadLength := 0;
     InputBufferLength := inLen; OutputBufferLength := outLen;
     IoControlCode := ioctl |}.

Definition read_irp (len : Z) : IRP :=
  {| HasSystemBuffer := true; ReadLength := len;
     InputBufferLength := 0; OutputBufferLength := 0;
     IoControlCode := 0 |}.

(** The codes the [switch] of [DispatchDeviceControl] has a case for. *)
Definition known_codes (D : Declarations) : list Z :=
  [ IOCTL_KPH_FILTER_CONNECTIONS D; IOCTL_KPH_FILTER_PROCESSES D;
    IOCTL_KPH_MARK_RESTART D; IOCTL_KPH_SET_SNAP_LENGTH D;
    IOCTL_KPH_GET_SNAP_LENGTH D; IOCTL_KPH_SET_DATA_EVENT_32 D;
    IOCTL_KPH_SET_DATA_EVENT_64 D; IOCTL_KPH_SET_OPEN_CONNECTIONS D;
    IOCTL_KPH_GET_STATISTICS D ].

Definition known_code (D : Declarations) (ioctl : Z) : bool :=
  existsb (Z.eqb ioctl) (known_codes D).

(** The required lengths the dispatcher reads from a table row. *)
Definition required_input (is64Bit : bool) (p : IOCTL_PARAMS) : Z :=
  if is64Bit then InputLength64 p else InputLength p.

Definition required_output (is64Bit : bool) (p : IOCTL_PARAMS) : Z :=
  if is64Bit then OutputLength64 p else OutputLength p.

(** ** Well-typed inputs

    The source declares these values [UINT32]; in the embedding they are
    integers, so their range is stated where a proof needs it. *)

Definition is_u32 (x : Z) : Prop := 0 <= x < 2 ^ 32.

Definition typed_block (b : BLOCK_NODE) : Prop := is_u32 (BlockLength b).

(** The queue [DispatchRead] works on once its restart [switch] is done. *)
Definition entry_queue (Q : QueueManager) (c : READER_CONTEXT)
    : list BLOCK_NODE :=
  match RestartState c with
  | RestartStateInit => QmGetInitialBlocks Q (Reader c)
  | _ => Reader c
  end.

(** Iterations that always suffice for the loop of [DispatchRead]: one
    for the block held at entry, one per queued block, one to find the
    queue empty. *)
Definition read_fuel (Q : QueueManager) (s : machine) : nat :=
  match FsContext2 s with
  | Some c => S (S (length (entry_queue Q c)))
  | None => O
  end.

(** Range of the context fields a read starts from. *)
Definition typed_context (Q : QueueManager) (c : READER_CONTEXT) : Prop :=
  is_u32 (CurrentBlockOffset c) /\ is_u32 (DataEndOffset c) /\
  is_u32 (ModifiedFooterOffset c) /\ is_u32 (OriginalFooterOffset c) /\
  Forall typed_block (entry_queue Q c) /\
  (forall b, CurrentBlock c = Some b -> typed_block b).

(** ** Restart state machine (spec 4.5) *)

Inductive restart_step : RESTART_STATE -> RESTART_STATE -> Prop :=
| step_Init_Normal : restart_step RestartStateInit RestartStateNormal
| step_Normal_SendEof : restart_step RestartStateNormal RestartStateSendEof
| step_Normal_Init : restart_step RestartStateNormal RestartStateInit
| step_SendEof_Init : restart_step RestartStateSendEof RestartStateInit.

Definition stay_or_step (a b : RESTART_STATE) : Prop :=
  a = b \/ restart_step a b.

Definition restart_state_of (s : machine) : option RESTART_STATE :=
  option_map RestartState (FsContext2 s).

Definition restart_requested_of (s : machine) : option Z :=
  option_map RestartRequested (FsContext2 s).

(** ** The filter policy in the spec's words (spec 4.3) *)

(** The ids an installed filter array holds: elements 1 to [ids[0]]. *)
Definition filter_ids (filter : option (list Z)) : list Z :=
  match filter with
  | None => []
  | Some ids =>
    map (fun index => nth index ids 0) (seq 1 (Z.to_nat (nth 0 ids 0)))
  end.

Definition id_listed (filter : option (list Z)) (id : Z) : bool :=
  existsb (Z.eqb id) (filter_ids filter).

(** A packet block is suppressed when its process id or its connection id
    is listed; other blocks never are. *)
Definition suppressed (c : READER_CONTEXT) (b : BLOCK_NODE) : bool :=
  match BlockType b with
  | PacketBlock =>
    id_listed (FilteredProcessIds c) (ProcessId b)
    || id_listed (FilteredConnectionIds c) (ConnectionId b)
  | OtherBlock => false
  end.

(** [index] values [from], [from + 1], ... ([n] of them). *)
Fixpoint indices (from : Z) (n : nat) : list Z :=
  match n with
  | O => []
  | S n' => from :: indices (from + 1) n'
  end.

(** ** The logical stream in the spec's words (spec 4.4) *)

Section Stream.

Variable D : Declarations.

Abbreviation hs := (sizeof_PCAP_NG_PACKET_HEADER D).
Abbreviation fs := (sizeof_PCAP_NG_PACKET_FOOTER D).

(** [header->CapturedLength] of a block. *)
Definition capturedLength (m : memory) (b : BLOCK_NODE) : Z :=
  load_u32 (m (blockData b)) (offsetof_HEADER_CapturedLength D).

Definition truncates (snapLength : Z) (m : memory) (b : BLOCK_NODE) : bool :=
  match BlockType b with
  | PacketBlock =>
    negb (snapLength =? 0) && (capturedLength m b >? snapLength)
  | OtherBlock => false
  end.

(** Length of a truncated packet block. *)
Definition truncated_length (snapLength pad : Z) : Z :=
  hs + snapLength + pad + fs.

(** Spec 4.4 step 2c: the overlay header is the original header with
    [capturedLength] replaced by the snap length and [blockLength] by the
    new total; the overlay footer is the original footer with
    [blockLength] replaced by the new total. *)
Definition overlay_header (snapLength pad : Z) (data : list Z) : list Z :=
  store_u32
    (store_u32 (slice data 0 hs) (offsetof_HEADER_BlockLength D)
       (truncated_length snapLength pad))
    (offsetof_HEADER_CapturedLength D) snapLength.

Definition overlay_footer (snapLength pad : Z) (blockLength : Z)
    (data : list Z) : list Z :=
  store_u32 (slice data (blockLength - fs) fs) (offsetof_FOOTER_BlockLength D)
    (truncated_length snapLength pad).

(** The bytes a capture block contributes to the reader's stream: the
    four zones of a truncated packet block, or the block verbatim. *)
Definition render (snapLength pad : Z) (m : memory) (b : BLOCK_NODE)
    : list Z :=
  let data := m (blockData b) in
  if truncates snapLength m b then
    overlay_header snapLength pad data
      ++ slice data hs snapLength
      ++ zeros pad
      ++ overlay_footer snapLength pad (BlockLength b) data
  else slice data 0 (BlockLength b).

(** Concatenation of all non-suppressed, possibly-truncated blocks of a
    queue, in dequeue order, under the settings of context [c]. *)
Definition logical_stream (c : READER_CONTEXT) (m : memory)
    (queue : list BLOCK_NODE) : list Z :=
  concat
    (map (render (SnapLength c) (SnapLengthPad c) m)
       (filter (fun b => negb (suppressed c b)) queue)).

(** The view of a trimmed block, rebuilt from the offsets and scratch
    copies the context keeps (spec 4.4 step 3): overlay header, payload
    up to [DataEndOffset], padding up to [ModifiedFooterOffset], overlay
    footer. *)
Definition overlay_view (c : READER_CONTEXT) (m : memory) (b : BLOCK_NODE)
    : list Z :=
  m ModifiedHeader
    ++ slice (m (blockData b)) hs (DataEndOffset c - hs)
    ++ zeros (ModifiedFooterOffset c - DataEndOffset c)
    ++ m ModifiedFooter.

(** Position in [overlay_view] of block offset [off]: offsets at or
    beyond the original footer are moved back by the length of the gap. *)
Definition overlay_offset (c : READER_CONTEXT) (off : Z) : Z :=
  if OriginalFooterOffset c <=? off then
    ModifiedFooterOffset c + (off - OriginalFooterOffset c)
  else off.

(** The view of the block being delivered and the position of a block
    offset in it. *)
Definition current_view (c : READER_CONTEXT) (m : memory) (b : BLOCK_NODE)
    : list Z :=
  if trimming D m then overlay_view c m b
  else slice (m (blockData b)) 0 (BlockLength b).

Definition view_offset (c : READER_CONTEXT) (m : memory) (off : Z) : Z :=
  if trimming D m then overlay_offset c off else off.

(** Bytes of the held block that are still to be delivered. *)
Definition pending (c : READER_CONTEXT) (m : memory) : list Z :=
  match CurrentBlock c with
  | Some b =>
    skipn (Z.to_nat (view_offset c m (CurrentBlockOffset c)))
      (current_view c m b)
  | None => []
  end.

(** ** Well-formed readers *)

(** Layout of the two structures: the three header fields the code
    touches are four bytes each, inside the header and disjoint; the
    footer field is inside the footer. *)
Definition layout_ok : Prop :=
  is_u32 hs /\ is_u32 fs /\
  0 <= offsetof_HEADER_BlockType D /\
  offsetof_HEADER_BlockType D + 4 <= offsetof_HEADER_BlockLength D /\
  offsetof_HEADER_BlockLength D + 4 <= offsetof_HEADER_CapturedLength D /\
  offsetof_HEADER_CapturedLength D + 4 <= hs /\
  0 <= offsetof_FOOTER_BlockLength D /\
  offsetof_FOOTER_BlockLength D + 4 <= fs.

(** [PCAP_NG_PADDING] rounds up and is monotone as long as it does not
    wrap. *)
Definition padding_ok : Prop :=
  forall x y, 0 <= x -> x <= y -> y <= PCAP_NG_PADDING D y ->
    x <= PCAP_NG_PADDING D x /\ PCAP_NG_PADDING D x <= PCAP_NG_PADDING D y.

(** A capture block as the queue manager builds it: its storage holds
    [BlockLength] bytes; a packet block starts with a packet header whose
    type is not zero and whose length field is the block length, followed
    by the padded captured bytes, and ends with a packet footer. *)
Definition wf_block (m : memory) (b : BLOCK_NODE) : Prop :=
  is_u32 (BlockLength b) /\
  Z.of_nat (length (m (blockData b))) = BlockLength b /\
  (BlockType b = PacketBlock ->
     load_u32 (m (blockData b)) (offsetof_HEADER_BlockType D) <> 0 /\
     load_u32 (m (blockData b)) (offsetof_HEADER_BlockLength D)
       = BlockLength b /\
     capturedLength m b <= PCAP_NG_PADDING D (capturedLength m b) /\
     hs + PCAP_NG_PADDING D (capturedLength m b) + fs <= BlockLength b).

(** The snap length and its padding agree (spec 3). *)
Definition settings_ok (c : READER_CONTEXT) : Prop :=
  is_u32 (SnapLength c) /\
  (SnapLength c <> 0 ->
   SnapLengthPad c
     = sub32 (PCAP_NG_PADDING D (SnapLength c)) (SnapLength c)).

(** The two scratch structures have the size of their types. *)
Definition scratch_ok (m : memory) : Prop :=
  Z.of_nat (length (m ModifiedHeader)) = hs /\
  Z.of_nat (length (m ModifiedFooter)) = fs.

(** The saved cursor and overlay state of a held block. *)
Definition cursor_ok (c : READER_CONTEXT) (m : memory) : Prop :=
  match CurrentBlock c with
  | None => True
  | Some b =>
    let off := CurrentBlockOffset c in
    wf_block m b /\ 0 <= off <= BlockLength b /\
    (trimming D m = true ->
     hs <= DataEndOffset c /\
     DataEndOffset c <= ModifiedFooterOffset c /\
     ModifiedFooterOffset c <= OriginalFooterOffset c /\
     OriginalFooterOffset c + fs = BlockLength b /\
     (off <= ModifiedFooterOffset c \/ OriginalFooterOffset c <= off))
  end.

Definition reader_ok (c : READER_CONTEXT) (m : memory) : Prop :=
  settings_ok c /\ scratch_ok m /\ cursor_ok c m /\
  Forall (wf_block m) (Reader c).

(** What the loop of a read can deliver from a context: the rest of the
    held block, then, unless a restart is pending, the queue. *)
Definition ahead (c : READER_CONTEXT) (m : memory) : list Z :=
  pending c m
    ++ (if RestartRequested c =? 1 then []
        else logical_stream c m (Reader c)).

End Stream.

(** The initial blocks [QmGetInitialBlocks] puts into a reader's queue
    (line 295) are well formed in the memory [m] that holds the block
    storage: a queue of well-formed blocks is one after the call.  A
    queue manager that inserts blocks meets this as soon as the blocks
    it inserts are well formed in [m]. *)
Definition initial_blocks_ok (D : Declarations) (Q : QueueManager)
    (m : memory) : Prop :=
  forall queue,
    Forall (wf_block D m) queue ->
    Forall (wf_block D m) (QmGetInitialBlocks Q queue).

(** ** What a read call may deliver (spec 4.4)

    [upcoming]: every byte the reader will eventually be given, in order.
    A pending restart makes the next read after the boundary fetch the
    initial blocks, which the queue manager inserts into the queue.
    [available]: the bytes one call can deliver, which end at a restart
    boundary. *)
Definition fetches (c : READER_CONTEXT) : nat :=
  ((match RestartState c with RestartStateNormal => 0 | _ => 1 end)
   + (if (RestartRequested c =? 1)%Z then 1 else 0))%nat.

Definition upcoming (D : Declarations) (Q : QueueManager)
    (c : READER_CONTEXT) (m : memory) : list Z :=
  pending D c m
    ++ logical_stream D c m
         (Nat.iter (fetches c) (QmGetInitialBlocks Q) (Reader c)).

Definition available (D : Declarations) (Q : QueueManager)
    (c : READER_CONTEXT) (m : memory) : list Z :=
  match RestartState c with
  | RestartStateSendEof => []
  | _ =>
    pending D c m
      ++ (if RestartRequested c =? 1 then []
          else logical_stream D c m (entry_queue Q c))
  end.

(** The bytes a completed read returned to its caller. *)
Definition returned (r : completion) (s' : machine) : list Z :=
  firstn (Z.to_nat (Information r)) (Mem s' SystemBuffer).

(** ** Vocabulary of the statements on runs *)

(** The settings a read never changes. *)
Definition same_settings (c c' : READER_CONTEXT) : Prop :=
  SnapLength c' = SnapLength c /\
  SnapLengthPad c' = SnapLengthPad c /\
  FilteredProcessIds c' = FilteredProcessIds c /\
  FilteredConnectionIds c' = FilteredConnectionIds c.

Definition is_set_snap_length (D : Declarations) (req : request) : Prop :=
  match req with
  | ControlRequest irp _ => IoControlCode irp = IOCTL_KPH_SET_SNAP_LENGTH D
  | ReadRequest _ _ => False
  end.

(** Iterations of the loop of [DispatchRead] that go on to the next
    iteration. *)
Inductive continues (D : Declarations) (readLength : Z)
    : loop_state -> loop_state -> Prop :=
| continues_refl : forall s, continues D readLength s s
| continues_step : forall s s1 s',
    readOffset s < readLength ->
    loop_body D readLength s = Continue s1 ->
    continues D readLength s1 s' ->
    continues D readLength s s'.

(** Iterations that continue leave the restart state and flag, the
    settings and the block storage as they were. *)
Definition quiet_step (s s1 : loop_state) : Prop :=
  RestartState (context s1) = RestartState (context s) /\
  RestartRequested (context s1) = RestartRequested (context s) /\
  same_settings (context s) (context s1) /\
  (forall a, mem s1 (BlockStorage a) = mem s (BlockStorage a)).

(** What no control operation changes in the reader context. *)
Definition same_cursor (c c' : READER_CONTEXT) : Prop :=
  RestartState c' = RestartState c /\
  Reader c' = Reader c /\
  CurrentBlock c' = CurrentBlock c /\
  CurrentBlockOffset c' = CurrentBlockOffset c /\
  DataEndOffset c' = DataEndOffset c /\
  ModifiedFooterOffset c' = ModifiedFooterOffset c /\
  OriginalFooterOffset c' = OriginalFooterOffset c.

(** The completion and the state a request leaves, for running requests
    on concrete machines. *)
Definition control_result (D : Declarations) (Q : QueueManager) (irp : IRP)
    (buffer : list Z) (s : machine) : completion * machine :=
  match DispatchDeviceControl D Q irp (with_buffer s buffer) with
  | Done x => x
  | Faulted _ => (CompleteIrp (STATUS_OTHER 0) 0, s)
  end.

Definition read_result (D : Declarations) (Q : QueueManager) (irp : IRP)
    (buffer : list Z) (s : machine) : completion * machine :=
  match DispatchRead D Q (read_fuel Q s) irp (with_buffer s buffer) with
  | Some x => x
  | None => (CompleteIrp (STATUS_OTHER 0) 0, s)
  end.

(** The restart state a read has once its restart [switch] is done. *)
Definition state_after_switch (st : RESTART_STATE) : RESTART_STATE :=
  match st with
  | RestartStateSendEof => RestartStateInit
  | RestartStateInit => RestartStateNormal
  | RestartStateNormal => RestartStateNormal
  end.

(** Range of the loop variables, and the number of blocks the loop can
    still take up. *)
Definition loop_typed (readLength : Z) (s : loop_state) : Prop :=
  0 <= readOffset s <= readLength /\
  is_u32 (blockOffset s) /\
  is_u32 (DataEndOffset (context s)) /\
  is_u32 (ModifiedFooterOffset (context s)) /\
  is_u32 (OriginalFooterOffset (context s)) /\
  Forall typed_block (Reader (context s)) /\
  (forall b, blockNode s = Some b -> typed_block b).

Definition blocks_left (s : loop_state) : nat :=
  length (Reader (context s))
  + match blockNode s with Some _ => 1 | None => 0 end.

(** ** A scenario to run the definitions on

    One packet block of 40 bytes capturing 8 bytes, one other block of 4
    bytes, and a reader whose snap length is 2 (padding 2). *)
Definition example_packet : list Z :=
  bytes_of_u32 6 ++ bytes_of_u32 40 ++ zeros 12 ++ bytes_of_u32 8
    ++ bytes_of_u32 8 ++ [1; 2; 3; 4; 5; 6; 7; 8] ++ bytes_of_u32 40.

Definition example_memory : memory :=
  fun r =>
    match r with
    | SystemBuffer => []
    | ModifiedHeader => zeros 28
    | ModifiedFooter => zeros 4
    | BlockStorage 0 => example_packet
    | BlockStorage 1 => [10; 20; 30; 40]
    | BlockStorage _ => []
    end.

Definition example_packet_block : BLOCK_NODE :=
  {| BlockType := PacketBlock; BlockLength := 40; ProcessId := 7;
     ConnectionId := 9; Buffer := None; Data := 0 |}.

Definition example_other_block : BLOCK_NODE :=
  {| BlockType := OtherBlock; BlockLength := 4; ProcessId := 0;
     ConnectionId := 0; Buffer := Some 1%nat; Data := 2 |}.

(** A queue manager whose [QmGetInitialBlocks] puts one block in front of
    the reader's queue. *)
Definition example_restart_manager : QueueManager :=
  {| QmGetInitialBlocks := fun queue => example_other_block :: queue;
     QmSetReaderDataEvent := fun _ => STATUS_SUCCESS;
     QmGetStatistics := fun _ => zeros 32 |}.

Definition example_context (st : RESTART_STATE) (restartRequested : Z)
    (queue : list BLOCK_NODE) : READER_CONTEXT :=
  {| Reader := queue; SnapLength := 2; SnapLengthPad := 2;
     RestartState := st; RestartRequested := restartRequested;
     CurrentBlock := None; CurrentBlockOffset := 0;
     FilteredConnectionIds := None; FilteredProcessIds := None;
     DataEndOffset := 0; ModifiedFooterOffset := 0;
     OriginalFooterOffset := 0 |}.

Definition example_machine (st : RESTART_STATE) (restartRequested : Z)
    (queue : list BLOCK_NODE) : machine :=
  machine_of (example_context st restartRequested queue) example_memory.

(** The context of an open reader. *)
Definition the_context (s : machine) : READER_CONTEXT :=
  match FsContext2 s with
  | Some c => c
  | None => fresh_context RestartStateInit []
  end.

(** The context a loop state stands for: the context with the block and
    offset the loop holds in its local variables. *)
Definition held (s : loop_state) : READER_CONTEXT :=
  set_CurrentBlock (blockNode s) (blockOffset s) (context s).

(** A sequence of read requests on one handle, with the bytes each
    returned. *)
Inductive reads (D : Declarations) (Q : QueueManager)
    : machine -> list (IRP * list Z) -> list (list Z) -> machine -> Prop :=
| reads_nil : forall s, reads D Q s [] [] s
| reads_cons : forall irp buffer s r s1 rest outs s',
    serve D Q (ReadRequest irp buffer) s r s1 ->
    reads D Q s1 rest outs s' ->
    reads D Q s ((irp, buffer) :: rest) (returned r s1 :: outs) s'.

(** A read request as the I/O manager builds it: a system buffer of at
    least the requested length. *)
Definition read_request_ok (req : IRP * list Z) : Prop :=
  HasSystemBuffer (fst req) = true /\
  is_u32 (ReadLength (fst req)) /\
  ReadLength (fst req) <= Z.of_nat (length (snd req)).

(** [copied V vo k k']: between cursors [k] and [k'] the bytes of the
    view [V] from the position of [k] to the position of [k'] were
    written to the system buffer at the read offset of [k], and nothing
    else was written.  [vo] maps block offsets to positions in [V]. *)
Definition copied (V : list Z) (vo : Z -> Z) (k k' : cursor) : Prop :=
  exists n,
    0 <= n /\ ro k' = ro k + n /\ vo (bo k') = vo (bo k) + n /\
    cmem k' SystemBuffer
    = write_bytes (cmem k SystemBuffer) (ro k) (slice V (vo (bo k)) n) /\
    (forall r, r <> SystemBuffer -> cmem k' r = cmem k r).

(** The overlay state that serves a trimmed block [b]. *)
Definition overlay_ok (D : Declarations) (c : READER_CONTEXT) (m : memory)
    (b : BLOCK_NODE) : Prop :=
  sizeof_PCAP_NG_PACKET_HEADER D <= DataEndOffset c /\
  DataEndOffset c <= ModifiedFooterOffset c /\
  ModifiedFooterOffset c <= OriginalFooterOffset c /\
  OriginalFooterOffset c + sizeof_PCAP_NG_PACKET_FOOTER D = BlockLength b /\
  is_u32 (BlockLength b) /\
  0 <= sizeof_PCAP_NG_PACKET_HEADER D /\
  0 <= sizeof_PCAP_NG_PACKET_FOOTER D /\
  Z.of_nat (length (m ModifiedHeader)) = sizeof_PCAP_NG_PACKET_HEADER D /\
  Z.of_nat (length (m ModifiedFooter)) = sizeof_PCAP_NG_PACKET_FOOTER D /\
  Z.of_nat (length (m (blockData b))) = BlockLength b.

(** A cursor inside the read buffer and inside a block of [blockLength]
    bytes. *)
Definition block_cursor (readLength blockLength : Z) (k : cursor) : Prop :=
  0 <= ro k <= readLength /\
  readLength <= Z.of_nat (length (cmem k SystemBuffer)) /\
  0 <= bo k <= blockLength.

(** A block offset that is not in the gap between the modified and the
    original footer of a trimmed block. *)
Definition outside_gap (c : READER_CONTEXT) (off : Z) : Prop :=
  off <= ModifiedFooterOffset c \/ OriginalFooterOffset c <= off.

(** Memory [m] holds what the reference memory [m0] holds, the system
    buffer apart. *)
Definition agrees (m0 m : memory) : Prop :=
  forall r, r <> SystemBuffer -> m r = m0 r.

(** What the copy of a block relies on: the storage of the block has
    its length, and a trimmed view comes with a sound overlay. *)
Definition view_ok (D : Declarations) (c : READER_CONTEXT) (m : memory)
    (b : BLOCK_NODE) : Prop :=
  is_u32 (BlockLength b) /\
  Z.of_nat (length (m (blockData b))) = BlockLength b /\
  (trimming D m = true -> overlay_ok D c m b).

Definition position_ok (D : Declarations) (c : READER_CONTEXT) (m : memory)
    (off : Z) : Prop :=
  trimming D m = true -> outside_gap c off.

(** The invariant of the loop of [DispatchRead], and what an iteration
    delivers: [d] is written at the read offset and is the front of what
    was [ahead]. *)
Definition loop_ok (D : Declarations) (readLength : Z) (s : loop_state)
    : Prop :=
  reader_ok D (held s) (mem s) /\
  0 <= readOffset s <= readLength /\
  readLength <= Z.of_nat (length (mem s SystemBuffer)).

Definition delivered (D : Declarations) (s s1 : loop_state) (d : list Z)
    : Prop :=
  mem s1 SystemBuffer = write_bytes (mem s SystemBuffer) (readOffset s) d /\
  readOffset s1 = readOffset s + Z.of_nat (length d) /\
  ahead D (held s) (mem s) = d ++ ahead D (held s1) (mem s1) /\
  (RestartRequested (context s) = 1 ->
   Reader (context s1) = Reader (context s)).

(** Range of the cursor fields a read saves in the context. *)
Definition fields_typed (c : READER_CONTEXT) : Prop :=
  is_u32 (CurrentBlockOffset c) /\ is_u32 (DataEndOffset c) /\
  is_u32 (ModifiedFooterOffset c) /\ is_u32 (OriginalFooterOffset c).

(** A reader between two requests: well formed, its fields in range. *)
Definition reader_ready (D : Declarations) (c : READER_CONTEXT)
    (m : memory) : Prop :=
  reader_ok D c m /\ fields_typed c.

(** A reader that holds the second example block with two of its four
    bytes delivered, has a restart pending and one block queued. *)
Definition example_held_context : READER_CONTEXT :=
  set_CurrentBlock (Some example_other_block) 2
    (example_context RestartStateNormal 1 [example_other_block]).

(** Number of entries of a filter array: [ids[0]], none when absent. *)
Definition filter_count (filter : option (list Z)) : nat :=
  match filter with
  | None => O
  | Some ids => Z.to_nat (nth 0 ids 0)
  end.

(** A loop state that holds no block and has delivered nothing. *)
Definition example_loop_state (c : READER_CONTEXT) : loop_state :=
  {| context := c; mem := example_memory; trace := [];
     blockNode := None; blockOffset := 0; readOffset := 0 |}.

(** The state of the two cursors between the copy steps of one block. *)
Definition in_loop (readLength : Z) (k : cursor) : Prop :=
  0 <= ro k <= readLength /\ is_u32 (bo k).

(** The state between the copy steps of a trimmed block [b], whose
    overlay was built in memory [m0]. *)
Definition between (readLength : Z) (c : READER_CONTEXT) (b : BLOCK_NODE)
    (m0 : memory) (k : cursor) : Prop :=
  agrees m0 (cmem k) /\ block_cursor readLength (BlockLength b) k /\
  outside_gap c (bo k).

(** * Further routines and accounts *)

(** The 32-bit words of a request buffer of [bufferLen] bytes: what
    [newIds[0]], ..., [newIds[numIds - 1]] read (lines 506-510). *)
Definition buffer_ids (buffer : list Z) (bufferLen : Z) : list Z :=
  map (fun index => load_u32 buffer (Z.of_nat index * sizeof_UINT32))
    (seq 0 (Z.to_nat (bufferLen / sizeof_UINT32))).

(** The filter array other than the one [SetIdList] is asked to replace. *)
Definition other_id_list (idListType : ID_LIST_TYPE) : ID_LIST_TYPE :=
  match idListType with
  | ConnectionIdList => ProcessIdList
  | ProcessIdList => ConnectionIdList
  end.

(** What [ExFreePool(currentIds)] of lines 514-516 frees. *)
Definition freed_by_exchange (old : option (list Z)) : list event :=
  match old with
  | Some ids => [EvExFreePool ids]
  | None => []
  end.

(** Memory cells hold bytes. *)
Definition byte_list (l : list Z) : Prop := Forall (fun x => 0 <= x < 256) l.

(** A request as the I/O manager hands it over: a read comes with a
    system buffer of at least the requested length, a control request
    with a buffer of bytes. *)
Definition request_ok (req : request) : Prop :=
  match req with
  | ReadRequest irp buffer => read_request_ok (irp, buffer)
  | ControlRequest irp buffer => byte_list buffer
  end.

(** The blocks a trace dequeues, and the blocks it releases, in order. *)
Definition dequeued_by (e : event) : list BLOCK_NODE :=
  match e with
  | EvQmDequeueBlock (Some b) => [b]
  | _ => []
  end.

Definition released_by (e : event) : list BLOCK_NODE :=
  match e with
  | EvQmCleanupBlock b => [b]
  | _ => []
  end.

Definition dequeued_blocks (tr : list event) : list BLOCK_NODE :=
  flat_map dequeued_by tr.

Definition released_blocks (tr : list event) : list BLOCK_NODE :=
  flat_map released_by tr.

(** Calls that hand blocks to a reader or take them back. *)
Definition block_call (e : event) : bool :=
  match e with
  | EvQmGetInitialBlocks | EvQmDequeueBlock _ | EvQmCleanupBlock _ => true
  | _ => false
  end.

(** The block a reader holds, as a list. *)
Definition held_block (b : option BLOCK_NODE) : list BLOCK_NODE :=
  match b with
  | Some x => [x]
  | None => []
  end.

(** The calls the read path makes. *)
Definition read_call (e : event) : bool :=
  match e with
  | EvQmGetInitialBlocks | EvQmDequeueBlock _ | EvQmCleanupBlock _
  | EvCheckProcessFilter _ | EvCheckConnectionFilter _ => true
  | _ => false
  end.

(** The state a loop iteration leaves. *)
Definition exit_state (x : loop_exit) : loop_state :=
  match x with
  | Continue s => s
  | Break s => s
  end.

(** [more] takes the blocks it dequeues from the front of [queue], in
    order, and releases every block it stops holding: the blocks held
    before or dequeued are the blocks released followed by the block
    still held. *)
Definition blocks_accounted (before after : option BLOCK_NODE)
    (queue queue' : list BLOCK_NODE) (more : list event) : Prop :=
  held_block before ++ dequeued_blocks more = released_blocks more ++ held_block after /\
  queue = dequeued_blocks more ++ queue' /\
  Forall (fun e => read_call e = true) more.

(** ** Opening and closing readers (lines 54-146 and 464-478)

    The status codes [DispatchCreate] returns besides those above, with
    their values in [ntstatus.h]. *)
Definition STATUS_ACCESS_DENIED : NTSTATUS := STATUS_OTHER 0xC0000022.
Definition STATUS_NO_SUCH_FILE : NTSTATUS := STATUS_OTHER 0xC000000F.

(** The 32-bit value of a status in [ntstatus.h]. *)
Definition status_value (status : NTSTATUS) : Z :=
  match status with
  | STATUS_SUCCESS => 0
  | STATUS_INVALID_PARAMETER => 0xC000000D
  | STATUS_INVALID_DEVICE_REQUEST => 0xC0000010
  | STATUS_BUFFER_TOO_SMALL => 0xC0000023
  | STATUS_INSUFFICIENT_RESOURCES => 0xC000009A
  | STATUS_OTHER code => u32 code
  end.

(** The macro [NT_SUCCESS] of [ntdef.h], [((NTSTATUS)(Status)) >= 0] on
    the signed 32-bit status.  The kernel and the queue manager may
    answer with a success or informational status other than
    [STATUS_SUCCESS], which the routines below take as a success. *)
Module Ntdef.

Definition NT_SUCCESS (status : NTSTATUS) : bool :=
  status_value status <? 0x80000000.

End Ntdef.

(** The calls of the routines that set up and tear down the interface and
    its readers.  [CallOfReader] is a call that the read and control
    paths make as well ([QmCleanupBlock], [ExFreePool]). *)
Inductive lifecycle_call : Type :=
| CallExInitializeLookasideListEx (status : NTSTATUS)
| CallExDeleteLookasideListEx
| CallExAllocateFromLookasideListEx (succeeded : bool)
| CallExFreeToLookasideListEx
| CallQmRegisterReader (status : NTSTATUS)
| CallQmDeregisterReader
| CallOfReader (e : event).

(** [InitializeReadInterface] (lines 464-478).  [status] is what
    [ExInitializeLookasideListEx] returns, [initialized] the value of
    [gLookasideListInit] before the call; the result is the status
    returned, the new value of the flag and the call made. *)
Definition InitializeReadInterface (status : NTSTATUS) (initialized : bool)
    : NTSTATUS * bool * list lifecycle_call :=
  if negb (Ntdef.NT_SUCCESS status) then
    (status, initialized, [CallExInitializeLookasideListEx status])
  else (STATUS_SUCCESS, true, [CallExInitializeLookasideListEx status]).

(** [DeinitializeReadInterface] (lines 58-66). *)
Definition DeinitializeReadInterface (initialized : bool)
    : NTSTATUS * list lifecycle_call :=
  (STATUS_SUCCESS,
   if initialized then [CallExDeleteLookasideListEx] else []).

(** What [DispatchCreate] reads from the IRP, the file object and the
    device object: whether [PsGetCurrentThread()] is
    [irp->Tail.Overlay.Thread], [FileObject->FileName.Length], and whether
    [deviceObject->DeviceExtension] is not null. *)
Record CREATE_REQUEST : Type := {
  CallerIsCurrentThread : bool;
  FileNameLength : Z;
  HasDeviceExtension : bool
}.

(** What the kernel and the queue manager answer to [DispatchCreate]:
    whether [ExAllocateFromLookasideListEx] returns memory, the status of
    [QmRegisterReader] and the queue it sets up for the reader. *)
Record CREATE_ANSWERS : Type := {
  LookasideAvailable : bool;
  RegisterStatus : NTSTATUS;
  RegisteredReader : list BLOCK_NODE
}.

(** The two scratch structures are part of [READER_CONTEXT]:
    [RtlZeroMemory(context, sizeof(READER_CONTEXT))] clears them with the
    other fields. *)
Definition zeroed_scratch (D : Declarations) (m : memory) : memory :=
  mem_set (mem_set m ModifiedHeader (zeros (sizeof_PCAP_NG_PACKET_HEADER D)))
    ModifiedFooter (zeros (sizeof_PCAP_NG_PACKET_FOOTER D)).

(** [DispatchCreate] (lines 94-146).  [zero] is the enumerator of
    [RESTART_STATE] whose value is 0, which the header declares.  The
    field [DeviceExtension] the routine sets is read by no routine of
    this file.  The result is the completion, the machine with the file
    object's [FsContext2], and the calls made. *)
Definition DispatchCreate (D : Declarations) (zero : RESTART_STATE)
    (request : CREATE_REQUEST) (answers : CREATE_ANSWERS) (s : machine)
    : completion * machine * list lifecycle_call :=
  if negb (CallerIsCurrentThread request) then
    (CompleteIrp STATUS_ACCESS_DENIED 0, s, [])
  else if negb (FileNameLength request =? 0) then
    (CompleteIrp STATUS_NO_SUCH_FILE 0, s, [])
  else if negb (HasDeviceExtension request) then
    (CompleteIrp STATUS_INVALID_PARAMETER 0, s, [])
  else if negb (LookasideAvailable answers) then
    (CompleteIrp STATUS_INSUFFICIENT_RESOURCES 0, s,
     [CallExAllocateFromLookasideListEx false])
  else
    let status := RegisterStatus answers in
    if negb (Ntdef.NT_SUCCESS status) then
      (CompleteIrp status 0, s,
       [CallExAllocateFromLookasideListEx true; CallQmRegisterReader status;
        CallExFreeToLookasideListEx])
    else
      (CompleteIrp status 0,
       {| FsContext2 := Some (fresh_context zero (RegisteredReader answers));
          Mem := zeroed_scratch D (Mem s);
          Trace := Trace s; PoolAvailable := PoolAvailable s |},
       [CallExAllocateFromLookasideListEx true; CallQmRegisterReader status]).

(** [ExFreePool(p)] when [p] is not null. *)
Definition free_id_list (ids : option (list Z)) : list lifecycle_call :=
  match ids with
  | Some l => [CallOfReader (EvExFreePool l)]
  | None => []
  end.

(** [DispatchClose] (lines 69-91).  The routine does not clear
    [FsContext2]; the file object is not used after it. *)
Definition DispatchClose (s : machine) : completion * list lifecycle_call :=
  match FsContext2 s with
  | None => (CompleteIrp STATUS_INVALID_PARAMETER 0, [])
  | Some context =>
    (CompleteIrp STATUS_SUCCESS 0,
     [CallQmDeregisterReader]
       ++ match CurrentBlock context with
          | Some b => [CallOfReader (EvQmCleanupBlock b)]
          | None => []
          end
       ++ free_id_list (FilteredConnectionIds context)
       ++ free_id_list (FilteredProcessIds context)
       ++ [CallExFreeToLookasideListEx])
  end.

(** The calls of a list that are calls of the reader. *)
Definition reader_event (k : lifecycle_call) : list event :=
  match k with
  | CallOfReader e => [e]
  | _ => []
  end.

Definition reader_events (calls : list lifecycle_call) : list event :=
  flat_map reader_event calls.

(** Filter arrays a trace installs and frees. *)
Definition installed_list (e : event) : list (list Z) :=
  match e with
  | EvInterlockedExchangePointer _ (Some ids) => [ids]
  | _ => []
  end.

Definition freed_list (e : event) : list (list Z) :=
  match e with
  | EvExFreePool ids => [ids]
  | _ => []
  end.

Definition installed_lists (tr : list event) : list (list Z) :=
  flat_map installed_list tr.

Definition freed_lists (tr : list event) : list (list Z) :=
  flat_map freed_list tr.

(** The filter arrays a reader owns. *)
Definition id_list (ids : option (list Z)) : list (list Z) :=
  match ids with
  | Some l => [l]
  | None => []
  end.

Definition owned_lists (c : READER_CONTEXT) : list (list Z) :=
  id_list (FilteredConnectionIds c) ++ id_list (FilteredProcessIds c).

(** Number of calls of a kind. *)
Definition count_calls (kind : lifecycle_call -> bool)
    (calls : list lifecycle_call) : nat :=
  length (filter kind calls).

Definition is_lookaside_allocation (k : lifecycle_call) : bool :=
  match k with
  | CallExAllocateFromLookasideListEx true => true
  | _ => false
  end.

Definition is_lookaside_free (k : lifecycle_call) : bool :=
  match k with
  | CallExFreeToLookasideListEx => true
  | _ => false
  end.

Definition is_registration (k : lifecycle_call) : bool :=
  match k with
  | CallQmRegisterReader status => Ntdef.NT_SUCCESS status
  | _ => false
  end.

Definition is_deregistration (k : lifecycle_call) : bool :=
  match k with
  | CallQmDeregisterReader => true
  | _ => false
  end.

(** What an open reader has taken and not yet given back is what it
    holds: the blocks dequeued are the blocks released and the block
    held; the filter arrays installed are the arrays freed and the two
    arrays of the context. *)
Definition accounted (s : machine) : Prop :=
  exists c,
    FsContext2 s = Some c /\
    dequeued_blocks (Trace s) = released_blocks (Trace s) ++ held_block (CurrentBlock c) /\
    forall ids,
      count_occ (list_eq_dec Z.eq_dec) (installed_lists (Trace s)) ids
      = (count_occ (list_eq_dec Z.eq_dec) (freed_lists (Trace s)) ids
         + count_occ (list_eq_dec Z.eq_dec) (owned_lists c) ids)%nat.

(** * Proofs *)

(** ** Arithmetic modulo 2^32 *)

Lemma u32_small : forall x, is_u32 x -> u32 x = x.
Proof. intros x H. unfold u32. apply Z.mod_small. exact H. Qed.

Lemma u32_is_u32 : forall x, is_u32 (u32 x).
Proof. intros x. unfold is_u32, u32. apply Z.mod_pos_bound. reflexivity. Qed.

Lemma add32_small : forall a b, is_u32 (a + b) -> add32 a b = a + b.
Proof. intros. unfold add32. now apply u32_small. Qed.

Lemma sub32_small : forall a b, is_u32 (a - b) -> sub32 a b = a - b.
Proof. intros. unfold sub32. now apply u32_small. Qed.

Lemma add32_sub32 : forall a b, is_u32 b -> add32 a (sub32 b a) = b.
Proof.
  intros a b Hb. unfold add32, sub32, u32.
  rewrite Zplus_mod_idemp_r.
  replace (a + (b - a)) with b by lia.
  apply Z.mod_small. exact Hb.
Qed.

Lemma min_is_Zmin : forall a b, min a b = Z.min a b.
Proof.
  intros a b. unfold min. destruct (Z.ltb_spec a b); lia.
Qed.

Lemma min_cases : forall a b,
  (min a b = a /\ a <= b) \/ (min a b = b /\ b < a).
Proof.
  intros a b. unfold min. destruct (Z.ltb_spec a b); lia.
Qed.

(** ** Slices and writes *)

Lemma firstn_firstn_skipn : forall (A : Type) (n1 n2 : nat) (l : list A),
  firstn n1 l ++ firstn n2 (skipn n1 l) = firstn (n1 + n2) l.
Proof.
  induction n1 as [|n1 IH]; intros n2 l; simpl.
  - reflexivity.
  - destruct l as [|x l]; simpl.
    + now rewrite firstn_nil.
    + now rewrite IH.
Qed.

Lemma skipn_skipn_add : forall (A : Type) (n1 n2 : nat) (l : list A),
  skipn n2 (skipn n1 l) = skipn (n1 + n2) l.
Proof.
  induction n1 as [|n1 IH]; intros n2 l; simpl.
  - reflexivity.
  - destruct l as [|x l]; simpl.
    + now rewrite skipn_nil.
    + apply IH.
Qed.

Lemma slice_app : forall l off n1 n2,
  0 <= off -> 0 <= n1 -> 0 <= n2 ->
  slice l off n1 ++ slice l (off + n1) n2 = slice l off (n1 + n2).
Proof.
  intros l off n1 n2 Hoff H1 H2. unfold slice.
  rewrite (Z2Nat.inj_add off n1), (Z2Nat.inj_add n1 n2) by lia.
  rewrite <- skipn_skipn_add. apply firstn_firstn_skipn.
Qed.

Lemma slice_length : forall l off len,
  0 <= off -> 0 <= len -> off + len <= Z.of_nat (length l) ->
  length (slice l off len) = Z.to_nat len.
Proof.
  intros l off len Hoff Hlen Hle. unfold slice.
  rewrite length_firstn, length_skipn. lia.
Qed.

Lemma slice_zero_len : forall l off, slice l off 0 = [].
Proof. intros. unfold slice. reflexivity. Qed.

Lemma slice_full : forall l, slice l 0 (Z.of_nat (length l)) = l.
Proof.
  intros l. unfold slice. simpl. rewrite Nat2Z.id. apply firstn_all.
Qed.

Lemma slice_firstn_skipn : forall l off n,
  0 <= off -> 0 <= n ->
  firstn (Z.to_nat n) (skipn (Z.to_nat off) l) = slice l off n.
Proof. reflexivity. Qed.

Lemma slice_skipn : forall l a off n,
  0 <= a -> 0 <= off ->
  slice (skipn (Z.to_nat a) l) off n = slice l (a + off) n.
Proof.
  intros l a off n Ha Hoff. unfold slice.
  rewrite skipn_skipn_add, Z2Nat.inj_add by lia. reflexivity.
Qed.

Lemma slice_app_left : forall l1 l2 off n,
  0 <= off -> 0 <= n -> off + n <= Z.of_nat (length l1) ->
  slice (l1 ++ l2) off n = slice l1 off n.
Proof.
  intros l1 l2 off n Hoff Hn Hle. unfold slice.
  rewrite skipn_app, firstn_app.
  replace (Z.to_nat n - length (skipn (Z.to_nat off) l1))%nat with 0%nat
    by (rewrite length_skipn; lia).
  simpl. apply app_nil_r.
Qed.

Lemma slice_app_right : forall l1 l2 off n,
  Z.of_nat (length l1) <= off ->
  slice (l1 ++ l2) off n = slice l2 (off - Z.of_nat (length l1)) n.
Proof.
  intros l1 l2 off n Hle. unfold slice.
  rewrite skipn_app, skipn_all2 by lia. simpl.
  replace (Z.to_nat off - length l1)%nat
    with (Z.to_nat (off - Z.of_nat (length l1))) by lia.
  reflexivity.
Qed.

Lemma skipn_repeat_sub : forall (A : Type) (x : A) (n k : nat),
  skipn n (repeat x k) = repeat x (k - n).
Proof.
  induction n as [|n IH]; intros k; simpl.
  - now rewrite Nat.sub_0_r.
  - destruct k; simpl; [reflexivity | apply IH].
Qed.

Lemma firstn_repeat_le : forall (A : Type) (x : A) (n k : nat),
  (n <= k)%nat -> firstn n (repeat x k) = repeat x n.
Proof.
  induction n as [|n IH]; intros k Hle; simpl.
  - reflexivity.
  - destruct k; [lia|]. simpl. f_equal. apply IH. lia.
Qed.

Lemma slice_zeros : forall k off n,
  0 <= off -> 0 <= n -> off + n <= k -> slice (zeros k) off n = zeros n.
Proof.
  intros k off n Hoff Hn Hle. unfold slice, zeros.
  rewrite skipn_repeat_sub, firstn_repeat_le by lia. reflexivity.
Qed.

Lemma zeros_length : forall n, length (zeros n) = Z.to_nat n.
Proof. intros. unfold zeros. apply repeat_length. Qed.

Lemma write_bytes_nil : forall dst off, write_bytes dst off [] = dst.
Proof.
  intros. unfold write_bytes. simpl. rewrite Nat.add_0_r.
  apply firstn_skipn.
Qed.

Lemma write_bytes_length : forall dst off bs,
  0 <= off -> off + Z.of_nat (length bs) <= Z.of_nat (length dst) ->
  length (write_bytes dst off bs) = length dst.
Proof.
  intros dst off bs Hoff Hle. unfold write_bytes.
  rewrite !length_app, length_firstn, length_skipn. lia.
Qed.

Lemma write_bytes_app : forall dst off a b,
  0 <= off -> off <= Z.of_nat (length dst) ->
  write_bytes (write_bytes dst off a) (off + Z.of_nat (length a)) b
  = write_bytes dst off (a ++ b).
Proof.
  intros dst off a b Hoff Hle. unfold write_bytes.
  assert (Hf : length (firstn (Z.to_nat off) dst) = Z.to_nat off)
    by (rewrite length_firstn; lia).
  replace (Z.to_nat (off + Z.of_nat (length a)))
    with (length (firstn (Z.to_nat off) dst ++ a))
    by (rewrite length_app, Hf; lia).
  rewrite (app_assoc (firstn (Z.to_nat off) dst) a).
  rewrite firstn_app, firstn_all, Nat.sub_diag. simpl. rewrite app_nil_r.
  rewrite <- !app_assoc. f_equal. f_equal. f_equal.
  rewrite (app_assoc (firstn (Z.to_nat off) dst) a).
  rewrite skipn_app.
  rewrite skipn_all2 by lia. simpl.
  rewrite skipn_skipn_add. f_equal.
  rewrite !length_app, Hf. lia.
Qed.

Lemma firstn_write_bytes : forall dst off bs,
  0 <= off -> off <= Z.of_nat (length dst) ->
  firstn (Z.to_nat off + length bs) (write_bytes dst off bs)
  = firstn (Z.to_nat off) dst ++ bs.
Proof.
  intros dst off bs Hoff Hle. unfold write_bytes.
  assert (Hf : length (firstn (Z.to_nat off) dst) = Z.to_nat off)
    by (rewrite length_firstn; lia).
  rewrite app_assoc.
  replace (Z.to_nat off + length bs)%nat
    with (length (firstn (Z.to_nat off) dst ++ bs))
    by (rewrite length_app, Hf; lia).
  rewrite firstn_app, firstn_all, Nat.sub_diag. simpl. apply app_nil_r.
Qed.

Lemma slice_write_same : forall dst off bs,
  0 <= off -> off <= Z.of_nat (length dst) ->
  slice (write_bytes dst off bs) off (Z.of_nat (length bs)) = bs.
Proof.
  intros dst off bs Hoff Hle. unfold slice, write_bytes.
  assert (Hf : length (firstn (Z.to_nat off) dst) = Z.to_nat off)
    by (rewrite length_firstn; lia).
  rewrite skipn_app, skipn_all2 by lia. simpl.
  rewrite Hf, Nat.sub_diag. simpl.
  rewrite Nat2Z.id, firstn_app, firstn_all, Nat.sub_diag. simpl.
  apply app_nil_r.
Qed.

Lemma slice_write_before : forall dst off bs o n,
  0 <= o -> 0 <= n -> o + n <= off -> off <= Z.of_nat (length dst) ->
  slice (write_bytes dst off bs) o n = slice dst o n.
Proof.
  intros dst off bs o n Ho Hn Hle Hlen. unfold write_bytes.
  rewrite slice_app_left.
  - unfold slice. rewrite skipn_firstn_comm, firstn_firstn.
    f_equal. lia.
  - exact Ho.
  - exact Hn.
  - rewrite length_firstn. lia.
Qed.

Lemma slice_write_after : forall dst off bs o n,
  0 <= off -> off + Z.of_nat (length bs) <= o ->
  off + Z.of_nat (length bs) <= Z.of_nat (length dst) ->
  slice (write_bytes dst off bs) o n = slice dst o n.
Proof.
  intros dst off bs o n Hoff Hle Hlen. unfold write_bytes.
  assert (Hf : length (firstn (Z.to_nat off) dst) = Z.to_nat off)
    by (rewrite length_firstn; lia).
  rewrite app_assoc, slice_app_right by (rewrite length_app, Hf; lia).
  unfold slice. rewrite skipn_skipn_add. f_equal. f_equal.
  rewrite length_app, Hf. lia.
Qed.

Lemma le_decode_bytes_of_u32 : forall v, le_decode (bytes_of_u32 v) = u32 v.
Proof.
  intros v. unfold bytes_of_u32, le_decode, u32.
  apply Z.mod_unique with (q := v / 16777216 / 256).
  - left.
    pose proof (Z.mod_pos_bound v 256 eq_refl).
    pose proof (Z.mod_pos_bound (v / 256) 256 eq_refl).
    pose proof (Z.mod_pos_bound (v / 65536) 256 eq_refl).
    pose proof (Z.mod_pos_bound (v / 16777216) 256 eq_refl).
    lia.
  - pose proof (Z.div_mod v 256 ltac:(lia)) as E0.
    pose proof (Z.div_mod (v / 256) 256 ltac:(lia)) as E1.
    pose proof (Z.div_mod (v / 65536) 256 ltac:(lia)) as E2.
    pose proof (Z.div_mod (v / 16777216) 256 ltac:(lia)) as E3.
    rewrite Z.div_div in E1 by lia.
    rewrite Z.div_div in E2 by lia.
    change (256 * 256) with 65536 in E1.
    change (65536 * 256) with 16777216 in E2.
    change (2 ^ 32) with 4294967296.
    lia.
Qed.

Lemma load_store_same : forall l off v,
  0 <= off -> off <= Z.of_nat (length l) ->
  load_u32 (store_u32 l off v) off = u32 v.
Proof.
  intros l off v Hoff Hle. unfold load_u32, store_u32.
  change 4 with (Z.of_nat (length (bytes_of_u32 v))).
  rewrite slice_write_same by assumption.
  apply le_decode_bytes_of_u32.
Qed.

Lemma load_store_before : forall l off v o,
  0 <= o -> o + 4 <= off -> off <= Z.of_nat (length l) ->
  load_u32 (store_u32 l off v) o = load_u32 l o.
Proof.
  intros l off v o Ho Hle Hlen. unfold load_u32, store_u32.
  now rewrite slice_write_before by lia.
Qed.

Lemma load_store_after : forall l off v o,
  0 <= off -> off + 4 <= o -> off + 4 <= Z.of_nat (length l) ->
  load_u32 (store_u32 l off v) o = load_u32 l o.
Proof.
  intros l off v o Hoff Hle Hlen. unfold load_u32, store_u32.
  now rewrite slice_write_after by (simpl; lia).
Qed.

Lemma store_u32_length : forall l off v,
  0 <= off -> off + 4 <= Z.of_nat (length l) ->
  length (store_u32 l off v) = length l.
Proof.
  intros l off v Hoff Hle. unfold store_u32.
  apply write_bytes_length; simpl; lia.
Qed.

(** ** Memory regions *)

Lemma region_eqb_refl : forall r, region_eqb r r = true.
Proof. destruct r; simpl; auto using Nat.eqb_refl. Qed.

Lemma region_eqb_eq : forall r1 r2, region_eqb r1 r2 = true <-> r1 = r2.
Proof.
  intros r1 r2. split.
  - destruct r1, r2; simpl; intros H; try discriminate; try reflexivity.
    apply Nat.eqb_eq in H. now subst.
  - intros ->. apply region_eqb_refl.
Qed.

Lemma mem_set_same : forall m r v, mem_set m r v r = v.
Proof. intros. unfold mem_set. now rewrite region_eqb_refl. Qed.

Lemma mem_set_other : forall m r v r', r <> r' -> mem_set m r v r' = m r'.
Proof.
  intros m r v r' Hne. unfold mem_set.
  destruct (region_eqb r r') eqn:E; [|reflexivity].
  apply region_eqb_eq in E. contradiction.
Qed.

(** ** The control-code table and the dispatcher's range check *)

Lemma ioctl_function_nonneg : forall ioctl, 0 <= ioctl_function ioctl.
Proof.
  intros ioctl. unfold ioctl_function.
  apply Z.shiftr_nonneg. apply Z.land_nonneg. right. lia.
Qed.

Lemma table_row_exists : forall D f,
  0 <= f < ARRAY_SIZEOF (gIoctlParams D) ->
  exists p, nth_error (gIoctlParams D) (Z.to_nat f) = Some p.
Proof.
  intros D f Hf.
  destruct (nth_error (gIoctlParams D) (Z.to_nat f)) eqn:E.
  - eauto.
  - apply nth_error_None in E. unfold ARRAY_SIZEOF in Hf. lia.
Qed.

(** C10 (fails on the code).  The range check of line 176 lets the
    function index 8 through, which is the number of rows of
    [gIoctlParams], and line 180/183 then reads row 8 of a table whose
    rows are 0 to 7.  Control code 0x20 has function index 8. *)
Theorem C10_index_equal_to_table_size_passes_range_check :
  forall D Q c m tr pool inLen outLen buffer,
    let irp := control_irp 0x20 inLen outLen buffer in
    ioctl_function (IoControlCode irp) = ARRAY_SIZEOF (gIoctlParams D) /\
    (ioctl_function (IoControlCode irp) >? ARRAY_SIZEOF (gIoctlParams D))
      = false /\
    nth_error (gIoctlParams D) (Z.to_nat (ioctl_function (IoControlCode irp)))
      = None /\
    DispatchDeviceControl D Q irp
      {| FsContext2 := Some c; Mem := m; Trace := tr; PoolAvailable := pool |}
    = Faulted OutOfBoundsRead.
Proof.
  intros. repeat split; reflexivity.
Qed.

(** ** Validation of control requests *)

Lemma known_code_false : forall D ioctl,
  known_code D ioctl = false ->
  Forall (fun code => (ioctl =? code) = false) (known_codes D).
Proof.
  intros D ioctl H. unfold known_code in H.
  apply Forall_forall. intros code Hin.
  destruct (ioctl =? code) eqn:E; [|reflexivity].
  assert (existsb (Z.eqb ioctl) (known_codes D) = true)
    by (apply existsb_exists; eauto).
  congruence.
Qed.

Lemma ioctl_switch_unknown : forall D Q irp c s outReq,
  known_code D (IoControlCode irp) = false ->
  ioctl_switch D Q irp c s outReq
  = Done (CompleteIrp STATUS_INVALID_DEVICE_REQUEST 0, s).
Proof.
  intros D Q irp c s outReq H. apply known_code_false in H.
  unfold known_codes in H.
  repeat match goal with
         | H : Forall _ (_ :: _) |- _ => inversion H; subst; clear H
         end.
  unfold ioctl_switch.
  repeat match goal with
         | E : (_ =? _) = false |- _ => rewrite E; clear E
         end.
  reflexivity.
Qed.

(** C4 (as stated it fails).  An unknown control code whose function index
    selects the row of [IoctlSetSnapLength] and that comes with no input
    is answered [STATUS_BUFFER_TOO_SMALL], not
    [STATUS_INVALID_DEVICE_REQUEST]: the lengths are checked against the
    row before the [switch] rejects the code. *)
Lemma C4_unknown_code_is_length_checked_first :
  let irp := control_irp 0x23200c 0 0 false in
  let s := machine_of (fresh_context RestartStateNormal []) empty_memory in
  known_code example_declarations (IoControlCode irp) = false /\
  DispatchDeviceControl example_declarations example_queue_manager irp s
  = Done (CompleteIrp STATUS_BUFFER_TOO_SMALL 0, s).
Proof.
  split; reflexivity.
Qed.

(** C4 (amended).  A control request on an open reader whose function
    index is not the number of table rows is validated before anything is
    executed: a function index beyond the table yields InvalidRequest; a
    declared input or output length below the length the selected row
    requires for the request's width yields BufferTooSmall; otherwise a
    nonzero required length with a null buffer yields InvalidParameter;
    otherwise an unknown operation code yields InvalidRequest.  In each of
    these cases the machine is left as it was. *)
Theorem C4_validation_before_execution :
  forall D Q irp s c,
    FsContext2 s = Some c ->
    ioctl_function (IoControlCode irp) <> ARRAY_SIZEOF (gIoctlParams D) ->
    let ioctl := IoControlCode irp in
    let f := ioctl_function ioctl in
    let w := ioctl_is64Bit ioctl in
    (ARRAY_SIZEOF (gIoctlParams D) < f ->
     DispatchDeviceControl D Q irp s
     = Done (CompleteIrp STATUS_INVALID_DEVICE_REQUEST 0, s)) /\
    (f < ARRAY_SIZEOF (gIoctlParams D) ->
     exists p,
       nth_error (gIoctlParams D) (Z.to_nat f) = Some p /\
       (InputBufferLength irp < required_input w p \/
        OutputBufferLength irp < required_output w p ->
        DispatchDeviceControl D Q irp s
        = Done (CompleteIrp STATUS_BUFFER_TOO_SMALL 0, s)) /\
       (required_input w p <= InputBufferLength irp ->
        required_output w p <= OutputBufferLength irp ->
        required_input w p <> 0 \/ required_output w p <> 0 ->
        HasSystemBuffer irp = false ->
        DispatchDeviceControl D Q irp s
        = Done (CompleteIrp STATUS_INVALID_PARAMETER 0, s)) /\
       (required_input w p <= InputBufferLength irp ->
        required_output w p <= OutputBufferLength irp ->
        (required_input w p = 0 /\ required_output w p = 0) \/
        HasSystemBuffer irp = true ->
        known_code D ioctl = false ->
        DispatchDeviceControl D Q irp s
        = Done (CompleteIrp STATUS_INVALID_DEVICE_REQUEST 0, s))).
Proof.
  intros D Q irp s c Hc Hne ioctl f w.
  pose proof (ioctl_function_nonneg ioctl) as Hrange. fold f in Hrange.
  split.
  - intros Hgt. unfold DispatchDeviceControl. rewrite Hc.
    fold ioctl. fold f.
    destruct (Z.gtb_spec f (ARRAY_SIZEOF (gIoctlParams D))); [reflexivity|lia].
  - intros Hlt.
    destruct (table_row_exists D f ltac:(lia)) as [p Hp].
    exists p. split; [exact Hp|].
    assert (Hhead : forall k,
      (let inBufLenReq := required_input w p in
       let outBufLenReq := required_output w p in
       if (InputBufferLength irp <? inBufLenReq)
          || (OutputBufferLength irp <? outBufLenReq)
       then Done (CompleteIrp STATUS_BUFFER_TOO_SMALL 0, s)
       else if (negb (inBufLenReq =? 0) || negb (outBufLenReq =? 0))
               && negb (HasSystemBuffer irp)
       then Done (CompleteIrp STATUS_INVALID_PARAMETER 0, s)
       else ioctl_switch D Q irp c s outBufLenReq) = k ->
      DispatchDeviceControl D Q irp s = k).
    { intros k <-. unfold DispatchDeviceControl. rewrite Hc.
      fold ioctl. fold f. fold w.
      destruct (Z.gtb_spec f (ARRAY_SIZEOF (gIoctlParams D))); [lia|].
      rewrite Hp. reflexivity. }
    repeat split.
    + intros Hshort. apply Hhead. cbv zeta.
      destruct (Z.ltb_spec (InputBufferLength irp) (required_input w p));
        [reflexivity|].
      destruct (Z.ltb_spec (OutputBufferLength irp) (required_output w p));
        [reflexivity|]. lia.
    + intros Hin Hout Hreq Hnull. apply Hhead. cbv zeta.
      destruct (Z.ltb_spec (InputBufferLength irp) (required_input w p));
        [lia|].
      destruct (Z.ltb_spec (OutputBufferLength irp) (required_output w p));
        [lia|]. simpl.
      rewrite Hnull. simpl.
      destruct (Z.eqb_spec (required_input w p) 0);
        destruct (Z.eqb_spec (required_output w p) 0);
        simpl; try reflexivity. lia.
    + intros Hin Hout Hbuf Hunknown. apply Hhead. cbv zeta.
      destruct (Z.ltb_spec (InputBufferLength irp) (required_input w p));
        [lia|].
      destruct (Z.ltb_spec (OutputBufferLength irp) (required_output w p));
        [lia|]. simpl.
      rewrite ioctl_switch_unknown by exact Hunknown.
      destruct Hbuf as [[-> ->] | ->]; simpl.
      * reflexivity.
      * rewrite andb_false_r. reflexivity.
Qed.

Lemma C4_validation_witness :
  let irp := control_irp 0x22200c 2 0 true in
  let s := machine_of (fresh_context RestartStateNormal []) empty_memory in
  DispatchDeviceControl example_declarations example_queue_manager irp s
  = Done (CompleteIrp STATUS_BUFFER_TOO_SMALL 0, s).
Proof.
  intros irp s.
  destruct (C4_validation_before_execution example_declarations
              example_queue_manager irp s
              (fresh_context RestartStateNormal []) eq_refl
              ltac:(vm_compute; discriminate)) as [_ Hrow].
  destruct (Hrow ltac:(vm_compute; reflexivity)) as [p [Hp [Hshort _]]].
  apply Hshort. left.
  vm_compute in Hp. injection Hp as <-. vm_compute. reflexivity.
Defined.

(** ** Replacing a filter array *)

Lemma SetIdList_installs : forall c idListType buffer bufferLen tr,
  4 <= bufferLen ->
  SetIdList c idListType (Some buffer) bufferLen true tr
  = let numIds := bufferLen / sizeof_UINT32 in
    let ids := build_ids numIds buffer in
    Done (set_id_list_target idListType (Some ids) c,
          tr ++ [EvExAllocatePoolWithTag ((numIds + 1) * sizeof_UINT32) true]
             ++ [EvInterlockedExchangePointer idListType (Some ids)]
             ++ match id_list_target idListType c with
                | Some old => [EvExFreePool old]
                | None => []
                end).
Proof.
  intros c idListType buffer bufferLen tr Hlen. unfold SetIdList.
  assert (Hn : (bufferLen / sizeof_UINT32 =? 0) = false).
  { apply Z.eqb_neq. unfold sizeof_UINT32.
    pose proof (Z.div_le_mono 4 bufferLen 4 ltac:(lia) Hlen) as H.
    change (4 / 4) with 1 in H. lia. }
  rewrite Hn. simpl.
  destruct (id_list_target idListType c); simpl;
    rewrite <- ?app_assoc; reflexivity.
Qed.

(** C6 (fails on the code).  When [ExAllocatePoolWithTag] returns no
    memory for a replacement array of at least one id, [SetIdList] stores
    the count through the null pointer (line 505): the control operation
    is not aborted and nothing is reported to the caller.  The same
    happens through [DispatchDeviceControl] for a FilterProcesses request
    carrying one id. *)
Theorem C6_failed_allocation_is_dereferenced :
  (forall c idListType buffer (extra : nat) tr,
     SetIdList c idListType buffer (4 + Z.of_nat extra) false tr
     = Faulted NullPointerAccess) /\
  (forall c m tr,
     DispatchDeviceControl example_declarations example_queue_manager
       (control_irp (IOCTL_KPH_FILTER_PROCESSES example_declarations) 4 0 true)
       {| FsContext2 := Some c; Mem := m; Trace := tr;
          PoolAvailable := false |}
     = Faulted NullPointerAccess).
Proof.
  split.
  - intros c idListType buffer extra tr. unfold SetIdList.
    assert (Hn : ((4 + Z.of_nat extra) / sizeof_UINT32 =? 0) = false).
    { apply Z.eqb_neq. unfold sizeof_UINT32.
      pose proof (Z.div_le_mono 4 (4 + Z.of_nat extra) 4 ltac:(lia)
                    ltac:(lia)) as H.
      change (4 / 4) with 1 in H. lia. }
    rewrite Hn. reflexivity.
  - intros c m tr. reflexivity.
Qed.

(** ** Structure of one loop iteration *)

Section LoopStructure.

Variable D : Declarations.

Lemma RtlCopyMemory_frame : forall m dst doff src soff len r,
  r <> dst -> RtlCopyMemory m dst doff src soff len r = m r.
Proof.
  intros. unfold RtlCopyMemory. apply mem_set_other. congruence.
Qed.

Lemma RtlZeroMemory_frame : forall m dst doff len r,
  r <> dst -> RtlZeroMemory m dst doff len r = m r.
Proof.
  intros. unfold RtlZeroMemory. apply mem_set_other. congruence.
Qed.

Lemma store_field_frame : forall m dst off v r,
  r <> dst -> store_field m dst off v r = m r.
Proof.
  intros. unfold store_field. apply mem_set_other. congruence.
Qed.

(** The copy routines write to the system buffer only. *)
Lemma copy_header_frame : forall readLength k r,
  r <> SystemBuffer -> cmem (copy_header D readLength k) r = cmem k r.
Proof.
  intros readLength k r Hr. unfold copy_header.
  destruct (bo k <? _); [|reflexivity].
  simpl. now apply RtlCopyMemory_frame.
Qed.

Lemma copy_data_frame : forall c b readLength k r,
  r <> SystemBuffer -> cmem (copy_data D c b readLength k) r = cmem k r.
Proof.
  intros c b readLength k r Hr. unfold copy_data.
  destruct (_ && _); [|reflexivity].
  simpl. now apply RtlCopyMemory_frame.
Qed.

Lemma copy_padding_frame : forall c readLength k r,
  r <> SystemBuffer -> cmem (copy_padding c readLength k) r = cmem k r.
Proof.
  intros c readLength k r Hr. unfold copy_padding.
  destruct (_ && _); [|reflexivity].
  destruct (_ <=? _); simpl; now apply RtlZeroMemory_frame.
Qed.

Lemma copy_footer_frame : forall c blockLength readLength k r,
  r <> SystemBuffer ->
  cmem (copy_footer c blockLength readLength k) r = cmem k r.
Proof.
  intros c blockLength readLength k r Hr. unfold copy_footer.
  destruct (_ && _); [|reflexivity].
  simpl. now apply RtlCopyMemory_frame.
Qed.

Lemma copy_verbatim_frame : forall b blockLength readLength k r,
  r <> SystemBuffer ->
  cmem (copy_verbatim b blockLength readLength k) r = cmem k r.
Proof.
  intros. unfold copy_verbatim. simpl. now apply RtlCopyMemory_frame.
Qed.

Lemma copy_block_frame : forall c b readLength k r,
  r <> SystemBuffer -> cmem (copy_block D c b readLength k) r = cmem k r.
Proof.
  intros c b readLength k r Hr. unfold copy_block.
  destruct (trimming D (cmem k)).
  - rewrite copy_footer_frame, copy_padding_frame, copy_data_frame,
      copy_header_frame by assumption. reflexivity.
  - now apply copy_verbatim_frame.
Qed.

Lemma serve_block_frame : forall readLength b s r,
  r <> SystemBuffer -> mem (serve_block D readLength b s) r = mem s r.
Proof.
  intros readLength b s r Hr. unfold serve_block.
  destruct (_ <=? _); simpl; now rewrite copy_block_frame.
Qed.

Lemma serve_block_context : forall readLength b s,
  context (serve_block D readLength b s) = context s.
Proof.
  intros. unfold serve_block. destruct (_ <=? _); reflexivity.
Qed.

Lemma serve_block_blockNode : forall readLength b s,
  blockNode (serve_block D readLength b s) = None \/
  blockNode (serve_block D readLength b s) = Some b.
Proof.
  intros. unfold serve_block. destruct (_ <=? _); simpl; auto.
Qed.

(** Trimming writes to the two scratch structures only, and changes the
    three overlay offsets only. *)
Lemma trim_block_frame : forall c m b r,
  r <> ModifiedHeader -> r <> ModifiedFooter ->
  snd (trim_block D c m b) r = m r.
Proof.
  intros c m b r Hh Hf. unfold trim_block.
  destruct (_ && _); [|reflexivity]. simpl.
  rewrite !store_field_frame, !RtlCopyMemory_frame by assumption.
  reflexivity.
Qed.

Lemma trim_block_context : forall c m b,
  exists de mf og,
    fst (trim_block D c m b) = c \/
    (fst (trim_block D c m b) = set_overlay de mf og c /\
     is_u32 de /\ is_u32 mf /\ is_u32 og).
Proof.
  intros c m b. unfold trim_block.
  destruct (_ && _).
  - do 3 eexists. right. simpl. split; [reflexivity|].
    unfold add32, sub32. auto using u32_is_u32.
  - exists 0, 0, 0. now left.
Qed.

(** Case analysis of lines 310-377, the part of an iteration that runs
    when no block is held. *)
Lemma next_block_cases : forall readLength s (P : loop_exit -> Prop),
  let c := context s in
  (RestartRequested c = 1 ->
   P (Break {| context :=
                 set_RestartState
                   (if negb (readOffset s =? 0) then RestartStateSendEof
                    else RestartStateInit) (set_RestartRequested 0 c);
               mem := mem s; trace := trace s; blockNode := None;
               blockOffset := blockOffset s;
               readOffset := readOffset s |})) ->
  (RestartRequested c <> 1 -> Reader c = [] ->
   P (Break {| context := c; mem := mem s;
               trace := trace s ++ [EvQmDequeueBlock None];
               blockNode := None; blockOffset := 0;
               readOffset := readOffset s |})) ->
  (forall b rest tr2,
     RestartRequested c <> 1 -> Reader c = b :: rest ->
     BlockType b = PacketBlock ->
     filter_block (set_Reader rest c) b
       (trace s ++ [EvQmDequeueBlock (Some b)]) = (true, tr2) ->
     P (Continue {| context := set_Reader rest c;
                    mem := store_field (mem s) ModifiedHeader
                             (offsetof_HEADER_BlockType D) 0;
                    trace := tr2 ++ [EvQmCleanupBlock b];
                    blockNode := None; blockOffset := 0;
                    readOffset := readOffset s |})) ->
  (forall b rest tr2 c2 m2,
     RestartRequested c <> 1 -> Reader c = b :: rest ->
     BlockType b = PacketBlock ->
     filter_block (set_Reader rest c) b
       (trace s ++ [EvQmDequeueBlock (Some b)]) = (false, tr2) ->
     trim_block D (set_Reader rest c)
       (store_field (mem s) ModifiedHeader (offsetof_HEADER_BlockType D) 0) b
     = (c2, m2) ->
     P (Continue (serve_block D readLength b
                    {| context := c2; mem := m2; trace := tr2;
                       blockNode := Some b; blockOffset := 0;
                       readOffset := readOffset s |}))) ->
  (forall b rest,
     RestartRequested c <> 1 -> Reader c = b :: rest ->
     BlockType b = OtherBlock ->
     P (Continue (serve_block D readLength b
                    {| context := set_Reader rest c;
                       mem := store_field (mem s) ModifiedHeader
                                (offsetof_HEADER_BlockType D) 0;
                       trace := trace s ++ [EvQmDequeueBlock (Some b)];
                       blockNode := Some b; blockOffset := 0;
                       readOffset := readOffset s |}))) ->
  P (next_block D readLength s).
Proof.
  intros readLength s P c Hrestart Hempty Hfiltered Hpacket Hother.
  unfold next_block. fold c.
  destruct (Z.eqb_spec (RestartRequested c) 1) as [E|E].
  - now apply Hrestart.
  - destruct (Reader c) as [|b rest] eqn:Eq.
    + now apply Hempty.
    + destruct (BlockType b) eqn:Et.
      * destruct (filter_block (set_Reader rest c) b
                    (trace s ++ [EvQmDequeueBlock (Some b)]))
          as [filter tr2] eqn:Ef.
        destruct filter.
        -- now apply (Hfiltered b rest tr2).
        -- destruct (trim_block D (set_Reader rest c) _ b) as [c2 m2] eqn:Etr.
           now apply (Hpacket b rest tr2 c2 m2).
      * now apply (Hother b rest).
Qed.

End LoopStructure.

(** ** The loop as a sequence of iterations *)

Section LoopRuns.

Variable D : Declarations.

Lemma read_loop_inv : forall fuel readLength s s',
  read_loop D fuel readLength s = Some s' ->
  exists s1,
    continues D readLength s s1 /\
    ((readLength <= readOffset s1 /\ s' = s1) \/
     (readOffset s1 < readLength /\ loop_body D readLength s1 = Break s')).
Proof.
  induction fuel as [|fuel IH]; intros readLength s s' H; simpl in H.
  - destruct (Z.ltb_spec (readOffset s) readLength); [discriminate|].
    injection H as <-. exists s. split; [constructor|]. left. auto.
  - destruct (Z.ltb_spec (readOffset s) readLength) as [Hlt|Hge].
    + destruct (loop_body D readLength s) as [s1|s1] eqn:Eb.
      * destruct (IH _ _ _ H) as [s2 [Hc Hend]].
        exists s2. split; [|exact Hend].
        econstructor; eassumption.
      * injection H as <-. exists s. split; [constructor|]. right. auto.
    + injection H as <-. exists s. split; [constructor|]. left. auto.
Qed.

(** A property of pairs of loop states that every iteration establishes
    and that is reflexive and transitive holds along [continues]. *)
Lemma continues_ind_rel : forall readLength (R : loop_state -> loop_state -> Prop),
  (forall s, R s s) ->
  (forall a b c, R a b -> R b c -> R a c) ->
  (forall s s1, loop_body D readLength s = Continue s1 -> R s s1) ->
  forall s s', continues D readLength s s' -> R s s'.
Proof.
  intros readLength R Hrefl Htrans Hstep s s' H.
  induction H; eauto.
Qed.

Lemma same_settings_refl : forall c, same_settings c c.
Proof. intros. unfold same_settings. auto. Qed.

Lemma same_settings_trans : forall a b c,
  same_settings a b -> same_settings b c -> same_settings a c.
Proof.
  unfold same_settings. intros a b c (?&?&?&?) (?&?&?&?).
  repeat split; congruence.
Qed.

Lemma same_settings_set_overlay : forall c de mf og,
  same_settings c (set_overlay de mf og c).
Proof. intros. unfold same_settings. simpl. auto. Qed.

Lemma trim_block_quiet : forall c m b c2 m2,
  trim_block D c m b = (c2, m2) ->
  RestartState c2 = RestartState c /\
  RestartRequested c2 = RestartRequested c /\
  Reader c2 = Reader c /\
  CurrentBlock c2 = CurrentBlock c /\
  CurrentBlockOffset c2 = CurrentBlockOffset c /\
  same_settings c c2 /\
  (forall a, m2 (BlockStorage a) = m (BlockStorage a)) /\
  m2 SystemBuffer = m SystemBuffer.
Proof.
  intros c m b c2 m2 H.
  assert (Hm : forall r, r <> ModifiedHeader -> r <> ModifiedFooter ->
                         m2 r = m r).
  { intros r H1 H2. pose proof (trim_block_frame D c m b r H1 H2) as F.
    now rewrite H in F. }
  destruct (trim_block_context D c m b) as (de & mf & og & Hc).
  rewrite H in Hc. simpl in Hc.
  assert (Hb : forall a, m2 (BlockStorage a) = m (BlockStorage a))
    by (intros; apply Hm; discriminate).
  assert (Hs : m2 SystemBuffer = m SystemBuffer) by (apply Hm; discriminate).
  destruct Hc as [-> | [-> _]]; simpl;
    repeat split; auto.
Qed.

Lemma loop_body_quiet : forall readLength s s1,
  loop_body D readLength s = Continue s1 -> quiet_step s s1.
Proof.
  intros readLength s s1. unfold loop_body, quiet_step.
  destruct (blockNode s) as [b|].
  - intros H. injection H as <-.
    rewrite serve_block_context.
    split; [reflexivity|]. split; [reflexivity|].
    split; [unfold same_settings; simpl; auto|].
    intros a. apply serve_block_frame. discriminate.
  - apply next_block_cases; try discriminate.
    + intros b rest tr2 _ _ _ _ H. injection H as <-. simpl.
      split; [reflexivity|]. split; [reflexivity|].
      split; [unfold same_settings; simpl; auto|].
      intros a. apply store_field_frame. discriminate.
    + intros b rest tr2 c2 m2 _ _ _ _ Htrim H. injection H as <-.
      rewrite serve_block_context. simpl.
      destruct (trim_block_quiet _ _ _ _ _ Htrim)
        as (H1 & H2 & _ & _ & _ & H3 & H4 & _).
      simpl in *.
      split; [exact H1|]. split; [exact H2|]. split; [exact H3|].
      intros a. rewrite serve_block_frame by discriminate. simpl.
      rewrite H4. apply store_field_frame. discriminate.
    + intros b rest _ _ _ H. injection H as <-.
      rewrite serve_block_context. simpl.
      split; [reflexivity|]. split; [reflexivity|].
      split; [unfold same_settings; simpl; auto|].
      intros a. rewrite serve_block_frame by discriminate. simpl.
      apply store_field_frame. discriminate.
Qed.

Lemma continues_quiet : forall readLength s s',
  continues D readLength s s' -> quiet_step s s'.
Proof.
  intros readLength. apply continues_ind_rel.
  - intros s. unfold quiet_step. auto using same_settings_refl.
  - unfold quiet_step. intros a b c (?&?&?&?) (?&?&?&?).
    split; [congruence|]. split; [congruence|].
    split; [eapply same_settings_trans; eassumption|].
    intros x. congruence.
  - apply loop_body_quiet.
Qed.

(** The two ways the loop is left by [break]. *)
Lemma loop_body_break : forall readLength s s',
  loop_body D readLength s = Break s' ->
  blockNode s = None /\ blockNode s' = None /\
  mem s' = mem s /\ readOffset s' = readOffset s /\
  same_settings (context s) (context s') /\
  ((RestartRequested (context s) = 1 /\
    RestartRequested (context s') = 0 /\
    RestartState (context s')
      = (if negb (readOffset s =? 0) then RestartStateSendEof
         else RestartStateInit)) \/
   (RestartRequested (context s) <> 1 /\ Reader (context s) = [] /\
    context s' = context s)).
Proof.
  intros readLength s s'. unfold loop_body.
  destruct (blockNode s) as [b|]; [discriminate|].
  apply next_block_cases; try discriminate.
  - intros Hr H. injection H as <-. simpl.
    do 4 (split; [reflexivity|]).
    split; [unfold same_settings; simpl; auto|]. left. auto.
  - intros Hr He H. injection H as <-. simpl.
    do 4 (split; [reflexivity|]).
    split; [unfold same_settings; simpl; auto|]. right. auto.
Qed.

End LoopRuns.

(** ** Effects of the dispatch routines on the machine *)

Section Effects.

Variable D : Declarations.
Variable Q : QueueManager.

Lemma SetIdList_context : forall c idListType buffer bufferLen pool tr c' tr',
  SetIdList c idListType buffer bufferLen pool tr = Done (c', tr') ->
  exists ids, c' = set_id_list_target idListType ids c.
Proof.
  intros c idListType buffer bufferLen pool tr c' tr'. unfold SetIdList.
  destruct (negb _).
  - destruct pool; [|discriminate].
    destruct buffer as [newIds|]; [|discriminate]. simpl.
    destruct (id_list_target idListType c); intros H; injection H as <- _;
      eauto.
  - simpl.
    destruct (id_list_target idListType c); intros H; injection H as <- _;
      eauto.
Qed.

Lemma same_cursor_set_id_list : forall ty ids c,
  same_cursor c (set_id_list_target ty ids c) /\
  SnapLength (set_id_list_target ty ids c) = SnapLength c /\
  SnapLengthPad (set_id_list_target ty ids c) = SnapLengthPad c /\
  RestartRequested (set_id_list_target ty ids c) = RestartRequested c.
Proof.
  intros ty ids c. unfold same_cursor. destruct ty; simpl; tauto.
Qed.

(** A control operation leaves the cursor, the restart state and every
    memory region but the request buffer untouched; only SetSnapLength
    changes the snap length. *)
Lemma DispatchDeviceControl_effect : forall irp s r s' c,
  DispatchDeviceControl D Q irp s = Done (r, s') ->
  FsContext2 s = Some c ->
  exists c',
    FsContext2 s' = Some c' /\
    same_cursor c c' /\
    (forall x, x <> SystemBuffer -> Mem s' x = Mem s x) /\
    (IoControlCode irp <> IOCTL_KPH_SET_SNAP_LENGTH D ->
     SnapLength c' = SnapLength c /\ SnapLengthPad c' = SnapLengthPad c).
Proof.
  intros irp s r s' c H Hc.
  assert (Hswitch : forall o, ioctl_switch D Q irp c s o = Done (r, s') ->
            exists c',
              FsContext2 s' = Some c' /\ same_cursor c c' /\
              (forall x, x <> SystemBuffer -> Mem s' x = Mem s x) /\
              (IoControlCode irp <> IOCTL_KPH_SET_SNAP_LENGTH D ->
               SnapLength c' = SnapLength c /\
               SnapLengthPad c' = SnapLengthPad c)).
  { clear H. intros o. unfold ioctl_switch.
    assert (Hid : exists c', FsContext2 s = Some c' /\ same_cursor c c' /\
              (forall x, x <> SystemBuffer -> Mem s x = Mem s x) /\
              (IoControlCode irp <> IOCTL_KPH_SET_SNAP_LENGTH D ->
               SnapLength c' = SnapLength c /\
               SnapLengthPad c' = SnapLengthPad c)).
    { exists c. unfold same_cursor. repeat split; auto. }
    destruct (Z.eqb_spec (IoControlCode irp) (IOCTL_KPH_FILTER_CONNECTIONS D)).
    { destruct (SetIdList c ConnectionIdList _ _ _ _) as [[c1 tr1]|] eqn:E;
        simpl; [|discriminate].
      intros H. injection H as _ <-.
      apply SetIdList_context in E. destruct E as [ids ->].
      exists (set_id_list_target ConnectionIdList ids c). simpl.
      pose proof (same_cursor_set_id_list ConnectionIdList ids c).
      simpl in *. tauto. }
    destruct (Z.eqb_spec (IoControlCode irp) (IOCTL_KPH_FILTER_PROCESSES D)).
    { destruct (SetIdList c ProcessIdList _ _ _ _) as [[c1 tr1]|] eqn:E;
        simpl; [|discriminate].
      intros H. injection H as _ <-.
      apply SetIdList_context in E. destruct E as [ids ->].
      exists (set_id_list_target ProcessIdList ids c). simpl.
      pose proof (same_cursor_set_id_list ProcessIdList ids c).
      simpl in *. tauto. }
    destruct (Z.eqb_spec (IoControlCode irp) (IOCTL_KPH_MARK_RESTART D)).
    { intros H. injection H as _ <-. simpl.
      eexists. split; [reflexivity|]. unfold same_cursor. simpl.
      repeat split; auto. }
    destruct (Z.eqb_spec (IoControlCode irp) (IOCTL_KPH_SET_SNAP_LENGTH D)).
    { destruct (deref_buffer irp s) as [buffer|]; simpl; [|discriminate].
      destruct (negb _); intros H; injection H as _ <-; simpl.
      - eexists. split; [reflexivity|]. unfold same_cursor. simpl.
        repeat split; auto; contradiction.
      - exact Hid. }
    destruct (Z.eqb_spec (IoControlCode irp) (IOCTL_KPH_GET_SNAP_LENGTH D)).
    { destruct (deref_buffer irp s) as [buffer|]; simpl; [|discriminate].
      intros H. injection H as _ <-. simpl.
      exists c. unfold same_cursor. repeat split; auto.
      intros x Hx. now apply store_field_frame. }
    destruct (Z.eqb_spec (IoControlCode irp) (IOCTL_KPH_SET_DATA_EVENT_32 D)).
    { destruct (deref_buffer irp s) as [buffer|]; simpl; [|discriminate].
      intros H. injection H as _ <-. simpl. exact Hid. }
    destruct (Z.eqb_spec (IoControlCode irp) (IOCTL_KPH_SET_DATA_EVENT_64 D)).
    { destruct (X86 D).
      - intros H. injection H as _ <-. exact Hid.
      - destruct (deref_buffer irp s) as [buffer|]; simpl; [|discriminate].
        intros H. injection H as _ <-. simpl. exact Hid. }
    destruct (Z.eqb_spec (IoControlCode irp)
                (IOCTL_KPH_SET_OPEN_CONNECTIONS D)).
    { intros H. injection H as _ <-. simpl. exact Hid. }
    destruct (Z.eqb_spec (IoControlCode irp) (IOCTL_KPH_GET_STATISTICS D)).
    { destruct (deref_buffer irp s) as [buffer|]; simpl; [|discriminate].
      intros H. injection H as _ <-. simpl.
      exists c. unfold same_cursor. repeat split; auto.
      intros x Hx. now apply mem_set_other. }
    intros H. injection H as _ <-. exact Hid. }
  unfold DispatchDeviceControl in H. rewrite Hc in H.
  assert (Hid : exists c', FsContext2 s = Some c' /\ same_cursor c c' /\
            (forall x, x <> SystemBuffer -> Mem s x = Mem s x) /\
            (IoControlCode irp <> IOCTL_KPH_SET_SNAP_LENGTH D ->
             SnapLength c' = SnapLength c /\
             SnapLengthPad c' = SnapLengthPad c)).
  { exists c. unfold same_cursor. repeat split; auto. }
  destruct (_ >? _).
  { injection H as _ <-. exact Hid. }
  destruct (nth_error _ _) as [params|]; [|discriminate].
  destruct (_ || _).
  { injection H as _ <-. exact Hid. }
  destruct (_ && _).
  { injection H as _ <-. exact Hid. }
  eapply Hswitch. eassumption.
Qed.

Lemma DispatchRead_inv : forall fuel irp s r s',
  DispatchRead D Q fuel irp s = Some (r, s') ->
  (r = CompleteIrp STATUS_INVALID_PARAMETER 0 /\ s' = s /\
   (HasSystemBuffer irp = false \/ FsContext2 s = None)) \/
  (HasSystemBuffer irp = true /\
   exists c0,
     FsContext2 s = Some c0 /\
     ((RestartState c0 = RestartStateSendEof /\
       r = CompleteIrp STATUS_SUCCESS 0 /\
       s' = with_context s (set_RestartState RestartStateInit c0)) \/
      (exists c tr ls,
         check_restart_state Q c0 (Trace s) = inr (c, tr) /\
         read_loop D fuel (ReadLength irp)
           {| context := c; mem := Mem s; trace := tr;
              blockNode := CurrentBlock c;
              blockOffset := CurrentBlockOffset c; readOffset := 0 |}
         = Some ls /\
         r = CompleteIrp STATUS_SUCCESS (readOffset ls) /\
         s' = {| FsContext2 :=
                   Some (set_CurrentBlock (blockNode ls) (blockOffset ls)
                           (context ls));
                 Mem := mem ls; Trace := trace ls;
                 PoolAvailable := PoolAvailable s |}))).
Proof.
  intros fuel irp s r s'. unfold DispatchRead.
  destruct (HasSystemBuffer irp); simpl.
  - destruct (FsContext2 s) as [c0|].
    + intros H. right. split; [reflexivity|]. exists c0.
      split; [reflexivity|].
      destruct (check_restart_state Q c0 (Trace s)) as [[done c]|[c tr]] eqn:E.
      * left. unfold check_restart_state in E.
        destruct (RestartState c0) eqn:Est; try discriminate.
        injection E as <- <-. injection H as <- <-. auto.
      * right. exists c, tr.
        destruct (read_loop D fuel (ReadLength irp) _) as [ls|] eqn:El;
          [|discriminate].
        exists ls. injection H as <- <-. auto.
    + intros H. injection H as <- <-. left. auto.
  - intros H. injection H as <- <-. left. auto.
Qed.

Lemma check_restart_state_inr : forall c0 tr c tr',
  check_restart_state Q c0 tr = inr (c, tr') ->
  (RestartState c0 = RestartStateInit /\
   c = set_RestartState RestartStateNormal
         (set_Reader (QmGetInitialBlocks Q (Reader c0)) c0) /\
   tr' = tr ++ [EvQmGetInitialBlocks]) \/
  (RestartState c0 = RestartStateNormal /\ c = c0 /\ tr' = tr).
Proof.
  intros c0 tr c tr'. unfold check_restart_state.
  destruct (RestartState c0); intros H; try discriminate;
    injection H as <- <-; auto.
Qed.

End Effects.

(** ** Settings along a run *)

Section Settings.

Variable D : Declarations.
Variable Q : QueueManager.

Lemma read_loop_settings : forall fuel readLength s s',
  read_loop D fuel readLength s = Some s' ->
  same_settings (context s) (context s') /\
  (forall a, mem s' (BlockStorage a) = mem s (BlockStorage a)).
Proof.
  intros fuel readLength s s' H.
  destruct (read_loop_inv D _ _ _ _ H) as [s1 [Hc Hend]].
  apply continues_quiet in Hc. destruct Hc as (_ & _ & Hset & Hmem).
  destruct Hend as [[_ ->] | [_ Hb]].
  - auto.
  - apply loop_body_break in Hb.
    destruct Hb as (_ & _ & Hm & _ & Hset' & _).
    split.
    + eapply same_settings_trans; eassumption.
    + intros a. rewrite Hm. apply Hmem.
Qed.

Lemma DispatchRead_settings : forall fuel irp s r s' c,
  DispatchRead D Q fuel irp s = Some (r, s') ->
  FsContext2 s = Some c ->
  exists c',
    FsContext2 s' = Some c' /\ same_settings c c' /\
    (forall a, Mem s' (BlockStorage a) = Mem s (BlockStorage a)).
Proof.
  intros fuel irp s r s' c H Hc.
  apply DispatchRead_inv in H.
  destruct H as [(_ & -> & _) | (_ & c0 & Hc0 & H)].
  - exists c. auto using same_settings_refl.
  - rewrite Hc in Hc0. injection Hc0 as <-.
    destruct H as [(_ & _ & ->) | (c1 & tr & ls & Hchk & Hloop & _ & ->)].
    + eexists. split; [reflexivity|].
      split; [unfold same_settings; simpl; auto | auto].
    + eexists. split; [reflexivity|].
      apply read_loop_settings in Hloop. simpl in Hloop.
      destruct Hloop as [Hset Hmem].
      split; [|exact Hmem].
      apply same_settings_trans with (b := c1).
      * apply check_restart_state_inr in Hchk.
        destruct Hchk as [(_ & -> & _) | (_ & -> & _)];
          unfold same_settings; simpl; auto.
      * apply same_settings_trans with (b := context ls); [exact Hset|].
        unfold same_settings; simpl; auto.
Qed.

(** Requests other than SetSnapLength, and arrivals of blocks, keep the
    snap length. *)
Lemma run_keeps_SnapLength : forall s log s',
  run D Q s log s' ->
  (forall req r, In (req, r) log -> ~ is_set_snap_length D req) ->
  forall c, FsContext2 s = Some c ->
  exists c', FsContext2 s' = Some c' /\ SnapLength c' = SnapLength c.
Proof.
  intros s log s' Hrun. induction Hrun as
    [s | blocks s log s' Hrun IH | req r s s1 log s' Hserve Hrun IH];
    intros Hlog c Hc.
  - eauto.
  - destruct (IH Hlog (set_Reader (Reader c ++ blocks) c)) as [c' [H1 H2]].
    + unfold enqueue. rewrite Hc. reflexivity.
    + exists c'. split; [exact H1|]. rewrite H2. reflexivity.
  - assert (Hstep : exists c1, FsContext2 s1 = Some c1 /\
                               SnapLength c1 = SnapLength c).
    { inversion Hserve; subst.
      - destruct (DispatchRead_settings _ _ _ _ _ c H) as [c1 [H1 [H2 _]]];
          [exact Hc|].
        exists c1. split; [exact H1|]. apply H2.
      - destruct (DispatchDeviceControl_effect D Q _ _ _ _ c H)
          as [c1 [H1 [_ [_ H2]]]]; [exact Hc|].
        exists c1. split; [exact H1|]. apply H2.
        intros E. apply (Hlog (ControlRequest irp buffer) r).
        + now left.
        + exact E. }
    destruct Hstep as [c1 [Hc1 Hs1]].
    destruct (IH (fun req' r' Hin => Hlog req' r' (or_intror Hin)) c1 Hc1)
      as [c' [H1 H2]].
    exists c'. split; [exact H1|]. congruence.
Qed.

Lemma known_codes_distinct_set : forall ioctl,
  NoDup (known_codes D) ->
  ioctl = IOCTL_KPH_SET_SNAP_LENGTH D ->
  ioctl <> IOCTL_KPH_FILTER_CONNECTIONS D /\
  ioctl <> IOCTL_KPH_FILTER_PROCESSES D /\
  ioctl <> IOCTL_KPH_MARK_RESTART D.
Proof.
  intros ioctl Hnd ->. unfold known_codes in Hnd.
  repeat match goal with
         | H : NoDup (_ :: _) |- _ => apply NoDup_cons_iff in H; destruct H
         end.
  simpl in *. repeat split; intros E; intuition congruence.
Qed.

Lemma known_codes_distinct_get : forall ioctl,
  NoDup (known_codes D) ->
  ioctl = IOCTL_KPH_GET_SNAP_LENGTH D ->
  ioctl <> IOCTL_KPH_FILTER_CONNECTIONS D /\
  ioctl <> IOCTL_KPH_FILTER_PROCESSES D /\
  ioctl <> IOCTL_KPH_MARK_RESTART D /\
  ioctl <> IOCTL_KPH_SET_SNAP_LENGTH D.
Proof.
  intros ioctl Hnd ->. unfold known_codes in Hnd.
  repeat match goal with
         | H : NoDup (_ :: _) |- _ => apply NoDup_cons_iff in H; destruct H
         end.
  simpl in *. repeat split; intros E; intuition congruence.
Qed.

Lemma SetSnapLength_effect : forall irp s r s',
  NoDup (known_codes D) ->
  IoControlCode irp = IOCTL_KPH_SET_SNAP_LENGTH D ->
  DispatchDeviceControl D Q irp s = Done (r, s') ->
  Status r = STATUS_SUCCESS ->
  exists c', FsContext2 s' = Some c' /\
             SnapLength c' = load_u32 (Mem s SystemBuffer) 0.
Proof.
  intros irp s r s' Hnd Hcode H Hok.
  destruct (known_codes_distinct_set _ Hnd Hcode) as (N1 & N2 & N3).
  unfold DispatchDeviceControl in H.
  destruct (FsContext2 s) as [c|] eqn:Hc;
    [|injection H as <- _; discriminate].
  destruct (_ >? _); [injection H as <- _; discriminate|].
  destruct (nth_error _ _) as [params|]; [|discriminate].
  destruct (_ || _); [injection H as <- _; discriminate|].
  destruct (_ && _); [injection H as <- _; discriminate|].
  unfold ioctl_switch in H.
  apply Z.eqb_neq in N1, N2, N3. rewrite N1, N2, N3 in H.
  rewrite Hcode, Z.eqb_refl in H.
  unfold deref_buffer, request_buffer in H.
  destruct (HasSystemBuffer irp); [|discriminate]. simpl in H.
  destruct (Z.eqb_spec (SnapLength c) (load_u32 (Mem s SystemBuffer) 0))
    as [E|E]; simpl in H; injection H as _ <-.
  - exists c. auto.
  - eexists. split; reflexivity.
Qed.

Lemma GetSnapLength_effect : forall irp s r s' c,
  NoDup (known_codes D) ->
  ioctl_function (IOCTL_KPH_GET_SNAP_LENGTH D) = 4 ->
  IoControlCode irp = IOCTL_KPH_GET_SNAP_LENGTH D ->
  FsContext2 s = Some c ->
  DispatchDeviceControl D Q irp s = Done (r, s') ->
  Status r = STATUS_SUCCESS ->
  load_u32 (Mem s' SystemBuffer) 0 = u32 (SnapLength c) /\ Information r = 4.
Proof.
  intros irp s r s' c Hnd Hrow Hcode Hc H Hok.
  destruct (known_codes_distinct_get _ Hnd Hcode) as (N1 & N2 & N3 & N4).
  unfold DispatchDeviceControl in H. rewrite Hc in H.
  rewrite Hcode, Hrow in H.
  change (4 >? ARRAY_SIZEOF (gIoctlParams D)) with false in H.
  change (nth_error (gIoctlParams D) (Z.to_nat 4))
    with (Some (ioctl_params 0 sizeof_UINT32 0 sizeof_UINT32)) in H.
  cbv iota in H.
  assert (Hout : (if ioctl_is64Bit (IOCTL_KPH_GET_SNAP_LENGTH D)
                  then OutputLength64 (ioctl_params 0 sizeof_UINT32 0 sizeof_UINT32)
                  else OutputLength (ioctl_params 0 sizeof_UINT32 0 sizeof_UINT32))
                 = 4)
    by (destruct (ioctl_is64Bit _); reflexivity).
  rewrite Hout in H.
  destruct (_ || _); [injection H as <- _; discriminate|].
  destruct (_ && _); [injection H as <- _; discriminate|].
  unfold ioctl_switch in H.
  apply Z.eqb_neq in N1, N2, N3, N4. rewrite N1, N2, N3, N4 in H.
  rewrite Hcode, Z.eqb_refl in H.
  unfold deref_buffer, request_buffer in H.
  destruct (HasSystemBuffer irp); [|discriminate]. simpl in H.
  injection H as <- <-. simpl. split; [|reflexivity].
  unfold store_field. rewrite mem_set_same.
  apply load_store_same; lia.
Qed.

End Settings.

(** C8.  For every 32-bit value [v], zero included: when a SetSnapLength
    request carrying [v] has succeeded on a reader and a GetSnapLength
    request succeeds on it after any run of reads, block arrivals and
    other control requests that contains no SetSnapLength, the
    GetSnapLength request leaves [v] in its output buffer and reports 4
    bytes.  The control codes are distinct, as the labels of a [switch]
    are, and GetSnapLength selects its own row of the table. *)
Theorem C8_get_snap_length_after_set :
  forall D Q v setIrp setBuffer getIrp getBuffer s0 r1 s1 log s2 r2 s3,
    is_u32 v ->
    NoDup (known_codes D) ->
    ioctl_function (IOCTL_KPH_GET_SNAP_LENGTH D) = 4 ->
    IoControlCode setIrp = IOCTL_KPH_SET_SNAP_LENGTH D ->
    load_u32 setBuffer 0 = v ->
    serve D Q (ControlRequest setIrp setBuffer) s0 r1 s1 ->
    Status r1 = STATUS_SUCCESS ->
    run D Q s1 log s2 ->
    (forall req r, In (req, r) log -> ~ is_set_snap_length D req) ->
    IoControlCode getIrp = IOCTL_KPH_GET_SNAP_LENGTH D ->
    serve D Q (ControlRequest getIrp getBuffer) s2 r2 s3 ->
    Status r2 = STATUS_SUCCESS ->
    load_u32 (Mem s3 SystemBuffer) 0 = v /\ Information r2 = 4.
Proof.
  intros D Q v setIrp setBuffer getIrp getBuffer s0 r1 s1 log s2 r2 s3
    Hv Hnd Hrow Hset Hbuf Hs1 Hok1 Hrun Hlog Hget Hs3 Hok2.
  inversion Hs1 as [|irp1 buf1 sa ra sb Hd1]; subst irp1 buf1 sa ra sb.
  inversion Hs3 as [|irp2 buf2 sc rc sd Hd2]; subst irp2 buf2 sc rc sd.
  destruct (SetSnapLength_effect D Q _ _ _ _ Hnd Hset Hd1 Hok1)
    as [c1 [Hc1 Hsnap1]].
  simpl in Hsnap1. rewrite mem_set_same in Hsnap1.
  destruct (run_keeps_SnapLength D Q _ _ _ Hrun Hlog c1 Hc1)
    as [c2 [Hc2 Hsnap2]].
  destruct (GetSnapLength_effect D Q getIrp (with_buffer s2 getBuffer)
              r2 s3 c2 Hnd Hrow Hget Hc2 Hd2 Hok2)
    as [Hload Hinfo].
  split; [|exact Hinfo].
  rewrite Hload, Hsnap2, Hsnap1, Hbuf. now apply u32_small.
Qed.

Lemma example_codes_distinct : NoDup (known_codes example_declarations).
Proof.
  unfold known_codes. simpl.
  repeat (constructor; [simpl; intuition discriminate|]).
  constructor.
Qed.

Lemma C8_get_snap_length_after_set_witness :
  let s0 := machine_of (fresh_context RestartStateNormal []) empty_memory in
  let setIrp := control_irp 0x22200c 4 0 true in
  let getIrp := control_irp 0x222010 0 4 true in
  let s1 := snd (control_result example_declarations example_queue_manager
                   setIrp (bytes_of_u32 96) s0) in
  let done := control_result example_declarations example_queue_manager
                getIrp (zeros 4) s1 in
  load_u32 (Mem (snd done) SystemBuffer) 0 = 96 /\ Information (fst done) = 4.
Proof.
  intros s0 setIrp getIrp s1 done.
  apply (C8_get_snap_length_after_set example_declarations
           example_queue_manager 96 setIrp (bytes_of_u32 96) getIrp (zeros 4)
           s0
           (fst (control_result example_declarations example_queue_manager
                   setIrp (bytes_of_u32 96) s0))
           s1 [] s1 (fst done) (snd done)).
  - unfold is_u32. lia.
  - exact example_codes_distinct.
  - reflexivity.
  - reflexivity.
  - reflexivity.
  - constructor. reflexivity.
  - reflexivity.
  - constructor.
  - intros req r [].
  - reflexivity.
  - constructor. reflexivity.
  - reflexivity.
Defined.

(** ** Block storage is never written *)

Lemma serve_frame : forall D Q req s r s',
  serve D Q req s r s' ->
  forall a, Mem s' (BlockStorage a) = Mem s (BlockStorage a).
Proof.
  intros D Q req s r s' H a.
  inversion H as [fuel irp buffer s0 r0 s0' Hd | irp buffer s0 r0 s0' Hd];
    subst.
  - apply DispatchRead_inv in Hd.
    destruct Hd as [(_ & -> & _) | (_ & c0 & Hc0 & Hd)].
    + reflexivity.
    + destruct Hd as [(_ & _ & ->) | (c1 & tr & ls & _ & Hloop & _ & ->)].
      * reflexivity.
      * apply read_loop_settings in Hloop. simpl in *.
        now rewrite (proj2 Hloop).
  - destruct (FsContext2 (with_buffer s buffer)) as [c|] eqn:Hc.
    + destruct (DispatchDeviceControl_effect D Q irp (with_buffer s buffer)
                  r s' c Hd Hc) as [c' [_ [_ [Hm _]]]].
      rewrite Hm by discriminate. reflexivity.
    + unfold DispatchDeviceControl in Hd. rewrite Hc in Hd.
      injection Hd as _ <-. reflexivity.
Qed.

(** C9.  Serving requests never writes through a block's buffer: along
    any run of reads (truncating or not), control requests and block
    arrivals, every region of memory other than the request buffer and
    the two scratch structures of the reader context, hence the storage
    of every block, holds the same bytes at the end as at the start. *)
Theorem C9_block_buffers_are_never_written :
  forall D Q s log s',
    run D Q s log s' ->
    forall x,
      x <> SystemBuffer -> x <> ModifiedHeader -> x <> ModifiedFooter ->
      Mem s' x = Mem s x.
Proof.
  intros D Q s log s' Hrun. induction Hrun as
    [s | blocks s log s' Hrun IH | req r s s1 log s' Hserve Hrun IH];
    intros x H1 H2 H3.
  - reflexivity.
  - rewrite IH by assumption. unfold enqueue.
    destruct (FsContext2 s); reflexivity.
  - rewrite IH by assumption.
    destruct x as [| | |a]; try contradiction.
    eapply serve_frame. eassumption.
Qed.

(** ** The trace only grows *)

Lemma scan_filter_trace : forall ids id announce n index tr,
  exists more, snd (scan_filter ids id announce index n tr) = tr ++ more.
Proof.
  induction n as [|n IH]; intros index tr; simpl.
  - exists []. now rewrite app_nil_r.
  - destruct (_ =? _); simpl.
    + eauto.
    + destruct (IH (index + 1) (tr ++ [announce index])) as [more E].
      rewrite E, <- app_assoc. eauto.
Qed.

Lemma filter_block_trace : forall c b tr,
  exists more, snd (filter_block c b tr) = tr ++ more.
Proof.
  intros c b tr. unfold filter_block, check_filter.
  destruct (FilteredProcessIds c) as [pids|].
  - destruct (scan_filter_trace pids (ProcessId b) EvCheckProcessFilter
                (Z.to_nat (nth 0 pids 0)) 1 tr) as [m1 E1].
    destruct (scan_filter pids _ _ _ _ tr) as [hit tr1]. simpl in E1. subst.
    destruct hit; simpl; [eauto|].
    destruct (FilteredConnectionIds c) as [cids|]; [|simpl; eauto].
    destruct (scan_filter_trace cids (ConnectionId b) EvCheckConnectionFilter
                (Z.to_nat (nth 0 cids 0)) 1 (tr ++ m1)) as [m2 E2].
    rewrite E2, <- app_assoc. eauto.
  - simpl. destruct (FilteredConnectionIds c) as [cids|].
    + apply scan_filter_trace.
    + exists []. now rewrite app_nil_r.
Qed.

Lemma serve_block_trace : forall D readLength b s,
  exists more, trace (serve_block D readLength b s) = trace s ++ more.
Proof.
  intros. unfold serve_block. destruct (_ <=? _); simpl.
  - eauto.
  - exists []. now rewrite app_nil_r.
Qed.

Lemma loop_body_trace : forall D readLength s,
  exists more,
    trace (match loop_body D readLength s with
           | Continue s1 => s1
           | Break s1 => s1
           end) = trace s ++ more.
Proof.
  intros D readLength s. unfold loop_body.
  destruct (blockNode s) as [b|].
  - apply serve_block_trace.
  - apply next_block_cases.
    + intros _. simpl. exists []. now rewrite app_nil_r.
    + intros _ _. simpl. eauto.
    + intros b rest tr2 _ _ _ Hf. simpl.
      destruct (filter_block_trace (set_Reader rest (context s)) b
                  (trace s ++ [EvQmDequeueBlock (Some b)])) as [more E].
      rewrite Hf in E. simpl in E. rewrite E, <- !app_assoc. eauto.
    + intros b rest tr2 c2 m2 _ _ _ Hf _.
      destruct (filter_block_trace (set_Reader rest (context s)) b
                  (trace s ++ [EvQmDequeueBlock (Some b)])) as [more E].
      rewrite Hf in E. simpl in E.
      destruct (serve_block_trace D readLength b
                  {| context := c2; mem := m2; trace := tr2;
                     blockNode := Some b; blockOffset := 0;
                     readOffset := readOffset s |}) as [more' E'].
      rewrite E'. simpl. rewrite E, <- !app_assoc. eauto.
    + intros b rest _ _ _.
      destruct (serve_block_trace D readLength b
                  {| context := set_Reader rest (context s);
                     mem := store_field (mem s) ModifiedHeader
                              (offsetof_HEADER_BlockType D) 0;
                     trace := trace s ++ [EvQmDequeueBlock (Some b)];
                     blockNode := Some b; blockOffset := 0;
                     readOffset := readOffset s |}) as [more' E'].
      rewrite E'. simpl. rewrite <- !app_assoc. eauto.
Qed.

Lemma read_loop_trace : forall D fuel readLength s s',
  read_loop D fuel readLength s = Some s' ->
  exists more, trace s' = trace s ++ more.
Proof.
  induction fuel as [|fuel IH]; intros readLength s s' H; simpl in H.
  - destruct (_ <? _); [discriminate|]. injection H as <-.
    exists []. now rewrite app_nil_r.
  - destruct (_ <? _).
    + destruct (loop_body_trace D readLength s) as [m1 E1].
      destruct (loop_body D readLength s) as [s1|s1].
      * destruct (IH _ _ _ H) as [m2 E2].
        rewrite E2, E1, <- app_assoc. eauto.
      * injection H as <-. eauto.
    + injection H as <-. exists []. now rewrite app_nil_r.
Qed.

(** ** The restart state machine *)

Lemma read_loop_restart : forall D fuel readLength s s',
  read_loop D fuel readLength s = Some s' ->
  (RestartState (context s') = RestartState (context s) /\
   RestartRequested (context s') = RestartRequested (context s)) \/
  (RestartRequested (context s) = 1 /\
   RestartRequested (context s') = 0 /\
   blockNode s' = None /\
   RestartState (context s')
     = (if negb (readOffset s' =? 0) then RestartStateSendEof
        else RestartStateInit)).
Proof.
  intros D fuel readLength s s' H.
  destruct (read_loop_inv D _ _ _ _ H) as [s1 [Hc Hend]].
  apply continues_quiet in Hc. destruct Hc as (Hst & Hfl & _ & _).
  destruct Hend as [[_ ->] | [_ Hb]].
  - left. auto.
  - apply loop_body_break in Hb.
    destruct Hb as (_ & Hnone & _ & Hro & _ & [(F1 & F2 & F3) | (_ & _ & E)]).
    + right. rewrite Hro. repeat split; congruence.
    + left. rewrite E. auto.
Qed.

(** C3.  The restart state of a reader changes only along
    Init -> Normal, Normal -> SendEof, Normal -> Init and SendEof -> Init.
    A control request leaves it as it is.  A read first runs its restart
    switch, which takes SendEof to Init (the read then returns 0 bytes
    with success) and Init to Normal (after fetching the initial
    blocks); from Normal the rest of the read goes to SendEof only when
    it finds the restart flag set at a block boundary with at least one
    byte written, and to Init only when it finds the flag set with no
    byte written; in both cases the flag is cleared and no block is
    held. *)
Theorem C3_restart_state_transitions :
  forall D Q req s r s' c c',
    serve D Q req s r s' ->
    FsContext2 s = Some c ->
    FsContext2 s' = Some c' ->
    match req with
    | ControlRequest _ _ => RestartState c' = RestartState c
    | ReadRequest irp _ =>
      (HasSystemBuffer irp = false /\ c' = c) \/
      (HasSystemBuffer irp = true /\
       let mid := state_after_switch (RestartState c) in
       stay_or_step (RestartState c) mid /\
       stay_or_step mid (RestartState c') /\
       (RestartState c = RestartStateSendEof ->
        RestartState c' = RestartStateInit /\
        r = CompleteIrp STATUS_SUCCESS 0) /\
       (RestartState c = RestartStateInit ->
        exists tr, Trace s' = Trace s ++ EvQmGetInitialBlocks :: tr) /\
       (RestartState c <> RestartStateSendEof ->
        RestartState c' = RestartStateNormal \/
        (RestartRequested c = 1 /\ RestartRequested c' = 0 /\
         CurrentBlock c' = None /\
         ((Information r <> 0 /\ RestartState c' = RestartStateSendEof) \/
          (Information r = 0 /\ RestartState c' = RestartStateInit)))))
    end.
Proof.
  intros D Q req s r s' c c' Hserve Hc Hc'.
  inversion Hserve as [fuel irp buffer s0 r0 s0' Hd | irp buffer s0 r0 s0' Hd];
    subst.
  - apply DispatchRead_inv in Hd.
    destruct Hd as [(_ & -> & [Hb | Hn]) | (Hbuf & c0 & Hc0 & Hd)].
    + left. simpl in Hc'. split; [exact Hb | congruence].
    + simpl in Hn. congruence.
    + right. split; [exact Hbuf|].
      simpl in Hc0. rewrite Hc in Hc0. injection Hc0 as <-.
      destruct Hd as [(Hst & -> & ->) | (c1 & tr & ls & Hchk & Hloop & -> & ->)].
      * simpl in Hc'. injection Hc' as <-. rewrite Hst. simpl.
        split; [right; constructor|].
        split; [left; reflexivity|].
        split; [auto|].
        split; [discriminate|].
        intros N. contradiction.
      * simpl in Hc'. injection Hc' as <-. simpl.
        pose proof (read_loop_trace _ _ _ _ _ Hloop) as Htrace.
        apply read_loop_restart in Hloop. simpl in Hloop.
        assert (Hmid : RestartState c1 = state_after_switch (RestartState c)
                       /\ RestartState c1 = RestartStateNormal
                       /\ RestartRequested c1 = RestartRequested c
                       /\ RestartState c <> RestartStateSendEof).
        { apply check_restart_state_inr in Hchk.
          destruct Hchk as [(E & -> & _) | (E & -> & _)]; rewrite E; simpl;
            repeat split; auto; discriminate. }
        destruct Hmid as (Hm1 & Hm2 & Hm3 & Hm4).
        rewrite <- Hm1.
        split.
        { rewrite Hm2. destruct (RestartState c) eqn:E.
          - right. constructor.
          - left. reflexivity.
          - contradiction. }
        split.
        { rewrite Hm2.
          destruct Hloop as [[E _] | (_ & _ & _ & E)]; rewrite E.
          - left. auto.
          - destruct (negb _); right; constructor. }
        split; [intros E; contradiction|].
        split.
        { intros E. apply check_restart_state_inr in Hchk.
          destruct Hchk as [(_ & _ & ->) | (E' & _ & _)]; [|congruence].
          destruct Htrace as [more ->]. simpl.
          rewrite <- app_assoc. simpl. eauto. }
        intros _.
        destruct Hloop as [[E _] | (F1 & F2 & F3 & E)].
        -- left. congruence.
        -- right. rewrite F3, E.
           split; [congruence|]. split; [exact F2|]. split; [reflexivity|].
           destruct (Z.eqb_spec (readOffset ls) 0); simpl; auto.
  - destruct (DispatchDeviceControl_effect D Q _ _ _ _ c Hd Hc)
      as [c1 [Hc1 [Hsame _]]].
    rewrite Hc' in Hc1. injection Hc1 as <-. apply Hsame.
Qed.

Lemma C9_block_buffers_are_never_written_witness :
  let s := example_machine RestartStateNormal 0
             [example_packet_block; example_other_block] in
  let done := read_result example_declarations example_queue_manager
                (read_irp 64) (zeros 64) s in
  Mem (snd done) (BlockStorage 0) = example_packet.
Proof.
  intros s done.
  apply (C9_block_buffers_are_never_written example_declarations
           example_queue_manager s
           [(ReadRequest (read_irp 64) (zeros 64), fst done)] (snd done)).
  - eapply run_request; [|apply run_nil].
    apply serve_read with (fuel := read_fuel example_queue_manager s).
    reflexivity.
  - discriminate.
  - discriminate.
  - discriminate.
Defined.

Lemma C3_restart_state_transitions_witness :
  let s := example_machine RestartStateInit 1 [example_other_block] in
  let irp := read_irp 8 in
  let done := read_result example_declarations example_queue_manager
                irp (zeros 8) s in
  let c := the_context s in
  let c' := the_context (snd done) in
  (HasSystemBuffer irp = false /\ c' = c) \/
  (HasSystemBuffer irp = true /\
   let mid := state_after_switch (RestartState c) in
   stay_or_step (RestartState c) mid /\
   stay_or_step mid (RestartState c') /\
   (RestartState c = RestartStateSendEof ->
    RestartState c' = RestartStateInit /\
    fst done = CompleteIrp STATUS_SUCCESS 0) /\
   (RestartState c = RestartStateInit ->
    exists tr, Trace (snd done) = Trace s ++ EvQmGetInitialBlocks :: tr) /\
   (RestartState c <> RestartStateSendEof ->
    RestartState c' = RestartStateNormal \/
    (RestartRequested c = 1 /\ RestartRequested c' = 0 /\
     CurrentBlock c' = None /\
     ((Information (fst done) <> 0 /\ RestartState c' = RestartStateSendEof) \/
      (Information (fst done) = 0 /\ RestartState c' = RestartStateInit))))).
Proof.
  intros s irp done c c'.
  apply (C3_restart_state_transitions example_declarations
           example_queue_manager (ReadRequest irp (zeros 8)) s (fst done)
           (snd done) c c').
  - apply serve_read with (fuel := read_fuel example_queue_manager s).
    reflexivity.
  - reflexivity.
  - reflexivity.
Defined.

(** ** Every iteration fills the buffer or finishes a block *)

Section Progress.

Variable D : Declarations.
Variable readLength : Z.
Hypothesis readLength_typed : is_u32 readLength.
Hypothesis hs_typed : is_u32 (sizeof_PCAP_NG_PACKET_HEADER D).

(** One bounded copy: the read cursor reaches the end of the buffer or
    the block cursor reaches [target]. *)
Lemma bounded_copy : forall r b target,
  0 <= r < readLength -> is_u32 target ->
  let n := min (sub32 readLength r) (sub32 target b) in
  r <= add32 r n <= readLength /\
  is_u32 (add32 b n) /\
  (add32 r n = readLength \/ add32 b n = target).
Proof.
  intros r b target Hr Ht n.
  assert (Hrem : sub32 readLength r = readLength - r)
    by (apply sub32_small; unfold is_u32 in *; lia).
  pose proof (u32_is_u32 (target - b)) as Hd. fold (sub32 target b) in Hd.
  split; [|split; [apply u32_is_u32|]].
  - subst n. rewrite Hrem.
    destruct (min_cases (readLength - r) (sub32 target b)) as [[-> _]|[-> H]];
      rewrite add32_small; unfold is_u32 in *; lia.
  - subst n. rewrite Hrem.
    destruct (min_cases (readLength - r) (sub32 target b)) as [[-> _]|[-> H]].
    + left. rewrite add32_small; unfold is_u32 in *; lia.
    + right. now apply add32_sub32.
Qed.

Lemma copy_header_progress : forall k,
  in_loop readLength k -> ro k < readLength ->
  let k' := copy_header D readLength k in
  in_loop readLength k' /\
  (ro k' = readLength \/ sizeof_PCAP_NG_PACKET_HEADER D <= bo k').
Proof.
  intros k [Hr Hb] Hlt k'. subst k'. unfold copy_header.
  destruct (Z.ltb_spec (bo k) (sizeof_PCAP_NG_PACKET_HEADER D)) as [H|H].
  - assert (E : sizeof_PCAP_NG_PACKET_HEADER D - bo k
                = sub32 (sizeof_PCAP_NG_PACKET_HEADER D) (bo k))
      by (symmetry; apply sub32_small; unfold is_u32 in *; lia).
    rewrite E.
    destruct (bounded_copy (ro k) (bo k) (sizeof_PCAP_NG_PACKET_HEADER D))
      as (H1 & H2 & H3); [lia | exact hs_typed |].
    set (n := min _ _) in *.
    assert (Hn : u32 n = n).
    { apply u32_small. subst n.
      rewrite min_is_Zmin.
      pose proof (u32_is_u32 (readLength - ro k)).
      pose proof (u32_is_u32 (sizeof_PCAP_NG_PACKET_HEADER D - bo k)).
      unfold sub32, is_u32 in *. lia. }
    rewrite Hn. unfold in_loop, advance. simpl.
    split; [split; [lia | exact H2]|].
    destruct H3 as [H3|H3]; [left; exact H3 | right; lia].
  - split; [split; assumption|]. right. exact H.
Qed.

Lemma copy_data_progress : forall c b k,
  is_u32 (DataEndOffset c) ->
  in_loop readLength k ->
  (ro k = readLength \/ sizeof_PCAP_NG_PACKET_HEADER D <= bo k) ->
  let k' := copy_data D c b readLength k in
  in_loop readLength k' /\ (ro k' = readLength \/ DataEndOffset c <= bo k').
Proof.
  intros c b k Hde [Hr Hb] Hpre k'. subst k'. unfold copy_data.
  destruct (Z.leb_spec (sizeof_PCAP_NG_PACKET_HEADER D) (bo k));
    destruct (Z.ltb_spec (bo k) (DataEndOffset c));
    destruct (Z.ltb_spec (ro k) readLength); simpl;
    try (split; [split; assumption | lia]).
  destruct (bounded_copy (ro k) (bo k) (DataEndOffset c))
    as (B1 & B2 & B3); [lia | exact Hde |].
  unfold in_loop, advance. simpl.
  split; [split; [lia | exact B2]|].
  destruct B3 as [B3|B3]; [left; exact B3 | right; lia].
Qed.

Lemma copy_padding_progress : forall c k,
  is_u32 (ModifiedFooterOffset c) -> is_u32 (OriginalFooterOffset c) ->
  in_loop readLength k ->
  (ro k = readLength \/ DataEndOffset c <= bo k) ->
  let k' := copy_padding c readLength k in
  in_loop readLength k' /\
  (ro k' = readLength \/ OriginalFooterOffset c <= bo k').
Proof.
  intros c k Hmf Hof [Hr Hb] Hpre k'. subst k'. unfold copy_padding.
  destruct (Z.leb_spec (DataEndOffset c) (bo k));
    destruct (Z.ltb_spec (bo k) (OriginalFooterOffset c));
    destruct (Z.ltb_spec (ro k) readLength); simpl;
    try (split; [split; assumption | lia]).
  destruct (bounded_copy (ro k) (bo k) (ModifiedFooterOffset c))
    as (B1 & B2 & B3); [lia | exact Hmf |].
  set (n := min _ _) in *.
  destruct (Z.leb_spec (ModifiedFooterOffset c) (add32 (bo k) n)); simpl.
  - unfold in_loop. simpl. split; [split; [lia | exact Hof]|].
    right. lia.
  - unfold in_loop. simpl. split; [split; [lia | exact B2]|].
    destruct B3 as [B3|B3]; [left; exact B3 | lia].
Qed.

Lemma copy_footer_progress : forall c blockLength k,
  is_u32 blockLength ->
  in_loop readLength k ->
  (ro k = readLength \/ OriginalFooterOffset c <= bo k) ->
  let k' := copy_footer c blockLength readLength k in
  in_loop readLength k' /\ (ro k' = readLength \/ bo k' = blockLength).
Proof.
  intros c blockLength k Hbl [Hr Hb] Hpre k'. subst k'. unfold copy_footer.
  destruct (Z.leb_spec (OriginalFooterOffset c) (bo k));
    destruct (Z.ltb_spec (ro k) readLength); simpl;
    try (split; [split; assumption | lia]).
  destruct (bounded_copy (ro k) (bo k) blockLength)
    as (B1 & B2 & B3); [lia | exact Hbl |].
  unfold in_loop, advance. simpl.
  split; [split; [lia | exact B2]|]. exact B3.
Qed.

Lemma copy_verbatim_progress : forall b blockLength k,
  is_u32 blockLength ->
  in_loop readLength k -> ro k < readLength ->
  let k' := copy_verbatim b blockLength readLength k in
  in_loop readLength k' /\ (ro k' = readLength \/ bo k' = blockLength).
Proof.
  intros b blockLength k Hbl [Hr Hb] Hlt k'. subst k'. unfold copy_verbatim.
  destruct (bounded_copy (ro k) (bo k) blockLength)
    as (B1 & B2 & B3); [lia | exact Hbl |].
  unfold in_loop, advance. simpl.
  split; [split; [lia | exact B2]|]. exact B3.
Qed.

Lemma copy_block_progress : forall c b k,
  is_u32 (DataEndOffset c) -> is_u32 (ModifiedFooterOffset c) ->
  is_u32 (OriginalFooterOffset c) -> typed_block b ->
  in_loop readLength k -> ro k < readLength ->
  let k' := copy_block D c b readLength k in
  in_loop readLength k' /\ (ro k' = readLength \/ bo k' = BlockLength b).
Proof.
  intros c b k Hde Hmf Hof Hb Hk Hlt k'. subst k'. unfold copy_block.
  destruct (trimming D (cmem k)).
  - destruct (copy_header_progress k Hk Hlt) as [K1 P1].
    destruct (copy_data_progress c b _ Hde K1 P1) as [K2 P2].
    destruct (copy_padding_progress c _ Hmf Hof K2 P2) as [K3 P3].
    exact (copy_footer_progress c (BlockLength b) _ Hb K3 P3).
  - now apply copy_verbatim_progress.
Qed.

Lemma is_u32_0 : is_u32 0.
Proof. unfold is_u32. lia. Qed.

Lemma loop_typed_intro : forall c m tr bn boff roff,
  0 <= roff <= readLength -> is_u32 boff ->
  is_u32 (DataEndOffset c) -> is_u32 (ModifiedFooterOffset c) ->
  is_u32 (OriginalFooterOffset c) ->
  Forall typed_block (Reader c) ->
  (forall b, bn = Some b -> typed_block b) ->
  loop_typed readLength
    {| context := c; mem := m; trace := tr; blockNode := bn;
       blockOffset := boff; readOffset := roff |}.
Proof. intros. unfold loop_typed. simpl. tauto. Qed.

Lemma serve_block_progress : forall b s,
  loop_typed readLength s -> typed_block b -> readOffset s < readLength ->
  let s1 := serve_block D readLength b s in
  loop_typed readLength s1 /\
  context s1 = context s /\
  (blockNode s1 = None \/
   (blockNode s1 = Some b /\ readOffset s1 = readLength)).
Proof.
  intros b s (Hr & Hb & Hde & Hmf & Hof & Hq & Hcur) Htb Hlt s1. subst s1.
  unfold serve_block.
  destruct (copy_block_progress (context s) b
              {| cmem := mem s; ro := readOffset s; bo := blockOffset s |}
              Hde Hmf Hof Htb) as ([K1 K2] & P);
    [split; assumption | exact Hlt |].
  set (k := copy_block _ _ _ _ _) in *.
  destruct (Z.leb_spec (BlockLength b) (bo k)) as [Hend|Hnot].
  - split; [|split; [reflexivity | left; reflexivity]].
    apply loop_typed_intro; auto using is_u32_0. discriminate.
  - split; [|split; [reflexivity | right; split; [reflexivity | simpl; lia]]].
    apply loop_typed_intro; auto.
    intros b0 N. injection N as <-. exact Htb.
Qed.

Lemma loop_body_progress : forall s,
  loop_typed readLength s -> readOffset s < readLength ->
  match loop_body D readLength s with
  | Break s' => 0 <= readOffset s' <= readLength
  | Continue s1 =>
    loop_typed readLength s1 /\
    (readLength <= readOffset s1 \/ (blocks_left s1 < blocks_left s)%nat)
  end.
Proof.
  intros s Ht Hlt. unfold loop_body.
  destruct (blockNode s) as [b|] eqn:Eb.
  - destruct (serve_block_progress b s Ht) as (T1 & C1 & P1).
    + destruct Ht as (_ & _ & _ & _ & _ & _ & Hcur). now apply Hcur.
    + exact Hlt.
    + split; [exact T1|].
      unfold blocks_left. rewrite C1, Eb.
      destruct P1 as [-> | [_ ->]]; [right; lia | left; lia].
  - assert (Hro : 0 <= readOffset s <= readLength) by apply Ht.
    destruct Ht as (Hr & Hb & Hde & Hmf & Hof & Hq & Hcur).
    apply next_block_cases.
    + intros _. exact Hro.
    + intros _ _. exact Hro.
    + intros b rest tr2 _ Eq _ _. rewrite Eq in Hq.
      inversion Hq as [|x l Hxb Hrest]; subst.
      split.
      * apply loop_typed_intro; auto using is_u32_0. discriminate.
      * right. unfold blocks_left. simpl. rewrite Eq, Eb. simpl. lia.
    + intros b rest tr2 c2 m2 _ Eq _ _ Htrim.
      rewrite Eq in Hq. inversion Hq as [|x l Hxb Hrest]; subst.
      destruct (trim_block_context D (set_Reader rest (context s))
                  (store_field (mem s) ModifiedHeader
                     (offsetof_HEADER_BlockType D) 0) b)
        as (de & mf & og & Hc).
      rewrite Htrim in Hc. simpl in Hc.
      assert (Ht2 : loop_typed readLength
                      {| context := c2; mem := m2; trace := tr2;
                         blockNode := Some b; blockOffset := 0;
                         readOffset := readOffset s |}).
      { destruct Hc as [-> | [-> (T1 & T2 & T3)]];
          apply loop_typed_intro; auto using is_u32_0;
          intros b0 N; injection N as <-; exact Hxb. }
      destruct (serve_block_progress b _ Ht2 Hxb Hlt) as (T1 & C1 & P1).
      split; [exact T1|].
      unfold blocks_left. rewrite C1. simpl.
      assert (Hlen : length (Reader c2) = length rest)
        by (destruct Hc as [-> | [-> _]]; reflexivity).
      rewrite Hlen, Eq, Eb. simpl.
      destruct P1 as [-> | [_ E]]; [right; lia | left; simpl in E; lia].
    + intros b rest _ Eq _.
      rewrite Eq in Hq. inversion Hq as [|x l Hxb Hrest]; subst.
      assert (Ht2 : loop_typed readLength
                      {| context := set_Reader rest (context s);
                         mem := store_field (mem s) ModifiedHeader
                                  (offsetof_HEADER_BlockType D) 0;
                         trace := trace s ++ [EvQmDequeueBlock (Some b)];
                         blockNode := Some b; blockOffset := 0;
                         readOffset := readOffset s |}).
      { apply loop_typed_intro; auto using is_u32_0.
        intros b0 N; injection N as <-; exact Hxb. }
      destruct (serve_block_progress b _ Ht2 Hxb Hlt) as (T1 & C1 & P1).
      split; [exact T1|].
      unfold blocks_left. rewrite C1. simpl. rewrite Eq, Eb. simpl.
      destruct P1 as [-> | [_ E]]; [right; lia | left; simpl in E; lia].
Qed.

(** The loop ends within [blocks_left + 1] iterations. *)
Lemma read_loop_terminates : forall fuel s,
  loop_typed readLength s ->
  (blocks_left s < fuel)%nat ->
  exists s', read_loop D fuel readLength s = Some s' /\
             0 <= readOffset s' <= readLength.
Proof.
  induction fuel as [|fuel IH]; intros s Ht Hfuel; [lia|].
  simpl.
  destruct (Z.ltb_spec (readOffset s) readLength) as [Hlt|Hge].
  - pose proof (loop_body_progress s Ht Hlt) as Hp.
    destruct (loop_body D readLength s) as [s1|s1].
    + destruct Hp as [T1 [Hfull | Hless]].
      * exists s1. split; [|apply T1].
        destruct fuel; simpl;
          destruct (Z.ltb_spec (readOffset s1) readLength); try lia;
          reflexivity.
      * apply IH; [exact T1 | lia].
    + eauto.
  - exists s. split; [reflexivity | apply Ht].
Qed.

End Progress.

Lemma read_loop_more_fuel : forall D fuel fuel' readLength s s',
  read_loop D fuel readLength s = Some s' ->
  (fuel <= fuel')%nat ->
  read_loop D fuel' readLength s = Some s'.
Proof.
  induction fuel as [|fuel IH]; intros fuel' readLength s s' H Hle;
    simpl in H.
  - destruct (readOffset s <? readLength) eqn:E; [discriminate|].
    destruct fuel'; simpl; rewrite E; exact H.
  - destruct fuel'; [lia|]. simpl.
    destruct (readOffset s <? readLength); [|exact H].
    destruct (loop_body D readLength s); [|exact H].
    apply IH; [exact H | lia].
Qed.

(** C7.  A read whose length and context fields are in the range of
    their C types completes within [read_fuel] iterations of its loop,
    whatever the queue holds: it never waits for data.  It completes with
    an error status exactly when the destination buffer or the reader
    context is null, and the error is then InvalidParameter with nothing
    changed; otherwise it completes with success and a byte count between
    0 and the requested length. *)
Theorem C7_read_fails_only_without_buffer_or_context :
  forall D Q irp s fuel,
    is_u32 (ReadLength irp) ->
    is_u32 (sizeof_PCAP_NG_PACKET_HEADER D) ->
    (forall c, FsContext2 s = Some c -> typed_context Q c) ->
    (read_fuel Q s <= fuel)%nat ->
    exists r s',
      DispatchRead D Q fuel irp s = Some (r, s') /\
      (Status r = STATUS_SUCCESS <->
       HasSystemBuffer irp = true /\ FsContext2 s <> None) /\
      (Status r <> STATUS_SUCCESS ->
       r = CompleteIrp STATUS_INVALID_PARAMETER 0 /\ s' = s) /\
      0 <= Information r <= ReadLength irp.
Proof.
  intros D Q irp s fuel Hlen Hhs Htyped Hfuel.
  unfold DispatchRead.
  destruct (HasSystemBuffer irp) eqn:Hbuf; simpl.
  2:{ do 2 eexists. split; [reflexivity|]. simpl.
      split; [split; [discriminate | intros [N _]; discriminate]|].
      split; [auto | unfold is_u32 in Hlen; lia]. }
  destruct (FsContext2 s) as [c0|] eqn:Hc0.
  2:{ do 2 eexists. split; [reflexivity|]. simpl.
      split; [split; [discriminate | intros [_ N]; contradiction]|].
      split; [auto | unfold is_u32 in Hlen; lia]. }
  specialize (Htyped c0 eq_refl).
  destruct Htyped as (T1 & T2 & T3 & T4 & T5 & T6).
  unfold read_fuel in Hfuel. rewrite Hc0 in Hfuel.
  unfold check_restart_state, entry_queue in *.
  assert (Hgo : forall c tr,
            Reader c = match RestartState c0 with
                       | RestartStateInit => QmGetInitialBlocks Q (Reader c0)
                       | _ => Reader c0
                       end ->
            CurrentBlock c = CurrentBlock c0 ->
            CurrentBlockOffset c = CurrentBlockOffset c0 ->
            DataEndOffset c = DataEndOffset c0 ->
            ModifiedFooterOffset c = ModifiedFooterOffset c0 ->
            OriginalFooterOffset c = OriginalFooterOffset c0 ->
            exists ls,
              read_loop D fuel (ReadLength irp)
                {| context := c; mem := Mem s; trace := tr;
                   blockNode := CurrentBlock c;
                   blockOffset := CurrentBlockOffset c; readOffset := 0 |}
              = Some ls /\ 0 <= readOffset ls <= ReadLength irp).
  { intros c tr E1 E2 E3 E4 E5 E6.
    apply read_loop_terminates; try assumption.
    - apply loop_typed_intro;
        rewrite ?E1, ?E2, ?E3, ?E4, ?E5, ?E6; auto.
      unfold is_u32 in Hlen. lia.
    - unfold blocks_left. simpl. rewrite E1.
      destruct (CurrentBlock c); lia. }
  destruct (RestartState c0) eqn:Est.
  - destruct (Hgo (set_RestartState RestartStateNormal
                     (set_Reader (QmGetInitialBlocks Q (Reader c0)) c0))
                (Trace s ++ [EvQmGetInitialBlocks]))
      as [ls [-> Hro]]; try reflexivity.
    do 2 eexists. split; [reflexivity|]. simpl.
    split; [split; [intros _; split; [reflexivity | discriminate]
                   | reflexivity]|].
    split; [intros N; contradiction | exact Hro].
  - destruct (Hgo c0 (Trace s)) as [ls [-> Hro]]; try reflexivity.
    do 2 eexists. split; [reflexivity|]. simpl.
    split; [split; [intros _; split; [reflexivity | discriminate]
                   | reflexivity]|].
    split; [intros N; contradiction | exact Hro].
  - do 2 eexists. split; [reflexivity|]. simpl.
    split; [split; [intros _; split; [reflexivity | discriminate]
                   | reflexivity]|].
    split; [intros N; contradiction | unfold is_u32 in Hlen; lia].
Qed.

Lemma C7_read_fails_only_without_buffer_or_context_witness :
  let s := example_machine RestartStateNormal 0 [] in
  exists r s',
    DispatchRead example_declarations example_queue_manager 2 (read_irp 16) s
    = Some (r, s') /\
    (Status r = STATUS_SUCCESS <->
     HasSystemBuffer (read_irp 16) = true /\ FsContext2 s <> None) /\
    (Status r <> STATUS_SUCCESS ->
     r = CompleteIrp STATUS_INVALID_PARAMETER 0 /\ s' = s) /\
    0 <= Information r <= ReadLength (read_irp 16).
Proof.
  intros s.
  apply (C7_read_fails_only_without_buffer_or_context example_declarations
           example_queue_manager (read_irp 16) s 2).
  - unfold is_u32. simpl. lia.
  - unfold is_u32. simpl. lia.
  - intros c Hc. injection Hc as <-.
    unfold typed_context, is_u32. simpl.
    repeat split; try lia; try constructor; discriminate.
  - apply Nat.le_refl.
Defined.

(** ** What one block copy writes *)

Section Copying.

Variable V : list Z.
Variable vo : Z -> Z.

Lemma copied_refl : forall k, copied V vo k k.
Proof.
  intros k. exists 0. rewrite slice_zero_len, write_bytes_nil.
  repeat split; auto; lia.
Qed.

Lemma copied_trans : forall k k1 k2,
  0 <= ro k <= Z.of_nat (length (cmem k SystemBuffer)) ->
  0 <= vo (bo k) -> vo (bo k1) <= Z.of_nat (length V) ->
  copied V vo k k1 -> copied V vo k1 k2 -> copied V vo k k2.
Proof.
  intros k k1 k2 Hro Hvo Hv1 (n1 & P1 & R1 & O1 & B1 & F1)
    (n2 & P2 & R2 & O2 & B2 & F2).
  exists (n1 + n2).
  split; [lia|]. split; [lia|]. split; [lia|].
  split.
  - rewrite B2, B1, R1, O1.
    assert (Hlen : Z.of_nat (length (slice V (vo (bo k)) n1)) = n1)
      by (rewrite slice_length; lia).
    replace (ro k + n1)
      with (ro k + Z.of_nat (length (slice V (vo (bo k)) n1))) by lia.
    rewrite write_bytes_app by lia.
    now rewrite slice_app by lia.
  - intros r Hr. rewrite F2, F1 by assumption. reflexivity.
Qed.

(** One [RtlCopyMemory] into the system buffer whose source bytes are
    the next bytes of the view. *)
Lemma copied_by_copy : forall k src soff n bo',
  0 <= n ->
  slice (cmem k src) soff n = slice V (vo (bo k)) n ->
  vo bo' = vo (bo k) + n ->
  copied V vo k
    {| cmem := RtlCopyMemory (cmem k) SystemBuffer (ro k) src soff n;
       ro := ro k + n; bo := bo' |}.
Proof.
  intros k src soff n bo' Hn Hsrc Hvo. exists n. simpl.
  split; [exact Hn|]. split; [reflexivity|]. split; [exact Hvo|].
  split.
  - unfold RtlCopyMemory. rewrite mem_set_same, Hsrc. reflexivity.
  - intros r Hr. now apply RtlCopyMemory_frame.
Qed.

Lemma copied_by_zero : forall k n bo',
  0 <= n ->
  zeros n = slice V (vo (bo k)) n ->
  vo bo' = vo (bo k) + n ->
  copied V vo k
    {| cmem := RtlZeroMemory (cmem k) SystemBuffer (ro k) n;
       ro := ro k + n; bo := bo' |}.
Proof.
  intros k n bo' Hn Hsrc Hvo. exists n. simpl.
  split; [exact Hn|]. split; [reflexivity|]. split; [exact Hvo|].
  split.
  - unfold RtlZeroMemory. rewrite mem_set_same, Hsrc. reflexivity.
  - intros r Hr. now apply RtlZeroMemory_frame.
Qed.

End Copying.

(** The arithmetic of one bounded copy when nothing wraps. *)
Lemma active_copy : forall readLength r b target,
  is_u32 readLength -> 0 <= r < readLength ->
  is_u32 target -> 0 <= b <= target ->
  let n := min (sub32 readLength r) (sub32 target b) in
  0 <= n /\ n <= readLength - r /\ n <= target - b /\
  add32 r n = r + n /\ add32 b n = b + n /\
  (r + n = readLength \/ b + n = target).
Proof.
  intros readLength r b target HL Hr Ht Hb n.
  assert (E1 : sub32 readLength r = readLength - r)
    by (apply sub32_small; unfold is_u32 in *; lia).
  assert (E2 : sub32 target b = target - b)
    by (apply sub32_small; unfold is_u32 in *; lia).
  subst n. rewrite E1, E2, min_is_Zmin.
  unfold is_u32 in *.
  repeat split; try lia;
    try (apply add32_small; unfold is_u32; lia).
Qed.

Lemma slice_slice : forall l a len off n,
  0 <= a -> 0 <= off -> 0 <= n -> off + n <= len ->
  slice (slice l a len) off n = slice l (a + off) n.
Proof.
  intros l a len off n Ha Hoff Hn Hle. unfold slice.
  rewrite skipn_firstn_comm, firstn_firstn, skipn_skipn_add.
  rewrite Z2Nat.inj_add by lia.
  f_equal. lia.
Qed.

Lemma load_slice : forall l len off,
  0 <= off -> off + 4 <= len ->
  load_u32 (slice l 0 len) off = load_u32 l off.
Proof.
  intros l len off Hoff Hle. unfold load_u32.
  now rewrite slice_slice by lia.
Qed.

Lemma slice_length_le : forall l off len,
  0 <= len -> Z.of_nat (length (slice l off len)) <= len.
Proof.
  intros l off len Hlen. unfold slice. rewrite length_firstn. lia.
Qed.

Section Zones.

Variable V : list Z.
Variable vo : Z -> Z.
Variable m0 : memory.
Variable readLength : Z.
Variable blockLength : Z.
Hypothesis readLength_typed : is_u32 readLength.
Hypothesis blockLength_typed : is_u32 blockLength.

(** A copy of up to [target - bo] bytes from a region other than the
    system buffer whose bytes at [soff] are the next bytes of the view. *)
Lemma zone_copy : forall k src soff target,
  agrees m0 (cmem k) -> block_cursor readLength blockLength k ->
  ro k < readLength -> src <> SystemBuffer ->
  bo k <= target -> target <= blockLength ->
  (forall n, 0 <= n <= target - bo k ->
     slice (m0 src) soff n = slice V (vo (bo k)) n /\
     vo (bo k + n) = vo (bo k) + n) ->
  let n := min (sub32 readLength (ro k)) (sub32 target (bo k)) in
  let k' := advance k
              (RtlCopyMemory (cmem k) SystemBuffer (ro k) src soff n) n in
  agrees m0 (cmem k') /\ block_cursor readLength blockLength k' /\
  copied V vo k k' /\
  bo k' = bo k + n /\ 0 <= n <= target - bo k /\
  (ro k' = readLength \/ bo k' = target).
Proof.
  intros k src soff target Hag (Hro & Hbuf & Hbo) Hlt Hsrc Hle Htl Hview n k'.
  assert (Ht : is_u32 target) by (unfold is_u32 in *; lia).
  destruct (active_copy readLength (ro k) (bo k) target readLength_typed
              ltac:(lia) Ht ltac:(lia)) as (N0 & N1 & N2 & E1 & E2 & N3).
  fold n in N0, N1, N2, E1, E2, N3.
  destruct (Hview n ltac:(lia)) as [Hs Hv].
  assert (Hk' : k' = {| cmem := RtlCopyMemory (cmem k) SystemBuffer (ro k)
                                  src soff n;
                        ro := ro k + n; bo := bo k + n |}).
  { subst k'. unfold advance. now rewrite E1, E2. }
  rewrite Hk'. simpl.
  assert (Hc : copied V vo k
                 {| cmem := RtlCopyMemory (cmem k) SystemBuffer (ro k)
                              src soff n;
                    ro := ro k + n; bo := bo k + n |}).
  { apply copied_by_copy; [lia | | exact Hv].
    rewrite Hag by exact Hsrc. exact Hs. }
  split.
  { intros r Hr. rewrite RtlCopyMemory_frame by exact Hr. now apply Hag. }
  split.
  { unfold block_cursor. simpl. split; [lia|]. split; [|lia].
    unfold RtlCopyMemory. rewrite mem_set_same, write_bytes_length; try lia.
    pose proof (slice_length_le (cmem k src) soff n N0). lia. }
  split; [exact Hc|].
  split; [reflexivity|]. split; [lia|]. exact N3.
Qed.

Lemma zone_zero : forall k target,
  agrees m0 (cmem k) -> block_cursor readLength blockLength k ->
  ro k < readLength ->
  bo k <= target -> target <= blockLength ->
  (forall n, 0 <= n <= target - bo k ->
     zeros n = slice V (vo (bo k)) n /\
     vo (bo k + n) = vo (bo k) + n) ->
  let n := min (sub32 readLength (ro k)) (sub32 target (bo k)) in
  let k' := advance k (RtlZeroMemory (cmem k) SystemBuffer (ro k) n) n in
  agrees m0 (cmem k') /\ block_cursor readLength blockLength k' /\
  copied V vo k k' /\
  bo k' = bo k + n /\ 0 <= n <= target - bo k /\
  (ro k' = readLength \/ bo k' = target).
Proof.
  intros k target Hag (Hro & Hbuf & Hbo) Hlt Hle Htl Hview n k'.
  assert (Ht : is_u32 target) by (unfold is_u32 in *; lia).
  destruct (active_copy readLength (ro k) (bo k) target readLength_typed
              ltac:(lia) Ht ltac:(lia)) as (N0 & N1 & N2 & E1 & E2 & N3).
  fold n in N0, N1, N2, E1, E2, N3.
  destruct (Hview n ltac:(lia)) as [Hs Hv].
  assert (Hk' : k' = {| cmem := RtlZeroMemory (cmem k) SystemBuffer (ro k) n;
                        ro := ro k + n; bo := bo k + n |}).
  { subst k'. unfold advance. now rewrite E1, E2. }
  rewrite Hk'. simpl.
  split.
  { intros r Hr. rewrite RtlZeroMemory_frame by exact Hr. now apply Hag. }
  split.
  { unfold block_cursor. simpl. split; [lia|]. split; [|lia].
    unfold RtlZeroMemory. rewrite mem_set_same, write_bytes_length; try lia.
    rewrite zeros_length. lia. }
  split; [apply copied_by_zero; [lia | exact Hs | exact Hv]|].
  split; [reflexivity|]. split; [lia|]. exact N3.
Qed.

(** Two copy steps in a row. *)
Lemma copied_then : forall k k1 k2,
  block_cursor readLength blockLength k ->
  0 <= vo (bo k) -> vo (bo k1) <= Z.of_nat (length V) ->
  copied V vo k k1 -> copied V vo k1 k2 -> copied V vo k k2.
Proof.
  intros k k1 k2 (Hro & Hbuf & Hbo) Hv Hv1 H1 H2.
  apply copied_trans with (k1 := k1); try assumption. lia.
Qed.

End Zones.

(** ** Copying a trimmed block *)

Section Overlay.

Variable D : Declarations.
Variable readLength : Z.
Variable c : READER_CONTEXT.
Variable b : BLOCK_NODE.
Variable m0 : memory.
Hypothesis readLength_typed : is_u32 readLength.
Hypothesis Hov : overlay_ok D c m0 b.

Abbreviation hs := (sizeof_PCAP_NG_PACKET_HEADER D).
Abbreviation fs := (sizeof_PCAP_NG_PACKET_FOOTER D).
Abbreviation V := (overlay_view D c m0 b).
Abbreviation vo := (overlay_offset c).
Abbreviation BL := (BlockLength b).

Lemma overlay_view_length :
  Z.of_nat (length V) = ModifiedFooterOffset c + fs.
Proof.
  destruct Hov as (H1 & H2 & H3 & H4 & H5 & H6 & H7 & H8 & H9 & H10).
  unfold overlay_view.
  rewrite !length_app, slice_length, zeros_length by lia. lia.
Qed.

Lemma overlay_offset_low : forall off,
  off <= ModifiedFooterOffset c -> vo off = off.
Proof.
  destruct Hov as (H1 & H2 & H3 & _).
  intros off H. unfold overlay_offset.
  destruct (Z.leb_spec (OriginalFooterOffset c) off); lia.
Qed.

Lemma overlay_offset_high : forall off,
  OriginalFooterOffset c <= off ->
  vo off = ModifiedFooterOffset c + (off - OriginalFooterOffset c).
Proof.
  intros off H. unfold overlay_offset.
  destruct (Z.leb_spec (OriginalFooterOffset c) off); lia.
Qed.

Lemma overlay_view_fits : forall off,
  0 <= off <= BL -> outside_gap c off ->
  0 <= vo off <= Z.of_nat (length V).
Proof.
  intros off H Hgap. rewrite overlay_view_length.
  destruct Hov as (H1 & H2 & H3 & H4 & H5 & H6 & H7 & _).
  unfold overlay_offset, outside_gap in *.
  destruct (Z.leb_spec (OriginalFooterOffset c) off); lia.
Qed.

Lemma view_header : forall off n,
  0 <= off -> 0 <= n -> off + n <= hs ->
  slice (m0 ModifiedHeader) off n = slice V off n.
Proof.
  destruct Hov as (H1 & H2 & H3 & H4 & H5 & H6 & H7 & H8 & H9 & H10).
  intros off n Hoff Hn Hle. unfold overlay_view.
  rewrite slice_app_left by lia. reflexivity.
Qed.

Lemma view_data : forall off n,
  hs <= off -> 0 <= n -> off + n <= DataEndOffset c ->
  slice (m0 (blockData b)) off n = slice V off n.
Proof.
  destruct Hov as (H1 & H2 & H3 & H4 & H5 & H6 & H7 & H8 & H9 & H10).
  intros off n Hoff Hn Hle. unfold overlay_view.
  rewrite slice_app_right by lia. rewrite H8.
  rewrite slice_app_left by (rewrite ?slice_length; lia).
  rewrite slice_slice by lia.
  f_equal. lia.
Qed.

Lemma view_zeros : forall off n,
  DataEndOffset c <= off -> 0 <= n -> off + n <= ModifiedFooterOffset c ->
  zeros n = slice V off n.
Proof.
  destruct Hov as (H1 & H2 & H3 & H4 & H5 & H6 & H7 & H8 & H9 & H10).
  intros off n Hoff Hn Hle. unfold overlay_view.
  assert (Hp : Z.of_nat (length (slice (m0 (blockData b)) hs
                                   (DataEndOffset c - hs)))
               = DataEndOffset c - hs)
    by (rewrite slice_length; lia).
  rewrite slice_app_right by lia. rewrite H8.
  rewrite slice_app_right by lia. rewrite Hp.
  rewrite slice_app_left by (rewrite ?zeros_length; lia).
  rewrite slice_zeros by lia. reflexivity.
Qed.

Lemma view_footer : forall off n,
  0 <= off -> 0 <= n -> off + n <= fs ->
  slice (m0 ModifiedFooter) off n = slice V (ModifiedFooterOffset c + off) n.
Proof.
  destruct Hov as (H1 & H2 & H3 & H4 & H5 & H6 & H7 & H8 & H9 & H10).
  intros off n Hoff Hn Hle. unfold overlay_view.
  assert (Hp : Z.of_nat (length (slice (m0 (blockData b)) hs
                                   (DataEndOffset c - hs)))
               = DataEndOffset c - hs)
    by (rewrite slice_length; lia).
  rewrite slice_app_right by lia. rewrite H8.
  rewrite slice_app_right by lia. rewrite Hp.
  rewrite slice_app_right by (rewrite zeros_length; lia).
  rewrite zeros_length. f_equal. lia.
Qed.

Lemma hs_typed_of_overlay : is_u32 hs.
Proof.
  destruct Hov as (H1 & H2 & H3 & H4 & H5 & H6 & H7 & _).
  unfold is_u32 in *. lia.
Qed.

Lemma copy_header_delivers : forall k,
  between readLength c b m0 k -> ro k < readLength ->
  let k' := copy_header D readLength k in
  between readLength c b m0 k' /\ copied V vo k k' /\
  (ro k' = readLength \/ hs <= bo k').
Proof.
  intros k (Hag & Hcur & Hgap) Hlt k'. subst k'.
  destruct Hov as (H1 & H2 & H3 & H4 & H5 & H6 & H7 & H8 & H9 & H10).
  unfold copy_header.
  destruct (Z.ltb_spec (bo k) hs) as [Hin|Hout].
  - assert (Hbo : 0 <= bo k) by apply Hcur.
    assert (E : hs - bo k = sub32 hs (bo k)).
    { symmetry. apply sub32_small. pose proof hs_typed_of_overlay.
      unfold is_u32 in *. lia. }
    rewrite E.
    destruct (zone_copy V vo m0 readLength BL readLength_typed H5
                k ModifiedHeader (bo k) hs Hag Hcur Hlt)
      as (A1 & A2 & A3 & A4 & A5 & A6); try lia; try discriminate.
    { intros n Hn. rewrite !overlay_offset_low by lia.
      split; [apply view_header; lia | reflexivity]. }
    set (n := min _ _) in *.
    assert (Hn : u32 n = n) by (apply u32_small; unfold is_u32 in *; lia).
    rewrite Hn.
    split; [|split; [exact A3|]].
    + split; [exact A1|]. split; [exact A2|].
      left. rewrite A4. lia.
    + destruct A6 as [A6|A6]; [left; exact A6 | right; lia].
  - split; [|split; [apply copied_refl | right; exact Hout]].
    split; [exact Hag|]. split; [exact Hcur | exact Hgap].
Qed.

Lemma copy_data_delivers : forall k,
  between readLength c b m0 k -> (ro k = readLength \/ hs <= bo k) ->
  let k' := copy_data D c b readLength k in
  between readLength c b m0 k' /\ copied V vo k k' /\
  (ro k' = readLength \/ DataEndOffset c <= bo k').
Proof.
  intros k (Hag & Hcur & Hgap) Hpre k'. subst k'.
  destruct Hov as (H1 & H2 & H3 & H4 & H5 & H6 & H7 & H8 & H9 & H10).
  assert (Hro : 0 <= ro k <= readLength) by apply Hcur.
  assert (Hskip : between readLength c b m0 k /\ copied V vo k k)
    by (split; [split; [exact Hag | split; [exact Hcur | exact Hgap]]
               | apply copied_refl]).
  unfold copy_data.
  destruct (Z.leb_spec hs (bo k)) as [Ha|Ha];
    destruct (Z.ltb_spec (bo k) (DataEndOffset c)) as [Hb|Hb];
    destruct (Z.ltb_spec (ro k) readLength) as [Hc|Hc]; cbn [andb];
    try (split; [apply Hskip | split; [apply Hskip | lia]]).
  destruct (zone_copy V vo m0 readLength BL readLength_typed H5
              k (blockData b) (bo k) (DataEndOffset c)
              Hag Hcur Hc)
    as (A1 & A2 & A3 & A4 & A5 & A6); try lia.
  { unfold blockData. destruct (Buffer b); discriminate. }
  { intros n Hn. rewrite !overlay_offset_low by lia.
    split; [apply view_data; lia | reflexivity]. }
  set (n := min _ _) in *.
  split; [|split; [exact A3|]].
  - split; [exact A1|]. split; [exact A2|].
    left. rewrite A4. lia.
  - destruct A6 as [A6|A6]; [left; exact A6 | right; lia].
Qed.

Lemma copy_padding_delivers : forall k,
  between readLength c b m0 k ->
  (ro k = readLength \/ DataEndOffset c <= bo k) ->
  let k' := copy_padding c readLength k in
  between readLength c b m0 k' /\ copied V vo k k' /\
  (ro k' = readLength \/ OriginalFooterOffset c <= bo k').
Proof.
  intros k (Hag & Hcur & Hgap) Hpre k'. subst k'.
  destruct Hov as (H1 & H2 & H3 & H4 & H5 & H6 & H7 & H8 & H9 & H10).
  assert (Hro : 0 <= ro k <= readLength) by apply Hcur.
  assert (Hskip : between readLength c b m0 k /\ copied V vo k k)
    by (split; [split; [exact Hag | split; [exact Hcur | exact Hgap]]
               | apply copied_refl]).
  unfold copy_padding.
  destruct (Z.leb_spec (DataEndOffset c) (bo k)) as [Ha|Ha];
    destruct (Z.ltb_spec (bo k) (OriginalFooterOffset c)) as [Hb|Hb];
    destruct (Z.ltb_spec (ro k) readLength) as [Hc|Hc]; cbn [andb];
    try (split; [apply Hskip | split; [apply Hskip | lia]]).
  assert (Hlow : bo k <= ModifiedFooterOffset c)
    by (destruct Hgap; lia).
  destruct (zone_zero V vo m0 readLength BL readLength_typed H5
              k (ModifiedFooterOffset c) Hag Hcur Hc)
    as (A1 & A2 & A3 & A4 & A5 & A6); try lia.
  { intros n Hn. rewrite !overlay_offset_low by lia.
    split; [apply view_zeros; lia | reflexivity]. }
  set (n := min _ _) in *.
  set (k1 := advance k _ n) in *.
  destruct (Z.leb_spec (ModifiedFooterOffset c) (bo k1)) as [Hj|Hj].
  - assert (Hat : bo k1 = ModifiedFooterOffset c) by lia.
    split; [|split].
    + split; [exact A1|]. split.
      * destruct A2 as (B1 & B2 & B3).
        unfold block_cursor. simpl. split; [exact B1|].
        split; [exact B2 | lia].
      * right. simpl. lia.
    + destruct A3 as (n' & P & R & O & B & F).
      exists n'. simpl.
      split; [exact P|]. split; [exact R|].
      split; [|split; [exact B | exact F]].
      rewrite <- O, Hat.
      rewrite overlay_offset_high, overlay_offset_low by lia. lia.
    + right. simpl. lia.
  - split; [|split; [exact A3|]].
    + split; [exact A1|]. split; [exact A2|]. left. lia.
    + destruct A6 as [A6|A6]; [left; exact A6 | lia].
Qed.

Lemma copy_footer_delivers : forall k,
  between readLength c b m0 k ->
  (ro k = readLength \/ OriginalFooterOffset c <= bo k) ->
  let k' := copy_footer c BL readLength k in
  between readLength c b m0 k' /\ copied V vo k k' /\
  (ro k' = readLength \/ bo k' = BL).
Proof.
  intros k (Hag & Hcur & Hgap) Hpre k'. subst k'.
  destruct Hov as (H1 & H2 & H3 & H4 & H5 & H6 & H7 & H8 & H9 & H10).
  assert (Hskip : between readLength c b m0 k /\ copied V vo k k)
    by (split; [split; [exact Hag | split; [exact Hcur | exact Hgap]]
               | apply copied_refl]).
  assert (Hro : 0 <= ro k <= readLength) by apply Hcur.
  assert (Hbo : 0 <= bo k <= BL) by apply Hcur.
  unfold copy_footer.
  destruct (Z.leb_spec (OriginalFooterOffset c) (bo k)) as [Ha|Ha];
    destruct (Z.ltb_spec (ro k) readLength) as [Hc|Hc]; cbn [andb];
    try (split; [apply Hskip | split; [apply Hskip | lia]]).
  assert (Es : sub32 (bo k) (OriginalFooterOffset c)
               = bo k - OriginalFooterOffset c)
    by (apply sub32_small; unfold is_u32 in *; lia).
  rewrite Es.
  destruct (zone_copy V vo m0 readLength BL readLength_typed H5
              k ModifiedFooter
              (bo k - OriginalFooterOffset c) BL Hag Hcur Hc)
    as (A1 & A2 & A3 & A4 & A5 & A6); try lia; try discriminate.
  { intros n Hn. rewrite !overlay_offset_high by lia.
    split; [apply view_footer; lia | lia]. }
  set (n := min _ _) in *.
  split; [|split; [exact A3 | exact A6]].
  split; [exact A1|]. split; [exact A2|].
  right. rewrite A4. lia.
Qed.

(** Lines 384-440 on a trimmed block: bytes of the view are delivered
    from the cursor on until the buffer is full or the block ends. *)
Lemma copy_trimmed_delivers : forall k,
  between readLength c b m0 k -> ro k < readLength ->
  let k' := copy_footer c BL readLength
              (copy_padding c readLength
                 (copy_data D c b readLength (copy_header D readLength k))) in
  between readLength c b m0 k' /\ copied V vo k k' /\
  (ro k' = readLength \/ bo k' = BL).
Proof.
  intros k Hk Hlt k'. subst k'.
  destruct Hov as (H1 & H2 & H3 & H4 & H5 & H6 & H7 & H8 & H9 & H10).
  destruct (copy_header_delivers k Hk Hlt) as (K1 & C1 & P1).
  destruct (copy_data_delivers _ K1 P1) as (K2 & C2 & P2).
  destruct (copy_padding_delivers _ K2 P2) as (K3 & C3 & P3).
  destruct (copy_footer_delivers _ K3 P3) as (K4 & C4 & P4).
  split; [exact K4|]. split; [|exact P4].
  assert (T : forall a a1 a2, between readLength c b m0 a ->
  between readLength c b m0 a1 ->
                copied V vo a a1 -> copied V vo a1 a2 -> copied V vo a a2).
  { intros a a1 a2 (_ & B1 & G1) (_ & B2 & G2).
    apply (copied_then V vo readLength BL); try assumption.
    - apply overlay_view_fits; [apply B1 | exact G1].
    - apply overlay_view_fits; [apply B2 | exact G2]. }
  eapply T; [exact Hk | exact K3 | | exact C4].
  eapply T; [exact Hk | exact K2 | | exact C3].
  eapply T; [exact Hk | exact K1 | exact C1 | exact C2].
Qed.

End Overlay.

(** ** Copying any block *)

Section BlockCopy.

Variable D : Declarations.
Variable readLength : Z.
Hypothesis readLength_typed : is_u32 readLength.

Lemma blockData_not_buffer : forall b, blockData b <> SystemBuffer.
Proof. intros b. unfold blockData. destruct (Buffer b); discriminate. Qed.

Lemma agrees_refl : forall m, agrees m m.
Proof. intros m r _. reflexivity. Qed.

Lemma trimming_agrees : forall m0 m,
  agrees m0 m -> trimming D m = trimming D m0.
Proof.
  intros m0 m H. unfold trimming. rewrite H by discriminate. reflexivity.
Qed.

Lemma current_view_agrees : forall c b m0 m,
  agrees m0 m -> current_view D c m b = current_view D c m0 b.
Proof.
  intros c b m0 m H. unfold current_view, overlay_view.
  rewrite (trimming_agrees m0 m H).
  rewrite !H by (try discriminate; apply blockData_not_buffer).
  reflexivity.
Qed.

Lemma view_offset_agrees : forall c m0 m off,
  agrees m0 m -> view_offset D c m off = view_offset D c m0 off.
Proof.
  intros c m0 m off H. unfold view_offset.
  now rewrite (trimming_agrees m0 m H).
Qed.

Lemma copy_verbatim_delivers : forall b k,
  is_u32 (BlockLength b) ->
  Z.of_nat (length (cmem k (blockData b))) = BlockLength b ->
  block_cursor readLength (BlockLength b) k -> ro k < readLength ->
  let k' := copy_verbatim b (BlockLength b) readLength k in
  agrees (cmem k) (cmem k') /\
  block_cursor readLength (BlockLength b) k' /\
  copied (slice (cmem k (blockData b)) 0 (BlockLength b)) (fun off => off)
    k k' /\
  (ro k' = readLength \/ bo k' = BlockLength b).
Proof.
  intros b k Hbl Hlen Hcur Hlt k'. subst k'. unfold copy_verbatim.
  assert (Hbo : 0 <= bo k <= BlockLength b) by apply Hcur.
  destruct (zone_copy (slice (cmem k (blockData b)) 0 (BlockLength b))
              (fun off => off) (cmem k) readLength (BlockLength b)
              readLength_typed Hbl k (blockData b) (bo k) (BlockLength b)
              (agrees_refl _) Hcur Hlt (blockData_not_buffer b))
    as (A1 & A2 & A3 & A4 & A5 & A6); try lia.
  { intros n Hn. split; [|reflexivity].
    rewrite slice_slice by lia. reflexivity. }
  auto.
Qed.

(** Lines 379-449 deliver the bytes of the current view from the cursor
    on, until the buffer is full or the block ends. *)
Lemma copy_block_delivers : forall c b k,
  view_ok D c (cmem k) b ->
  block_cursor readLength (BlockLength b) k ->
  position_ok D c (cmem k) (bo k) ->
  ro k < readLength ->
  let k' := copy_block D c b readLength k in
  agrees (cmem k) (cmem k') /\
  block_cursor readLength (BlockLength b) k' /\
  position_ok D c (cmem k') (bo k') /\
  copied (current_view D c (cmem k) b) (view_offset D c (cmem k)) k k' /\
  (ro k' = readLength \/ bo k' = BlockLength b).
Proof.
  intros c b k (Hbl & Hlen & Hov) Hcur Hpos Hlt k'. subst k'.
  unfold copy_block, current_view, view_offset, position_ok in *.
  destruct (trimming D (cmem k)) eqn:Et.
  - specialize (Hov eq_refl). specialize (Hpos eq_refl).
    destruct (copy_trimmed_delivers D readLength c b (cmem k)
                readLength_typed Hov k) as ((A1 & A2 & A3) & A4 & A5).
    + split; [apply agrees_refl|]. split; assumption.
    + exact Hlt.
    + split; [exact A1|]. split; [exact A2|]. split; [intros _; exact A3|].
      split; [exact A4 | exact A5].
  - destruct (copy_verbatim_delivers b k Hbl Hlen Hcur Hlt)
      as (A1 & A2 & A3 & A4).
    split; [exact A1|]. split; [exact A2|].
    split; [|split; [exact A3 | exact A4]].
    rewrite (trimming_agrees _ _ A1), Et. discriminate.
Qed.

(** The end of the block is the end of its view. *)
Lemma view_offset_end : forall c m b,
  view_ok D c m b ->
  view_offset D c m (BlockLength b)
  = Z.of_nat (length (current_view D c m b)).
Proof.
  intros c m b (Hbl & Hlen & Hov). unfold view_offset, current_view.
  destruct (trimming D m).
  - specialize (Hov eq_refl).
    rewrite (overlay_view_length D c b m Hov).
    destruct Hov as (H1 & H2 & H3 & H4 & H5 & H6 & H7 & _).
    rewrite (overlay_offset_high c) by lia. lia.
  - rewrite slice_length; unfold is_u32 in *; lia.
Qed.

Lemma view_offset_fits : forall c m b off,
  view_ok D c m b -> 0 <= off <= BlockLength b -> position_ok D c m off ->
  0 <= view_offset D c m off <= Z.of_nat (length (current_view D c m b)).
Proof.
  intros c m b off (Hbl & Hlen & Hov) Hoff Hpos.
  unfold view_offset, current_view, position_ok in *.
  destruct (trimming D m).
  - apply (overlay_view_fits D c b m (Hov eq_refl)); auto.
  - rewrite slice_length; unfold is_u32 in *; lia.
Qed.

End BlockCopy.

(** ** Reading does not disturb what is still to be read *)

Section Stability.

Variable D : Declarations.

Lemma wf_block_agrees : forall m0 m b,
  agrees m0 m -> wf_block D m0 b -> wf_block D m b.
Proof.
  intros m0 m b H. unfold wf_block, capturedLength.
  rewrite (H (blockData b) (blockData_not_buffer b)). auto.
Qed.

Lemma Forall_wf_block_agrees : forall m0 m queue,
  agrees m0 m -> Forall (wf_block D m0) queue -> Forall (wf_block D m) queue.
Proof.
  intros m0 m queue H. apply Forall_impl. intros b.
  now apply wf_block_agrees.
Qed.

Lemma scratch_ok_agrees : forall m0 m,
  agrees m0 m -> scratch_ok D m0 -> scratch_ok D m.
Proof.
  intros m0 m H. unfold scratch_ok. rewrite !H by discriminate. auto.
Qed.

(** The stream of a queue depends on the settings and on the storage of
    the blocks only. *)
Lemma render_storage : forall snapLength pad m0 m b,
  m (blockData b) = m0 (blockData b) ->
  render D snapLength pad m b = render D snapLength pad m0 b.
Proof.
  intros snapLength pad m0 m b H.
  unfold render, truncates, capturedLength. rewrite H. reflexivity.
Qed.

Lemma logical_stream_stable : forall c c' m m' queue,
  same_settings c c' ->
  (forall a, m' (BlockStorage a) = m (BlockStorage a)) ->
  logical_stream D c' m' queue = logical_stream D c m queue.
Proof.
  intros c c' m m' queue (S1 & S2 & S3 & S4) Hm.
  unfold logical_stream. rewrite S1, S2.
  assert (Hsup : forall b, suppressed c' b = suppressed c b)
    by (intros b; unfold suppressed; now rewrite S3, S4).
  induction queue as [|b queue IH]; simpl; [reflexivity|].
  rewrite Hsup. destruct (suppressed c b); simpl; [exact IH|].
  rewrite IH. f_equal. apply render_storage.
  unfold blockData. destruct (Buffer b); apply Hm.
Qed.

Lemma agrees_storage : forall m0 m,
  agrees m0 m -> forall a, m (BlockStorage a) = m0 (BlockStorage a).
Proof. intros m0 m H a. apply H. discriminate. Qed.

Lemma agrees_trans : forall m0 m1 m2,
  agrees m0 m1 -> agrees m1 m2 -> agrees m0 m2.
Proof.
  intros m0 m1 m2 H1 H2 r Hr. rewrite H2, H1 by assumption. reflexivity.
Qed.

End Stability.

(** ** Serving the held block *)

Section BlockService.

Variable D : Declarations.
Variable readLength : Z.
Hypothesis readLength_typed : is_u32 readLength.
Hypothesis layout : layout_ok D.

Lemma pending_held : forall s b,
  blockNode s = Some b ->
  pending D (held s) (mem s)
  = skipn (Z.to_nat (view_offset D (context s) (mem s) (blockOffset s)))
      (current_view D (context s) (mem s) b).
Proof.
  intros s b Hb. unfold pending, held. simpl. rewrite Hb. reflexivity.
Qed.

Lemma pending_none : forall s,
  blockNode s = None -> pending D (held s) (mem s) = [].
Proof.
  intros s Hb. unfold pending, held. simpl. rewrite Hb. reflexivity.
Qed.

Lemma pending_some : forall c m b off,
  pending D (set_CurrentBlock (Some b) off c) m
  = skipn (Z.to_nat (view_offset D c m off)) (current_view D c m b).
Proof. reflexivity. Qed.

Lemma pending_no_block : forall c m off,
  pending D (set_CurrentBlock None off c) m = [].
Proof. reflexivity. Qed.

Lemma ahead_held : forall s,
  ahead D (held s) (mem s)
  = pending D (held s) (mem s)
      ++ (if RestartRequested (context s) =? 1 then []
          else logical_stream D (context s) (mem s) (Reader (context s))).
Proof. reflexivity. Qed.

Lemma held_view_ok : forall s b,
  blockNode s = Some b ->
  reader_ok D (held s) (mem s) ->
  view_ok D (context s) (mem s) b /\
  0 <= blockOffset s <= BlockLength b /\
  position_ok D (context s) (mem s) (blockOffset s).
Proof.
  intros s b Hb (_ & (Hh & Hf) & Hcur & _).
  unfold cursor_ok, held in Hcur. simpl in Hcur. rewrite Hb in Hcur.
  destruct Hcur as ((W1 & W2 & W3) & Hoff & Hov).
  destruct layout as (L1 & L2 & _).
  split; [|split; [exact Hoff|]].
  - split; [exact W1|]. split; [exact W2|].
    intros Ht. destruct (Hov Ht) as (O1 & O2 & O3 & O4 & O5).
    unfold overlay_ok, is_u32 in *. repeat split; try assumption; lia.
  - intros Ht. destruct (Hov Ht) as (O1 & O2 & O3 & O4 & O5). exact O5.
Qed.

Lemma skipn_split : forall (l : list Z) a n,
  0 <= a -> 0 <= n ->
  skipn (Z.to_nat a) l = slice l a n ++ skipn (Z.to_nat (a + n)) l.
Proof.
  intros l a n Ha Hn. unfold slice.
  rewrite Z2Nat.inj_add, <- skipn_skipn_add by lia.
  symmetry. apply firstn_skipn.
Qed.

Lemma serve_block_delivers : forall s b,
  blockNode s = Some b ->
  loop_ok D readLength s -> readOffset s < readLength ->
  let s1 := serve_block D readLength b s in
  loop_ok D readLength s1 /\
  agrees (mem s) (mem s1) /\
  context s1 = context s /\
  (exists d, delivered D s s1 d) /\
  (blockNode s1 = None \/ readOffset s1 = readLength).
Proof.
  intros s b Hb (Hok & Hro & Hbuf) Hlt s1.
  destruct (held_view_ok s b Hb Hok) as (Hview & Hbo & Hpos).
  pose (k0 := {| cmem := mem s; ro := readOffset s; bo := blockOffset s |}).
  destruct (copy_block_delivers D readLength readLength_typed (context s) b
              k0 Hview) as (A1 & A2 & A3 & A4 & A5);
    [unfold block_cursor; simpl; auto | exact Hpos | exact Hlt |].
  set (k' := copy_block D (context s) b readLength k0) in *.
  simpl in A1, A4.
  destruct A4 as (n & N0 & R & O & B & F). simpl in R, O, B.
  set (V := current_view D (context s) (mem s) b) in *.
  set (vo := view_offset D (context s) (mem s)) in *.
  assert (Hbo' : 0 <= bo k' <= BlockLength b) by apply A2.
  assert (Hro' : 0 <= ro k' <= readLength) by apply A2.
  assert (Hpos' : position_ok D (context s) (mem s) (bo k')).
  { unfold position_ok in *. rewrite <- (trimming_agrees D _ _ A1).
    exact A3. }
  pose proof (view_offset_fits D (context s) (mem s) b _ Hview Hbo Hpos)
    as Hfit0.
  pose proof (view_offset_fits D (context s) (mem s) b _ Hview Hbo' Hpos')
    as Hfit1.
  fold V in Hfit0, Hfit1. fold vo in Hfit0, Hfit1.
  assert (Hd : Z.of_nat (length (slice V (vo (blockOffset s)) n)) = n)
    by (rewrite slice_length; lia).
  assert (Hpend : pending D (held s) (mem s)
                  = slice V (vo (blockOffset s)) n
                      ++ skipn (Z.to_nat (vo (bo k'))) V).
  { rewrite (pending_held s b Hb). fold V. fold vo.
    rewrite O. apply skipn_split; lia. }
  destruct Hok as (Hset & Hscr & Hcur & Hq).
  assert (Hscr' : scratch_ok D (cmem k'))
    by (eapply scratch_ok_agrees; eassumption).
  assert (Hq' : Forall (wf_block D (cmem k')) (Reader (context s)))
    by (eapply Forall_wf_block_agrees; eassumption).
  assert (Htail : forall c1,
            same_settings (context s) c1 ->
            logical_stream D c1 (cmem k') (Reader (context s))
            = logical_stream D (context s) (mem s) (Reader (context s))).
  { intros c1 Hs. apply logical_stream_stable; [exact Hs|].
    apply agrees_storage. exact A1. }
  subst s1. unfold serve_block. fold k0. fold k'.
  destruct (Z.leb_spec (BlockLength b) (bo k')) as [Hend|Hmore].
  - split; [|split; [exact A1 | split; [reflexivity | split]]].
    + split; [|simpl; split; [lia|]].
      * unfold reader_ok, held. simpl.
        split; [exact Hset|]. split; [exact Hscr'|].
        split; [exact I | exact Hq'].
      * rewrite B, write_bytes_length; lia.
    + exists (slice V (vo (blockOffset s)) n).
      split; [exact B|]. split; [simpl; lia|]. split; [|reflexivity].
      rewrite !ahead_held, Hpend.
      unfold held. cbn [context mem blockNode blockOffset].
      rewrite pending_no_block.
      assert (Hall : skipn (Z.to_nat (vo (bo k'))) V = []).
      { apply skipn_all2.
        assert (E : bo k' = BlockLength b) by lia.
        rewrite E. unfold vo, V.
        rewrite (view_offset_end D (context s) (mem s) b Hview). lia. }
      rewrite Hall, app_nil_r. simpl. f_equal.
      destruct (RestartRequested (context s) =? 1); [reflexivity|].
      rewrite Htail by apply same_settings_refl. reflexivity.
    + left. reflexivity.
  - assert (Hfull : ro k' = readLength) by (destruct A5; lia).
    split; [|split; [exact A1 | split; [reflexivity | split]]].
    + split; [|simpl; split; [lia|]].
      * unfold reader_ok, held. simpl.
        split; [exact Hset|]. split; [exact Hscr'|].
        split; [|exact Hq'].
        unfold cursor_ok. simpl.
        unfold cursor_ok, held in Hcur. simpl in Hcur. rewrite Hb in Hcur.
        destruct Hcur as (W & _ & Hov).
        split; [eapply wf_block_agrees; eassumption|].
        split; [exact Hbo'|].
        intros Ht. rewrite (trimming_agrees D _ _ A1) in Ht.
        destruct (Hov Ht) as (O1 & O2 & O3 & O4 & _).
        repeat split; try assumption.
        apply Hpos'. exact Ht.
      * rewrite B, write_bytes_length; lia.
    + exists (slice V (vo (blockOffset s)) n).
      split; [exact B|]. split; [simpl; lia|]. split; [|reflexivity].
      rewrite !ahead_held, Hpend.
      unfold held. cbn [context mem blockNode blockOffset].
      rewrite pending_some.
      rewrite (current_view_agrees D _ _ _ _ A1).
      rewrite (view_offset_agrees D _ _ _ _ A1).
      fold V. fold vo. rewrite <- app_assoc. f_equal. f_equal.
      destruct (RestartRequested (context s) =? 1); [reflexivity|].
      rewrite Htail by apply same_settings_refl. reflexivity.
    + right. exact Hfull.
Qed.

End BlockService.

(** ** The filter loops decide [suppressed] *)

Lemma scan_filter_hit : forall ids id announce n index tr,
  0 <= index ->
  fst (scan_filter ids id announce index n tr)
  = existsb (Z.eqb id)
      (map (fun i => nth i ids 0) (seq (Z.to_nat index) n)).
Proof.
  induction n as [|n IH]; intros index tr Hidx; simpl.
  - reflexivity.
  - rewrite (Z.eqb_sym id).
    destruct (nth (Z.to_nat index) ids 0 =? id); simpl; [reflexivity|].
    rewrite IH by lia.
    replace (Z.to_nat (index + 1)) with (S (Z.to_nat index)) by lia.
    reflexivity.
Qed.

Lemma check_filter_hit : forall filter id announce tr,
  fst (check_filter filter id announce tr) = id_listed filter id.
Proof.
  intros filter id announce tr. unfold check_filter, id_listed, filter_ids.
  destruct filter as [ids|]; [|reflexivity].
  rewrite scan_filter_hit by lia. reflexivity.
Qed.

Lemma filter_block_hit : forall c b tr,
  fst (filter_block c b tr)
  = id_listed (FilteredProcessIds c) (ProcessId b)
    || id_listed (FilteredConnectionIds c) (ConnectionId b).
Proof.
  intros c b tr. unfold filter_block.
  rewrite <- (check_filter_hit (FilteredProcessIds c) (ProcessId b)
                EvCheckProcessFilter tr).
  destruct (check_filter (FilteredProcessIds c) _ _ tr) as [hit tr1].
  destruct hit; simpl; [reflexivity|].
  apply check_filter_hit.
Qed.

(** The comparisons a filter loop announces: indices 1, 2, ... up to the
    first match, or all of them when nothing matches. *)
Lemma scan_filter_checks : forall ids id announce n index tr,
  exists k,
    (k <= n)%nat /\
    snd (scan_filter ids id announce index n tr)
    = tr ++ map announce (indices index k) /\
    (fst (scan_filter ids id announce index n tr) = false -> k = n).
Proof.
  induction n as [|n IH]; intros index tr; simpl.
  - exists 0%nat. simpl. rewrite app_nil_r. auto.
  - destruct (nth (Z.to_nat index) ids 0 =? id).
    + exists 1%nat. simpl. split; [lia|]. split; [reflexivity|discriminate].
    + destruct (IH (index + 1) (tr ++ [announce index])) as (k & K1 & K2 & K3).
      exists (S k). simpl. split; [lia|]. split.
      * rewrite K2, <- app_assoc. reflexivity.
      * intros Hf. f_equal. now apply K3.
Qed.

(** ** Trimming builds the overlay of the spec *)

Section Trimming.

Variable D : Declarations.
Hypothesis layout : layout_ok D.
Hypothesis padding : padding_ok D.

Abbreviation hs := (sizeof_PCAP_NG_PACKET_HEADER D).
Abbreviation fs := (sizeof_PCAP_NG_PACKET_FOOTER D).

Lemma blockData_not_scratch : forall b,
  blockData b <> ModifiedHeader /\ blockData b <> ModifiedFooter.
Proof.
  intros b. unfold blockData. destruct (Buffer b); split; discriminate.
Qed.

Lemma write_bytes_whole : forall dst bs,
  length bs = length dst -> write_bytes dst 0 bs = bs.
Proof.
  intros dst bs H. unfold write_bytes. simpl.
  rewrite H, skipn_all. apply app_nil_r.
Qed.

Lemma wf_block_storage : forall m0 m b,
  m (blockData b) = m0 (blockData b) -> wf_block D m0 b -> wf_block D m b.
Proof.
  intros m0 m b H. unfold wf_block, capturedLength. rewrite H. auto.
Qed.

(** Clearing the trimming mark (line 323). *)
Lemma clear_mark : forall m,
  scratch_ok D m ->
  let m1 := store_field m ModifiedHeader (offsetof_HEADER_BlockType D) 0 in
  scratch_ok D m1 /\ trimming D m1 = false /\
  (forall r, r <> ModifiedHeader -> m1 r = m r).
Proof.
  intros m (Hh & Hf) m1. subst m1.
  destruct layout as (L1 & L2 & L3 & L4 & L5 & L6 & L7 & L8).
  split; [|split].
  - unfold scratch_ok, store_field.
    rewrite mem_set_same, mem_set_other by discriminate.
    rewrite store_u32_length by lia. auto.
  - unfold trimming, store_field. rewrite mem_set_same.
    rewrite load_store_same by lia. reflexivity.
  - intros r Hr. now apply store_field_frame.
Qed.

(** The sizes that follow from a block being truncated. *)
Lemma truncation_sizes : forall c m b,
  settings_ok D c -> wf_block D m b -> BlockType b = PacketBlock ->
  truncates D (SnapLength c) m b = true ->
  let S := SnapLength c in
  let pad := SnapLengthPad c in
  0 < S /\ 0 <= pad /\ hs + S + pad + fs <= BlockLength b /\
  add32 hs S = hs + S /\
  add32 (hs + S) pad = hs + S + pad /\
  sub32 (load_u32 (m (blockData b)) (offsetof_HEADER_BlockLength D)) fs
  = BlockLength b - fs /\
  add32 (hs + S + pad) fs = truncated_length D S pad.
Proof.
  intros c m b (S1 & S2) (W1 & W2 & W3) Hp Ht S pad.
  destruct (W3 Hp) as (B1 & B2 & B3 & B4).
  destruct layout as (L1 & L2 & _).
  unfold truncates in Ht. rewrite Hp in Ht.
  apply andb_true_iff in Ht. destruct Ht as [T1 T2].
  apply negb_true_iff, Z.eqb_neq in T1.
  apply Z.gtb_lt in T2.
  fold S in T1, T2.
  assert (HS : 0 < S) by (unfold is_u32 in S1; fold S in S1; lia).
  destruct (padding S (capturedLength D m b)) as [P1 P2]; [lia | lia | exact B3 |].
  assert (Hpad : pad = PCAP_NG_PADDING D S - S).
  { subst pad. rewrite (S2 T1). fold S.
    apply sub32_small. unfold is_u32 in *. lia. }
  unfold truncated_length, is_u32 in *.
  split; [exact HS|]. split; [lia|]. split; [lia|].
  split; [apply add32_small; unfold is_u32; lia|].
  split; [apply add32_small; unfold is_u32; lia|].
  split; [rewrite B2; apply sub32_small; unfold is_u32; lia|].
  apply add32_small; unfold is_u32; lia.
Qed.

Lemma trim_block_verbatim : forall c m b,
  BlockType b = PacketBlock ->
  truncates D (SnapLength c) m b = false ->
  trim_block D c m b = (c, m).
Proof.
  intros c m b Hp Ht. unfold truncates, capturedLength in Ht.
  rewrite Hp in Ht. unfold trim_block. rewrite Ht. reflexivity.
Qed.

Lemma trim_block_truncating : forall c m b,
  settings_ok D c -> scratch_ok D m -> wf_block D m b ->
  BlockType b = PacketBlock ->
  truncates D (SnapLength c) m b = true ->
  let S := SnapLength c in
  let pad := SnapLengthPad c in
  let data := m (blockData b) in
  exists m2,
    trim_block D c m b
    = (set_overlay (hs + S) (hs + S + pad) (BlockLength b - fs) c, m2) /\
    m2 ModifiedHeader = overlay_header D S pad data /\
    m2 ModifiedFooter = overlay_footer D S pad (BlockLength b) data /\
    (forall r, r <> ModifiedHeader -> r <> ModifiedFooter -> m2 r = m r).
Proof.
  intros c m b Hset (Hh & Hf) Hwf Hp Ht S pad data. subst data.
  destruct (truncation_sizes c m b Hset Hwf Hp Ht)
    as (Z1 & Z2 & Z3 & E1 & E2 & E3 & E4).
  fold S in Z1, Z3, E1, E2, E4. fold pad in Z2, Z3, E2, E4.
  destruct Hwf as (W1 & W2 & W3).
  destruct layout as (L1 & L2 & L3 & L4 & L5 & L6 & L7 & L8).
  destruct (blockData_not_scratch b) as [Nh Nf].
  unfold trim_block.
  assert (Hc : negb (SnapLength c =? 0)
               && (load_u32 (m (blockData b))
                     (offsetof_HEADER_CapturedLength D) >? SnapLength c)
               = true).
  { unfold truncates, capturedLength in Ht. now rewrite Hp in Ht. }
  rewrite Hc. fold S. fold pad.
  rewrite E1, E2, E3, E4.
  eexists. split; [reflexivity|].
  assert (Hhdr : write_bytes (m ModifiedHeader) 0 (slice (m (blockData b)) 0 hs)
                 = slice (m (blockData b)) 0 hs).
  { apply write_bytes_whole. rewrite slice_length; unfold is_u32 in *; lia. }
  assert (Hftr : write_bytes (m ModifiedFooter) 0
                   (slice (m (blockData b)) (BlockLength b - fs) fs)
                 = slice (m (blockData b)) (BlockLength b - fs) fs).
  { apply write_bytes_whole. rewrite slice_length; unfold is_u32 in *; lia. }
  assert (Hlen : Z.of_nat (length (slice (m (blockData b)) 0 hs)) = hs)
    by (rewrite slice_length; unfold is_u32 in *; lia).
  split; [|split].
  - unfold store_field, RtlCopyMemory.
    repeat (rewrite ?mem_set_same; rewrite ?mem_set_other by congruence).
    rewrite Hhdr. reflexivity.
  - unfold store_field, RtlCopyMemory.
    repeat (rewrite ?mem_set_same; rewrite ?mem_set_other by congruence).
    rewrite Hhdr, Hftr.
    unfold overlay_footer. f_equal.
    rewrite load_store_before by (rewrite ?store_u32_length; lia).
    rewrite load_store_same by lia.
    apply u32_small. unfold truncated_length, is_u32 in *. lia.
  - intros r R1 R2.
    rewrite !store_field_frame, !RtlCopyMemory_frame by congruence.
    reflexivity.
Qed.

(** The overlay header keeps the block type of the original header, so
    the trimming mark is set. *)
Lemma overlay_header_mark : forall S pad data,
  hs <= Z.of_nat (length data) ->
  load_u32 (overlay_header D S pad data) (offsetof_HEADER_BlockType D)
  = load_u32 data (offsetof_HEADER_BlockType D).
Proof.
  intros S pad data Hlen.
  destruct layout as (L1 & L2 & L3 & L4 & L5 & L6 & L7 & L8).
  assert (Hl : Z.of_nat (length (slice data 0 hs)) = hs)
    by (rewrite slice_length; unfold is_u32 in *; lia).
  unfold overlay_header.
  rewrite load_store_before by (rewrite ?store_u32_length; lia).
  rewrite load_store_before by lia.
  apply load_slice; lia.
Qed.

Lemma overlay_header_length : forall S pad data,
  hs <= Z.of_nat (length data) ->
  Z.of_nat (length (overlay_header D S pad data)) = hs.
Proof.
  intros S pad data Hlen.
  destruct layout as (L1 & L2 & L3 & L4 & L5 & L6 & L7 & L8).
  assert (Hl : Z.of_nat (length (slice data 0 hs)) = hs)
    by (rewrite slice_length; unfold is_u32 in *; lia).
  unfold overlay_header.
  rewrite !store_u32_length by (rewrite ?store_u32_length; lia).
  exact Hl.
Qed.

Lemma overlay_footer_length : forall S pad blockLength data,
  fs <= blockLength -> blockLength <= Z.of_nat (length data) ->
  Z.of_nat (length (overlay_footer D S pad blockLength data)) = fs.
Proof.
  intros S pad blockLength data H1 H2.
  destruct layout as (L1 & L2 & L3 & L4 & L5 & L6 & L7 & L8).
  assert (Hl : Z.of_nat (length (slice data (blockLength - fs) fs)) = fs)
    by (rewrite slice_length; unfold is_u32 in *; lia).
  unfold overlay_footer.
  rewrite store_u32_length by lia. exact Hl.
Qed.

End Trimming.

(** ** One iteration delivers the front of what is ahead *)

Section Iteration.

Variable D : Declarations.
Variable readLength : Z.
Hypothesis readLength_typed : is_u32 readLength.
Hypothesis layout : layout_ok D.
Hypothesis padding : padding_ok D.

Abbreviation hs := (sizeof_PCAP_NG_PACKET_HEADER D).
Abbreviation fs := (sizeof_PCAP_NG_PACKET_FOOTER D).

Lemma logical_stream_cons : forall c m b queue,
  logical_stream D c m (b :: queue)
  = (if suppressed c b then []
     else render D (SnapLength c) (SnapLengthPad c) m b)
      ++ logical_stream D c m queue.
Proof.
  intros c m b queue. unfold logical_stream. simpl.
  destruct (suppressed c b); reflexivity.
Qed.

Lemma delivered_refl : forall s, delivered D s s [].
Proof.
  intros s. unfold delivered. rewrite write_bytes_nil. simpl.
  repeat split; auto. lia.
Qed.

Lemma delivered_trans : forall s s1 s2 d1 d2,
  0 <= readOffset s <= Z.of_nat (length (mem s SystemBuffer)) ->
  RestartRequested (context s1) = RestartRequested (context s) ->
  delivered D s s1 d1 -> delivered D s1 s2 d2 ->
  delivered D s s2 (d1 ++ d2).
Proof.
  intros s s1 s2 d1 d2 Hro Hflag (B1 & R1 & A1 & Q1) (B2 & R2 & A2 & Q2).
  unfold delivered.
  split; [|split; [|split]].
  - rewrite B2, B1, R1. apply write_bytes_app; lia.
  - rewrite R2, R1, length_app. lia.
  - rewrite A1, A2, app_assoc. reflexivity.
  - intros F. rewrite Q2, Q1 by congruence. reflexivity.
Qed.

(** A state that differs from [s] in what the loop does before copying
    from a block it has just dequeued. *)
Lemma delivered_after : forall s mid s1 d,
  mem mid SystemBuffer = mem s SystemBuffer ->
  readOffset mid = readOffset s ->
  ahead D (held s) (mem s) = ahead D (held mid) (mem mid) ->
  RestartRequested (context s) <> 1 ->
  delivered D mid s1 d -> delivered D s s1 d.
Proof.
  intros s mid s1 d Hm Hr Ha Hf (B & R & A & _).
  unfold delivered.
  split; [|split; [|split]].
  - rewrite B, Hm, Hr. reflexivity.
  - rewrite R, Hr. reflexivity.
  - rewrite Ha, A. reflexivity.
  - intros F. contradiction.
Qed.

Lemma loop_ok_fresh : forall c m tr b r,
  settings_ok D c -> scratch_ok D m -> wf_block D m b ->
  Forall (wf_block D m) (Reader c) ->
  (trimming D m = true ->
   hs <= DataEndOffset c /\
   DataEndOffset c <= ModifiedFooterOffset c /\
   ModifiedFooterOffset c <= OriginalFooterOffset c /\
   OriginalFooterOffset c + fs = BlockLength b) ->
  0 <= r <= readLength ->
  readLength <= Z.of_nat (length (m SystemBuffer)) ->
  loop_ok D readLength
    {| context := c; mem := m; trace := tr; blockNode := Some b;
       blockOffset := 0; readOffset := r |}.
Proof.
  intros c m tr b r Hset Hscr Hwf Hq Hov Hr Hbuf.
  destruct layout as (L1 & _).
  unfold loop_ok, reader_ok, held, cursor_ok. simpl.
  split; [|split; [exact Hr | exact Hbuf]].
  split; [exact Hset|]. split; [exact Hscr|]. split; [|exact Hq].
  split; [exact Hwf|].
  split; [destruct Hwf as (W1 & _); unfold is_u32 in W1; lia|].
  intros Ht. destruct (Hov Ht) as (O1 & O2 & O3 & O4).
  repeat split; try assumption.
  left. unfold is_u32 in L1. lia.
Qed.

(** The state in which the copy of a freshly dequeued, unsuppressed
    block starts: the whole rendering of the block is pending. *)
Lemma fresh_block_ready : forall s b rest tr2 c2 m2,
  loop_ok D readLength s ->
  Reader (context s) = b :: rest ->
  (BlockType b = PacketBlock /\
   trim_block D (set_Reader rest (context s))
     (store_field (mem s) ModifiedHeader (offsetof_HEADER_BlockType D) 0) b
   = (c2, m2)) \/
  (BlockType b = OtherBlock /\
   c2 = set_Reader rest (context s) /\
   m2 = store_field (mem s) ModifiedHeader (offsetof_HEADER_BlockType D) 0) ->
  let mid := {| context := c2; mem := m2; trace := tr2;
                blockNode := Some b; blockOffset := 0;
                readOffset := readOffset s |} in
  loop_ok D readLength mid /\
  pending D (held mid) m2
  = render D (SnapLength (context s)) (SnapLengthPad (context s)) (mem s) b /\
  same_settings (context s) c2 /\
  Reader c2 = rest /\
  RestartRequested c2 = RestartRequested (context s) /\
  m2 SystemBuffer = mem s SystemBuffer /\
  (forall a, m2 (BlockStorage a) = mem s (BlockStorage a)).
Proof.
  intros s b rest tr2 c2 m2 ((Hset & Hscr & _ & Hq) & Hro & Hbuf) Eq Hcase mid.
  unfold held in Hset, Hq. simpl in Hset, Hq.
  rewrite Eq in Hq. inversion Hq as [|x l Hwf Hrest]; subst x l.
  destruct (clear_mark D layout (mem s) Hscr) as (Hscr1 & Hmark & Hframe1).
  set (m1 := store_field (mem s) ModifiedHeader
               (offsetof_HEADER_BlockType D) 0) in *.
  destruct (blockData_not_scratch b) as [Nh Nf].
  assert (Hdata1 : m1 (blockData b) = mem s (blockData b))
    by (apply Hframe1; exact Nh).
  assert (Hwf1 : wf_block D m1 b)
    by (apply (wf_block_storage D (mem s)); assumption).
  assert (Hrender1 : render D (SnapLength (context s))
                       (SnapLengthPad (context s)) m1 b
                     = render D (SnapLength (context s))
                         (SnapLengthPad (context s)) (mem s) b)
    by (apply render_storage; exact Hdata1).
  assert (Hplain : forall c,
            trimming D m1 = false ->
            pending D (set_CurrentBlock (Some b) 0 c) m1
            = slice (m1 (blockData b)) 0 (BlockLength b)).
  { intros c Ht. rewrite pending_some.
    unfold view_offset, current_view. rewrite Ht. reflexivity. }
  assert (Hverbatim :
            forall tr,
              truncates D (SnapLength (context s)) m1 b = false ->
              loop_ok D readLength
                {| context := set_Reader rest (context s); mem := m1;
                   trace := tr; blockNode := Some b; blockOffset := 0;
                   readOffset := readOffset s |} /\
              pending D (set_CurrentBlock (Some b) 0
                           (set_Reader rest (context s))) m1
              = render D (SnapLength (context s))
                  (SnapLengthPad (context s)) (mem s) b /\
              same_settings (context s) (set_Reader rest (context s)) /\
              Reader (set_Reader rest (context s)) = rest /\
              RestartRequested (set_Reader rest (context s))
              = RestartRequested (context s) /\
              m1 SystemBuffer = mem s SystemBuffer /\
              (forall a, m1 (BlockStorage a) = mem s (BlockStorage a))).
  { intros tr Ht.
    split; [|split; [|split; [|split; [|split; [|split]]]]].
    - apply loop_ok_fresh; try assumption.
      + simpl. apply Forall_impl with (P := wf_block D (mem s));
          [|exact Hrest].
        intros x Hx. apply (wf_block_storage D (mem s)); [|exact Hx].
        apply Hframe1. apply blockData_not_scratch.
      + rewrite Hmark. discriminate.
    - rewrite (Hplain _ Hmark), <- Hrender1.
      unfold render. rewrite Ht. reflexivity.
    - unfold same_settings. simpl. auto.
    - reflexivity.
    - reflexivity.
    - apply Hframe1. discriminate.
    - intros a. apply Hframe1. discriminate. }
  destruct Hcase as [[Hp Htrim] | [Hp [-> ->]]].
  2:{ apply Hverbatim. unfold truncates. rewrite Hp. reflexivity. }
  destruct (truncates D (SnapLength (context s)) m1 b) eqn:Ht.
  2:{ rewrite (trim_block_verbatim D (set_Reader rest (context s)) m1 b
                 Hp Ht) in Htrim.
      injection Htrim as <- <-. now apply Hverbatim. }
  destruct (trim_block_truncating D layout padding
              (set_Reader rest (context s)) m1 b Hset Hscr1 Hwf1 Hp Ht)
    as (mt & Etrim & Mh & Mf & Mframe).
  rewrite Etrim in Htrim. injection Htrim as <- <-.
  simpl in Mh, Mf.
  destruct (truncation_sizes D layout padding (set_Reader rest (context s))
              m1 b Hset Hwf1 Hp Ht) as (Z1 & Z2 & Z3 & _).
  simpl in Z1, Z2, Z3.
  destruct Hwf1 as (W1 & W2 & W3).
  destruct (W3 Hp) as (B1 & B2 & B3 & B4).
  destruct layout as (L1 & L2 & _).
  assert (Hdata2 : mt (blockData b) = m1 (blockData b))
    by (apply Mframe; assumption).
  assert (Hmark2 : trimming D mt = true).
  { unfold trimming. rewrite Mh, overlay_header_mark; try assumption.
    - apply negb_true_iff, Z.eqb_neq. exact B1.
    - unfold is_u32 in *. lia. }
  split; [|split; [|split; [|split; [|split; [|split]]]]].
  - apply loop_ok_fresh; try assumption.
    + split.
      * rewrite Mh. apply overlay_header_length; [exact layout|].
        unfold is_u32 in *. lia.
      * rewrite Mf. apply overlay_footer_length; [exact layout | |];
          unfold is_u32 in *; lia.
    + apply (wf_block_storage D m1); [exact Hdata2|].
      split; [exact W1|]. split; [exact W2 | exact W3].
    + simpl. apply Forall_impl with (P := wf_block D (mem s));
        [|exact Hrest].
      intros x Hx. apply (wf_block_storage D (mem s)); [|exact Hx].
      destruct (blockData_not_scratch x) as [Xh Xf].
      rewrite Mframe by assumption. apply Hframe1. exact Xh.
    + intros _. simpl. unfold is_u32 in *. lia.
    + rewrite Mframe by discriminate.
      rewrite Hframe1 by discriminate. exact Hbuf.
  - unfold mid, held. simpl. rewrite pending_some.
    unfold view_offset, current_view. rewrite Hmark2.
    unfold overlay_offset, overlay_view. simpl.
    destruct (Z.leb_spec (BlockLength b - fs) 0);
      [unfold is_u32 in *; lia|].
    simpl. rewrite Mh, Mf, Hdata2.
    rewrite <- Hrender1. unfold render. rewrite Ht.
    replace (hs + SnapLength (context s) - hs)
      with (SnapLength (context s)) by lia.
    replace (hs + SnapLength (context s) + SnapLengthPad (context s)
             - (hs + SnapLength (context s)))
      with (SnapLengthPad (context s)) by lia.
    reflexivity.
  - unfold same_settings. simpl. auto.
  - reflexivity.
  - reflexivity.
  - rewrite Mframe by discriminate. apply Hframe1. discriminate.
  - intros a. rewrite Mframe by discriminate. apply Hframe1. discriminate.
Qed.

End Iteration.

(** ** The loop delivers the front of what is ahead *)

Section LoopDelivery.

Variable D : Declarations.
Variable readLength : Z.
Hypothesis readLength_typed : is_u32 readLength.
Hypothesis layout : layout_ok D.
Hypothesis padding : padding_ok D.

Lemma loop_ok_no_block : forall c m tr off r c0 m0 bn off0,
  reader_ok D (set_CurrentBlock bn off0 c0) m0 ->
  same_settings c0 c ->
  (forall a, m (BlockStorage a) = m0 (BlockStorage a)) ->
  scratch_ok D m ->
  Forall (wf_block D m0) (Reader c) ->
  0 <= r <= readLength ->
  readLength <= Z.of_nat (length (m SystemBuffer)) ->
  loop_ok D readLength
    {| context := c; mem := m; trace := tr; blockNode := None;
       blockOffset := off; readOffset := r |}.
Proof.
  intros c m tr off r c0 m0 bn off0 ((S1 & S2) & _ & _ & _)
    (E1 & E2 & _ & _) Hst Hscr Hq Hr Hbuf.
  unfold loop_ok, reader_ok, held, cursor_ok, settings_ok. simpl in *.
  rewrite E1, E2.
  split; [|split; [exact Hr | exact Hbuf]].
  split; [split; [exact S1 | exact S2]|].
  split; [exact Hscr|]. split; [exact I|].
  apply Forall_impl with (P := wf_block D m0); [|exact Hq].
  intros x Hx. apply (wf_block_storage D m0); [|exact Hx].
  unfold blockData. destruct (Buffer x); apply Hst.
Qed.

Lemma ahead_no_block : forall s,
  blockNode s = None -> RestartRequested (context s) <> 1 ->
  ahead D (held s) (mem s)
  = logical_stream D (context s) (mem s) (Reader (context s)).
Proof.
  intros s Eb Hf. rewrite ahead_held, pending_none by exact Eb.
  apply Z.eqb_neq in Hf. rewrite Hf. reflexivity.
Qed.

(** Lines 362-455 on a block that was just dequeued and is not
    suppressed. *)
Lemma serve_fresh : forall s b rest tr2 c2 m2,
  loop_ok D readLength s -> blockNode s = None ->
  readOffset s < readLength ->
  RestartRequested (context s) <> 1 ->
  Reader (context s) = b :: rest ->
  suppressed (context s) b = false ->
  (BlockType b = PacketBlock /\
   trim_block D (set_Reader rest (context s))
     (store_field (mem s) ModifiedHeader (offsetof_HEADER_BlockType D) 0) b
   = (c2, m2)) \/
  (BlockType b = OtherBlock /\
   c2 = set_Reader rest (context s) /\
   m2 = store_field (mem s) ModifiedHeader (offsetof_HEADER_BlockType D) 0) ->
  let s1 := serve_block D readLength b
              {| context := c2; mem := m2; trace := tr2;
                 blockNode := Some b; blockOffset := 0;
                 readOffset := readOffset s |} in
  loop_ok D readLength s1 /\ exists d, delivered D s s1 d.
Proof.
  intros s b rest tr2 c2 m2 Hok Eb Hlt Hf Eq Hsup Hcase s1.
  destruct (fresh_block_ready D readLength layout padding s b rest tr2 c2 m2
              Hok Eq Hcase) as (M1 & M2 & M3 & M4 & M5 & M6 & M7).
  set (mid := {| context := c2; mem := m2; trace := tr2;
                 blockNode := Some b; blockOffset := 0;
                 readOffset := readOffset s |}) in *.
  destruct (serve_block_delivers D readLength readLength_typed layout
              mid b eq_refl M1 Hlt) as (H1 & _ & _ & (d & H2) & _).
  split; [exact H1|]. exists d.
  apply (delivered_after D s mid); try assumption; try reflexivity.
  rewrite (ahead_no_block s Eb Hf), Eq, logical_stream_cons, Hsup.
  rewrite ahead_held.
  change (mem mid) with m2. change (context mid) with c2.
  rewrite M2, M5. apply Z.eqb_neq in Hf. rewrite Hf.
  rewrite M4. f_equal. symmetry.
  apply logical_stream_stable; assumption.
Qed.

Lemma loop_body_delivers : forall s,
  loop_ok D readLength s -> readOffset s < readLength ->
  match loop_body D readLength s with
  | Continue s1 =>
    loop_ok D readLength s1 /\ exists d, delivered D s s1 d
  | Break s1 =>
    loop_ok D readLength s1 /\ ahead D (held s) (mem s) = []
  end.
Proof.
  intros s Hok Hlt. unfold loop_body.
  destruct (blockNode s) as [b|] eqn:Eb.
  - destruct (serve_block_delivers D readLength readLength_typed layout
                s b Eb Hok Hlt) as (H1 & _ & _ & H2 & _).
    split; assumption.
  - pose proof Hok as (Hrd & Hro & Hbuf).
    assert (Hrd' : reader_ok D
                     (set_CurrentBlock (blockNode s) (blockOffset s)
                        (context s)) (mem s)) by exact Hrd.
    assert (Hpend : pending D (held s) (mem s) = [])
      by (apply pending_none; exact Eb).
    destruct Hrd as (Hset & Hscr & _ & Hq).
    unfold held in Hq. simpl in Hq.
    apply next_block_cases.
    + intros Hf. split.
      * eapply loop_ok_no_block; try eassumption; try reflexivity.
        unfold same_settings. simpl. auto.
      * rewrite ahead_held, Hpend, Hf. reflexivity.
    + intros Hf Eq. split.
      * eapply loop_ok_no_block; try eassumption; try reflexivity.
        apply same_settings_refl.
      * rewrite ahead_held, Hpend, Eq.
        destruct (RestartRequested (context s) =? 1); reflexivity.
    + intros b rest tr2 Hf Eq Hp Hfilter.
      destruct (clear_mark D layout (mem s) Hscr) as (Hscr1 & _ & Hframe1).
      assert (Hsup : suppressed (context s) b = true).
      { pose proof (filter_block_hit (set_Reader rest (context s)) b
                      (trace s ++ [EvQmDequeueBlock (Some b)])) as Hh.
        rewrite Hfilter in Hh. unfold suppressed. rewrite Hp.
        symmetry. exact Hh. }
      assert (Hst : forall a,
                store_field (mem s) ModifiedHeader
                  (offsetof_HEADER_BlockType D) 0 (BlockStorage a)
                = mem s (BlockStorage a))
        by (intros a; apply Hframe1; discriminate).
      split.
      * eapply loop_ok_no_block; try eassumption.
        -- unfold same_settings. simpl. auto.
        -- simpl. rewrite Eq in Hq. now inversion Hq.
      * exists []. unfold delivered.
        cbn [mem readOffset context].
        split; [rewrite write_bytes_nil; apply Hframe1; discriminate|].
        split; [simpl; lia|]. split; [|intros F; contradiction].
        rewrite (ahead_no_block s Eb Hf), Eq, logical_stream_cons, Hsup.
        rewrite ahead_held. unfold held.
        cbn [mem context blockNode blockOffset].
        rewrite pending_no_block. simpl.
        apply Z.eqb_neq in Hf. rewrite Hf. symmetry.
        apply logical_stream_stable; [|exact Hst].
        unfold same_settings. simpl. auto.
    + intros b rest tr2 c2 m2 Hf Eq Hp Hfilter Htrim.
      apply serve_fresh with (rest := rest); try assumption.
      * pose proof (filter_block_hit (set_Reader rest (context s)) b
                      (trace s ++ [EvQmDequeueBlock (Some b)])) as Hh.
        rewrite Hfilter in Hh. unfold suppressed. rewrite Hp.
        symmetry. exact Hh.
      * left. split; assumption.
    + intros b rest Hf Eq Hp.
      apply serve_fresh with (rest := rest); try assumption.
      * unfold suppressed. rewrite Hp. reflexivity.
      * right. auto.
Qed.

Lemma continues_delivers : forall s s1,
  continues D readLength s s1 ->
  loop_ok D readLength s ->
  loop_ok D readLength s1 /\ exists d, delivered D s s1 d.
Proof.
  intros s s1 H. induction H as [s | s s1 s' Hlt Hb Hc IH]; intros Hok.
  - split; [exact Hok|]. exists []. apply delivered_refl.
  - pose proof (loop_body_delivers s Hok Hlt) as Hstep.
    rewrite Hb in Hstep. destruct Hstep as (Hok1 & d1 & Hd1).
    destruct (IH Hok1) as (Hok' & d2 & Hd2).
    split; [exact Hok'|]. exists (d1 ++ d2).
    apply delivered_trans with (s1 := s1); try assumption.
    + destruct Hok as (_ & Hro & Hbuf). lia.
    + apply loop_body_quiet in Hb. apply Hb.
Qed.

End LoopDelivery.

Lemma loop_body_break_reader : forall D readLength s s',
  loop_body D readLength s = Break s' ->
  Reader (context s') = Reader (context s).
Proof.
  intros D readLength s s'. unfold loop_body.
  destruct (blockNode s) as [b|]; [discriminate|].
  apply next_block_cases; try discriminate.
  - intros _ H. injection H as <-. reflexivity.
  - intros _ _ H. injection H as <-. reflexivity.
Qed.

Lemma firstn_app_exact : forall (d x : list Z) n,
  n = length d -> firstn n (d ++ x) = d.
Proof.
  intros d x n ->. rewrite firstn_app, firstn_all, Nat.sub_diag. simpl.
  apply app_nil_r.
Qed.

Section LoopResult.

Variable D : Declarations.
Variable readLength : Z.
Hypothesis readLength_typed : is_u32 readLength.
Hypothesis layout : layout_ok D.
Hypothesis padding : padding_ok D.

(** What a run of the loop delivers, and where it leaves the reader:
    either the restart state and flag are as before and what was ahead is
    what was delivered followed by what is ahead now, or a pending
    restart was taken at a block boundary after everything ahead had been
    delivered. *)
Lemma read_loop_delivers : forall fuel s s',
  loop_ok D readLength s ->
  read_loop D fuel readLength s = Some s' ->
  loop_ok D readLength s' /\
  same_settings (context s) (context s') /\
  (forall a, mem s' (BlockStorage a) = mem s (BlockStorage a)) /\
  exists d,
    mem s' SystemBuffer
    = write_bytes (mem s SystemBuffer) (readOffset s) d /\
    readOffset s' = readOffset s + Z.of_nat (length d) /\
    d = firstn (Z.to_nat (readLength - readOffset s))
          (ahead D (held s) (mem s)) /\
    ((RestartState (context s') = RestartState (context s) /\
      RestartRequested (context s') = RestartRequested (context s) /\
      ahead D (held s) (mem s) = d ++ ahead D (held s') (mem s') /\
      (RestartRequested (context s) = 1 ->
       Reader (context s') = Reader (context s))) \/
     (RestartRequested (context s) = 1 /\
      RestartRequested (context s') = 0 /\
      RestartState (context s') <> RestartStateNormal /\
      blockNode s' = None /\
      Reader (context s') = Reader (context s) /\
      ahead D (held s) (mem s) = d)).
Proof.
  intros fuel s s' Hok Hloop.
  pose proof (read_loop_settings D _ _ _ _ Hloop) as [Hset Hst].
  split; [|split; [exact Hset | split; [exact Hst|]]].
  all: destruct (read_loop_inv D _ _ _ _ Hloop) as [s1 [Hc Hend]].
  all: destruct (continues_delivers D readLength readLength_typed layout
                   padding s s1 Hc Hok) as (Hok1 & d & B & R & A & Qr).
  all: pose proof (continues_quiet D _ _ _ Hc) as (Q1 & Q2 & _ & _).
  all: pose proof Hok as (_ & Hro & Hbuf).
  all: pose proof Hok1 as (_ & Hro1 & Hbuf1).
  - destruct Hend as [[_ ->] | [Hlt Hb]]; [exact Hok1|].
    pose proof (loop_body_delivers D readLength readLength_typed layout
                  padding s1 Hok1 Hlt) as Hstep.
    rewrite Hb in Hstep. apply Hstep.
  - exists d.
    destruct Hend as [[Hge ->] | [Hlt Hb]].
    + split; [exact B|]. split; [exact R|]. split.
      * rewrite A. symmetry. apply firstn_app_exact. lia.
      * left. auto.
    + pose proof (loop_body_delivers D readLength readLength_typed layout
                    padding s1 Hok1 Hlt) as Hstep.
      rewrite Hb in Hstep. destruct Hstep as [Hok' Hnil].
      pose proof (loop_body_break_reader _ _ _ _ Hb) as Hreader.
      apply loop_body_break in Hb.
      destruct Hb as (Eb1 & Eb' & Hm & Hr & _ & Hcase).
      rewrite Hnil, app_nil_r in A.
      split; [rewrite Hm; exact B|]. split; [rewrite Hr; exact R|].
      split.
      * rewrite A. symmetry. apply firstn_all2. lia.
      * destruct Hcase as [(F1 & F2 & F3) | (F1 & F2 & F3)].
        -- right.
           split; [congruence|]. split; [exact F2|].
           split; [rewrite F3; destruct (negb _); discriminate|].
           split; [exact Eb'|].
           split; [rewrite Hreader; apply Qr; congruence | exact A].
        -- left.
           split; [rewrite F3; exact Q1|].
           split; [rewrite F3; exact Q2|].
           split; [|intros F; congruence].
           rewrite A.
           rewrite (ahead_no_block D s' Eb')
             by (rewrite F3; exact F1).
           rewrite F3, F2. unfold logical_stream. simpl.
           now rewrite app_nil_r.
Qed.

End LoopResult.

(** ** What a read call delivers *)

Section ReadCall.

Variable D : Declarations.
Variable Q : QueueManager.
Hypothesis layout : layout_ok D.
Hypothesis padding : padding_ok D.

Lemma ahead_flag_set : forall c m,
  RestartRequested c = 1 -> ahead D c m = pending D c m.
Proof.
  intros c m H. unfold ahead. rewrite H. simpl. apply app_nil_r.
Qed.

Lemma ahead_flag_clear : forall c m,
  RestartRequested c <> 1 ->
  ahead D c m = pending D c m ++ logical_stream D c m (Reader c).
Proof.
  intros c m H. unfold ahead. apply Z.eqb_neq in H. now rewrite H.
Qed.

(** The context a read works on once its restart [switch] is done. *)
Lemma after_switch : forall c tr c1 tr1 m,
  check_restart_state Q c tr = inr (c1, tr1) ->
  RestartState c1 = RestartStateNormal /\
  RestartRequested c1 = RestartRequested c /\
  same_settings c c1 /\
  CurrentBlock c1 = CurrentBlock c /\
  CurrentBlockOffset c1 = CurrentBlockOffset c /\
  ((fetches c <> O -> initial_blocks_ok D Q m) ->
   reader_ok D c m -> reader_ok D c1 m) /\
  available D Q c m = ahead D c1 m /\
  upcoming D Q c m
  = pending D c1 m
      ++ logical_stream D c1 m
           (Nat.iter (if RestartRequested c1 =? 1 then 1%nat else 0%nat)
              (QmGetInitialBlocks Q) (Reader c1)).
Proof.
  intros c tr c1 tr1 m H.
  apply check_restart_state_inr in H.
  destruct H as [(Est & -> & _) | (Est & -> & _)].
  - simpl.
    split; [reflexivity|]. split; [reflexivity|].
    split; [unfold same_settings; simpl; auto|].
    split; [reflexivity|]. split; [reflexivity|].
    split; [|split].
    + intros Hfetch (H1 & H2 & H3 & H4).
      split; [exact H1|]. split; [exact H2|]. split; [exact H3|].
      simpl. apply Hfetch; [|exact H4].
      unfold fetches. rewrite Est. discriminate.
    + unfold available, entry_queue. rewrite Est. reflexivity.
    + unfold upcoming, fetches. rewrite Est.
      destruct (RestartRequested c =? 1); reflexivity.
  - split; [exact Est|]. split; [reflexivity|].
    split; [apply same_settings_refl|].
    split; [reflexivity|]. split; [reflexivity|].
    split; [auto|]. split.
    + unfold available, entry_queue. rewrite Est. reflexivity.
    + unfold upcoming, fetches. rewrite Est. reflexivity.
Qed.

Lemma DispatchRead_delivers : forall fuel irp s r s' c,
  HasSystemBuffer irp = true ->
  is_u32 (ReadLength irp) ->
  ReadLength irp <= Z.of_nat (length (Mem s SystemBuffer)) ->
  FsContext2 s = Some c ->
  (fetches c <> O -> initial_blocks_ok D Q (Mem s)) ->
  reader_ok D c (Mem s) ->
  DispatchRead D Q fuel irp s = Some (r, s') ->
  exists c',
    FsContext2 s' = Some c' /\
    reader_ok D c' (Mem s') /\
    Status r = STATUS_SUCCESS /\
    0 <= Information r <= ReadLength irp /\
    returned r s'
    = firstn (Z.to_nat (ReadLength irp)) (available D Q c (Mem s)) /\
    upcoming D Q c (Mem s) = returned r s' ++ upcoming D Q c' (Mem s') /\
    Z.of_nat (length (returned r s')) = Information r.
Proof.
  intros fuel irp s r s' c Hbuf Hlen Hsize Hc Hfetch Hok Hd.
  apply DispatchRead_inv in Hd.
  destruct Hd as [(_ & _ & [N | N]) | (_ & c0 & Hc0 & Hd)]; try congruence.
  rewrite Hc in Hc0. injection Hc0 as <-.
  destruct Hd as [(Est & -> & ->) | (c1 & tr & ls & Hchk & Hloop & -> & ->)].
  - exists (set_RestartState RestartStateInit c).
    split; [reflexivity|]. split; [exact Hok|]. split; [reflexivity|].
    split; [simpl; unfold is_u32 in Hlen; lia|].
    split.
    + unfold returned, available. rewrite Est. simpl.
      now rewrite firstn_nil.
    + unfold returned. simpl.
      split; [|reflexivity].
      unfold upcoming, fetches. rewrite Est. reflexivity.
  - destruct (after_switch c (Trace s) c1 tr (Mem s) Hchk)
      as (Hst1 & Hfl1 & Hset1 & Hcb & Hco & Hok1 & Hav & Hup).
    specialize (Hok1 Hfetch Hok).
    set (s0 := {| context := c1; mem := Mem s; trace := tr;
                  blockNode := CurrentBlock c1;
                  blockOffset := CurrentBlockOffset c1;
                  readOffset := 0 |}) in *.
    assert (Hok0 : loop_ok D (ReadLength irp) s0).
    { split; [exact Hok1|]. simpl. unfold is_u32 in Hlen. lia. }
    destruct (read_loop_delivers D (ReadLength irp) Hlen layout padding
                fuel s0 ls Hok0 Hloop)
      as (Hokl & Hsetl & Hstl & d & B & R & Efirst & Hcase).
    simpl in B, R, Efirst, Hsetl, Hstl.
    rewrite Z.sub_0_r in Efirst.
    change (ahead D (held s0) (Mem s)) with (ahead D c1 (Mem s)) in *.
    assert (Hret : firstn (Z.to_nat (readOffset ls)) (mem ls SystemBuffer)
                   = d).
    { rewrite B, R, Nat2Z.id.
      change (length d) with (Z.to_nat 0 + length d)%nat at 1.
      rewrite firstn_write_bytes by lia. reflexivity. }
    change (ahead D (held s0) (mem s0)) with (ahead D c1 (Mem s)) in Hcase.
    change (context s0) with c1 in Hcase.
    exists (held ls).
    split; [reflexivity|]. split; [apply Hokl|]. split; [reflexivity|].
    split; [destruct Hokl as (_ & Hro & _); simpl; exact Hro|].
    unfold returned. simpl. rewrite Hret.
    split; [rewrite Hav; exact Efirst|].
    split; [|symmetry; exact R].
    rewrite Hup. unfold upcoming, fetches.
    change (Reader (held ls)) with (Reader (context ls)).
    change (RestartState (held ls)) with (RestartState (context ls)).
    change (RestartRequested (held ls))
      with (RestartRequested (context ls)).
    assert (Hls : forall queue,
              logical_stream D (held ls) (mem ls) queue
              = logical_stream D c1 (Mem s) queue).
    { intros queue. apply logical_stream_stable; [|exact Hstl].
      destruct Hsetl as (E1 & E2 & E3 & E4).
      unfold same_settings, held. simpl. auto. }
    rewrite Hls.
    destruct Hcase as [(K1 & K2 & K3 & K4) | (K1 & K2 & K3 & K4 & K5 & K6)].
    + rewrite K1, K2, Hst1.
      destruct (Z.eqb_spec (RestartRequested c1) 1) as [F|F].
      * rewrite (ahead_flag_set c1 _ F) in K3.
        rewrite ahead_flag_set in K3 by (simpl; congruence).
        rewrite K3, (K4 F), <- app_assoc. reflexivity.
      * rewrite (ahead_flag_clear c1 _ F) in K3.
        rewrite ahead_flag_clear in K3 by (simpl; congruence).
        rewrite Hls in K3. simpl. simpl in K3. exact K3.
    + rewrite (ahead_flag_set c1 _ K1) in K6.
      rewrite K1, K2, K5, K6. simpl.
      assert (Hpn : pending D (held ls) (mem ls) = [])
        by (apply pending_none; exact K4).
      rewrite Hpn. simpl.
      destruct (RestartState (context ls)); try contradiction; reflexivity.
Qed.

End ReadCall.

(** ** Every read of a ready reader completes *)

Section ReadCompletes.

Variable D : Declarations.
Variable Q : QueueManager.
Hypothesis hs_typed : is_u32 (sizeof_PCAP_NG_PACKET_HEADER D).

Lemma loop_body_break_typed : forall readLength s s',
  loop_typed readLength s ->
  loop_body D readLength s = Break s' ->
  loop_typed readLength s'.
Proof.
  intros readLength s s' (T1 & T2 & T3 & T4 & T5 & T6 & T7).
  unfold loop_body.
  destruct (blockNode s) as [b|]; [discriminate|].
  apply next_block_cases; try discriminate.
  - intros _ H. injection H as <-.
    apply loop_typed_intro; simpl; auto.
  - intros _ _ H. injection H as <-.
    apply loop_typed_intro; simpl; auto; apply is_u32_0.
Qed.

Lemma read_loop_typed : forall readLength fuel s s',
  is_u32 readLength ->
  loop_typed readLength s ->
  read_loop D fuel readLength s = Some s' ->
  loop_typed readLength s'.
Proof.
  intros readLength fuel s s' Hlen. revert s.
  induction fuel as [|fuel IH]; intros s Ht H; simpl in H.
  - destruct (Z.ltb_spec (readOffset s) readLength); [discriminate|].
    now injection H as <-.
  - destruct (Z.ltb_spec (readOffset s) readLength) as [Hlt|Hge].
    + pose proof (loop_body_progress D readLength Hlen hs_typed s Ht Hlt)
        as Hp.
      destruct (loop_body D readLength s) as [s1|s1] eqn:Eb.
      * apply (IH s1); [apply Hp | exact H].
      * injection H as <-. eapply loop_body_break_typed; eassumption.
    + now injection H as <-.
Qed.

Lemma wf_blocks_typed : forall m queue,
  Forall (wf_block D m) queue -> Forall typed_block queue.
Proof.
  intros m queue. apply Forall_impl. intros b H. apply H.
Qed.

Lemma reader_ready_typed_context : forall c m,
  (fetches c <> O -> initial_blocks_ok D Q m) ->
  reader_ready D c m -> typed_context Q c.
Proof.
  intros c m Hfetch ((_ & _ & Hcur & Hq) & T1 & T2 & T3 & T4).
  do 4 (split; [assumption|]). split.
  - apply (wf_blocks_typed m). unfold entry_queue.
    destruct (RestartState c) eqn:Est; auto.
    apply Hfetch; [|exact Hq].
    unfold fetches. rewrite Est. discriminate.
  - intros b Hb. unfold cursor_ok in Hcur. rewrite Hb in Hcur.
    apply Hcur.
Qed.

Lemma DispatchRead_completes : forall fuel irp s c,
  is_u32 (ReadLength irp) ->
  HasSystemBuffer irp = true ->
  FsContext2 s = Some c ->
  typed_context Q c ->
  (read_fuel Q s <= fuel)%nat ->
  exists r s' c',
    DispatchRead D Q fuel irp s = Some (r, s') /\
    FsContext2 s' = Some c' /\ fields_typed c'.
Proof.
  intros fuel irp s c Hlen Hbuf Hc (T1 & T2 & T3 & T4 & T5 & T6) Hfuel.
  unfold read_fuel in Hfuel. rewrite Hc in Hfuel.
  assert (Hgo : forall c1 tr,
            Reader c1 = entry_queue Q c ->
            CurrentBlock c1 = CurrentBlock c ->
            CurrentBlockOffset c1 = CurrentBlockOffset c ->
            DataEndOffset c1 = DataEndOffset c ->
            ModifiedFooterOffset c1 = ModifiedFooterOffset c ->
            OriginalFooterOffset c1 = OriginalFooterOffset c ->
            exists ls,
              read_loop D fuel (ReadLength irp)
                {| context := c1; mem := Mem s; trace := tr;
                   blockNode := CurrentBlock c1;
                   blockOffset := CurrentBlockOffset c1; readOffset := 0 |}
              = Some ls /\ loop_typed (ReadLength irp) ls).
  { intros c1 tr E1 E2 E3 E4 E5 E6.
    assert (Ht : loop_typed (ReadLength irp)
                   {| context := c1; mem := Mem s; trace := tr;
                      blockNode := CurrentBlock c1;
                      blockOffset := CurrentBlockOffset c1;
                      readOffset := 0 |}).
    { apply loop_typed_intro;
        rewrite ?E1, ?E2, ?E3, ?E4, ?E5, ?E6; auto.
      unfold is_u32 in Hlen. lia. }
    destruct (read_loop_terminates D (ReadLength irp) Hlen hs_typed fuel _ Ht)
      as (ls & Hls & _).
    - unfold blocks_left. simpl. rewrite E1.
      destruct (CurrentBlock c1); lia.
    - exists ls. split; [exact Hls|].
      eapply read_loop_typed; eassumption. }
  unfold DispatchRead. rewrite Hbuf, Hc. simpl.
  unfold check_restart_state, entry_queue in *.
  destruct (RestartState c) eqn:Est.
  - destruct (Hgo (set_RestartState RestartStateNormal
                     (set_Reader (QmGetInitialBlocks Q (Reader c)) c))
                (Trace s ++ [EvQmGetInitialBlocks]))
      as (ls & -> & L1 & L2 & L3 & L4 & L5 & _); try reflexivity.
    do 3 eexists. split; [reflexivity|]. split; [reflexivity|].
    unfold fields_typed. simpl. auto.
  - destruct (Hgo c (Trace s))
      as (ls & -> & L1 & L2 & L3 & L4 & L5 & _); try reflexivity.
    do 3 eexists. split; [reflexivity|]. split; [reflexivity|].
    unfold fields_typed. simpl. auto.
  - do 3 eexists. split; [reflexivity|]. split; [reflexivity|].
    unfold fields_typed. simpl. auto.
Qed.

End ReadCompletes.

(** ** Sequences of reads *)

Section ReadSequences.

Variable D : Declarations.
Variable Q : QueueManager.
Hypothesis layout : layout_ok D.
Hypothesis padding : padding_ok D.

(** Whether the initial blocks are well formed depends on the block
    storage only, which no request writes. *)
Lemma wf_blocks_storage : forall (m0 m : memory) queue,
  (forall a, m (BlockStorage a) = m0 (BlockStorage a)) ->
  Forall (wf_block D m0) queue -> Forall (wf_block D m) queue.
Proof.
  intros m0 m queue H. apply Forall_impl. intros b.
  apply wf_block_storage. unfold blockData. destruct (Buffer b); apply H.
Qed.

Lemma initial_blocks_ok_storage : forall m0 m,
  (forall a, m (BlockStorage a) = m0 (BlockStorage a)) ->
  initial_blocks_ok D Q m0 -> initial_blocks_ok D Q m.
Proof.
  intros m0 m H Hi queue Hq.
  apply (wf_blocks_storage m0 m _ H). apply Hi.
  apply (wf_blocks_storage m m0); [|exact Hq].
  intros a. symmetry. apply H.
Qed.

Lemma initial_blocks_ok_served : forall req s r s',
  serve D Q req s r s' ->
  initial_blocks_ok D Q (Mem s) -> initial_blocks_ok D Q (Mem s').
Proof.
  intros req s r s' Hs. apply initial_blocks_ok_storage.
  exact (serve_frame D Q req s r s' Hs).
Qed.

Lemma fetches_none : forall c,
  fetches c = O <->
  RestartState c = RestartStateNormal /\ RestartRequested c <> 1.
Proof.
  intros c. unfold fetches.
  destruct (RestartState c); destruct (Z.eqb_spec (RestartRequested c) 1);
    simpl; split; try discriminate; try tauto;
    intros (H1 & H2); try discriminate; contradiction.
Qed.

(** A read does not ask for a restart: when none is under way before
    it, none is after it. *)
Lemma serve_read_fetches : forall irp buffer s r s' c c',
  FsContext2 s = Some c -> FsContext2 s' = Some c' ->
  serve D Q (ReadRequest irp buffer) s r s' ->
  fetches c = O -> fetches c' = O.
Proof.
  intros irp buffer s r s' c c' Hc Hc' Hs Hf.
  apply fetches_none in Hf. destruct Hf as (Hst & Hfl).
  inversion Hs as [fuel irp0 buffer0 s0 r0 s0' Hd|]; subst.
  apply DispatchRead_inv in Hd.
  destruct Hd as [(_ & -> & _) | (_ & c0 & Hc0 & Hd)].
  - simpl in Hc'. rewrite Hc in Hc'. injection Hc' as <-.
    apply fetches_none. auto.
  - simpl in Hc0. rewrite Hc in Hc0. injection Hc0 as <-.
    destruct Hd as [(Est & _) | (c1 & tr & ls & Hchk & Hloop & _ & ->)];
      [congruence|].
    apply check_restart_state_inr in Hchk.
    destruct Hchk as [(Est & _) | (_ & -> & _)]; [congruence|].
    simpl in Hc'. injection Hc' as <-.
    apply fetches_none. simpl.
    destruct (read_loop_restart D _ _ _ _ Hloop)
      as [(E1 & E2) | (E1 & _)]; simpl in *; [|contradiction].
    rewrite E1, E2. auto.
Qed.

Lemma fetch_ok_served : forall irp buffer s r s' c c',
  FsContext2 s = Some c -> FsContext2 s' = Some c' ->
  serve D Q (ReadRequest irp buffer) s r s' ->
  (fetches c <> O -> initial_blocks_ok D Q (Mem s)) ->
  fetches c' <> O -> initial_blocks_ok D Q (Mem s').
Proof.
  intros irp buffer s r s' c c' Hc Hc' Hs Hf Hn.
  apply (initial_blocks_ok_served _ s r s' Hs). apply Hf.
  intros E. apply Hn.
  exact (serve_read_fetches irp buffer s r s' c c' Hc Hc' Hs E).
Qed.

Lemma buffer_agrees : forall m buffer,
  agrees m (mem_set m SystemBuffer buffer).
Proof.
  intros m buffer r Hr. apply mem_set_other. congruence.
Qed.

Lemma reader_ok_agrees : forall c m0 m,
  agrees m0 m -> reader_ok D c m0 -> reader_ok D c m.
Proof.
  intros c m0 m H (H1 & H2 & H3 & H4).
  split; [exact H1|]. split; [now apply (scratch_ok_agrees D m0)|].
  split; [|now apply (Forall_wf_block_agrees D m0)].
  unfold cursor_ok in *. destruct (CurrentBlock c) as [b|]; [|exact I].
  destruct H3 as (W & B & T).
  split; [now apply (wf_block_agrees D m0)|]. split; [exact B|].
  rewrite (trimming_agrees D m0 m H). exact T.
Qed.

Lemma pending_agrees : forall c m0 m,
  agrees m0 m -> pending D c m = pending D c m0.
Proof.
  intros c m0 m H. unfold pending.
  destruct (CurrentBlock c) as [b|]; [|reflexivity].
  now rewrite (current_view_agrees D c b m0 m H),
              (view_offset_agrees D c m0 m _ H).
Qed.

Lemma upcoming_agrees : forall c m0 m,
  agrees m0 m -> upcoming D Q c m = upcoming D Q c m0.
Proof.
  intros c m0 m H. unfold upcoming.
  rewrite (pending_agrees c m0 m H). f_equal.
  apply logical_stream_stable; [apply same_settings_refl|].
  now apply agrees_storage.
Qed.

Lemma available_agrees : forall c m0 m,
  agrees m0 m -> available D Q c m = available D Q c m0.
Proof.
  intros c m0 m H. unfold available.
  rewrite (pending_agrees c m0 m H).
  rewrite (logical_stream_stable D c c m0 m (entry_queue Q c)
             (same_settings_refl c) (agrees_storage m0 m H)).
  reflexivity.
Qed.

(** One read: success, the first bytes of what is available, and the
    rest of the stream left for the calls that follow. *)
Lemma serve_read_delivers : forall irp buffer s r s' c,
  read_request_ok (irp, buffer) ->
  FsContext2 s = Some c ->
  (fetches c <> O -> initial_blocks_ok D Q (Mem s)) ->
  reader_ok D c (Mem s) ->
  serve D Q (ReadRequest irp buffer) s r s' ->
  exists c',
    FsContext2 s' = Some c' /\
    reader_ok D c' (Mem s') /\
    Status r = STATUS_SUCCESS /\
    0 <= Information r <= ReadLength irp /\
    returned r s'
    = firstn (Z.to_nat (ReadLength irp)) (available D Q c (Mem s)) /\
    upcoming D Q c (Mem s) = returned r s' ++ upcoming D Q c' (Mem s') /\
    Z.of_nat (length (returned r s')) = Information r.
Proof.
  intros irp buffer s r s' c (Hbuf & Hlen & Hsize) Hc Hfetch Hok Hs.
  simpl in Hbuf, Hlen, Hsize.
  inversion Hs as [fuel irp0 buffer0 s0 r0 s0' Hd|]; subst.
  pose proof (buffer_agrees (Mem s) buffer) as Hag.
  rewrite <- (available_agrees c (Mem s) _ Hag).
  rewrite <- (upcoming_agrees c (Mem s) _ Hag).
  apply (DispatchRead_delivers D Q layout padding fuel irp
           (with_buffer s buffer) r s' c); auto.
  - intros Hn. apply (initial_blocks_ok_storage (Mem s)); [|auto].
    apply agrees_storage. exact Hag.
  - apply (reader_ok_agrees c (Mem s)); assumption.
Qed.

Lemma serve_read_exists : forall irp buffer s c,
  read_request_ok (irp, buffer) ->
  FsContext2 s = Some c ->
  (fetches c <> O -> initial_blocks_ok D Q (Mem s)) ->
  reader_ready D c (Mem s) ->
  exists r s' c',
    serve D Q (ReadRequest irp buffer) s r s' /\
    FsContext2 s' = Some c' /\
    reader_ready D c' (Mem s').
Proof.
  intros irp buffer s c Hreq Hc Hfetch Hready.
  pose proof Hreq as (Hbuf & Hlen & Hsize). simpl in Hbuf, Hlen, Hsize.
  destruct (DispatchRead_completes D Q (proj1 layout)
              (read_fuel Q (with_buffer s buffer)) irp
              (with_buffer s buffer) c Hlen Hbuf Hc
              (reader_ready_typed_context D Q c _ Hfetch Hready)
              (Nat.le_refl _))
    as (r & s' & c' & Hd & Hc' & Hty).
  assert (Hs : serve D Q (ReadRequest irp buffer) s r s')
    by (econstructor; exact Hd).
  exists r, s', c'. split; [exact Hs|]. split; [exact Hc'|].
  destruct (serve_read_delivers irp buffer s r s' c Hreq Hc Hfetch
              (proj1 Hready) Hs)
    as (c2 & Hc2 & Hok2 & _).
  rewrite Hc' in Hc2. injection Hc2 as <-.
  split; assumption.
Qed.

Lemma reads_deliver : forall s reqs outs s',
  reads D Q s reqs outs s' ->
  Forall read_request_ok reqs ->
  forall c, FsContext2 s = Some c ->
  (fetches c <> O -> initial_blocks_ok D Q (Mem s)) ->
  reader_ok D c (Mem s) ->
  exists c',
    FsContext2 s' = Some c' /\ reader_ok D c' (Mem s') /\
    upcoming D Q c (Mem s) = concat outs ++ upcoming D Q c' (Mem s').
Proof.
  intros s reqs outs s' H.
  induction H as [s | irp buffer s r s1 rest outs s' Hs Hr IH];
    intros Hreqs c Hc Hfetch Hok.
  - exists c. auto.
  - inversion Hreqs as [|x l Hreq Hrest]; subst.
    destruct (serve_read_delivers irp buffer s r s1 c Hreq Hc Hfetch Hok Hs)
      as (c1 & Hc1 & Hok1 & _ & _ & _ & Hup & _).
    destruct (IH Hrest c1 Hc1
                (fetch_ok_served irp buffer s r s1 c c1 Hc Hc1 Hs Hfetch)
                Hok1)
      as (c' & Hc' & Hok' & Hup').
    exists c'. split; [exact Hc'|]. split; [exact Hok'|].
    simpl. rewrite Hup, Hup', app_assoc. reflexivity.
Qed.

Lemma reads_frame : forall s reqs outs s',
  reads D Q s reqs outs s' ->
  forall a, Mem s' (BlockStorage a) = Mem s (BlockStorage a).
Proof.
  induction 1 as [s | irp buffer s r s1 rest outs s' Hs _ IH]; intros a.
  - reflexivity.
  - rewrite IH. exact (serve_frame D Q _ s r s1 Hs a).
Qed.

Lemma reads_exist : forall reqs s c,
  Forall read_request_ok reqs ->
  FsContext2 s = Some c ->
  (fetches c <> O -> initial_blocks_ok D Q (Mem s)) ->
  reader_ready D c (Mem s) ->
  exists outs s', reads D Q s reqs outs s'.
Proof.
  induction reqs as [|[irp buffer] rest IH];
    intros s c Hreqs Hc Hfetch Hready.
  - exists [], s. constructor.
  - inversion Hreqs as [|x l Hreq Hrest]; subst.
    destruct (serve_read_exists irp buffer s c Hreq Hc Hfetch Hready)
      as (r & s1 & c1 & Hs & Hc1 & Hready1).
    destruct (IH s1 c1 Hrest Hc1
                (fetch_ok_served irp buffer s r s1 c c1 Hc Hc1 Hs Hfetch)
                Hready1)
      as (outs & s' & Hr).
    exists (returned r s1 :: outs), s'. econstructor; eassumption.
Qed.

End ReadSequences.

(** ** The example declarations and blocks meet the assumptions *)

Lemma land_lnot_3 : forall a, Z.land a (Z.lnot 3) = 4 * (a / 4).
Proof.
  intros a. rewrite <- Z.ldiff_land.
  change 3 with (Z.ones 2).
  rewrite Z.ldiff_ones_r by lia.
  rewrite Z.shiftl_mul_pow2, Z.shiftr_div_pow2 by lia.
  change (2 ^ 2) with 4. lia.
Qed.

Lemma example_layout_ok : layout_ok example_declarations.
Proof. unfold layout_ok, is_u32. simpl. lia. Qed.

Lemma example_padding_ok : padding_ok example_declarations.
Proof.
  intros x y Hx Hxy. simpl. unfold u32. rewrite !land_lnot_3. intros Hy.
  pose proof (Z.div_mod (x + 3) 4 ltac:(lia)) as Ex.
  pose proof (Z.mod_pos_bound (x + 3) 4 ltac:(lia)) as Bx.
  pose proof (Z.div_mod (y + 3) 4 ltac:(lia)) as Ey.
  pose proof (Z.mod_pos_bound (y + 3) 4 ltac:(lia)) as By.
  pose proof (Z.div_le_mono (x + 3) (y + 3) 4 ltac:(lia) ltac:(lia)) as Hm.
  pose proof (Z.mod_pos_bound (4 * ((y + 3) / 4)) (2 ^ 32) ltac:(lia)) as Bm.
  assert (Hsmall : 4 * ((y + 3) / 4) < 2 ^ 32).
  { destruct (Z_lt_le_dec (4 * ((y + 3) / 4)) (2 ^ 32)) as [|Hge];
      [assumption|].
    exfalso.
    assert (4 * ((y + 3) / 4) < 2 * 2 ^ 32) by lia.
    assert (E : (4 * ((y + 3) / 4)) mod 2 ^ 32
                = 4 * ((y + 3) / 4) - 2 ^ 32).
    { symmetry. apply Z.mod_unique with (q := 1); lia. }
    lia. }
  rewrite (Z.mod_small (4 * ((y + 3) / 4))) by lia.
  rewrite (Z.mod_small (4 * ((x + 3) / 4))) by lia.
  lia.
Qed.

Ltac by_evaluation :=
  vm_compute; repeat split; intros; try discriminate; try reflexivity.

Lemma example_packet_block_wf :
  wf_block example_declarations example_memory example_packet_block.
Proof. by_evaluation. Qed.

Lemma example_other_block_wf :
  wf_block example_declarations example_memory example_other_block.
Proof. by_evaluation. Qed.

Lemma example_restart_manager_ok :
  initial_blocks_ok example_declarations example_restart_manager
    example_memory.
Proof.
  intros queue H. simpl.
  apply Forall_cons; [exact example_other_block_wf | exact H].
Qed.

Lemma example_reader_ready : forall st flag queue,
  Forall (wf_block example_declarations example_memory) queue ->
  reader_ready example_declarations (example_context st flag queue)
    example_memory.
Proof.
  intros st flag queue Hq.
  split; [split; [|split; [|split]]|].
  - by_evaluation.
  - by_evaluation.
  - exact I.
  - exact Hq.
  - by_evaluation.
Qed.

(** * The stream a sequence of reads returns *)

(** C1, as stated, fails at a restart boundary.  A reader holds a block
    with two bytes left, a restart is pending and a four-byte block that
    no filter suppresses is queued.  A read of four bytes succeeds with
    the two bytes of the held block only, the next read returns no byte,
    and the read after it returns the four queued bytes, with no block
    arriving in between: the first two calls return fewer bytes than
    requested although more data is at hand. *)
Lemma C1_short_read_while_data_is_queued :
  let D := example_declarations in
  let Q := example_queue_manager in
  let request := ReadRequest (read_irp 4) (zeros 4) in
  let s := machine_of example_held_context example_memory in
  let first := read_result D Q (read_irp 4) (zeros 4) s in
  let second := read_result D Q (read_irp 4) (zeros 4) (snd first) in
  let third := read_result D Q (read_irp 4) (zeros 4) (snd second) in
  (serve D Q request s (fst first) (snd first) /\
   serve D Q request (snd first) (fst second) (snd second) /\
   serve D Q request (snd second) (fst third) (snd third)) /\
  logical_stream D example_held_context example_memory
    (Reader example_held_context) = [10; 20; 30; 40] /\
  (Status (fst first) = STATUS_SUCCESS /\
   returned (fst first) (snd first) = [30; 40] /\
   Information (fst first) < ReadLength (read_irp 4)) /\
  (Status (fst second) = STATUS_SUCCESS /\
   returned (fst second) (snd second) = []) /\
  (Status (fst third) = STATUS_SUCCESS /\
   returned (fst third) (snd third) = [10; 20; 30; 40]).
Proof.
  intros D Q request s first second third.
  split; [|by_evaluation].
  split; [|split].
  - apply serve_read with (fuel := read_fuel Q s).
    vm_compute. reflexivity.
  - apply serve_read with (fuel := read_fuel Q (snd first)).
    vm_compute. reflexivity.
  - apply serve_read with (fuel := read_fuel Q (snd second)).
    vm_compute. reflexivity.
Qed.

(** C1, amended.  On a well-formed reader whose queue manager puts
    well-formed initial blocks into the queue, whatever blocks these are,
    every sequence of read requests (each with a buffer of at least the
    requested length, of any size) is served, from any restart state and
    with or without a restart pending, and for every call of such a
    sequence: it succeeds; it
    returns the first bytes, up to the requested length, of what is
    [available] to it, that is the rest of the held block followed,
    unless a restart is pending, by the blocks of the queue that no
    filter suppresses, each truncated to the snap length, in dequeue
    order, and nothing at all on the boundary read of state SendEof; so
    it returns fewer bytes than requested exactly when fewer are
    available before the next restart boundary; what is [upcoming] after
    the call is what was upcoming before it without the bytes returned,
    so the next call resumes at the byte where this one stopped; and the
    bytes returned by the whole sequence, concatenated, are the beginning
    of the reader's stream. *)
Theorem C1_reads_deliver_the_stream_up_to_restart_boundaries :
  forall D Q s c reqs,
    layout_ok D -> padding_ok D -> initial_blocks_ok D Q (Mem s) ->
    FsContext2 s = Some c -> reader_ready D c (Mem s) ->
    Forall read_request_ok reqs ->
    (exists outs s', reads D Q s reqs outs s') /\
    (forall pre irp buffer post outs1 s1 r s2 outs2 s',
       reqs = pre ++ (irp, buffer) :: post ->
       reads D Q s pre outs1 s1 ->
       serve D Q (ReadRequest irp buffer) s1 r s2 ->
       reads D Q s2 post outs2 s' ->
       exists c1 c2 c',
         FsContext2 s1 = Some c1 /\ FsContext2 s2 = Some c2 /\
         FsContext2 s' = Some c' /\
         Status r = STATUS_SUCCESS /\
         returned r s2
         = firstn (Z.to_nat (ReadLength irp))
             (available D Q c1 (Mem s1)) /\
         Z.of_nat (length (returned r s2)) = Information r /\
         (Information r < ReadLength irp <->
          Z.of_nat (length (available D Q c1 (Mem s1))) < ReadLength irp) /\
         upcoming D Q c1 (Mem s1)
         = returned r s2 ++ upcoming D Q c2 (Mem s2) /\
         upcoming D Q c (Mem s)
         = concat outs1 ++ returned r s2 ++ concat outs2
             ++ upcoming D Q c' (Mem s')).
Proof.
  intros D Q s c reqs Hl Hp Hi Hc Hready Hreqs. split.
  - eapply reads_exist; eauto.
  - intros pre irp buffer post outs1 s1 r s2 outs2 s' -> Hpre Hs Hpost.
    apply Forall_app in Hreqs as [Hreqs1 Hreqs2].
    inversion Hreqs2 as [|x l Hreq Hrest]; subst.
    assert (Hi1 : initial_blocks_ok D Q (Mem s1)).
    { apply (initial_blocks_ok_storage D Q (Mem s)); [|exact Hi].
      exact (reads_frame D Q s pre outs1 s1 Hpre). }
    assert (Hi2 : initial_blocks_ok D Q (Mem s2))
      by exact (initial_blocks_ok_served D Q _ s1 r s2 Hs Hi1).
    destruct (reads_deliver D Q Hl Hp s pre outs1 s1 Hpre Hreqs1 c Hc
                (fun _ => Hi) (proj1 Hready))
      as (c1 & Hc1 & Hok1 & Hup1).
    destruct (serve_read_delivers D Q Hl Hp irp buffer s1 r s2 c1
                Hreq Hc1 (fun _ => Hi1) Hok1 Hs)
      as (c2 & Hc2 & Hok2 & Hst & Hinfo & Hret & Hup2 & Hlen).
    destruct (reads_deliver D Q Hl Hp s2 post outs2 s' Hpost Hrest c2
                Hc2 (fun _ => Hi2) Hok2)
      as (c' & Hc' & _ & Hup3).
    exists c1, c2, c'.
    do 4 (split; [assumption|]). split; [exact Hret|].
    split; [exact Hlen|]. split; [|split].
    + rewrite <- Hlen, Hret, length_firstn.
      destruct Hreq as (_ & Hty & _). unfold is_u32 in Hty. simpl in Hty.
      lia.
    + exact Hup2.
    + rewrite Hup1, Hup2, Hup3. reflexivity.
Qed.

Lemma C1_reads_deliver_the_stream_up_to_restart_boundaries_witness :
  let D := example_declarations in
  let Q := example_restart_manager in
  let queue := [example_packet_block; example_other_block] in
  let s := example_machine RestartStateInit 0 queue in
  let c := example_context RestartStateInit 0 queue in
  let reqs := [(read_irp 5, zeros 5); (read_irp 64, zeros 64)] in
  (exists outs s', reads D Q s reqs outs s') /\
  (forall pre irp buffer post outs1 s1 r s2 outs2 s',
     reqs = pre ++ (irp, buffer) :: post ->
     reads D Q s pre outs1 s1 ->
     serve D Q (ReadRequest irp buffer) s1 r s2 ->
     reads D Q s2 post outs2 s' ->
     exists c1 c2 c',
       FsContext2 s1 = Some c1 /\ FsContext2 s2 = Some c2 /\
       FsContext2 s' = Some c' /\
       Status r = STATUS_SUCCESS /\
       returned r s2
       = firstn (Z.to_nat (ReadLength irp))
           (available D Q c1 (Mem s1)) /\
       Z.of_nat (length (returned r s2)) = Information r /\
       (Information r < ReadLength irp <->
        Z.of_nat (length (available D Q c1 (Mem s1))) < ReadLength irp) /\
       upcoming D Q c1 (Mem s1)
       = returned r s2 ++ upcoming D Q c2 (Mem s2) /\
       upcoming D Q c (Mem s)
       = concat outs1 ++ returned r s2 ++ concat outs2
           ++ upcoming D Q c' (Mem s')).
Proof.
  intros D Q queue s c reqs.
  apply (C1_reads_deliver_the_stream_up_to_restart_boundaries D Q s c reqs).
  - exact example_layout_ok.
  - exact example_padding_ok.
  - exact example_restart_manager_ok.
  - reflexivity.
  - apply example_reader_ready.
    apply Forall_cons; [exact example_packet_block_wf|].
    apply Forall_cons; [exact example_other_block_wf | apply Forall_nil].
  - apply Forall_cons; [by_evaluation|].
    apply Forall_cons; [by_evaluation | apply Forall_nil].
Defined.

(** * The stream of a truncated packet block *)

Lemma slice_middle : forall (l1 l2 l3 : list Z) off n,
  Z.of_nat (length l1) = off -> Z.of_nat (length l2) = n ->
  slice (l1 ++ l2 ++ l3) off n = l2.
Proof.
  intros l1 l2 l3 off n H1 H2.
  rewrite slice_app_right by lia.
  replace (off - Z.of_nat (length l1)) with 0 by lia.
  rewrite slice_app_left by lia.
  subst n. apply slice_full.
Qed.

Lemma slice_end : forall (l1 l2 : list Z) off n,
  Z.of_nat (length l1) = off -> Z.of_nat (length l2) = n ->
  slice (l1 ++ l2) off n = l2.
Proof.
  intros l1 l2 off n H1 H2.
  rewrite slice_app_right by lia.
  replace (off - Z.of_nat (length l1)) with 0 by lia.
  subst n. apply slice_full.
Qed.

Lemma load_app_left : forall (l1 l2 : list Z) o,
  0 <= o -> o + 4 <= Z.of_nat (length l1) ->
  load_u32 (l1 ++ l2) o = load_u32 l1 o.
Proof.
  intros l1 l2 o Ho Hl. unfold load_u32.
  now rewrite slice_app_left by lia.
Qed.

Lemma load_app_right : forall (l1 l2 : list Z) off o,
  Z.of_nat (length l1) = off -> 0 <= o ->
  load_u32 (l1 ++ l2) (off + o) = load_u32 l2 o.
Proof.
  intros l1 l2 off o H1 Ho. unfold load_u32.
  rewrite slice_app_right by lia.
  now replace (off + o - Z.of_nat (length l1)) with o by lia.
Qed.

Section TruncatedBlock.

Variable D : Declarations.
Hypothesis layout : layout_ok D.
Hypothesis padding : padding_ok D.

Abbreviation hs := (sizeof_PCAP_NG_PACKET_HEADER D).
Abbreviation fs := (sizeof_PCAP_NG_PACKET_FOOTER D).

Lemma overlay_header_fields : forall S pad data,
  hs <= Z.of_nat (length data) ->
  load_u32 (overlay_header D S pad data) (offsetof_HEADER_CapturedLength D)
  = u32 S /\
  load_u32 (overlay_header D S pad data) (offsetof_HEADER_BlockLength D)
  = u32 (truncated_length D S pad).
Proof.
  intros S pad data Hlen.
  destruct layout as (L1 & L2 & L3 & L4 & L5 & L6 & L7 & L8).
  assert (Hl : Z.of_nat (length (slice data 0 hs)) = hs)
    by (rewrite slice_length; unfold is_u32 in *; lia).
  assert (Hl2 : length (store_u32 (slice data 0 hs)
                          (offsetof_HEADER_BlockLength D)
                          (truncated_length D S pad))
                = length (slice data 0 hs))
    by (apply store_u32_length; lia).
  unfold overlay_header. split.
  - apply load_store_same; lia.
  - rewrite load_store_before by lia.
    apply load_store_same; lia.
Qed.

Lemma overlay_footer_field : forall S pad blockLength data,
  fs <= blockLength -> blockLength <= Z.of_nat (length data) ->
  load_u32 (overlay_footer D S pad blockLength data)
    (offsetof_FOOTER_BlockLength D)
  = u32 (truncated_length D S pad).
Proof.
  intros S pad blockLength data H1 H2.
  destruct layout as (L1 & L2 & L3 & L4 & L5 & L6 & L7 & L8).
  assert (Hl : Z.of_nat (length (slice data (blockLength - fs) fs)) = fs)
    by (rewrite slice_length; unfold is_u32 in *; lia).
  unfold overlay_footer. apply load_store_same; lia.
Qed.

(** The four zones of the stream of a truncated packet block. *)
Lemma render_truncated : forall c m b,
  settings_ok D c -> wf_block D m b -> BlockType b = PacketBlock ->
  truncates D (SnapLength c) m b = true ->
  let S := SnapLength c in
  let pad := SnapLengthPad c in
  let data := m (blockData b) in
  let total := hs + S + pad + fs in
  let V := render D S pad m b in
  Z.of_nat (length V) = total /\
  total <= BlockLength b /\
  load_u32 V (offsetof_HEADER_CapturedLength D) = S /\
  load_u32 V (offsetof_HEADER_BlockLength D) = total /\
  load_u32 V (hs + S + pad + offsetof_FOOTER_BlockLength D) = total /\
  slice V 0 hs = overlay_header D S pad data /\
  slice V hs S = slice data hs S /\
  slice V (hs + S) pad = zeros pad /\
  slice V (hs + S + pad) fs
  = store_u32 (slice data (BlockLength b - fs) fs)
      (offsetof_FOOTER_BlockLength D) total.
Proof.
  intros c m b Hset Hwf Hp Ht S pad data total V.
  destruct (truncation_sizes D layout padding c m b Hset Hwf Hp Ht)
    as (HS & Hpad & Htot & _).
  fold S in HS, Htot. fold pad in Hpad, Htot.
  destruct Hwf as (W1 & W2 & _). fold data in W2.
  pose proof layout as (L1 & L2 & L3 & L4 & L5 & L6 & L7 & L8).
  assert (Hfs : 0 <= fs) by (unfold is_u32 in L2; lia).
  assert (Hhs : 0 <= hs) by (unfold is_u32 in L1; lia).
  assert (LH : Z.of_nat (length (overlay_header D S pad data)) = hs)
    by (apply overlay_header_length; [exact layout | lia]).
  assert (LF : Z.of_nat (length (overlay_footer D S pad (BlockLength b) data))
               = fs)
    by (apply overlay_footer_length; [exact layout | lia | lia]).
  assert (LP : Z.of_nat (length (slice data hs S)) = S)
    by (rewrite slice_length; lia).
  assert (LZ : Z.of_nat (length (zeros pad)) = pad)
    by (rewrite zeros_length; lia).
  assert (Htyped : u32 total = total)
    by (apply u32_small; unfold is_u32 in *; lia).
  destruct (overlay_header_fields S pad data) as (F1 & F2); [lia|].
  pose proof (overlay_footer_field S pad (BlockLength b) data) as F3.
  unfold truncated_length in F2, F3. fold total in F2, F3.
  assert (EV : V = overlay_header D S pad data ++ slice data hs S
                   ++ zeros pad
                   ++ overlay_footer D S pad (BlockLength b) data)
    by (unfold V, render, S; rewrite Ht; reflexivity).
  assert (E3 : V = (overlay_header D S pad data ++ slice data hs S)
                   ++ zeros pad
                   ++ overlay_footer D S pad (BlockLength b) data)
    by (rewrite EV, app_assoc; reflexivity).
  assert (E4 : V = ((overlay_header D S pad data ++ slice data hs S)
                    ++ zeros pad)
                   ++ overlay_footer D S pad (BlockLength b) data)
    by (rewrite EV, !app_assoc; reflexivity).
  assert (L2' : Z.of_nat (length (overlay_header D S pad data
                                   ++ slice data hs S)) = hs + S)
    by (rewrite length_app, Nat2Z.inj_add; lia).
  assert (L3' : Z.of_nat (length ((overlay_header D S pad data
                                    ++ slice data hs S) ++ zeros pad))
                = hs + S + pad)
    by (rewrite length_app, Nat2Z.inj_add; lia).
  split; [rewrite E4, length_app, Nat2Z.inj_add; lia|].
  split; [exact Htot|].
  split.
  { rewrite EV, load_app_left by lia.
    rewrite F1. apply u32_small. destruct Hset as (T & _). exact T. }
  split.
  { rewrite EV, load_app_left by lia. rewrite F2. exact Htyped. }
  split.
  { rewrite E4, (load_app_right _ _ (hs + S + pad)) by (exact L3' || lia).
    rewrite F3 by lia. exact Htyped. }
  split.
  { rewrite EV, slice_app_left by lia. rewrite <- LH. apply slice_full. }
  split; [rewrite EV; apply slice_middle; assumption|].
  split; [rewrite E3; apply slice_middle; assumption|].
  rewrite E4. apply slice_end; assumption.
Qed.

End TruncatedBlock.

(** C2.  A reader in normal streaming holds no block and has at the head
    of its queue a packet block that no filter suppresses and whose
    captured length exceeds the nonzero snap length S.  Then the reads
    that follow deliver, for that block, the bytes [V] ahead of the rest
    of the queue: the first read returns the first bytes of that stream
    up to its length, and all reads together return its beginning.  [V]
    has exactly headerSize + S + snapLengthPad + footerSize bytes, which
    is no more than the block has; the capturedLength field of its header
    is S, the blockLength fields of its header and of its footer are that
    total; the payload zone holds the first S bytes of the original
    payload unmodified; every byte of the padding zone is zero; and the
    footer, taken from the original footer start with its length field
    replaced, follows the padding directly, so no byte of the gap
    between the modified and the original footer start is delivered. *)
Theorem C2_truncated_packet_block_is_streamed_in_four_zones :
  forall D Q s c b q irp buffer rest outs s',
    layout_ok D -> padding_ok D ->
    FsContext2 s = Some c -> reader_ok D c (Mem s) ->
    RestartState c = RestartStateNormal -> RestartRequested c <> 1 ->
    CurrentBlock c = None -> Reader c = b :: q ->
    BlockType b = PacketBlock -> suppressed c b = false ->
    SnapLength c <> 0 -> SnapLength c < capturedLength D (Mem s) b ->
    Forall read_request_ok ((irp, buffer) :: rest) ->
    reads D Q s ((irp, buffer) :: rest) outs s' ->
    let hs := sizeof_PCAP_NG_PACKET_HEADER D in
    let fs := sizeof_PCAP_NG_PACKET_FOOTER D in
    let S := SnapLength c in
    let pad := SnapLengthPad c in
    let data := Mem s (blockData b) in
    let total := hs + S + pad + fs in
    let V := render D S pad (Mem s) b in
    let stream := V ++ logical_stream D c (Mem s) q in
    (hd [] outs = firstn (Z.to_nat (ReadLength irp)) stream /\
     exists c',
       FsContext2 s' = Some c' /\
       stream = concat outs ++ upcoming D Q c' (Mem s')) /\
    Z.of_nat (length V) = total /\
    total <= BlockLength b /\
    load_u32 V (offsetof_HEADER_CapturedLength D) = S /\
    load_u32 V (offsetof_HEADER_BlockLength D) = total /\
    load_u32 V (hs + S + pad + offsetof_FOOTER_BlockLength D) = total /\
    slice V 0 hs = overlay_header D S pad data /\
    slice V hs S = slice data hs S /\
    slice V (hs + S) pad = zeros pad /\
    slice V (hs + S + pad) fs
    = store_u32 (slice data (BlockLength b - fs) fs)
        (offsetof_FOOTER_BlockLength D) total.
Proof.
  intros D Q s c b q irp buffer rest outs s' Hl Hp Hc Hok Hst Hfl Hcb Hq
    Hty Hsup HS HC Hreqs Hreads hs fs S pad data total V stream.
  assert (Hfetch : fetches c <> O -> initial_blocks_ok D Q (Mem s)).
  { intros N. exfalso. apply N. apply fetches_none. auto. }
  assert (Hav : available D Q c (Mem s) = stream).
  { unfold available, entry_queue, pending. rewrite Hst, Hcb, Hq.
    apply Z.eqb_neq in Hfl. rewrite Hfl. simpl.
    rewrite logical_stream_cons, Hsup. reflexivity. }
  assert (Hup : upcoming D Q c (Mem s) = stream).
  { unfold upcoming, fetches, pending. rewrite Hst, Hcb, Hq.
    apply Z.eqb_neq in Hfl. rewrite Hfl. simpl.
    rewrite logical_stream_cons, Hsup. reflexivity. }
  split.
  - inversion Hreqs as [|x l Hreq Hrest]; subst x l.
    inversion Hreads as [|irp0 buffer0 s0 r s1 rest0 outs0 s0' Hs Hr]; subst.
    destruct (serve_read_delivers D Q Hl Hp irp buffer s r s1 c
                Hreq Hc Hfetch Hok Hs)
      as (c1 & Hc1 & Hok1 & _ & _ & Hret & Hup1 & _).
    destruct (reads_deliver D Q Hl Hp s1 rest outs0 s' Hr Hrest c1
                Hc1 (fetch_ok_served D Q irp buffer s r s1 c c1 Hc Hc1 Hs
                       Hfetch) Hok1)
      as (c' & Hc' & _ & Hup2).
    split; [simpl; rewrite Hret, Hav; reflexivity|].
    exists c'. split; [exact Hc'|].
    rewrite <- Hup, Hup1, Hup2. simpl. now rewrite app_assoc.
  - destruct Hok as (Hset & _ & _ & Hwf). rewrite Hq in Hwf.
    inversion Hwf as [|x l Hb _]; subst x l.
    apply (render_truncated D Hl Hp c (Mem s) b Hset Hb Hty).
    unfold truncates. rewrite Hty.
    apply andb_true_iff. split.
    + apply negb_true_iff, Z.eqb_neq. exact HS.
    + apply Z.gtb_lt. exact HC.
Qed.

Lemma C2_truncated_packet_block_is_streamed_in_four_zones_witness :
  let D := example_declarations in
  let Q := example_queue_manager in
  let b := example_packet_block in
  let q := [example_other_block] in
  let s := example_machine RestartStateNormal 0 (b :: q) in
  let c := example_context RestartStateNormal 0 (b :: q) in
  let irp := read_irp 64 in
  let done := read_result D Q irp (zeros 64) s in
  let outs := [returned (fst done) (snd done)] in
  let s' := snd done in
  let hs := sizeof_PCAP_NG_PACKET_HEADER D in
  let fs := sizeof_PCAP_NG_PACKET_FOOTER D in
  let S := SnapLength c in
  let pad := SnapLengthPad c in
  let data := Mem s (blockData b) in
  let total := hs + S + pad + fs in
  let V := render D S pad (Mem s) b in
  let stream := V ++ logical_stream D c (Mem s) q in
  (hd [] outs = firstn (Z.to_nat (ReadLength irp)) stream /\
   exists c',
     FsContext2 s' = Some c' /\
     stream = concat outs ++ upcoming D Q c' (Mem s')) /\
  Z.of_nat (length V) = total /\
  total <= BlockLength b /\
  load_u32 V (offsetof_HEADER_CapturedLength D) = S /\
  load_u32 V (offsetof_HEADER_BlockLength D) = total /\
  load_u32 V (hs + S + pad + offsetof_FOOTER_BlockLength D) = total /\
  slice V 0 hs = overlay_header D S pad data /\
  slice V hs S = slice data hs S /\
  slice V (hs + S) pad = zeros pad /\
  slice V (hs + S + pad) fs
  = store_u32 (slice data (BlockLength b - fs) fs)
      (offsetof_FOOTER_BlockLength D) total.
Proof.
  intros D Q b q s c irp done outs s'.
  apply (C2_truncated_packet_block_is_streamed_in_four_zones
           D Q s c b q irp (zeros 64) [] outs s').
  - exact example_layout_ok.
  - exact example_padding_ok.
  - reflexivity.
  - apply example_reader_ready.
    apply Forall_cons; [exact example_packet_block_wf|].
    apply Forall_cons; [exact example_other_block_wf | apply Forall_nil].
  - reflexivity.
  - discriminate.
  - reflexivity.
  - reflexivity.
  - reflexivity.
  - reflexivity.
  - discriminate.
  - reflexivity.
  - apply Forall_cons; [by_evaluation | apply Forall_nil].
  - apply (reads_cons D Q irp (zeros 64) s (fst done) (snd done) [] []
             (snd done)); [|apply reads_nil].
    apply serve_read with (fuel := read_fuel Q s).
    vm_compute. reflexivity.
Defined.

(** * The filter checks of a dequeued block *)

Lemma check_filter_checks : forall filter id announce tr,
  exists k,
    (k <= filter_count filter)%nat /\
    check_filter filter id announce tr
    = (id_listed filter id, tr ++ map announce (indices 1 k)) /\
    (id_listed filter id = false -> k = filter_count filter).
Proof.
  intros filter id announce tr.
  pose proof (check_filter_hit filter id announce tr) as Hhit.
  destruct filter as [ids|].
  - simpl in *.
    destruct (scan_filter_checks ids id announce (Z.to_nat (nth 0 ids 0)) 1 tr)
      as (k & Hk & Hsnd & Hall).
    exists k. split; [exact Hk|]. split.
    + rewrite <- Hhit, <- Hsnd. apply surjective_pairing.
    + intros Hno. apply Hall. rewrite Hhit. exact Hno.
  - exists O. split; [apply Nat.le_refl|]. split; [|reflexivity].
    simpl. now rewrite app_nil_r.
Qed.

Lemma filter_block_checks : forall c b tr,
  let pidListed := id_listed (FilteredProcessIds c) (ProcessId b) in
  let cidListed := id_listed (FilteredConnectionIds c) (ConnectionId b) in
  exists kp kc,
    filter_block c b tr
    = (pidListed || cidListed,
       tr ++ map EvCheckProcessFilter (indices 1 kp)
          ++ map EvCheckConnectionFilter (indices 1 kc)) /\
    (kp <= filter_count (FilteredProcessIds c))%nat /\
    (kc <= filter_count (FilteredConnectionIds c))%nat /\
    (pidListed = true -> kc = O) /\
    (pidListed = false -> kp = filter_count (FilteredProcessIds c)) /\
    (pidListed = false -> cidListed = false ->
     kc = filter_count (FilteredConnectionIds c)).
Proof.
  intros c b tr pidListed cidListed. unfold filter_block.
  destruct (check_filter_checks (FilteredProcessIds c) (ProcessId b)
              EvCheckProcessFilter tr) as (kp & Hkp & -> & Hallp).
  fold pidListed in Hallp |- *.
  destruct pidListed eqn:Ep; simpl.
  - exists kp, O. simpl. rewrite app_nil_r.
    split; [reflexivity|]. split; [exact Hkp|]. split; [lia|].
    split; [reflexivity|]. split; discriminate.
  - destruct (check_filter_checks (FilteredConnectionIds c) (ConnectionId b)
                EvCheckConnectionFilter
                (tr ++ map EvCheckProcessFilter (indices 1 kp)))
      as (kc & Hkc & -> & Hallc).
    fold cidListed in Hallc |- *.
    exists kp, kc. rewrite <- app_assoc.
    split; [reflexivity|]. split; [exact Hkp|]. split; [exact Hkc|].
    split; [discriminate|]. split; [auto|]. intros _. exact Hallc.
Qed.

(** C5.  When the loop dequeues a block, the filter checks come right
    after the dequeue and before anything of the block is copied.  For a
    packet block the entries of the process-id filter are compared first,
    in order; the connection-id filter is consulted only when no process
    id matched; an absent filter is not consulted and lists nothing.  The
    block is suppressed exactly when one of the two lists holds its id:
    it is then released by [QmCleanupBlock], no longer queued nor held,
    and the read offset and the system buffer are as before, so it
    contributes no byte.  Otherwise the copy of the block starts only in
    the state reached after the checks, with the read offset and the
    system buffer still as before.  A block that is not a packet block is
    never suppressed, and no filter is consulted for it. *)
Theorem C5_filters_are_checked_before_delivery :
  forall D readLength s b rest,
    blockNode s = None ->
    RestartRequested (context s) <> 1 ->
    Reader (context s) = b :: rest ->
    let c := context s in
    let pidListed := id_listed (FilteredProcessIds c) (ProcessId b) in
    let cidListed := id_listed (FilteredConnectionIds c) (ConnectionId b) in
    let c1 := set_Reader rest c in
    let m1 := store_field (mem s) ModifiedHeader
                (offsetof_HEADER_BlockType D) 0 in
    let dequeued := trace s ++ [EvQmDequeueBlock (Some b)] in
    m1 SystemBuffer = mem s SystemBuffer /\
    match BlockType b with
    | OtherBlock =>
      suppressed c b = false /\
      loop_body D readLength s
      = Continue
          (serve_block D readLength b
             {| context := c1; mem := m1; trace := dequeued;
                blockNode := Some b; blockOffset := 0;
                readOffset := readOffset s |})
    | PacketBlock =>
      exists kp kc,
        let checked :=
          dequeued ++ map EvCheckProcessFilter (indices 1 kp)
            ++ map EvCheckConnectionFilter (indices 1 kc) in
        suppressed c b = pidListed || cidListed /\
        (kp <= filter_count (FilteredProcessIds c))%nat /\
        (kc <= filter_count (FilteredConnectionIds c))%nat /\
        (pidListed = true -> kc = O) /\
        (pidListed = false -> kp = filter_count (FilteredProcessIds c)) /\
        (pidListed = false -> cidListed = false ->
         kc = filter_count (FilteredConnectionIds c)) /\
        (FilteredProcessIds c = None -> pidListed = false /\ kp = O) /\
        (FilteredConnectionIds c = None -> cidListed = false /\ kc = O) /\
        if suppressed c b then
          loop_body D readLength s
          = Continue
              {| context := c1; mem := m1;
                 trace := checked ++ [EvQmCleanupBlock b];
                 blockNode := None; blockOffset := 0;
                 readOffset := readOffset s |}
        else
          snd (trim_block D c1 m1 b) SystemBuffer = mem s SystemBuffer /\
          loop_body D readLength s
          = Continue
              (serve_block D readLength b
                 {| context := fst (trim_block D c1 m1 b);
                    mem := snd (trim_block D c1 m1 b);
                    trace := checked;
                    blockNode := Some b; blockOffset := 0;
                    readOffset := readOffset s |})
    end.
Proof.
  intros D readLength s b rest Hnone Hflag Hq c pidListed cidListed c1 m1
    dequeued.
  split; [reflexivity|].
  unfold loop_body, next_block. rewrite Hnone.
  apply Z.eqb_neq in Hflag. rewrite Hflag, Hq.
  fold c. fold c1 m1 dequeued.
  unfold suppressed.
  destruct (BlockType b) eqn:Ety.
  - destruct (filter_block_checks c1 b dequeued)
      as (kp & kc & Hfb & Hkp & Hkc & H1 & H2 & H3).
    change (FilteredProcessIds c1) with (FilteredProcessIds c) in *.
    change (FilteredConnectionIds c1) with (FilteredConnectionIds c) in *.
    fold pidListed cidListed in Hfb, H1, H2, H3.
    exists kp, kc. cbv zeta.
    split; [reflexivity|]. split; [exact Hkp|]. split; [exact Hkc|].
    split; [exact H1|]. split; [exact H2|]. split; [exact H3|].
    split; [|split].
    + intros Hn. unfold pidListed in *. rewrite Hn in *. simpl in Hkp.
      split; [reflexivity | lia].
    + intros Hn. unfold cidListed in *. rewrite Hn in *. simpl in Hkc.
      split; [reflexivity | lia].
    + rewrite Hfb, <- !app_assoc.
      change (id_listed (FilteredProcessIds c) (ProcessId b)
              || id_listed (FilteredConnectionIds c) (ConnectionId b))
        with (pidListed || cidListed).
      destruct (pidListed || cidListed).
      * reflexivity.
      * split.
        -- rewrite trim_block_frame by discriminate. reflexivity.
        -- destruct (trim_block D c1 m1 b). reflexivity.
  - split; reflexivity.
Qed.

Lemma C5_filters_are_checked_before_delivery_witness :
  let D := example_declarations in
  let readLength := 16 in
  let b := example_packet_block in
  let rest := [example_other_block] in
  let s := example_loop_state
             (set_FilteredProcessIds (Some [2; 5; 7])
                (example_context RestartStateNormal 0 (b :: rest))) in
  let c := context s in
  let pidListed := id_listed (FilteredProcessIds c) (ProcessId b) in
  let cidListed := id_listed (FilteredConnectionIds c) (ConnectionId b) in
  let c1 := set_Reader rest c in
  let m1 := store_field (mem s) ModifiedHeader
              (offsetof_HEADER_BlockType D) 0 in
  let dequeued := trace s ++ [EvQmDequeueBlock (Some b)] in
  m1 SystemBuffer = mem s SystemBuffer /\
  match BlockType b with
  | OtherBlock =>
    suppressed c b = false /\
    loop_body D readLength s
    = Continue
        (serve_block D readLength b
           {| context := c1; mem := m1; trace := dequeued;
              blockNode := Some b; blockOffset := 0;
              readOffset := readOffset s |})
  | PacketBlock =>
    exists kp kc,
      let checked :=
        dequeued ++ map EvCheckProcessFilter (indices 1 kp)
          ++ map EvCheckConnectionFilter (indices 1 kc) in
      suppressed c b = pidListed || cidListed /\
      (kp <= filter_count (FilteredProcessIds c))%nat /\
      (kc <= filter_count (FilteredConnectionIds c))%nat /\
      (pidListed = true -> kc = O) /\
      (pidListed = false -> kp = filter_count (FilteredProcessIds c)) /\
      (pidListed = false -> cidListed = false ->
       kc = filter_count (FilteredConnectionIds c)) /\
      (FilteredProcessIds c = None -> pidListed = false /\ kp = O) /\
      (FilteredConnectionIds c = None -> cidListed = false /\ kc = O) /\
      if suppressed c b then
        loop_body D readLength s
        = Continue
            {| context := c1; mem := m1;
               trace := checked ++ [EvQmCleanupBlock b];
               blockNode := None; blockOffset := 0;
               readOffset := readOffset s |}
      else
        snd (trim_block D c1 m1 b) SystemBuffer = mem s SystemBuffer /\
        loop_body D readLength s
        = Continue
            (serve_block D readLength b
               {| context := fst (trim_block D c1 m1 b);
                  mem := snd (trim_block D c1 m1 b);
                  trace := checked;
                  blockNode := Some b; blockOffset := 0;
                  readOffset := readOffset s |})
  end.
Proof.
  intros D readLength b rest s.
  apply (C5_filters_are_checked_before_delivery D readLength s b rest).
  - reflexivity.
  - discriminate.
  - reflexivity.
Defined.

(** * Filter arrays: from SetIdList to the filter loops of a read *)

Lemma map_nth_seq : forall (l : list Z) d,
  map (fun i => nth i l d) (seq 0 (length l)) = l.
Proof.
  induction l as [|x l IH]; intros d; [reflexivity|].
  simpl. rewrite <- seq_shift, map_map. simpl. now rewrite IH.
Qed.

Lemma filter_ids_build_ids : forall numIds buffer,
  filter_ids (Some (build_ids numIds buffer))
  = map (fun index => load_u32 buffer (Z.of_nat index * sizeof_UINT32))
      (seq 0 (Z.to_nat numIds)).
Proof.
  intros numIds buffer. unfold filter_ids, build_ids.
  change (nth 0 (numIds :: _) 0) with numIds.
  rewrite <- seq_shift, map_map. simpl.
  set (l := map (fun index => load_u32 buffer (Z.of_nat index * sizeof_UINT32))
              (seq 0 (Z.to_nat numIds))).
  replace (Z.to_nat numIds) with (length l)
    by (subst l; now rewrite length_map, length_seq).
  apply map_nth_seq.
Qed.

Lemma id_listed_iff : forall filter id,
  id_listed filter id = true <-> In id (filter_ids filter).
Proof.
  intros filter id. unfold id_listed. rewrite existsb_exists. split.
  - intros (x & Hin & Heq). apply Z.eqb_eq in Heq. now subst.
  - intros Hin. exists id. split; [exact Hin | apply Z.eqb_refl].
Qed.

Lemma id_list_target_set : forall ty ids c,
  id_list_target ty (set_id_list_target ty ids c) = ids /\
  id_list_target (other_id_list ty) (set_id_list_target ty ids c)
  = id_list_target (other_id_list ty) c.
Proof. intros [] ids c; split; reflexivity. Qed.

(** X1.  A filter request whose buffer holds at least one id, served while
    the pool has memory, installs an array that makes the filter loop of
    a read match exactly the 32-bit words of the request buffer; the
    other filter array, the cursor and the settings are not touched, and
    the array that was installed before is freed after the exchange. *)
Theorem SetIdList_round_trip :
  forall c idListType buffer bufferLen tr,
    4 <= bufferLen ->
    exists c' ids,
      SetIdList c idListType (Some buffer) bufferLen true tr
      = Done (c',
              tr ++ [EvExAllocatePoolWithTag
                       ((bufferLen / sizeof_UINT32 + 1) * sizeof_UINT32) true;
                     EvInterlockedExchangePointer idListType (Some ids)]
                 ++ freed_by_exchange (id_list_target idListType c)) /\
      id_list_target idListType c' = Some ids /\
      (forall id announce tr0,
         fst (check_filter (Some ids) id announce tr0) = true
         <-> In id (buffer_ids buffer bufferLen)) /\
      id_list_target (other_id_list idListType) c'
      = id_list_target (other_id_list idListType) c /\
      same_cursor c c' /\
      SnapLength c' = SnapLength c /\ SnapLengthPad c' = SnapLengthPad c /\
      RestartRequested c' = RestartRequested c.
Proof.
  intros c ty buffer bufferLen tr Hlen.
  exists (set_id_list_target ty
            (Some (build_ids (bufferLen / sizeof_UINT32) buffer)) c),
         (build_ids (bufferLen / sizeof_UINT32) buffer).
  split.
  { rewrite SetIdList_installs by exact Hlen. cbv zeta.
    unfold freed_by_exchange. reflexivity. }
  destruct (id_list_target_set ty
              (Some (build_ids (bufferLen / sizeof_UINT32) buffer)) c)
    as [E1 E2].
  split; [exact E1|]. split.
  { intros id announce tr0.
    rewrite check_filter_hit, id_listed_iff, filter_ids_build_ids.
    reflexivity. }
  split; [exact E2|].
  apply same_cursor_set_id_list.
Qed.

Lemma SetIdList_round_trip_witness :
  let c := set_FilteredProcessIds (Some [1; 5])
             (fresh_context RestartStateNormal []) in
  let buffer := bytes_of_u32 7 ++ bytes_of_u32 9 ++ [3] in
  exists c' ids,
    SetIdList c ProcessIdList (Some buffer) 9 true []
    = Done (c',
            [] ++ [EvExAllocatePoolWithTag
                     ((9 / sizeof_UINT32 + 1) * sizeof_UINT32) true;
                   EvInterlockedExchangePointer ProcessIdList (Some ids)]
               ++ freed_by_exchange (id_list_target ProcessIdList c)) /\
    id_list_target ProcessIdList c' = Some ids /\
    (forall id announce tr0,
       fst (check_filter (Some ids) id announce tr0) = true
       <-> In id (buffer_ids buffer 9)) /\
    id_list_target (other_id_list ProcessIdList) c'
    = id_list_target (other_id_list ProcessIdList) c /\
    same_cursor c c' /\
    SnapLength c' = SnapLength c /\ SnapLengthPad c' = SnapLengthPad c /\
    RestartRequested c' = RestartRequested c.
Proof.
  intros c buffer.
  apply (SetIdList_round_trip c ProcessIdList buffer 9 []). lia.
Defined.

(** X2.  A filter request of fewer than four bytes holds no id: the filter is
    removed.  Nothing is allocated and the request buffer is not read, so
    this works with a null buffer and with an exhausted pool; the array
    installed before is freed, and the filter loop of a read then makes
    no comparison and matches nothing. *)
Theorem SetIdList_short_buffer_removes_filter :
  forall c idListType buffer bufferLen pool tr,
    0 <= bufferLen < 4 ->
    let c' := set_id_list_target idListType None c in
    SetIdList c idListType buffer bufferLen pool tr
    = Done (c',
            tr ++ [EvInterlockedExchangePointer idListType None]
               ++ freed_by_exchange (id_list_target idListType c)) /\
    id_list_target idListType c' = None /\
    id_list_target (other_id_list idListType) c'
    = id_list_target (other_id_list idListType) c /\
    (forall id announce tr0,
       check_filter (id_list_target idListType c') id announce tr0
       = (false, tr0)).
Proof.
  intros c ty buffer bufferLen pool tr Hlen c'.
  destruct (id_list_target_set ty None c) as [E1 E2]. fold c' in E1, E2.
  split; [|split; [exact E1|split; [exact E2|]]].
  - unfold SetIdList.
    replace (bufferLen / sizeof_UINT32) with 0
      by (symmetry; apply Z.div_small; unfold sizeof_UINT32; lia).
    simpl. fold c'. unfold freed_by_exchange.
    destruct (id_list_target ty c); rewrite <- ?app_assoc; reflexivity.
  - intros id announce tr0. rewrite E1. reflexivity.
Qed.

Lemma SetIdList_short_buffer_removes_filter_witness :
  let c := set_FilteredConnectionIds (Some [2; 8; 9])
             (fresh_context RestartStateNormal []) in
  let c' := set_id_list_target ConnectionIdList None c in
  SetIdList c ConnectionIdList None 3 false []
  = Done (c',
          [] ++ [EvInterlockedExchangePointer ConnectionIdList None]
             ++ freed_by_exchange (id_list_target ConnectionIdList c)) /\
  id_list_target ConnectionIdList c' = None /\
  id_list_target (other_id_list ConnectionIdList) c'
  = id_list_target (other_id_list ConnectionIdList) c /\
  (forall id announce tr0,
     check_filter (id_list_target ConnectionIdList c') id announce tr0
     = (false, tr0)).
Proof.
  intros c.
  apply (SetIdList_short_buffer_removes_filter c ConnectionIdList None 3
           false []).
  lia.
Defined.



(** * Control requests on an open reader *)

Section ControlCases.

Variable D : Declarations.
Variable Q : QueueManager.

(** Every way [DispatchDeviceControl] completes a request on an open
    reader. *)
Lemma DispatchDeviceControl_cases :
  forall irp s c (P : completion * machine -> Prop),
    FsContext2 s = Some c ->
    (forall status, P (CompleteIrp status 0, s)) ->
    (forall ty c1 tr1,
       SetIdList c ty (request_buffer irp s) (InputBufferLength irp)
         (PoolAvailable s) (Trace s) = Done (c1, tr1) ->
       P (CompleteIrp STATUS_SUCCESS 0, with_trace (with_context s c1) tr1)) ->
    P (CompleteIrp STATUS_SUCCESS 0,
       with_context s (set_RestartRequested 1 c)) ->
    (forall buffer,
       request_buffer irp s = Some buffer ->
       let v := load_u32 buffer 0 in
       SnapLength c <> v ->
       P (CompleteIrp STATUS_SUCCESS 0,
          log (EvQmSetReaderSnapLength v)
            (with_context s
               (set_SnapLength v (sub32 (PCAP_NG_PADDING D v) v) c)))) ->
    (forall n,
       P (CompleteIrp STATUS_SUCCESS n,
          with_mem s (store_field (Mem s) SystemBuffer 0 (SnapLength c)))) ->
    (forall h,
       P (CompleteIrp (QmSetReaderDataEvent Q h) 0,
          log (EvQmSetReaderDataEvent h) s)) ->
    P (CompleteIrp STATUS_SUCCESS 0, log EvQmSetOpenConnections s) ->
    (forall n,
       P (CompleteIrp STATUS_SUCCESS n,
          log EvQmGetStatistics
            (with_mem s
               (mem_set (Mem s) SystemBuffer
                  (write_bytes (Mem s SystemBuffer) 0
                     (QmGetStatistics Q (Reader c))))))) ->
    forall r s', DispatchDeviceControl D Q irp s = Done (r, s') -> P (r, s').
Proof.
  intros irp s c P Hc Hsame Hids Hmark Hset Hget Hevent Hopen Hstat r s'.
  unfold DispatchDeviceControl. rewrite Hc.
  destruct (_ >? _); [intros H; injection H as <- <-; apply Hsame|].
  destruct (nth_error _ _) as [params|]; [|discriminate].
  destruct (_ || _); [intros H; injection H as <- <-; apply Hsame|].
  destruct (_ && _); [intros H; injection H as <- <-; apply Hsame|].
  unfold ioctl_switch.
  destruct (Z.eqb_spec (IoControlCode irp) (IOCTL_KPH_FILTER_CONNECTIONS D)).
  { destruct (SetIdList c ConnectionIdList _ _ _ _) as [[c1 tr1]|] eqn:E;
      simpl; [|discriminate].
    intros H. injection H as <- <-. now apply (Hids ConnectionIdList). }
  destruct (Z.eqb_spec (IoControlCode irp) (IOCTL_KPH_FILTER_PROCESSES D)).
  { destruct (SetIdList c ProcessIdList _ _ _ _) as [[c1 tr1]|] eqn:E;
      simpl; [|discriminate].
    intros H. injection H as <- <-. now apply (Hids ProcessIdList). }
  destruct (Z.eqb_spec (IoControlCode irp) (IOCTL_KPH_MARK_RESTART D)).
  { intros H. injection H as <- <-. exact Hmark. }
  destruct (Z.eqb_spec (IoControlCode irp) (IOCTL_KPH_SET_SNAP_LENGTH D)).
  { unfold deref_buffer.
    destruct (request_buffer irp s) as [buffer|] eqn:Eb; simpl;
      [|discriminate].
    destruct (Z.eqb_spec (SnapLength c) (load_u32 buffer 0)); simpl;
      intros H; injection H as <- <-.
    - apply Hsame.
    - now apply Hset. }
  destruct (Z.eqb_spec (IoControlCode irp) (IOCTL_KPH_GET_SNAP_LENGTH D)).
  { destruct (deref_buffer irp s) as [buffer|]; simpl; [|discriminate].
    intros H. injection H as <- <-. apply Hget. }
  destruct (Z.eqb_spec (IoControlCode irp) (IOCTL_KPH_SET_DATA_EVENT_32 D)).
  { destruct (deref_buffer irp s) as [buffer|]; simpl; [|discriminate].
    intros H. injection H as <- <-. apply Hevent. }
  destruct (Z.eqb_spec (IoControlCode irp) (IOCTL_KPH_SET_DATA_EVENT_64 D)).
  { destruct (X86 D); [intros H; injection H as <- <-; apply Hsame|].
    destruct (deref_buffer irp s) as [buffer|]; simpl; [|discriminate].
    intros H. injection H as <- <-. apply Hevent. }
  destruct (Z.eqb_spec (IoControlCode irp) (IOCTL_KPH_SET_OPEN_CONNECTIONS D)).
  { intros H. injection H as <- <-. exact Hopen. }
  destruct (Z.eqb_spec (IoControlCode irp) (IOCTL_KPH_GET_STATISTICS D)).
  { unfold deref_buffer, request_buffer.
    destruct (HasSystemBuffer irp); simpl; [|discriminate].
    intros H. injection H as <- <-. apply Hstat. }
  intros H. injection H as <- <-. apply Hsame.
Qed.

End ControlCases.

(** ** Every request leaves the reader well formed *)

Lemma le_decode_bytes : forall bs,
  byte_list bs -> is_u32 (le_decode (firstn 4 bs)).
Proof.
  intros bs H. unfold is_u32, byte_list in *.
  destruct bs as [|a [|b [|c [|d rest]]]]; cbn [le_decode firstn];
    repeat match goal with
           | H : Forall _ (_ :: _) |- _ => inversion H; subst; clear H
           end; lia.
Qed.

Lemma load_u32_bytes : forall l off, byte_list l -> is_u32 (load_u32 l off).
Proof.
  intros l off H. unfold load_u32, slice.
  apply le_decode_bytes. unfold byte_list in *.
  rewrite <- (firstn_skipn (Z.to_nat off) l) in H.
  apply Forall_app in H. apply H.
Qed.

Section Invariant.

Variable D : Declarations.
Variable Q : QueueManager.
Hypothesis layout : layout_ok D.
Hypothesis padding : padding_ok D.

Lemma DispatchRead_fields_typed : forall fuel irp s r s' c c',
  is_u32 (ReadLength irp) ->
  FsContext2 s = Some c -> typed_context Q c ->
  DispatchRead D Q fuel irp s = Some (r, s') ->
  FsContext2 s' = Some c' ->
  fields_typed c'.
Proof.
  intros fuel irp s r s' c c' Hlen Hc (T1 & T2 & T3 & T4 & T5 & T6) Hd Hc'.
  apply DispatchRead_inv in Hd.
  destruct Hd as [(-> & -> & _) | (_ & c0 & Hc0 & Hd)].
  { rewrite Hc in Hc'. injection Hc' as <-. unfold fields_typed. auto. }
  rewrite Hc in Hc0. injection Hc0 as <-.
  destruct Hd as [(_ & _ & ->) | (c1 & tr & ls & Hchk & Hloop & _ & ->)].
  { simpl in Hc'. injection Hc' as <-. unfold fields_typed. simpl. auto. }
  simpl in Hc'. injection Hc' as <-.
  assert (Ht : loop_typed (ReadLength irp)
                 {| context := c1; mem := Mem s; trace := tr;
                    blockNode := CurrentBlock c1;
                    blockOffset := CurrentBlockOffset c1; readOffset := 0 |}).
  { unfold entry_queue in T5.
    apply check_restart_state_inr in Hchk.
    destruct Hchk as [(Est & -> & _) | (Est & -> & _)]; rewrite Est in T5;
      apply loop_typed_intro; simpl; auto; unfold is_u32 in Hlen; lia. }
  pose proof (read_loop_typed D (proj1 layout) (ReadLength irp) fuel _ ls
                Hlen Ht Hloop) as (L1 & L2 & L3 & L4 & L5 & _).
  unfold fields_typed. simpl. auto.
Qed.

(** X4.  Whatever request is served on a well-formed reader whose queue
    manager puts well-formed initial blocks into the queue, the read
    that fetches the initial blocks included, the reader is well formed
    afterwards: its snap-length padding agrees with its snap length, the
    held block, the cursor and the overlay offsets are consistent, the
    queue holds well-formed blocks and every field is in the range of
    its C type; and the initial blocks are still well formed.  So the
    guarantees of reads hold after any sequence of reads and control
    requests. *)
Theorem serve_keeps_reader_ready :
  forall req s r s' c,
    FsContext2 s = Some c -> reader_ready D c (Mem s) ->
    initial_blocks_ok D Q (Mem s) ->
    request_ok req ->
    serve D Q req s r s' ->
    exists c',
      FsContext2 s' = Some c' /\ reader_ready D c' (Mem s') /\
      initial_blocks_ok D Q (Mem s').
Proof.
  intros req s r s' c Hc Hready Hi Hreq Hs.
  assert (Hi' : initial_blocks_ok D Q (Mem s'))
    by exact (initial_blocks_ok_served D Q req s r s' Hs Hi).
  cut (exists c', FsContext2 s' = Some c' /\ reader_ready D c' (Mem s')).
  { intros (c' & H1 & H2). exists c'. auto. }
  clear Hi'.
  inversion Hs as [fuel irp buffer s0 r0 s0' Hd | irp buffer s0 r0 s0' Hd];
    subst; simpl in Hreq.
  - destruct (serve_read_delivers D Q layout padding
                irp buffer s r s' c Hreq Hc (fun _ => Hi) (proj1 Hready) Hs)
      as (c' & Hc' & Hok' & _).
    exists c'. split; [exact Hc'|]. split; [exact Hok'|].
    apply (DispatchRead_fields_typed fuel irp (with_buffer s buffer) r s' c c');
      auto.
    + apply Hreq.
    + apply (reader_ready_typed_context D Q c (Mem s) (fun _ => Hi) Hready).
  - set (s1 := with_buffer s buffer) in *.
    assert (Hc1 : FsContext2 s1 = Some c) by exact Hc.
    assert (Hm1 : Mem s1 SystemBuffer = buffer)
      by (subst s1; simpl; apply mem_set_same).
    assert (Hok1 : reader_ok D c (Mem s1)).
    { apply (reader_ok_agrees D c (Mem s)); [|apply Hready].
      apply buffer_agrees. }
    destruct Hready as (_ & Hty).
    assert (Hframe : forall m, agrees (Mem s1) m -> reader_ok D c m)
      by (intros m Hm; now apply (reader_ok_agrees D c (Mem s1))).
    revert Hd.
    apply (DispatchDeviceControl_cases D Q irp s1 c
             (fun x => exists c', FsContext2 (snd x) = Some c' /\
                                  reader_ready D c' (Mem (snd x))) Hc1).
    + intros status. exists c. split; [exact Hc1 | split; assumption].
    + intros ty c1 tr1 E. apply SetIdList_context in E. destruct E as [ids ->].
      eexists. split; [reflexivity|]. simpl.
      destruct ty; split; assumption.
    + eexists. split; [reflexivity|]. simpl. split; assumption.
    + intros buf Hbuf v Hne. eexists. split; [reflexivity|]. simpl.
      split; [|exact Hty].
      destruct Hok1 as (_ & K2 & K3 & K4).
      split; [|split; [exact K2|split; [exact K3 | exact K4]]].
      split; simpl; [|reflexivity].
      subst v. apply load_u32_bytes.
      unfold request_buffer in Hbuf.
      destruct (HasSystemBuffer irp); [|discriminate].
      injection Hbuf as <-. rewrite <- Hm1 in Hreq. exact Hreq.
    + intros n. exists c. split; [exact Hc1|]. simpl.
      split; [|exact Hty]. apply Hframe.
      intros x Hx. now apply store_field_frame.
    + intros h. exists c. split; [exact Hc1 | split; assumption].
    + exists c. split; [exact Hc1 | split; assumption].
    + intros n. exists c. split; [exact Hc1|]. simpl.
      split; [|exact Hty]. apply Hframe. apply buffer_agrees.
Qed.

End Invariant.

Lemma serve_keeps_reader_ready_witness :
  let D := example_declarations in
  let Q := example_restart_manager in
  let s := example_machine RestartStateInit 0 [example_packet_block] in
  let irp := read_irp 6 in
  let done := read_result D Q irp (zeros 6) s in
  exists c',
    FsContext2 (snd done) = Some c' /\ reader_ready D c' (Mem (snd done)) /\
    initial_blocks_ok D Q (Mem (snd done)).
Proof.
  intros D Q s irp done.
  apply (serve_keeps_reader_ready D Q example_layout_ok example_padding_ok
           (ReadRequest irp (zeros 6)) s (fst done) (snd done)
           (example_context RestartStateInit 0 [example_packet_block])).
  - reflexivity.
  - apply example_reader_ready.
    apply Forall_cons; [exact example_packet_block_wf | apply Forall_nil].
  - exact example_restart_manager_ok.
  - by_evaluation.
  - apply serve_read with (fuel := read_fuel Q s). vm_compute. reflexivity.
Defined.

(** ** What a control request leaves alone *)

Lemma SetIdList_trace : forall c ty buffer bufferLen pool tr c1 tr1,
  SetIdList c ty buffer bufferLen pool tr = Done (c1, tr1) ->
  exists more,
    tr1 = tr ++ more /\ Forall (fun e => block_call e = false) more.
Proof.
  intros c ty buffer bufferLen pool tr c1 tr1. unfold SetIdList.
  destruct (negb _).
  - destruct pool; [|discriminate].
    destruct buffer as [newIds|]; [|discriminate]. simpl.
    destruct (id_list_target ty c); intros H; injection H as _ <-;
      rewrite <- ?app_assoc; eexists; (split; [reflexivity|]);
      repeat constructor.
  - simpl.
    destruct (id_list_target ty c); intros H; injection H as _ <-;
      rewrite <- ?app_assoc; eexists; (split; [reflexivity|]);
      repeat constructor.
Qed.

Lemma pending_same_cursor : forall D c c' m m',
  same_cursor c c' -> agrees m m' ->
  pending D c' m' = pending D c m.
Proof.
  intros D c c' m m' (_ & _ & E1 & E2 & E3 & E4 & E5) Hm.
  rewrite (pending_agrees D c' m m' Hm).
  unfold pending, current_view, view_offset, overlay_view, overlay_offset.
  now rewrite E1, E2, E3, E4, E5.
Qed.

(** X5.  A control request never fetches, dequeues or releases a block, never
    changes the restart state, the queue, the held block, the cursor or
    the overlay offsets, and writes no memory but the request buffer.
    The bytes still to be delivered from the held block are therefore
    the same after it: a new snap length or filter applies from the next
    block dequeued. *)
Theorem control_request_keeps_delivery :
  forall D Q irp buffer s r s' c,
    FsContext2 s = Some c ->
    serve D Q (ControlRequest irp buffer) s r s' ->
    exists c' more,
      FsContext2 s' = Some c' /\
      same_cursor c c' /\
      (forall x, x <> SystemBuffer -> Mem s' x = Mem s x) /\
      pending D c' (Mem s') = pending D c (Mem s) /\
      Trace s' = Trace s ++ more /\
      Forall (fun e => block_call e = false) more.
Proof.
  intros D Q irp buffer s r s' c Hc Hs.
  inversion Hs as [|irp0 buffer0 s0 r0 s0' Hd]; subst.
  set (s1 := with_buffer s buffer) in *.
  assert (Hc1 : FsContext2 s1 = Some c) by exact Hc.
  assert (Hm1 : agrees (Mem s) (Mem s1)) by apply buffer_agrees.
  assert (Hgoal : exists c' more,
            FsContext2 s' = Some c' /\ same_cursor c c' /\
            agrees (Mem s) (Mem s') /\
            Trace s' = Trace s ++ more /\
            Forall (fun e => block_call e = false) more).
  { revert Hd.
    apply (DispatchDeviceControl_cases D Q irp s1 c
             (fun x => exists c' more,
                FsContext2 (snd x) = Some c' /\ same_cursor c c' /\
                agrees (Mem s) (Mem (snd x)) /\
                Trace (snd x) = Trace s ++ more /\
                Forall (fun e => block_call e = false) more) Hc1).
    - intros status. exists c, []. simpl. rewrite app_nil_r.
      unfold same_cursor. auto 10.
    - intros ty c1 tr1 E.
      destruct (SetIdList_trace _ _ _ _ _ _ _ _ E) as (more & -> & Hmore).
      apply SetIdList_context in E. destruct E as [ids ->].
      exists (set_id_list_target ty ids c), more. simpl.
      split; [reflexivity|].
      split; [apply same_cursor_set_id_list|]. auto.
    - eexists. exists []. simpl. rewrite app_nil_r.
      split; [reflexivity|]. unfold same_cursor. simpl. auto 10.
    - intros buf _ v _. eexists. eexists. simpl.
      split; [reflexivity|].
      split; [unfold same_cursor; simpl; auto 10|].
      split; [exact Hm1|].
      split; [reflexivity|]. repeat constructor.
    - intros n. exists c, []. simpl. rewrite app_nil_r.
      split; [exact Hc1|].
      split; [unfold same_cursor; auto 10|].
      split; [|auto].
      intros x Hx. rewrite store_field_frame by congruence. now apply Hm1.
    - intros h. exists c. eexists. simpl.
      split; [exact Hc1|].
      split; [unfold same_cursor; auto 10|].
      split; [exact Hm1|].
      split; [reflexivity|]. repeat constructor.
    - exists c. eexists. simpl.
      split; [exact Hc1|].
      split; [unfold same_cursor; auto 10|].
      split; [exact Hm1|].
      split; [reflexivity|]. repeat constructor.
    - intros n. exists c. eexists. simpl.
      split; [exact Hc1|].
      split; [unfold same_cursor; auto 10|].
      split.
      + intros x Hx. rewrite mem_set_other by congruence. now apply Hm1.
      + split; [reflexivity|]. repeat constructor. }
  destruct Hgoal as (c' & more & H1 & H2 & H3 & H4 & H5).
  exists c', more. split; [exact H1|]. split; [exact H2|].
  split; [exact H3|]. split; [|auto].
  now apply pending_same_cursor.
Qed.

Lemma control_request_keeps_delivery_witness :
  let D := example_declarations in
  let Q := example_queue_manager in
  let s := machine_of example_held_context example_memory in
  let irp := control_irp (IOCTL_KPH_SET_SNAP_LENGTH D) 4 0 true in
  let done := control_result D Q irp (bytes_of_u32 1) s in
  exists c' more,
    FsContext2 (snd done) = Some c' /\
    same_cursor example_held_context c' /\
    (forall x, x <> SystemBuffer -> Mem (snd done) x = Mem s x) /\
    pending D c' (Mem (snd done)) = pending D example_held_context (Mem s) /\
    Trace (snd done) = Trace s ++ more /\
    Forall (fun e => block_call e = false) more.
Proof.
  intros D Q s irp done.
  apply (control_request_keeps_delivery D Q irp (bytes_of_u32 1) s
           (fst done) (snd done) example_held_context).
  - reflexivity.
  - apply serve_control. vm_compute. reflexivity.
Defined.

(** ** Setting the snap length *)

(** X6.  A SetSnapLength request that succeeds with the value the reader
    already has changes nothing and calls nothing.  With another value
    it stores the value, recomputes the padding from it and tells the
    queue manager once; nothing else changes. *)
Theorem SetSnapLength_announces_changes_only :
  forall D Q irp s r s' c,
    NoDup (known_codes D) ->
    IoControlCode irp = IOCTL_KPH_SET_SNAP_LENGTH D ->
    FsContext2 s = Some c ->
    DispatchDeviceControl D Q irp s = Done (r, s') ->
    Status r = STATUS_SUCCESS ->
    let v := load_u32 (Mem s SystemBuffer) 0 in
    (v = SnapLength c -> s' = s) /\
    (v <> SnapLength c ->
     s' = log (EvQmSetReaderSnapLength v)
            (with_context s
               (set_SnapLength v (sub32 (PCAP_NG_PADDING D v) v) c))).
Proof.
  intros D Q irp s r s' c Hnd Hcode Hc H Hok v.
  destruct (known_codes_distinct_set D _ Hnd Hcode) as (N1 & N2 & N3).
  unfold DispatchDeviceControl in H. rewrite Hc in H.
  destruct (_ >? _); [injection H as <- _; discriminate|].
  destruct (nth_error _ _) as [params|]; [|discriminate].
  destruct (_ || _); [injection H as <- _; discriminate|].
  destruct (_ && _); [injection H as <- _; discriminate|].
  unfold ioctl_switch in H.
  apply Z.eqb_neq in N1, N2, N3. rewrite N1, N2, N3 in H.
  rewrite Hcode, Z.eqb_refl in H.
  unfold deref_buffer, request_buffer in H.
  destruct (HasSystemBuffer irp); [|discriminate]. simpl in H.
  fold v in H.
  destruct (Z.eqb_spec (SnapLength c) v) as [E|E]; simpl in H;
    injection H as _ <-.
  - split; [reflexivity | congruence].
  - split; [congruence | reflexivity].
Qed.

Lemma SetSnapLength_announces_changes_only_witness :
  let D := example_declarations in
  let Q := example_queue_manager in
  let s := with_buffer (machine_of example_held_context example_memory)
             (bytes_of_u32 96) in
  let v := load_u32 (Mem s SystemBuffer) 0 in
  let s' := log (EvQmSetReaderSnapLength 96)
              (with_context s
                 (set_SnapLength 96 (sub32 (PCAP_NG_PADDING D 96) 96)
                    example_held_context)) in
  (v = SnapLength example_held_context -> s' = s) /\
  (v <> SnapLength example_held_context ->
   s' = log (EvQmSetReaderSnapLength v)
          (with_context s
             (set_SnapLength v (sub32 (PCAP_NG_PADDING D v) v)
                example_held_context))).
Proof.
  intros D Q s.
  apply (SetSnapLength_announces_changes_only D Q
           (control_irp (IOCTL_KPH_SET_SNAP_LENGTH D) 4 0 true) s
           (CompleteIrp STATUS_SUCCESS 0)
           (log (EvQmSetReaderSnapLength 96)
              (with_context s
                 (set_SnapLength 96 (sub32 (PCAP_NG_PADDING D 96) 96)
                    example_held_context)))
           example_held_context).
  - exact example_codes_distinct.
  - reflexivity.
  - reflexivity.
  - reflexivity.
  - reflexivity.
Defined.

(** * Ownership of capture blocks during a read *)

Lemma dequeued_app : forall a b, dequeued_blocks (a ++ b) = dequeued_blocks a ++ dequeued_blocks b.
Proof. intros. apply flat_map_app. Qed.

Lemma released_app : forall a b, released_blocks (a ++ b) = released_blocks a ++ released_blocks b.
Proof. intros. apply flat_map_app. Qed.

Lemma blocks_accounted_refl : forall held queue,
  blocks_accounted held held queue queue [].
Proof.
  intros. unfold blocks_accounted. simpl. rewrite app_nil_r. auto.
Qed.

Lemma blocks_accounted_trans : forall h0 h1 h2 q0 q1 q2 m1 m2,
  blocks_accounted h0 h1 q0 q1 m1 ->
  blocks_accounted h1 h2 q1 q2 m2 ->
  blocks_accounted h0 h2 q0 q2 (m1 ++ m2).
Proof.
  intros h0 h1 h2 q0 q1 q2 m1 m2 (A1 & A2 & A3) (B1 & B2 & B3).
  unfold blocks_accounted. rewrite dequeued_app, released_app.
  split; [|split].
  - rewrite app_assoc, A1, <- app_assoc, B1, app_assoc. reflexivity.
  - rewrite A2, B2, app_assoc. reflexivity.
  - apply Forall_app. auto.
Qed.

Lemma checks_hold_no_block : forall kp kc,
  let checks := map EvCheckProcessFilter (indices 1 kp)
                  ++ map EvCheckConnectionFilter (indices 1 kc) in
  dequeued_blocks checks = [] /\ released_blocks checks = [] /\
  Forall (fun e => read_call e = true) checks.
Proof.
  intros kp kc checks. subst checks.
  assert (H : forall (f : Z -> event) l,
            (forall i, dequeued_by (f i) = []) ->
            (forall i, released_by (f i) = []) ->
            (forall i, read_call (f i) = true) ->
            dequeued_blocks (map f l) = [] /\ released_blocks (map f l) = [] /\
            Forall (fun e => read_call e = true) (map f l)).
  { intros f l H1 H2 H3. induction l as [|i l (I1 & I2 & I3)]; simpl.
    - auto.
    - rewrite H1, H2. simpl. auto. }
  destruct (H EvCheckProcessFilter (indices 1 kp)) as (P1 & P2 & P3); auto.
  destruct (H EvCheckConnectionFilter (indices 1 kc)) as (C1 & C2 & C3);
    auto.
  rewrite dequeued_app, released_app, P1, P2, C1, C2.
  split; [reflexivity|]. split; [reflexivity|]. apply Forall_app. auto.
Qed.

Section Ownership.

Variable D : Declarations.

Lemma serve_block_blocks : forall readLength b s,
  blockNode s = Some b ->
  let s1 := serve_block D readLength b s in
  exists more,
    trace s1 = trace s ++ more /\
    blocks_accounted (blockNode s) (blockNode s1)
      (Reader (context s)) (Reader (context s1)) more.
Proof.
  intros readLength b s Hb s1. subst s1. rewrite Hb.
  unfold serve_block. destruct (_ <=? _); simpl.
  - exists [EvQmCleanupBlock b]. split; [reflexivity|].
    unfold blocks_accounted. simpl. auto.
  - exists []. split; [now rewrite app_nil_r|].
    apply blocks_accounted_refl.
Qed.

Lemma trim_block_Reader : forall c m b,
  Reader (fst (trim_block D c m b)) = Reader c.
Proof.
  intros c m b. destruct (trim_block_context D c m b) as (de & mf & og & H).
  destruct H as [-> | (-> & _)]; reflexivity.
Qed.

Lemma loop_body_blocks : forall readLength s,
  let s1 := exit_state (loop_body D readLength s) in
  exists more,
    trace s1 = trace s ++ more /\
    blocks_accounted (blockNode s) (blockNode s1)
      (Reader (context s)) (Reader (context s1)) more.
Proof.
  intros readLength s. unfold loop_body.
  destruct (blockNode s) as [b|] eqn:Eb.
  { simpl. rewrite <- Eb. apply serve_block_blocks. exact Eb. }
  apply next_block_cases.
  - intros _. exists []. simpl. split; [now rewrite app_nil_r|].
    apply blocks_accounted_refl.
  - intros _ He. exists [EvQmDequeueBlock None]. simpl.
    split; [reflexivity|]. rewrite He.
    unfold blocks_accounted. simpl. auto.
  - intros b rest tr2 _ Hq _ Hf.
    destruct (filter_block_checks (set_Reader rest (context s)) b
                (trace s ++ [EvQmDequeueBlock (Some b)]))
      as (kp & kc & Hfb & _).
    rewrite Hf in Hfb. injection Hfb as _ ->.
    destruct (checks_hold_no_block kp kc) as (K1 & K2 & K3).
    exists ([EvQmDequeueBlock (Some b)]
              ++ (map EvCheckProcessFilter (indices 1 kp)
                    ++ map EvCheckConnectionFilter (indices 1 kc))
              ++ [EvQmCleanupBlock b]).
    simpl. split.
    + rewrite <- !app_assoc. reflexivity.
    + rewrite Hq. unfold blocks_accounted.
      change (EvQmDequeueBlock (Some b)
                :: (map EvCheckProcessFilter (indices 1 kp)
                      ++ map EvCheckConnectionFilter (indices 1 kc))
                     ++ [EvQmCleanupBlock b])
        with ([EvQmDequeueBlock (Some b)]
                ++ (map EvCheckProcessFilter (indices 1 kp)
                      ++ map EvCheckConnectionFilter (indices 1 kc))
                ++ [EvQmCleanupBlock b]).
      cbv zeta in K1, K2, K3.
      set (checks := map EvCheckProcessFilter (indices 1 kp)
                       ++ map EvCheckConnectionFilter (indices 1 kc)) in *.
      rewrite !dequeued_app, !released_app, K1, K2. simpl.
      split; [reflexivity|]. split; [reflexivity|].
      constructor; [reflexivity|]. apply Forall_app. split; [exact K3|].
      repeat constructor.
  - intros b rest tr2 c2 m2 _ Hq _ Hf Ht.
    destruct (filter_block_checks (set_Reader rest (context s)) b
                (trace s ++ [EvQmDequeueBlock (Some b)]))
      as (kp & kc & Hfb & _).
    rewrite Hf in Hfb. injection Hfb as _ ->.
    destruct (checks_hold_no_block kp kc) as (K1 & K2 & K3).
    match goal with
    | |- context [serve_block D readLength b ?mid] =>
      destruct (serve_block_blocks readLength b mid eq_refl)
        as (more & Htr & Hacc)
    end.
    simpl in *.
    exists ((EvQmDequeueBlock (Some b)
               :: map EvCheckProcessFilter (indices 1 kp)
                    ++ map EvCheckConnectionFilter (indices 1 kc)) ++ more).
    split.
    + rewrite Htr. simpl. rewrite <- !app_assoc. reflexivity.
    + assert (Hr : Reader c2 = rest).
      { pose proof (trim_block_Reader (set_Reader rest (context s))
                      (store_field (mem s) ModifiedHeader
                         (offsetof_HEADER_BlockType D) 0) b) as E.
        rewrite Ht in E. exact E. }
      rewrite Hr in Hacc. rewrite Hq.
      apply (blocks_accounted_trans None (Some b) _ (b :: rest) rest _
               (EvQmDequeueBlock (Some b)
                  :: map EvCheckProcessFilter (indices 1 kp)
                       ++ map EvCheckConnectionFilter (indices 1 kc)) more);
        [|exact Hacc].
      unfold blocks_accounted.
      change (EvQmDequeueBlock (Some b)
                :: map EvCheckProcessFilter (indices 1 kp)
                     ++ map EvCheckConnectionFilter (indices 1 kc))
        with ([EvQmDequeueBlock (Some b)]
                ++ (map EvCheckProcessFilter (indices 1 kp)
                      ++ map EvCheckConnectionFilter (indices 1 kc))).
      cbv zeta in K1, K2, K3.
      set (checks := map EvCheckProcessFilter (indices 1 kp)
                       ++ map EvCheckConnectionFilter (indices 1 kc)) in *.
      rewrite dequeued_app, released_app, K1, K2. simpl.
      split; [reflexivity|]. split; [reflexivity|].
      constructor; [reflexivity | exact K3].
  - intros b rest _ Hq _.
    match goal with
    | |- context [serve_block D readLength b ?mid] =>
      destruct (serve_block_blocks readLength b mid eq_refl)
        as (more & Htr & Hacc)
    end.
    simpl in *. exists ([EvQmDequeueBlock (Some b)] ++ more). split.
    + rewrite Htr, <- !app_assoc. reflexivity.
    + rewrite Hq.
      apply (blocks_accounted_trans None (Some b) _ (b :: rest) rest _
               [EvQmDequeueBlock (Some b)] more); [|exact Hacc].
      unfold blocks_accounted. simpl. auto.
Qed.

Lemma read_loop_blocks : forall fuel readLength s s',
  read_loop D fuel readLength s = Some s' ->
  exists more,
    trace s' = trace s ++ more /\
    blocks_accounted (blockNode s) (blockNode s')
      (Reader (context s)) (Reader (context s')) more.
Proof.
  induction fuel as [|fuel IH]; intros readLength s s' H; simpl in H.
  - destruct (readOffset s <? readLength); [discriminate|].
    injection H as <-. exists []. split; [now rewrite app_nil_r|].
    apply blocks_accounted_refl.
  - destruct (readOffset s <? readLength).
    + destruct (loop_body_blocks readLength s) as (m1 & T1 & A1).
      destruct (loop_body D readLength s) as [s1|s1]; simpl in T1, A1.
      * destruct (IH _ _ _ H) as (m2 & T2 & A2).
        exists (m1 ++ m2). split; [rewrite T2, T1, app_assoc; reflexivity|].
        eapply blocks_accounted_trans; eassumption.
      * injection H as <-. exists m1. auto.
    + injection H as <-. exists []. split; [now rewrite app_nil_r|].
      apply blocks_accounted_refl.
Qed.

End Ownership.

(** The blocks a read takes and gives back. *)
Lemma serve_read_blocks :
  forall D Q irp buffer s r s' c,
    FsContext2 s = Some c ->
    serve D Q (ReadRequest irp buffer) s r s' ->
    exists c' more,
      FsContext2 s' = Some c' /\
      Trace s' = Trace s ++ more /\
      held_block (CurrentBlock c) ++ dequeued_blocks more
      = released_blocks more ++ held_block (CurrentBlock c') /\
      Forall (fun e => read_call e = true) more /\
      (HasSystemBuffer irp = true ->
       entry_queue Q c = dequeued_blocks more ++ Reader c').
Proof.
  intros D Q irp buffer s r s' c Hc Hs.
  inversion Hs as [fuel irp0 buffer0 s0 r0 s0' Hd|]; subst.
  apply DispatchRead_inv in Hd.
  destruct Hd as [(_ & -> & [Hb | Hn]) | (_ & c0 & Hc0 & Hd)].
  - exists c, []. simpl. rewrite !app_nil_r.
    repeat (split; [auto|]). intros N. congruence.
  - simpl in Hn. congruence.
  - simpl in Hc0. rewrite Hc in Hc0. injection Hc0 as <-.
    destruct Hd as [(Est & _ & ->) | (c1 & tr & ls & Hchk & Hloop & _ & ->)].
    + eexists. exists []. simpl. rewrite !app_nil_r.
      split; [reflexivity|]. split; [reflexivity|]. split; [reflexivity|].
      split; [constructor|]. intros _. unfold entry_queue. now rewrite Est.
    + destruct (read_loop_blocks D fuel (ReadLength irp) _ ls Hloop)
        as (more & Htr & A1 & A2 & A3).
      simpl in Htr, A1, A2.
      apply check_restart_state_inr in Hchk.
      destruct Hchk as [(Est & -> & ->) | (Est & -> & ->)]; simpl in *.
      * exists (set_CurrentBlock (blockNode ls) (blockOffset ls) (context ls)),
               ([EvQmGetInitialBlocks] ++ more).
        simpl. split; [reflexivity|].
        split; [rewrite Htr, <- app_assoc; reflexivity|].
        split; [exact A1|].
        split; [constructor; [reflexivity | exact A3]|].
        intros _. unfold entry_queue. rewrite Est. exact A2.
      * exists (set_CurrentBlock (blockNode ls) (blockOffset ls) (context ls)),
               more.
        simpl. split; [reflexivity|]. split; [exact Htr|].
        split; [exact A1|]. split; [exact A3|].
        intros _. unfold entry_queue. rewrite Est. exact A2.
Qed.

(** X7.  A read hands back every block it stops holding.  The blocks the
    reader held before the read or dequeued during it are, in the same
    order, the blocks the read released by [QmCleanupBlock] followed by
    the block it still holds: no block is released twice, none is
    dropped, and at most the last one stays with the reader.  The blocks
    are taken from the front of the queue the read works on, and the read
    makes no call but fetching the initial blocks, dequeuing, releasing
    and comparing filter entries. *)
Theorem read_accounts_for_every_block :
  forall D Q irp buffer s r s' c,
    FsContext2 s = Some c ->
    serve D Q (ReadRequest irp buffer) s r s' ->
    exists c' more,
      FsContext2 s' = Some c' /\
      Trace s' = Trace s ++ more /\
      held_block (CurrentBlock c) ++ dequeued_blocks more
      = released_blocks more ++ held_block (CurrentBlock c') /\
      Forall (fun e => read_call e = true) more /\
      (HasSystemBuffer irp = true ->
       entry_queue Q c = dequeued_blocks more ++ Reader c').
Proof. exact serve_read_blocks. Qed.

Lemma read_accounts_for_every_block_witness :
  let D := example_declarations in
  let Q := example_queue_manager in
  let s := example_machine RestartStateInit 0
             [example_packet_block; example_other_block] in
  let c := example_context RestartStateInit 0
             [example_packet_block; example_other_block] in
  let irp := read_irp 38 in
  let done := read_result D Q irp (zeros 38) s in
  exists c' more,
    FsContext2 (snd done) = Some c' /\
    Trace (snd done) = Trace s ++ more /\
    held_block (CurrentBlock c) ++ dequeued_blocks more
    = released_blocks more ++ held_block (CurrentBlock c') /\
    Forall (fun e => read_call e = true) more /\
    (HasSystemBuffer irp = true ->
     entry_queue Q c = dequeued_blocks more ++ Reader c').
Proof.
  intros D Q s c irp done.
  apply (read_accounts_for_every_block D Q irp (zeros 38) s (fst done)
           (snd done) c).
  - reflexivity.
  - apply serve_read with (fuel := read_fuel Q s). vm_compute. reflexivity.
Defined.

(** * What a read writes *)

Section ReadWrites.

Variable D : Declarations.
Variable Q : QueueManager.
Hypothesis layout : layout_ok D.
Hypothesis padding : padding_ok D.

Lemma DispatchRead_buffer : forall fuel irp s r s' c,
  HasSystemBuffer irp = true ->
  is_u32 (ReadLength irp) ->
  ReadLength irp <= Z.of_nat (length (Mem s SystemBuffer)) ->
  FsContext2 s = Some c ->
  initial_blocks_ok D Q (Mem s) ->
  reader_ok D c (Mem s) ->
  DispatchRead D Q fuel irp s = Some (r, s') ->
  Mem s' SystemBuffer
  = write_bytes (Mem s SystemBuffer) 0 (returned r s').
Proof.
  intros fuel irp s r s' c Hbuf Hlen Hsize Hc Hi Hok Hd.
  apply DispatchRead_inv in Hd.
  destruct Hd as [(_ & _ & [N | N]) | (_ & c0 & Hc0 & Hd)]; try congruence.
  rewrite Hc in Hc0. injection Hc0 as <-.
  destruct Hd as [(Est & -> & ->) | (c1 & tr & ls & Hchk & Hloop & -> & ->)].
  - unfold returned. simpl. now rewrite write_bytes_nil.
  - destruct (after_switch D Q c (Trace s) c1 tr (Mem s) Hchk)
      as (_ & _ & _ & _ & _ & Hok1 & _).
    specialize (Hok1 (fun _ => Hi) Hok).
    set (s0 := {| context := c1; mem := Mem s; trace := tr;
                  blockNode := CurrentBlock c1;
                  blockOffset := CurrentBlockOffset c1;
                  readOffset := 0 |}) in *.
    assert (Hok0 : loop_ok D (ReadLength irp) s0).
    { split; [exact Hok1|]. simpl. unfold is_u32 in Hlen. lia. }
    destruct (read_loop_delivers D (ReadLength irp) Hlen layout padding
                fuel s0 ls Hok0 Hloop)
      as (_ & _ & _ & d & B & R & _).
    simpl in B, R. unfold returned. simpl. rewrite B, R, Nat2Z.id.
    change (length d) with (Z.to_nat 0 + length d)%nat at 1.
    rewrite firstn_write_bytes by lia. reflexivity.
Qed.

(** X8.  A read on a well-formed reader whose queue manager puts
    well-formed initial blocks into the queue, in any restart state,
    writes the bytes it returns at the start of the request buffer and
    nothing else of it: the buffer keeps its length and, past the byte
    count the read reports, its contents; the count never exceeds the
    requested length. *)
Theorem read_writes_only_what_it_returns :
  forall irp buffer s r s' c,
    read_request_ok (irp, buffer) ->
    FsContext2 s = Some c ->
    reader_ok D c (Mem s) ->
    initial_blocks_ok D Q (Mem s) ->
    serve D Q (ReadRequest irp buffer) s r s' ->
    0 <= Information r <= ReadLength irp /\
    Mem s' SystemBuffer
    = returned r s' ++ skipn (Z.to_nat (Information r)) buffer /\
    length (Mem s' SystemBuffer) = length buffer.
Proof.
  intros irp buffer s r s' c Hreq Hc Hok Hi Hs.
  destruct (serve_read_delivers D Q layout padding
              irp buffer s r s' c Hreq Hc (fun _ => Hi) Hok Hs)
    as (c' & _ & _ & _ & Hinfo & _ & _ & Hlen).
  destruct Hreq as (Hbuf & Hty & Hsize). simpl in Hbuf, Hty, Hsize.
  inversion Hs as [fuel irp0 buffer0 s0 r0 s0' Hd|]; subst.
  assert (Hm : Mem (with_buffer s buffer) SystemBuffer = buffer)
    by (simpl; apply mem_set_same).
  assert (Hw : Mem s' SystemBuffer = write_bytes buffer 0 (returned r s')).
  { rewrite <- Hm.
    apply (DispatchRead_buffer fuel irp (with_buffer s buffer) r s' c);
      auto.
    - apply (initial_blocks_ok_storage D Q (Mem s)); [|exact Hi].
      apply agrees_storage, buffer_agrees.
    - apply (reader_ok_agrees D c (Mem s));
        [apply buffer_agrees | exact Hok]. }
  split; [exact Hinfo|]. split.
  - rewrite Hw. unfold write_bytes. simpl. rewrite <- Hlen, Nat2Z.id.
    reflexivity.
  - rewrite Hw. apply write_bytes_length; lia.
Qed.

End ReadWrites.

Lemma read_writes_only_what_it_returns_witness :
  let D := example_declarations in
  let Q := example_restart_manager in
  let s := example_machine RestartStateInit 0 [example_other_block] in
  let c := example_context RestartStateInit 0 [example_other_block] in
  let irp := read_irp 6 in
  let buffer := [1; 2; 3; 4; 5; 6; 7; 8] in
  let done := read_result D Q irp buffer s in
  0 <= Information (fst done) <= ReadLength irp /\
  Mem (snd done) SystemBuffer
  = returned (fst done) (snd done)
      ++ skipn (Z.to_nat (Information (fst done))) buffer /\
  length (Mem (snd done) SystemBuffer) = length buffer.
Proof.
  intros D Q s c irp buffer done.
  apply (read_writes_only_what_it_returns D Q example_layout_ok
           example_padding_ok irp buffer s (fst done) (snd done) c).
  - by_evaluation.
  - reflexivity.
  - apply example_reader_ready.
    apply Forall_cons; [exact example_other_block_wf | apply Forall_nil].
  - exact example_restart_manager_ok.
  - apply serve_read with (fuel := read_fuel Q s). vm_compute. reflexivity.
Defined.

(** * Blocks that are not truncated *)

(** X9.  A block at the head of the queue that no filter suppresses and that
    is not a packet block, or is met with snap length 0, or has a
    captured length within the snap length, is delivered byte for byte
    as it is stored: the reads that follow return its [BlockLength]
    bytes ahead of the rest of the queue. *)
Theorem untruncated_block_is_streamed_verbatim :
  forall D Q s c b q irp buffer rest outs s',
    layout_ok D -> padding_ok D ->
    FsContext2 s = Some c -> reader_ok D c (Mem s) ->
    RestartState c = RestartStateNormal -> RestartRequested c <> 1 ->
    CurrentBlock c = None -> Reader c = b :: q ->
    suppressed c b = false ->
    BlockType b = OtherBlock \/ SnapLength c = 0 \/
      capturedLength D (Mem s) b <= SnapLength c ->
    Forall read_request_ok ((irp, buffer) :: rest) ->
    reads D Q s ((irp, buffer) :: rest) outs s' ->
    let data := Mem s (blockData b) in
    let stream := data ++ logical_stream D c (Mem s) q in
    Z.of_nat (length data) = BlockLength b /\
    hd [] outs = firstn (Z.to_nat (ReadLength irp)) stream /\
    exists c',
      FsContext2 s' = Some c' /\
      stream = concat outs ++ upcoming D Q c' (Mem s').
Proof.
  intros D Q s c b q irp buffer rest outs s' Hl Hp Hc Hok Hst Hfl Hcb Hq
    Hsup Hcase Hreqs Hreads data stream.
  assert (Hfetch : fetches c <> O -> initial_blocks_ok D Q (Mem s)).
  { intros N. exfalso. apply N. apply fetches_none. auto. }
  assert (Hwf : wf_block D (Mem s) b).
  { destruct Hok as (_ & _ & _ & Hwf). rewrite Hq in Hwf.
    now inversion Hwf. }
  assert (Hlen : Z.of_nat (length data) = BlockLength b) by apply Hwf.
  assert (Hrender : render D (SnapLength c) (SnapLengthPad c) (Mem s) b
                    = data).
  { unfold render.
    assert (Ht : truncates D (SnapLength c) (Mem s) b = false).
    { unfold truncates. destruct (BlockType b); [|reflexivity].
      destruct Hcase as [N | [E | E]]; [discriminate| |].
      - rewrite E. reflexivity.
      - apply andb_false_iff. right. unfold Z.gtb.
        destruct (capturedLength D (Mem s) b ?= SnapLength c) eqn:Cmp;
          try reflexivity.
        apply Z.compare_gt_iff in Cmp. lia. }
    rewrite Ht. fold data. rewrite <- Hlen. apply slice_full. }
  assert (Hav : available D Q c (Mem s) = stream).
  { unfold available, entry_queue, pending. rewrite Hst, Hcb, Hq.
    apply Z.eqb_neq in Hfl. rewrite Hfl. simpl.
    rewrite logical_stream_cons, Hsup, Hrender. reflexivity. }
  assert (Hup : upcoming D Q c (Mem s) = stream).
  { unfold upcoming, fetches, pending. rewrite Hst, Hcb, Hq.
    apply Z.eqb_neq in Hfl. rewrite Hfl. simpl.
    rewrite logical_stream_cons, Hsup, Hrender. reflexivity. }
  split; [exact Hlen|].
  inversion Hreqs as [|x l Hreq Hrest]; subst x l.
  inversion Hreads as [|irp0 buffer0 s0 r s1 rest0 outs0 s0' Hs Hr]; subst.
  destruct (serve_read_delivers D Q Hl Hp irp buffer s r s1 c
              Hreq Hc Hfetch Hok Hs)
    as (c1 & Hc1 & Hok1 & _ & _ & Hret & Hup1 & _).
  destruct (reads_deliver D Q Hl Hp s1 rest outs0 s' Hr Hrest c1
              Hc1 (fetch_ok_served D Q irp buffer s r s1 c c1 Hc Hc1 Hs
                     Hfetch) Hok1)
    as (c' & Hc' & _ & Hup2).
  split; [simpl; rewrite Hret, Hav; reflexivity|].
  exists c'. split; [exact Hc'|].
  rewrite <- Hup, Hup1, Hup2. simpl. now rewrite app_assoc.
Qed.

Lemma untruncated_block_is_streamed_verbatim_witness :
  let D := example_declarations in
  let Q := example_queue_manager in
  let b := example_other_block in
  let q := [example_packet_block] in
  let s := example_machine RestartStateNormal 0 (b :: q) in
  let c := example_context RestartStateNormal 0 (b :: q) in
  let irp := read_irp 3 in
  let done := read_result D Q irp (zeros 3) s in
  let outs := [returned (fst done) (snd done)] in
  let s' := snd done in
  let data := Mem s (blockData b) in
  let stream := data ++ logical_stream D c (Mem s) q in
  Z.of_nat (length data) = BlockLength b /\
  hd [] outs = firstn (Z.to_nat (ReadLength irp)) stream /\
  exists c',
    FsContext2 s' = Some c' /\
    stream = concat outs ++ upcoming D Q c' (Mem s').
Proof.
  intros D Q b q s c irp done outs s'.
  apply (untruncated_block_is_streamed_verbatim
           D Q s c b q irp (zeros 3) [] outs s').
  - exact example_layout_ok.
  - exact example_padding_ok.
  - reflexivity.
  - apply example_reader_ready.
    apply Forall_cons; [exact example_other_block_wf|].
    apply Forall_cons; [exact example_packet_block_wf | apply Forall_nil].
  - reflexivity.
  - discriminate.
  - reflexivity.
  - reflexivity.
  - reflexivity.
  - left. reflexivity.
  - apply Forall_cons; [by_evaluation | apply Forall_nil].
  - apply (reads_cons D Q irp (zeros 3) s (fst done) (snd done) [] []
             (snd done)); [|apply reads_nil].
    apply serve_read with (fuel := read_fuel Q s).
    vm_compute. reflexivity.
Defined.

(** * Reads of length zero *)

(** X10.  A read of length zero on an open reader.  Without a system
    buffer it is refused like any read, with [STATUS_INVALID_PARAMETER],
    and changes nothing (lines 278-281).  With a system buffer it
    succeeds with no byte: it dequeues and releases nothing, leaves the
    held block, the cursor, the settings, a pending restart request and
    the request buffer as they are, but it does run the restart switch:
    in state SendEof it uses up the boundary read, in state Init it
    fetches the initial blocks and moves to Normal. *)
Theorem zero_length_read :
  forall D Q irp buffer s r s' c,
    ReadLength irp = 0 ->
    FsContext2 s = Some c ->
    serve D Q (ReadRequest irp buffer) s r s' ->
    (HasSystemBuffer irp = false ->
     r = CompleteIrp STATUS_INVALID_PARAMETER 0 /\
     s' = with_buffer s buffer) /\
    (HasSystemBuffer irp = true ->
     r = CompleteIrp STATUS_SUCCESS 0 /\
     Mem s' = Mem (with_buffer s buffer) /\
     Trace s'
     = Trace s ++ match RestartState c with
                  | RestartStateInit => [EvQmGetInitialBlocks]
                  | _ => []
                  end /\
     exists c',
       FsContext2 s' = Some c' /\
       RestartState c' = state_after_switch (RestartState c) /\
       Reader c' = entry_queue Q c /\
       RestartRequested c' = RestartRequested c /\
       CurrentBlock c' = CurrentBlock c /\
       CurrentBlockOffset c' = CurrentBlockOffset c /\
       same_settings c c').
Proof.
  intros D Q irp buffer s r s' c Hlen Hc Hs.
  inversion Hs as [fuel irp0 buffer0 s0 r0 s0' Hd|]; subst.
  apply DispatchRead_inv in Hd.
  destruct Hd as [(-> & -> & [N | N]) | (Hbuf & c0 & Hc0 & Hd)];
    try (simpl in N; congruence).
  { split; [auto | congruence]. }
  split; [congruence | intros _].
  simpl in Hc0. rewrite Hc in Hc0. injection Hc0 as <-.
  destruct Hd as [(Est & -> & ->) | (c1 & tr & ls & Hchk & Hloop & -> & ->)].
  - rewrite Est. simpl. rewrite app_nil_r.
    split; [reflexivity|]. split; [reflexivity|]. split; [reflexivity|].
    eexists. split; [reflexivity|]. simpl.
    unfold entry_queue, same_settings. rewrite Est. auto 10.
  - assert (Els : ls = {| context := c1; mem := Mem (with_buffer s buffer);
                          trace := tr; blockNode := CurrentBlock c1;
                          blockOffset := CurrentBlockOffset c1;
                          readOffset := 0 |}).
    { rewrite Hlen in Hloop.
      destruct fuel; simpl in Hloop; injection Hloop as <-; reflexivity. }
    subst ls. simpl.
    apply check_restart_state_inr in Hchk.
    destruct Hchk as [(Est & -> & ->) | (Est & -> & ->)]; rewrite Est; simpl.
    + split; [reflexivity|]. split; [reflexivity|]. split; [reflexivity|].
      eexists. split; [reflexivity|]. simpl.
      unfold entry_queue, same_settings. rewrite Est. auto 10.
    + rewrite app_nil_r.
      split; [reflexivity|]. split; [reflexivity|]. split; [reflexivity|].
      eexists. split; [reflexivity|]. simpl.
      unfold entry_queue, same_settings. rewrite Est. auto 10.
Qed.

Lemma zero_length_read_witness :
  let D := example_declarations in
  let Q := example_restart_manager in
  let c := set_RestartState RestartStateInit example_held_context in
  let s := machine_of c example_memory in
  let irp := read_irp 0 in
  let done := read_result D Q irp [] s in
  (HasSystemBuffer irp = false ->
   fst done = CompleteIrp STATUS_INVALID_PARAMETER 0 /\
   snd done = with_buffer s []) /\
  (HasSystemBuffer irp = true ->
   fst done = CompleteIrp STATUS_SUCCESS 0 /\
   Mem (snd done) = Mem (with_buffer s []) /\
   Trace (snd done)
   = Trace s ++ match RestartState c with
                | RestartStateInit => [EvQmGetInitialBlocks]
                | _ => []
                end /\
   exists c',
     FsContext2 (snd done) = Some c' /\
     RestartState c' = state_after_switch (RestartState c) /\
     Reader c' = entry_queue Q c /\
     RestartRequested c' = RestartRequested c /\
     CurrentBlock c' = CurrentBlock c /\
     CurrentBlockOffset c' = CurrentBlockOffset c /\
     same_settings c c').
Proof.
  intros D Q c s irp done.
  apply (zero_length_read D Q irp [] s (fst done) (snd done) c).
  - reflexivity.
  - reflexivity.
  - apply serve_read with (fuel := read_fuel Q s). vm_compute. reflexivity.
Defined.

(** * What a read leaves alone *)

(** X11.  A read never changes the snap length, its padding or the filter
    arrays, whatever it delivers. *)
Theorem read_keeps_settings :
  forall D Q irp buffer s r s' c,
    FsContext2 s = Some c ->
    serve D Q (ReadRequest irp buffer) s r s' ->
    exists c', FsContext2 s' = Some c' /\ same_settings c c'.
Proof.
  intros D Q irp buffer s r s' c Hc Hs.
  inversion Hs as [fuel irp0 buffer0 s0 r0 s0' Hd|]; subst.
  destruct (DispatchRead_settings D Q fuel irp (with_buffer s buffer) r s' c
              Hd Hc) as (c' & Hc' & Hset & _).
  exists c'. auto.
Qed.

Lemma read_keeps_settings_witness :
  let D := example_declarations in
  let Q := example_queue_manager in
  let c := set_FilteredProcessIds (Some [1; 7])
             (example_context RestartStateNormal 0
                [example_packet_block; example_other_block]) in
  let s := machine_of c example_memory in
  let done := read_result D Q (read_irp 16) (zeros 16) s in
  exists c', FsContext2 (snd done) = Some c' /\ same_settings c c'.
Proof.
  intros D Q c s done.
  apply (read_keeps_settings D Q (read_irp 16) (zeros 16) s (fst done)
           (snd done) c).
  - reflexivity.
  - apply serve_read with (fuel := read_fuel Q s). vm_compute. reflexivity.
Defined.

(** * Opening a reader *)

Ltac create_case :=
  repeat split; intros;
  repeat match goal with H : _ /\ _ |- _ => destruct H end;
  try discriminate; try contradiction; try reflexivity; try congruence.

(** X12.  [DispatchCreate] succeeds exactly when the caller is the current
    thread, no file name is given, the device has an extension, the
    lookaside list has memory and the queue manager registers the reader.
    The first failing check decides the status.  On failure the file
    object gets no context and a context that was allocated is freed; on
    success the file object gets a zeroed context with the registered
    queue, and nothing is freed. *)
Theorem DispatchCreate_all_or_nothing :
  forall D zero request answers s r s' calls,
    DispatchCreate D zero request answers s = (r, s', calls) ->
    (Ntdef.NT_SUCCESS (Status r) = true <->
     CallerIsCurrentThread request = true /\
     FileNameLength request = 0 /\
     HasDeviceExtension request = true /\
     LookasideAvailable answers = true /\
     Ntdef.NT_SUCCESS (RegisterStatus answers) = true) /\
    (CallerIsCurrentThread request = false ->
     Status r = STATUS_ACCESS_DENIED) /\
    (CallerIsCurrentThread request = true ->
     FileNameLength request <> 0 -> Status r = STATUS_NO_SUCH_FILE) /\
    (Ntdef.NT_SUCCESS (Status r) = false ->
     s' = s /\
     count_calls is_lookaside_allocation calls
     = count_calls is_lookaside_free calls /\
     count_calls is_registration calls = O) /\
    (Ntdef.NT_SUCCESS (Status r) = true ->
     FsContext2 s' = Some (fresh_context zero (RegisteredReader answers)) /\
     Mem s' = zeroed_scratch D (Mem s) /\
     Trace s' = Trace s /\
     calls = [CallExAllocateFromLookasideListEx true;
              CallQmRegisterReader (RegisterStatus answers)]).
Proof.
  intros D zero request answers s r s' calls. unfold DispatchCreate.
  destruct (CallerIsCurrentThread request); simpl.
  2:{ intros H. injection H as <- <- <-. simpl. create_case. }
  destruct (Z.eqb_spec (FileNameLength request) 0) as [E|E]; simpl.
  2:{ intros H. injection H as <- <- <-. simpl. create_case. }
  destruct (HasDeviceExtension request); simpl.
  2:{ intros H. injection H as <- <- <-. simpl. create_case. }
  destruct (LookasideAvailable answers); simpl.
  2:{ intros H. injection H as <- <- <-. simpl. create_case. }
  destruct (Ntdef.NT_SUCCESS (RegisterStatus answers)) eqn:Es; simpl;
    intros H; injection H as <- <- <-; simpl; rewrite ?Es; create_case.
  unfold count_calls. simpl. rewrite Es. reflexivity.
Qed.

Lemma DispatchCreate_all_or_nothing_witness :
  let D := example_declarations in
  let request := {| CallerIsCurrentThread := true; FileNameLength := 0;
                    HasDeviceExtension := true |} in
  let answers := {| LookasideAvailable := true;
                    RegisterStatus := STATUS_INSUFFICIENT_RESOURCES;
                    RegisteredReader := [] |} in
  let s := {| FsContext2 := None; Mem := example_memory; Trace := [];
              PoolAvailable := true |} in
  let r := CompleteIrp STATUS_INSUFFICIENT_RESOURCES 0 in
  let calls := [CallExAllocateFromLookasideListEx true;
                CallQmRegisterReader STATUS_INSUFFICIENT_RESOURCES;
                CallExFreeToLookasideListEx] in
  (Ntdef.NT_SUCCESS (Status r) = true <->
   CallerIsCurrentThread request = true /\
   FileNameLength request = 0 /\
   HasDeviceExtension request = true /\
   LookasideAvailable answers = true /\
   Ntdef.NT_SUCCESS (RegisterStatus answers) = true) /\
  (CallerIsCurrentThread request = false ->
   Status r = STATUS_ACCESS_DENIED) /\
  (CallerIsCurrentThread request = true ->
   FileNameLength request <> 0 -> Status r = STATUS_NO_SUCH_FILE) /\
  (Ntdef.NT_SUCCESS (Status r) = false ->
   s = s /\
   count_calls is_lookaside_allocation calls
   = count_calls is_lookaside_free calls /\
   count_calls is_registration calls = O) /\
  (Ntdef.NT_SUCCESS (Status r) = true ->
   FsContext2 s
   = Some (fresh_context RestartStateNormal (RegisteredReader answers)) /\
   Mem s = zeroed_scratch D (Mem s) /\
   Trace s = Trace s /\
   calls = [CallExAllocateFromLookasideListEx true;
            CallQmRegisterReader (RegisterStatus answers)]).
Proof.
  intros D request answers s r calls.
  apply (DispatchCreate_all_or_nothing D RestartStateNormal request answers
           s r s calls).
  reflexivity.
Defined.

Lemma load_u32_zeros : forall n off,
  0 <= off -> off + 4 <= n -> load_u32 (zeros n) off = 0.
Proof.
  intros n off H1 H2. unfold load_u32.
  rewrite slice_zeros by lia. reflexivity.
Qed.

(** X13.  A reader that [DispatchCreate] has opened is well formed as soon as
    the queue the queue manager registered holds well-formed blocks:
    every guarantee of the read and control paths applies from its first
    request on. *)
Theorem created_reader_is_ready :
  forall D zero request answers s r s' calls,
    layout_ok D ->
    Forall (wf_block D (Mem s)) (RegisteredReader answers) ->
    DispatchCreate D zero request answers s = (r, s', calls) ->
    Ntdef.NT_SUCCESS (Status r) = true ->
    exists c,
      FsContext2 s' = Some c /\ reader_ready D c (Mem s') /\
      RestartRequested c = 0 /\ CurrentBlock c = None /\
      SnapLength c = 0 /\
      FilteredProcessIds c = None /\ FilteredConnectionIds c = None /\
      Reader c = RegisteredReader answers.
Proof.
  intros D zero request answers s r s' calls Hl Hq. unfold DispatchCreate.
  destruct (CallerIsCurrentThread request); simpl;
    [|intros H; injection H as <- _ _; discriminate].
  destruct (FileNameLength request =? 0); simpl;
    [|intros H; injection H as <- _ _; discriminate].
  destruct (HasDeviceExtension request); simpl;
    [|intros H; injection H as <- _ _; discriminate].
  destruct (LookasideAvailable answers); simpl;
    [|intros H; injection H as <- _ _; discriminate].
  destruct (Ntdef.NT_SUCCESS (RegisterStatus answers)) eqn:Es; simpl;
    intros H; injection H as <- <- _; simpl; [|congruence].
  intros _. eexists. split; [reflexivity|].
  split; [|simpl; auto 10].
  destruct Hl as (L1 & L2 & L3 & L4 & L5 & L6 & L7 & L8).
  unfold is_u32 in L1, L2.
  split; [split; [|split; [|split]]|].
  - split; simpl; [apply is_u32_0 | intros N; contradiction].
  - unfold scratch_ok, zeroed_scratch.
    rewrite mem_set_same, mem_set_other by discriminate.
    rewrite mem_set_same, !zeros_length. lia.
  - exact I.
  - simpl. eapply Forall_impl; [|exact Hq].
    intros b. apply wf_block_storage.
    unfold zeroed_scratch, blockData.
    destruct (Buffer b); rewrite !mem_set_other by discriminate; reflexivity.
  - unfold fields_typed. simpl. auto using is_u32_0.
Qed.

Lemma created_reader_is_ready_witness :
  let D := example_declarations in
  let request := {| CallerIsCurrentThread := true; FileNameLength := 0;
                    HasDeviceExtension := true |} in
  let answers := {| LookasideAvailable := true;
                    RegisterStatus := STATUS_SUCCESS;
                    RegisteredReader := [example_other_block] |} in
  let s := {| FsContext2 := None; Mem := example_memory; Trace := [];
              PoolAvailable := true |} in
  let s' := snd (fst (DispatchCreate D RestartStateInit request answers s)) in
  exists c,
    FsContext2 s' = Some c /\ reader_ready D c (Mem s') /\
    RestartRequested c = 0 /\ CurrentBlock c = None /\
    SnapLength c = 0 /\
    FilteredProcessIds c = None /\ FilteredConnectionIds c = None /\
    Reader c = RegisteredReader answers.
Proof.
  intros D request answers s s'.
  apply (created_reader_is_ready D RestartStateInit request answers s
           (CompleteIrp STATUS_SUCCESS 0) s'
           [CallExAllocateFromLookasideListEx true;
            CallQmRegisterReader STATUS_SUCCESS]).
  - exact example_layout_ok.
  - apply Forall_cons; [exact example_other_block_wf | apply Forall_nil].
  - reflexivity.
  - reflexivity.
Defined.

(** * The lifetime of a reader *)

Lemma installed_lists_app : forall a b,
  installed_lists (a ++ b) = installed_lists a ++ installed_lists b.
Proof. intros. apply flat_map_app. Qed.

Lemma freed_lists_app : forall a b,
  freed_lists (a ++ b) = freed_lists a ++ freed_lists b.
Proof. intros. apply flat_map_app. Qed.

Lemma reader_events_app : forall a b,
  reader_events (a ++ b) = reader_events a ++ reader_events b.
Proof. intros. apply flat_map_app. Qed.

Lemma reader_events_map : forall tr,
  reader_events (map CallOfReader tr) = tr.
Proof.
  induction tr as [|e tr IH]; simpl; [reflexivity|]. now rewrite IH.
Qed.

Lemma count_calls_app : forall kind a b,
  count_calls kind (a ++ b) = (count_calls kind a + count_calls kind b)%nat.
Proof.
  intros. unfold count_calls. now rewrite filter_app, length_app.
Qed.

Lemma count_calls_map : forall kind tr,
  (forall e, kind (CallOfReader e) = false) ->
  count_calls kind (map CallOfReader tr) = O.
Proof.
  intros kind tr H. unfold count_calls.
  induction tr as [|e tr IH]; simpl; [reflexivity|]. now rewrite H.
Qed.

Lemma read_calls_hold_no_list : forall more,
  Forall (fun e => read_call e = true) more ->
  installed_lists more = [] /\ freed_lists more = [].
Proof.
  induction 1 as [|e more He _ (I1 & I2)]; simpl; [auto|].
  rewrite I1, I2. destruct e; try discriminate; auto.
Qed.

(** One step of a reader that keeps the accounts. *)
Lemma accounted_step : forall s s' c c' more,
  accounted s ->
  FsContext2 s = Some c -> FsContext2 s' = Some c' ->
  Trace s' = Trace s ++ more ->
  held_block (CurrentBlock c) ++ dequeued_blocks more
  = released_blocks more ++ held_block (CurrentBlock c') ->
  (forall ids,
     (count_occ (list_eq_dec Z.eq_dec) (installed_lists more) ids
      + count_occ (list_eq_dec Z.eq_dec) (owned_lists c) ids
      = count_occ (list_eq_dec Z.eq_dec) (freed_lists more) ids
        + count_occ (list_eq_dec Z.eq_dec) (owned_lists c') ids)%nat) ->
  accounted s'.
Proof.
  intros s s' c c' more (c0 & Hc0 & Hb & Hl) Hc Hc' Htr Hblocks Hlists.
  rewrite Hc in Hc0. injection Hc0 as <-.
  exists c'. split; [exact Hc'|]. rewrite Htr. split.
  - rewrite dequeued_app, released_app, Hb, <- !app_assoc.
    now rewrite Hblocks.
  - intros ids. rewrite installed_lists_app, freed_lists_app.
    rewrite !count_occ_app. specialize (Hl ids). specialize (Hlists ids).
    lia.
Qed.

Lemma owned_lists_set : forall ty ids c x,
  (count_occ (list_eq_dec Z.eq_dec) (id_list ids) x
   + count_occ (list_eq_dec Z.eq_dec) (owned_lists c) x
   = count_occ (list_eq_dec Z.eq_dec) (id_list (id_list_target ty c)) x
     + count_occ (list_eq_dec Z.eq_dec)
         (owned_lists (set_id_list_target ty ids c)) x)%nat.
Proof.
  intros ty ids c x. unfold owned_lists.
  destruct ty; simpl; rewrite !count_occ_app; lia.
Qed.

Lemma SetIdList_accounts : forall c ty buffer bufferLen pool tr c1 tr1,
  SetIdList c ty buffer bufferLen pool tr = Done (c1, tr1) ->
  exists ids more,
    c1 = set_id_list_target ty ids c /\ tr1 = tr ++ more /\
    dequeued_blocks more = [] /\ released_blocks more = [] /\
    installed_lists more = id_list ids /\
    freed_lists more = id_list (id_list_target ty c).
Proof.
  intros c ty buffer bufferLen pool tr c1 tr1. unfold SetIdList.
  destruct (negb _).
  - destruct pool; [|discriminate].
    destruct buffer as [newIds|]; [|discriminate]. simpl.
    destruct (id_list_target ty c) eqn:E; intros H; injection H as <- <-;
      rewrite <- ?app_assoc; do 2 eexists;
      (split; [reflexivity|]); (split; [reflexivity|]); simpl; auto.
  - simpl.
    destruct (id_list_target ty c) eqn:E; intros H; injection H as <- <-;
      rewrite <- ?app_assoc; do 2 eexists;
      (split; [reflexivity|]); (split; [reflexivity|]); simpl; auto.
Qed.

Section Lifetime.

Variable D : Declarations.
Variable Q : QueueManager.

Lemma accounted_quiet : forall s s' c c' more,
  accounted s ->
  FsContext2 s = Some c -> FsContext2 s' = Some c' ->
  Trace s' = Trace s ++ more ->
  CurrentBlock c' = CurrentBlock c ->
  FilteredConnectionIds c' = FilteredConnectionIds c ->
  FilteredProcessIds c' = FilteredProcessIds c ->
  dequeued_blocks more = [] -> released_blocks more = [] ->
  installed_lists more = [] -> freed_lists more = [] ->
  accounted s'.
Proof.
  intros s s' c c' more Ha Hc Hc' Htr E1 E2 E3 M1 M2 M3 M4.
  apply (accounted_step s s' c c' more Ha Hc Hc' Htr).
  - rewrite M1, M2, E1, app_nil_r. reflexivity.
  - intros ids. unfold owned_lists. rewrite M3, M4, E2, E3. reflexivity.
Qed.

Lemma serve_accounted : forall req s r s',
  serve D Q req s r s' -> accounted s -> accounted s'.
Proof.
  intros req s r s' Hs Ha.
  pose proof Ha as (c & Hc & _).
  inversion Hs as [fuel irp buffer s0 r0 s0' Hd | irp buffer s0 r0 s0' Hd];
    subst.
  - destruct (serve_read_blocks D Q irp buffer s r s' c Hc Hs)
      as (c' & more & Hc' & Htr & Hb & Hcalls & _).
    destruct (read_calls_hold_no_list more Hcalls) as (I1 & I2).
    destruct (DispatchRead_settings D Q fuel irp (with_buffer s buffer) r s' c
                Hd Hc) as (c2 & Hc2 & (_ & _ & S3 & S4) & _).
    rewrite Hc' in Hc2. injection Hc2 as <-.
    apply (accounted_step s s' c c' more Ha Hc Hc' Htr Hb).
    intros ids. unfold owned_lists. rewrite I1, I2, S3, S4. reflexivity.
  - set (s1 := with_buffer s buffer) in *.
    assert (Hc1 : FsContext2 s1 = Some c) by exact Hc.
    assert (Ha1 : accounted s1) by exact Ha.
    assert (Hlog : forall s2 c' e,
              FsContext2 s2 = Some c' -> Trace s2 = Trace s1 ++ [e] ->
              CurrentBlock c' = CurrentBlock c ->
              FilteredConnectionIds c' = FilteredConnectionIds c ->
              FilteredProcessIds c' = FilteredProcessIds c ->
              dequeued_by e = [] -> released_by e = [] ->
              installed_list e = [] -> freed_list e = [] ->
              accounted s2).
    { intros s2 c' e Hc2 Ht2 E1 E2 E3 M1 M2 M3 M4.
      apply (accounted_quiet s1 s2 c c' [e] Ha1 Hc1 Hc2 Ht2 E1 E2 E3);
        simpl; rewrite ?M1, ?M2, ?M3, ?M4; reflexivity. }
    assert (Hsame : forall s2 c',
              FsContext2 s2 = Some c' -> Trace s2 = Trace s1 ->
              CurrentBlock c' = CurrentBlock c ->
              FilteredConnectionIds c' = FilteredConnectionIds c ->
              FilteredProcessIds c' = FilteredProcessIds c ->
              accounted s2).
    { intros s2 c' Hc2 Ht2 E1 E2 E3.
      apply (accounted_quiet s1 s2 c c' [] Ha1 Hc1 Hc2); auto.
      now rewrite app_nil_r. }
    revert Hd.
    apply (DispatchDeviceControl_cases D Q irp s1 c
             (fun x => accounted (snd x)) Hc1); simpl.
    + intros _. exact Ha1.
    + intros ty c1 tr1 E.
      destruct (SetIdList_accounts _ _ _ _ _ _ _ _ E)
        as (ids & more & -> & -> & M1 & M2 & M3 & M4).
      apply (accounted_step s1
               (with_trace (with_context s1 (set_id_list_target ty ids c))
                  (Trace s1 ++ more))
               c (set_id_list_target ty ids c) more
               Ha1 Hc1 eq_refl eq_refl).
      * rewrite M1, M2, app_nil_r.
        destruct ty; reflexivity.
      * intros x. rewrite M3, M4. apply owned_lists_set.
    + eapply Hsame; reflexivity.
    + intros buf _ _. eapply Hlog; reflexivity.
    + intros _. eapply Hsame; [exact Hc1 | reflexivity ..].
    + intros h. eapply Hlog; [exact Hc1 | reflexivity ..].
    + eapply Hlog; [exact Hc1 | reflexivity ..].
    + intros _. eapply Hlog; [exact Hc1 | reflexivity ..].
Qed.

Lemma run_accounted : forall s log s',
  run D Q s log s' -> accounted s -> accounted s'.
Proof.
  induction 1 as [s | blocks s log s' _ IH | req r s s1 log s' Hs _ IH];
    intros Ha.
  - exact Ha.
  - apply IH. unfold enqueue.
    destruct Ha as (c & Hc & Hb & Hl). rewrite Hc.
    exists (set_Reader (Reader c ++ blocks) c). simpl. auto.
  - apply IH. eapply serve_accounted; eassumption.
Qed.

End Lifetime.

Lemma DispatchClose_open : forall s c,
  FsContext2 s = Some c ->
  DispatchClose s
  = (CompleteIrp STATUS_SUCCESS 0,
     [CallQmDeregisterReader]
       ++ match CurrentBlock c with
          | Some b => [CallOfReader (EvQmCleanupBlock b)]
          | None => []
          end
       ++ free_id_list (FilteredConnectionIds c)
       ++ free_id_list (FilteredProcessIds c)
       ++ [CallExFreeToLookasideListEx]).
Proof. intros s c H. unfold DispatchClose. now rewrite H. Qed.

Lemma close_calls : forall c,
  let calls := [CallQmDeregisterReader]
                 ++ match CurrentBlock c with
                    | Some b => [CallOfReader (EvQmCleanupBlock b)]
                    | None => []
                    end
                 ++ free_id_list (FilteredConnectionIds c)
                 ++ free_id_list (FilteredProcessIds c)
                 ++ [CallExFreeToLookasideListEx] in
  dequeued_blocks (reader_events calls) = [] /\
  released_blocks (reader_events calls) = held_block (CurrentBlock c) /\
  installed_lists (reader_events calls) = [] /\
  freed_lists (reader_events calls) = owned_lists c /\
  count_calls is_lookaside_allocation calls = O /\
  count_calls is_lookaside_free calls = 1%nat /\
  count_calls is_registration calls = O /\
  count_calls is_deregistration calls = 1%nat.
Proof.
  intros c. unfold owned_lists.
  destruct (CurrentBlock c), (FilteredConnectionIds c),
    (FilteredProcessIds c); repeat split; reflexivity.
Qed.

(** X14.  From [DispatchCreate] to [DispatchClose], whatever reads and control
    requests are served and whatever blocks arrive in between: the reader
    is registered once and deregistered once, its context is allocated
    once and freed once, every block it dequeued is released exactly
    once, in dequeue order, and the filter arrays freed are the filter
    arrays installed, each once.  Nothing a reader takes outlives it and
    nothing is given back twice. *)
Theorem reader_lifetime_is_balanced :
  forall D Q zero request answers s0 r0 s1 calls0 log s2 r2 calls2,
    Trace s0 = [] ->
    DispatchCreate D zero request answers s0 = (r0, s1, calls0) ->
    Ntdef.NT_SUCCESS (Status r0) = true ->
    run D Q s1 log s2 ->
    DispatchClose s2 = (r2, calls2) ->
    let calls := calls0 ++ map CallOfReader (Trace s2) ++ calls2 in
    Status r2 = STATUS_SUCCESS /\
    released_blocks (reader_events calls) = dequeued_blocks (reader_events calls) /\
    Permutation (freed_lists (reader_events calls))
      (installed_lists (reader_events calls)) /\
    count_calls is_lookaside_allocation calls = 1%nat /\
    count_calls is_lookaside_free calls = 1%nat /\
    count_calls is_registration calls = 1%nat /\
    count_calls is_deregistration calls = 1%nat.
Proof.
  intros D Q zero request answers s0 r0 s1 calls0 log s2 r2 calls2
    Htr0 Hcreate Hok Hrun Hclose calls.
  assert (Hopen : calls0 = [CallExAllocateFromLookasideListEx true;
                            CallQmRegisterReader (Status r0)] /\
                  accounted s1).
  { revert Hcreate Hok. unfold DispatchCreate.
    destruct (CallerIsCurrentThread request); simpl;
      [|intros H; injection H as <- _ _; discriminate].
    destruct (FileNameLength request =? 0); simpl;
      [|intros H; injection H as <- _ _; discriminate].
    destruct (HasDeviceExtension request); simpl;
      [|intros H; injection H as <- _ _; discriminate].
    destruct (LookasideAvailable answers); simpl;
      [|intros H; injection H as <- _ _; discriminate].
    destruct (Ntdef.NT_SUCCESS (RegisterStatus answers)) eqn:Es; simpl;
      intros H; injection H as <- <- <-; simpl; [|congruence].
    intros _. split; [reflexivity|].
    eexists. split; [reflexivity|]. simpl. rewrite Htr0. simpl. auto. }
  destruct Hopen as (-> & Ha1).
  destruct (run_accounted D Q s1 log s2 Hrun Ha1) as (c & Hc & Hb & Hl).
  destruct (close_calls c) as (K1 & K2 & K3 & K4 & K5 & K6 & K7 & K8).
  cbv zeta in K1, K2, K3, K4, K5, K6, K7, K8.
  pose proof (DispatchClose_open s2 c Hc) as Hopen2.
  rewrite Hclose in Hopen2.
  set (closing := [CallQmDeregisterReader] ++ _) in *.
  assert (E2 : r2 = CompleteIrp STATUS_SUCCESS 0 /\ calls2 = closing)
    by (split; congruence).
  destruct E2 as [-> ->].
  assert (Hev : reader_events calls = Trace s2 ++ reader_events closing).
  { subst calls. rewrite !reader_events_app, reader_events_map.
    reflexivity. }
  split; [reflexivity|]. rewrite Hev.
  split; [|split].
  - rewrite released_app, dequeued_app, K1, K2, app_nil_r. now rewrite Hb.
  - apply (Permutation_count_occ (list_eq_dec Z.eq_dec)). intros ids.
    rewrite freed_lists_app, installed_lists_app, K3, K4, app_nil_r.
    rewrite count_occ_app. symmetry. apply Hl.
  - subst calls. rewrite !count_calls_app, K5, K6, K7, K8.
    rewrite !count_calls_map by reflexivity.
    unfold count_calls. simpl. rewrite Hok. auto.
Qed.

Lemma reader_lifetime_is_balanced_witness :
  let D := example_declarations in
  let Q := example_queue_manager in
  let request := {| CallerIsCurrentThread := true; FileNameLength := 0;
                    HasDeviceExtension := true |} in
  let answers := {| LookasideAvailable := true;
                    RegisterStatus := STATUS_SUCCESS;
                    RegisteredReader := [example_other_block] |} in
  let s0 := {| FsContext2 := None; Mem := example_memory; Trace := [];
               PoolAvailable := true |} in
  let opened := DispatchCreate D RestartStateNormal request answers s0 in
  let s1 := snd (fst opened) in
  let filter := control_irp (IOCTL_KPH_FILTER_PROCESSES D) 4 0 true in
  let filtered := control_result D Q filter (bytes_of_u32 7) s1 in
  let done := read_result D Q (read_irp 2) (zeros 2) (snd filtered) in
  let s2 := snd done in
  let calls := snd opened ++ map CallOfReader (Trace s2)
                 ++ snd (DispatchClose s2) in
  Status (fst (DispatchClose s2)) = STATUS_SUCCESS /\
  released_blocks (reader_events calls) = dequeued_blocks (reader_events calls) /\
  Permutation (freed_lists (reader_events calls))
    (installed_lists (reader_events calls)) /\
  count_calls is_lookaside_allocation calls = 1%nat /\
  count_calls is_lookaside_free calls = 1%nat /\
  count_calls is_registration calls = 1%nat /\
  count_calls is_deregistration calls = 1%nat.
Proof.
  intros D Q request answers s0 opened s1 filter filtered done s2.
  apply (reader_lifetime_is_balanced D Q RestartStateNormal request answers
           s0 (fst (fst opened)) s1 (snd opened)
           [(ControlRequest filter (bytes_of_u32 7), fst filtered);
            (ReadRequest (read_irp 2) (zeros 2), fst done)]
           s2 (fst (DispatchClose s2)) (snd (DispatchClose s2))).
  - reflexivity.
  - reflexivity.
  - reflexivity.
  - apply run_request with (s1 := snd filtered).
    + apply serve_control. vm_compute. reflexivity.
    + apply run_request with (s1 := s2); [|apply run_nil].
      apply serve_read with (fuel := read_fuel Q (snd filtered)).
      vm_compute. reflexivity.
  - vm_compute. reflexivity.
Defined.

(** * Setting up and tearing down the interface *)

(** X15.  [DeinitializeReadInterface] always succeeds, and it deletes the
    lookaside list exactly when [InitializeReadInterface] created it: an
    initialization that failed leaves nothing to delete, and returns the
    status of the failed call. *)
Theorem lookaside_list_is_deleted_iff_created :
  forall status returned initialized calls returned' calls',
    InitializeReadInterface status false = (returned, initialized, calls) ->
    DeinitializeReadInterface initialized = (returned', calls') ->
    returned' = STATUS_SUCCESS /\
    calls = [CallExInitializeLookasideListEx status] /\
    (Ntdef.NT_SUCCESS status = true ->
     returned = STATUS_SUCCESS /\ calls' = [CallExDeleteLookasideListEx]) /\
    (Ntdef.NT_SUCCESS status = false -> returned = status /\ calls' = []).
Proof.
  intros status returned initialized calls returned' calls'.
  unfold InitializeReadInterface, DeinitializeReadInterface.
  destruct (Ntdef.NT_SUCCESS status); simpl;
    intros H1 H2; injection H1 as <- <- <-; injection H2 as <- <-;
    repeat split; intros; try discriminate; reflexivity.
Qed.

Lemma lookaside_list_is_deleted_iff_created_witness :
  let status := STATUS_INSUFFICIENT_RESOURCES in
  STATUS_SUCCESS = STATUS_SUCCESS /\
  [CallExInitializeLookasideListEx status]
  = [CallExInitializeLookasideListEx status] /\
  (Ntdef.NT_SUCCESS status = true ->
   status = STATUS_SUCCESS /\ [] = [CallExDeleteLookasideListEx]) /\
  (Ntdef.NT_SUCCESS status = false -> status = status /\ @nil lifecycle_call = []).
Proof.
  intros status.
  apply (lookaside_list_is_deleted_iff_created status status false
           [CallExInitializeLookasideListEx status] STATUS_SUCCESS []);
    reflexivity.
Defined.

(** * The restart handshake *)

Section Handshake.

Variable D : Declarations.
Variable Q : QueueManager.
Hypothesis layout : layout_ok D.
Hypothesis padding : padding_ok D.

(** A loop that has room left after everything ahead of a pending
    restart takes the restart. *)
Lemma read_loop_takes_restart : forall readLength fuel s s',
  is_u32 readLength ->
  loop_ok D readLength s ->
  RestartRequested (context s) = 1 ->
  Z.of_nat (length (ahead D (held s) (mem s))) < readLength - readOffset s ->
  read_loop D fuel readLength s = Some s' ->
  RestartRequested (context s') = 0 /\
  blockNode s' = None /\
  Reader (context s') = Reader (context s) /\
  RestartState (context s')
  = (if readOffset s' =? readOffset s then
       if readOffset s =? 0 then RestartStateInit else RestartStateSendEof
     else RestartStateSendEof).
Proof.
  intros readLength fuel s s' Hlen Hok Hflag Hroom Hloop.
  destruct (read_loop_delivers D readLength Hlen layout padding fuel s s'
              Hok Hloop)
    as (_ & _ & _ & d & _ & R & Ed & Hcase).
  assert (Hd : length d = length (ahead D (held s) (mem s)))
    by (rewrite Ed, length_firstn; lia).
  assert (Hreader : Reader (context s') = Reader (context s))
    by (destruct Hcase as [(_ & _ & _ & K) | (_ & _ & _ & _ & K & _)]; auto).
  destruct (read_loop_inv D _ _ _ _ Hloop) as (s1 & Hc & [[Hfull ->] | [Hlt Hb]]).
  { lia. }
  apply continues_quiet in Hc. destruct Hc as (_ & Hfl & _ & _).
  destruct Hok as (_ & Hro & _).
  apply loop_body_break in Hb.
  destruct Hb as (_ & Hnone & _ & Hro1 & _ & [(F1 & F2 & F3) | (N & _)]);
    [|congruence].
  split; [exact F2|]. split; [exact Hnone|]. split; [exact Hreader|].
  rewrite F3, <- Hro1.
  destruct (Z.eqb_spec (readOffset s') (readOffset s)) as [E|E].
  - rewrite E. destruct (readOffset s =? 0); reflexivity.
  - destruct (Z.eqb_spec (readOffset s') 0) as [E0|E0]; [|reflexivity].
    exfalso. lia.
Qed.

(** A read that finds a restart pending and has room for more than the
    rest of the held block. *)
Lemma serve_read_takes_restart : forall irp buffer s r s' c,
  read_request_ok (irp, buffer) ->
  FsContext2 s = Some c -> reader_ok D c (Mem s) ->
  initial_blocks_ok D Q (Mem s) ->
  RestartState c = RestartStateNormal -> RestartRequested c = 1 ->
  Z.of_nat (length (pending D c (Mem s))) < ReadLength irp ->
  serve D Q (ReadRequest irp buffer) s r s' ->
  exists c',
    FsContext2 s' = Some c' /\ reader_ok D c' (Mem s') /\
    returned r s' = pending D c (Mem s) /\
    RestartRequested c' = 0 /\ CurrentBlock c' = None /\
    Reader c' = Reader c /\ same_settings c c' /\
    RestartState c'
    = (if Information r =? 0 then RestartStateInit
       else RestartStateSendEof).
Proof.
  intros irp buffer s r s' c Hreq Hc Hok Hi Hst Hfl Hroom Hs.
  destruct (serve_read_delivers D Q layout padding
              irp buffer s r s' c Hreq Hc (fun _ => Hi) Hok Hs)
    as (c' & Hc' & Hok' & _ & _ & Hret & _ & _).
  assert (Hav : available D Q c (Mem s) = pending D c (Mem s)).
  { unfold available. rewrite Hst, Hfl. simpl. apply app_nil_r. }
  exists c'. split; [exact Hc'|]. split; [exact Hok'|].
  split.
  { rewrite Hret, Hav. apply firstn_all2. lia. }
  destruct Hreq as (Hbuf & Hlen & Hsize). simpl in Hbuf, Hlen, Hsize.
  inversion Hs as [fuel irp0 buffer0 s0 r0 s0' Hd|]; subst.
  destruct (DispatchRead_settings D Q fuel irp (with_buffer s buffer) r s' c
              Hd Hc) as (c2 & Hc2 & Hset & _).
  rewrite Hc' in Hc2. injection Hc2 as <-.
  apply DispatchRead_inv in Hd.
  destruct Hd as [(_ & _ & [N | N]) | (_ & c0 & Hc0 & Hd)];
    try (simpl in N; congruence).
  simpl in Hc0. rewrite Hc in Hc0. injection Hc0 as <-.
  destruct Hd as [(Est & _) | (c1 & tr & ls & Hchk & Hloop & -> & ->)];
    [congruence|].
  apply check_restart_state_inr in Hchk.
  destruct Hchk as [(Est & _) | (_ & -> & ->)]; [congruence|].
  simpl in Hc'. injection Hc' as <-.
  set (s0 := {| context := c; mem := Mem (with_buffer s buffer);
                trace := Trace (with_buffer s buffer);
                blockNode := CurrentBlock c;
                blockOffset := CurrentBlockOffset c; readOffset := 0 |}) in *.
  assert (Hm : agrees (Mem s) (Mem (with_buffer s buffer)))
    by apply buffer_agrees.
  assert (Hok0 : loop_ok D (ReadLength irp) s0).
  { split; [|simpl; rewrite mem_set_same; unfold is_u32 in Hlen; lia].
    apply (reader_ok_agrees D c (Mem s)); assumption. }
  assert (Hahead : ahead D (held s0) (mem s0) = pending D c (Mem s)).
  { change (ahead D (held s0) (mem s0))
      with (ahead D c (Mem (with_buffer s buffer))).
    unfold ahead. rewrite Hfl. simpl. rewrite app_nil_r.
    apply pending_agrees. exact Hm. }
  destruct (read_loop_takes_restart (ReadLength irp) fuel s0 ls Hlen Hok0
              Hfl) as (F1 & F2 & F3 & F4); [|exact Hloop|].
  { rewrite Hahead. simpl. lia. }
  simpl in F3, F4. simpl.
  split; [exact F1|]. split; [exact F2|]. split; [exact F3|].
  split; [exact Hset|]. rewrite F4.
  destruct (readOffset ls =? 0); reflexivity.
Qed.

(** The read after a boundary read. *)
Lemma serve_read_boundary : forall irp buffer s r s' c,
  read_request_ok (irp, buffer) ->
  FsContext2 s = Some c ->
  RestartState c = RestartStateSendEof ->
  serve D Q (ReadRequest irp buffer) s r s' ->
  r = CompleteIrp STATUS_SUCCESS 0 /\
  FsContext2 s' = Some (set_RestartState RestartStateInit c) /\
  Mem s' = Mem (with_buffer s buffer) /\ Trace s' = Trace s.
Proof.
  intros irp buffer s r s' c (Hbuf & _) Hc Hst Hs. simpl in Hbuf.
  inversion Hs as [fuel irp0 buffer0 s0 r0 s0' Hd|]; subst.
  apply DispatchRead_inv in Hd.
  destruct Hd as [(_ & _ & [N | N]) | (_ & c0 & Hc0 & Hd)];
    try (simpl in N; congruence).
  simpl in Hc0. rewrite Hc in Hc0. injection Hc0 as <-.
  destruct Hd as [(_ & -> & ->) | (c1 & tr & ls & Hchk & _)].
  - auto.
  - apply check_restart_state_inr in Hchk.
    destruct Hchk as [(Est & _) | (Est & _)]; congruence.
Qed.

(** A read in state Init starts by fetching the initial blocks. *)
Lemma serve_read_init_trace : forall irp buffer s r s' c,
  HasSystemBuffer irp = true ->
  FsContext2 s = Some c ->
  RestartState c = RestartStateInit ->
  serve D Q (ReadRequest irp buffer) s r s' ->
  exists more, Trace s' = Trace s ++ EvQmGetInitialBlocks :: more.
Proof.
  intros irp buffer s r s' c Hbuf Hc Hst Hs.
  inversion Hs as [fuel irp0 buffer0 s0 r0 s0' Hd|]; subst.
  apply DispatchRead_inv in Hd.
  destruct Hd as [(_ & _ & [N | N]) | (_ & c0 & Hc0 & Hd)];
    try (simpl in N; congruence).
  simpl in Hc0. rewrite Hc in Hc0. injection Hc0 as <-.
  destruct Hd as [(Est & _) | (c1 & tr & ls & Hchk & Hloop & _ & ->)];
    [congruence|].
  apply check_restart_state_inr in Hchk.
  destruct Hchk as [(_ & _ & ->) | (Est & _)]; [|congruence].
  destruct (read_loop_trace D _ _ _ _ Hloop) as (more & Hmore).
  simpl in Hmore. exists more. simpl. rewrite Hmore, <- app_assoc.
  reflexivity.
Qed.

(** X16.  The restart handshake.  A restart is pending on a reader in normal
    streaming that holds a block with bytes left, and the initial blocks
    the queue manager puts into the queue, whatever they are, are well
    formed.  A read with room for more than the bytes left returns them
    and nothing of the queue; the read after it returns no byte, with
    success, and calls nothing; and the read after that fetches the
    initial blocks and returns the start of the stream of the queue the
    queue manager then gives, initial blocks first, under the reader's
    settings. *)
Theorem restart_handshake :
  forall irp1 buffer1 irp2 buffer2 irp3 buffer3 s c r1 s1 r2 s2 r3 s3,
    FsContext2 s = Some c -> reader_ok D c (Mem s) ->
    initial_blocks_ok D Q (Mem s) ->
    RestartState c = RestartStateNormal -> RestartRequested c = 1 ->
    pending D c (Mem s) <> [] ->
    Z.of_nat (length (pending D c (Mem s))) < ReadLength irp1 ->
    read_request_ok (irp1, buffer1) ->
    read_request_ok (irp2, buffer2) ->
    read_request_ok (irp3, buffer3) ->
    serve D Q (ReadRequest irp1 buffer1) s r1 s1 ->
    serve D Q (ReadRequest irp2 buffer2) s1 r2 s2 ->
    serve D Q (ReadRequest irp3 buffer3) s2 r3 s3 ->
    (Status r1 = STATUS_SUCCESS /\
     returned r1 s1 = pending D c (Mem s)) /\
    (r2 = CompleteIrp STATUS_SUCCESS 0 /\ Trace s2 = Trace s1) /\
    (Status r3 = STATUS_SUCCESS /\
     returned r3 s3
     = firstn (Z.to_nat (ReadLength irp3))
         (logical_stream D c (Mem s) (QmGetInitialBlocks Q (Reader c))) /\
     exists more, Trace s3 = Trace s2 ++ EvQmGetInitialBlocks :: more).
Proof.
  intros irp1 buffer1 irp2 buffer2 irp3 buffer3 s c r1 s1 r2 s2 r3 s3
    Hc Hok Hi Hst Hfl Hpend Hroom Hreq1 Hreq2 Hreq3 Hs1 Hs2 Hs3.
  assert (Hi1 : initial_blocks_ok D Q (Mem s1))
    by exact (initial_blocks_ok_served D Q _ s r1 s1 Hs1 Hi).
  assert (Hi2 : initial_blocks_ok D Q (Mem s2))
    by exact (initial_blocks_ok_served D Q _ s1 r2 s2 Hs2 Hi1).
  destruct (serve_read_delivers D Q layout padding
              irp1 buffer1 s r1 s1 c Hreq1 Hc (fun _ => Hi) Hok Hs1)
    as (c1' & Hc1' & _ & Hst1 & _ & _ & _ & Hinfo1).
  destruct (serve_read_takes_restart irp1 buffer1 s r1 s1 c Hreq1 Hc Hok Hi
              Hst Hfl Hroom Hs1)
    as (c1 & Hc1 & Hok1 & Hret1 & Hfl1 & Hcb1 & Hq1 & Hset1 & Hstate1).
  assert (Hsend : RestartState c1 = RestartStateSendEof).
  { rewrite Hstate1.
    destruct (Z.eqb_spec (Information r1) 0) as [E|E]; [|reflexivity].
    exfalso. apply Hpend. rewrite <- Hret1.
    apply length_zero_iff_nil. lia. }
  destruct (serve_read_boundary irp2 buffer2 s1 r2 s2 c1 Hreq2 Hc1 Hsend Hs2)
    as (Hr2 & Hc2 & Hm2 & Ht2).
  set (c2 := set_RestartState RestartStateInit c1) in *.
  assert (Hok2 : reader_ok D c2 (Mem s2)).
  { rewrite Hm2.
    apply (reader_ok_agrees D c2 (Mem s1)); [apply buffer_agrees|].
    exact Hok1. }
  destruct (serve_read_delivers D Q layout padding
              irp3 buffer3 s2 r3 s3 c2 Hreq3 Hc2 (fun _ => Hi2) Hok2 Hs3)
    as (c3 & Hc3 & _ & Hst3 & _ & Hret3 & _ & _).
  split; [split; [exact Hst1 | exact Hret1]|].
  split; [split; [exact Hr2 | exact Ht2]|].
  split; [exact Hst3|]. split.
  - rewrite Hret3. f_equal.
    unfold available, entry_queue, pending. simpl.
    rewrite Hcb1, Hfl1. simpl. rewrite Hq1.
    apply logical_stream_stable.
    + destruct Hset1 as (E1 & E2 & E3 & E4).
      unfold same_settings. simpl. auto.
    + intros a. rewrite Hm2. simpl.
      rewrite mem_set_other by discriminate.
      apply (serve_frame D Q _ s r1 s1 Hs1).
  - apply (serve_read_init_trace irp3 buffer3 s2 r3 s3 c2);
      [apply Hreq3 | exact Hc2 | reflexivity | exact Hs3].
Qed.

End Handshake.

Lemma restart_handshake_witness :
  let D := example_declarations in
  let Q := example_restart_manager in
  let s := machine_of example_held_context example_memory in
  let first := read_result D Q (read_irp 4) (zeros 4) s in
  let second := read_result D Q (read_irp 4) (zeros 4) (snd first) in
  let third := read_result D Q (read_irp 4) (zeros 4) (snd second) in
  (Status (fst first) = STATUS_SUCCESS /\
   returned (fst first) (snd first) = pending D example_held_context (Mem s)) /\
  (fst second = CompleteIrp STATUS_SUCCESS 0 /\
   Trace (snd second) = Trace (snd first)) /\
  (Status (fst third) = STATUS_SUCCESS /\
   returned (fst third) (snd third)
   = firstn (Z.to_nat (ReadLength (read_irp 4)))
       (logical_stream D example_held_context (Mem s)
          (QmGetInitialBlocks Q (Reader example_held_context))) /\
   exists more,
     Trace (snd third) = Trace (snd second) ++ EvQmGetInitialBlocks :: more).
Proof.
  intros D Q s first second third.
  apply (restart_handshake D Q example_layout_ok example_padding_ok
           (read_irp 4) (zeros 4) (read_irp 4) (zeros 4) (read_irp 4) (zeros 4)
           s example_held_context (fst first) (snd first) (fst second)
           (snd second) (fst third) (snd third)).
  - reflexivity.
  - split; [by_evaluation|]. split; [by_evaluation|].
    split; [by_evaluation|].
    apply Forall_cons; [exact example_other_block_wf | apply Forall_nil].
  - exact example_restart_manager_ok.
  - reflexivity.
  - reflexivity.
  - vm_compute. discriminate.
  - vm_compute. reflexivity.
  - by_evaluation.
  - by_evaluation.
  - by_evaluation.
  - apply serve_read with (fuel := read_fuel Q s). vm_compute. reflexivity.
  - apply serve_read with (fuel := read_fuel Q (snd first)).
    vm_compute. reflexivity.
  - apply serve_read with (fuel := read_fuel Q (snd second)).
    vm_compute. reflexivity.
Defined.
